(* ===== verification/_CoqProject ===== *)
-Q . S2P
Prelude.v
Conc.v
RelyGuar.v
Deps.v
Toy.v
RwLock.v
RwLockProof.v
ThreadIndex.v
World.v
Reactor.v
Background.v
Registration.v
PollEvented.v
Tcp.v
Udp.v
Uds.v
ReactorProof.v
RegistrationProof.v
Local.v
Resource.v
Demo.v
ReactorSpec.v
RegistrationSpec.v
RegistrationRace.v
BackgroundSpec.v
FirstUse.v
ShutdownSpec.v
EventLoop.v
ShutdownInv.v
ShutdownRace.v
ResourceSpec.v
SocketSpec.v
FuturesSpec.v
Lifecycle.v
OptionsSpec.v
RegistrationQueue.v
RegistrationFlaws.v
ReactorConc.v
Wakeups.v
