(* ===== verification/Prelude.v ===== *)
(** * Romio: a verification of the reactor, the registrations and the sockets

    Romio connects the asynchronous I/O of mio to Rust tasks.  A program polls a socket
    with the waker of its task; when the operation would block, the socket remembers the
    waker and reports [Pending], and the reactor, which runs on a thread of its own,
    calls the waker when the operating system reports an event for the socket.  What
    makes the crate correct is that no such call is ever lost, that events reach the
    right socket, and that sockets, registrations and reactors can be dropped while the
    others still work with them.

    ** The parts and where they are modelled

    All paths are below src/src/.  From the operating system up to the sockets:

    - reactor/sharded_rwlock.rs, the lock: RwLock.v ([RwLock]: [new], [read], [write],
      the two drops of the guards), the program that the threads run on the vector of
      shards.  RwLockProof.v proves that it implements the atomic lock of Conc.v.
    - reactor/sharded_rwlock.rs, the thread numbers ([THREAD_INDICES], [REGISTRATION],
      [thread_index]): ThreadIndex.v, with its theorems.
    - reactor/mod.rs: the data in World.v ([ReactorInner], [ScheduledIo], [Direction]),
      the operations in Reactor.v.  Module [Inner] is [impl Inner] ([add_source],
      [drop_source], [register], the [Drop] with [wake_all]), module [HandlePriv] the weak
      handles, [Handle] the public handle, [Reactor] the event loop ([turn], [process],
      [dispatch]).
    - reactor/background.rs and the global fallback of reactor/mod.rs: Background.v,
      modules [Background] ([new], [spawn], the thread's [run], [shutdown_now], the future
      [Shutdown]) and [Fallback].
    - reactor/registration.rs: Registration.v.  Module [RegInner] is [impl Inner] and
      its [Drop], module [Registration] the state machine [INIT] / [LOCKED] / [READY] with
      its stack of waiting tasks.
    - raw/poll_evented.rs: PollEvented.v.
    - tcp/, udp.rs and uds/: Tcp.v, Udp.v, Uds.v.

    The calls go downwards: a socket owns a [PollEvented], which owns a registration,
    which holds a weak handle to a reactor and the key of its slot there.  Upwards goes
    only the waker: [dispatch] finds the slot by the token of the event, adds the
    readiness bits and takes the waker out of the slot's cell.

    What the crates below do is not defined: Deps.v has a class per crate
    (parking_lot's raw lock, mio's readiness and system calls, slab, AtomicTask and
    Waker of futures, threads, the allocator) with the operations that the program calls, and classes
    with the documented laws that the proofs use; the calls on sockets (mio::net, mio_uds,
    libc) have no laws at all.  Toy.v has small instances, on which
    Demo.v builds the worlds that the witnesses evaluate.

    ** How programs and threads are modelled

    A function that touches shared state is a [prog] (Conc.v): a tree whose nodes are
    atomic actions on the store.  The same term is executed alone by [run] and
    interleaved with others by [cstep], one action at a time, so that a
    statement about interference is about the very definition that the sequential
    statements are about.  Every access to an atomic variable, every acquisition and
    release of a lock and every system call is an action of its own.  RelyGuar.v has the
    logic in which the interleaved statements are proved: an invariant, what each thread
    may do, ghost state, and [wp].

    Bounds and assumptions:
    - [usize] has 32 or 64 bits (class [UsizeWidth]), and its arithmetic wraps.
    - The loops of [register2] and of [Registration::poll_ready] retry until an exchange
      succeeds; they take [fuel], and running out of it is the fault [OutOfFuel].  A
      registered resource needs one round, so [S fuel] is enough wherever a theorem says
      so, and a theorem about these functions includes that they return.  [poll_read_ready]
      and [poll_write_ready] empty the events in a loop of their own, which ends in its
      second round.  [Background::run] is unrolled a number of times that the theorem
      states.
    - A [Box] gets an address from the allocator (class [BoxAlloc]): any word that no live
      box has, aligned to the width of a pointer, so that addresses are used again.
    - The word [HANDLE_FALLBACK] is [Zero] or [Bits h], the bits of the weak handle [h]:
      what [transmute] gives is not a number that anybody computes with, so that there is
      no encoding, and [from_usize] of [Zero] is the fault [InvalidValue].
    - A loop whose turns are used up is [suspended]: it is a thread that no state of the
      store lets move, and so differs from one that waits, for a lock or for an event.
    - Memory is sequentially consistent: [Relaxed], [Acquire], [Release] and [SeqCst] are
      one ordering here.
    - A panic is the fault [Panic] and ends its thread; unwinding, and with it poisoning
      and the drops on the way, is not modelled.  Using memory that is gone is the fault
      [UseAfterFree], which the theorems exclude where the code does.
    - [io_dispatch] of the reactor is the atomic lock that the sharded lock is proved to
      implement, instead of the vector of shards.

    ** What is proved

    - Locking (RwLockProof.v, ThreadIndex.v): any pool of clients of the sharded lock
      behaves like one of an atomic lock, is serializable, and can always be run to its end;
      threads alive at the same time have different small numbers and keep them.
    - Concurrent use (ReactorConc.v, Wakeups.v): threads register, poll, deregister and drop
      sources of one reactor while others deliver events, in any interleaving.
      ReactorConc.v has the invariant and a rule per operation; Wakeups.v concludes that no
      wakeup is lost, that the reactor stays well-formed at every moment, that nobody
      panics or blocks, and that every slot is given back but those of refused sources.
    - The reactor (ReactorSpec.v): an event reaches the source whose token it has and
      wakes exactly the tasks that wait for it; events for dropped sources are ignored,
      up to the wrap-around of the guard, which is exact: sources come and go in one slot
      until the guard repeats; the error paths; what the end of a reactor means for the
      tasks and the sources that outlive it.
    - Registrations (RegistrationSpec.v): the first registration and later ones, what
      polls do before and during it, and the release of everything on drop.
      RegistrationRace.v lets any number of threads register while a task polls;
      RegistrationQueue.v serves the queue of tasks, and follows one node from the poll that
      pushes it to the registering thread; RegistrationFlaws.v proves two defects.
    - Which reactor they use: nothing in the crate sets [CURRENT_REACTOR], so that it is
      the fallback.  FirstUse.v has the first use in a program, which makes the fallback,
      with its failures; the race of several first uses is in BackgroundSpec.v.  The other
      theorems start from a world where [try_current] finds a reactor ([current]): as
      FirstUse.v shows, a registration that makes the fallback goes on as one that
      finds it.
    - Resources (Resource.v, ResourceSpec.v): a functional specification of a registered
      resource, and that [PollEvented] implements it; from the specification, that
      [Pending] is always armed, that readiness lasts until it is cleared, that HUP is
      final, and that the two directions do not disturb each other.
    - The background thread (EventLoop.v, BackgroundSpec.v, ShutdownSpec.v, ShutdownInv.v,
      ShutdownRace.v): the event loop against a functional reference, turn by turn, with
      the order in which events are delivered; shutting it down, the future that waits for
      its end, and the race for the global fallback reactor.  ShutdownRace.v lets any
      number of threads ask for the end while the loop runs: it ends, whoever drops the
      last reference to the reactor; and a thread that drops the [Background], which asks
      and then waits for the end, comes back, and not before the reactor is gone.
      ShutdownInv.v has the invariant and a rule per operation.  The assumptions there are
      that mio keeps a wakeup that was set until it is acknowledged, and reports it
      ([wakeup_works]), and that the executor polls again when its waker was called
      ([executes]).
    - Sockets (SocketSpec.v, FuturesSpec.v, OptionsSpec.v): all datagram and accept
      operations are one specification; an executor that polls only when it was woken
      gets the result of every datagram future; the streams of
      incoming connections go on for ever; the outcomes of the credentials call.  The
      functions for addresses and options are definitions without theorems, one call
      each.  Lifecycle.v follows
      a TCP and a Unix connection from [connect] over the registration in the first poll
      and the event that wakes the task to the stream or the error, and to the slot that is
      given back.

    ReactorProof.v, RegistrationProof.v and the second half of Resource.v hold the lemmas
    that execute the operations; Local.v lets a thread that owns a part of the world reuse
    them among other threads.  The theorems are their clients.

    ** What is not modelled

    [fmt::Debug], logging and the measured time of [Reactor::poll]; the buffer of events, of
    which the model has the contents; [into_inner], which is commented out in the source.
    [futures::executor::block_on], called by the drop of [Background], is a parameter, of
    which [executes] of ShutdownInv.v states the documented behaviour. *)
From Stdlib Require Import ZArith Lia Btauto.
From stdpp Require Export base tactics functions option list gmap strings relations.
From stdpp Require Import numbers.

#[export] Set Default Goal Selector "!".
Open Scope Z_scope.

(** ** The machine word [usize] *)

(** The crate is compiled for 32-bit and for 64-bit targets; [usize] is as wide as a pointer. *)
Class UsizeWidth := {
  usize_bits : Z;
  usize_bits_cases : usize_bits = 32 \/ usize_bits = 64;
}.

Section usize.
Context `{UsizeWidth}.

Definition usize_MAX : Z := Z.ones usize_bits.

Definition is_usize (x : Z) : Prop := 0 <= x < 2 ^ usize_bits.

(** [AtomicUsize::fetch_add] wraps around. *)
Definition wrapping_add (x y : Z) : Z := (x + y) mod 2 ^ usize_bits.

(** The operator [!] of [usize]. *)
Definition unot (x : Z) : Z := Z.ldiff usize_MAX x.

Lemma usize_bits_ge : 32 <= usize_bits.
Proof. destruct usize_bits_cases as [-> | ->]; lia. Qed.

Lemma usize_bits_pos : 0 <= usize_bits.
Proof. pose proof usize_bits_ge; lia. Qed.

Lemma usize_modulus_ge : 2 ^ 32 <= 2 ^ usize_bits.
Proof. apply Z.pow_le_mono_r; [lia | apply usize_bits_ge]. Qed.

Lemma usize_MAX_eq : usize_MAX = 2 ^ usize_bits - 1.
Proof. unfold usize_MAX. rewrite Z.ones_equiv. lia. Qed.

Lemma is_usize_testbit_high x n : is_usize x -> usize_bits <= n -> Z.testbit x n = false.
Proof.
  intros [H0 H1] Hn. rewrite <- (Z.mod_small x (2 ^ usize_bits)) by lia.
  apply Z.mod_pow2_bits_high. pose proof usize_bits_pos. lia.
Qed.

Lemma is_usize_of_testbit x :
  0 <= x -> (forall n, usize_bits <= n -> Z.testbit x n = false) -> is_usize x.
Proof.
  intros H0 Hb. split; [done |].
  destruct (decide (x = 0)) as [-> | Hx]; [apply Z.pow_pos_nonneg; [lia | apply usize_bits_pos] |].
  apply Z.log2_lt_pow2; [lia |].
  destruct (Z.lt_ge_cases (Z.log2 x) usize_bits) as [| Hge]; [done |].
  specialize (Hb _ Hge). rewrite Z.bit_log2 in Hb by lia. done.
Qed.

Lemma usize_MAX_testbit n : 0 <= n -> Z.testbit usize_MAX n = bool_decide (n < usize_bits).
Proof.
  intros Hn. unfold usize_MAX. pose proof usize_bits_pos.
  case_bool_decide; [apply Z.ones_spec_low | apply Z.ones_spec_high]; lia.
Qed.

(** [a & !b] is the set difference of the two bit patterns. *)
Lemma land_unot a b : is_usize a -> Z.land a (unot b) = Z.ldiff a b.
Proof.
  intros Ha. apply Z.bits_inj'. intros n Hn. unfold unot.
  rewrite Z.land_spec, !Z.ldiff_spec, usize_MAX_testbit by done.
  case_bool_decide; [done |]. rewrite (is_usize_testbit_high a) by (done || lia). done.
Qed.

Lemma is_usize_land a b : is_usize a -> is_usize (Z.land a b).
Proof.
  intros Ha. apply is_usize_of_testbit.
  - apply Z.land_nonneg. left. apply Ha.
  - intros n Hn. rewrite Z.land_spec, (is_usize_testbit_high a) by done. done.
Qed.

Lemma is_usize_lor a b : is_usize a -> is_usize b -> is_usize (Z.lor a b).
Proof.
  intros Ha Hb. apply is_usize_of_testbit.
  - apply Z.lor_nonneg. split; [apply Ha | apply Hb].
  - intros n Hn. rewrite Z.lor_spec, !is_usize_testbit_high by done. done.
Qed.

Lemma is_usize_ldiff a b : is_usize a -> is_usize (Z.ldiff a b).
Proof.
  intros Ha. apply is_usize_of_testbit.
  - apply Z.ldiff_nonneg. left. apply Ha.
  - intros n Hn. rewrite Z.ldiff_spec, (is_usize_testbit_high a) by done. done.
Qed.

Lemma is_usize_0 : is_usize 0.
Proof. split; [done |]. apply Z.pow_pos_nonneg; [lia | apply usize_bits_pos]. Qed.

Lemma is_usize_small x : 0 <= x < 2 ^ 32 -> is_usize x.
Proof. pose proof usize_modulus_ge. unfold is_usize. lia. Qed.

Lemma is_usize_wrapping_add x y : is_usize (wrapping_add x y).
Proof. apply Z.mod_pos_bound, Z.pow_pos_nonneg; [lia | apply usize_bits_pos]. Qed.

Lemma is_usize_unot x : is_usize (unot x).
Proof.
  apply is_usize_ldiff. unfold is_usize. rewrite usize_MAX_eq.
  pose proof usize_modulus_ge. lia.
Qed.
End usize.

Create HintDb usize.
#[export] Hint Resolve is_usize_land is_usize_lor is_usize_ldiff is_usize_0
  is_usize_wrapping_add is_usize_unot : usize.

(** Equality of bit patterns, bit by bit. *)
Ltac zbits :=
  apply Z.bits_inj'; intros ?n ?Hn;
  rewrite ?Z.land_spec, ?Z.lor_spec, ?Z.ldiff_spec, ?Z.land_spec, ?Z.lor_spec,
    ?Z.ldiff_spec, ?Z.bits_0;
  repeat match goal with |- context [Z.testbit ?x ?n] =>
    let b := fresh "b" in set (b := Z.testbit x n); clearbody b end;
  btauto.

(** Disjoint bit patterns stay disjoint under intersection. *)
Lemma land_assoc_0 a b c : Z.land a b = 0 -> Z.land (Z.land c a) b = 0.
Proof. intros E. rewrite <- Z.land_assoc, E. apply Z.land_0_r. Qed.

(** A flag is a single bit: a word has all of it or nothing. *)
Definition is_flag (f : Z) : Prop := exists n, 0 <= n /\ f = 2 ^ n.

Lemma is_flag_pos f : is_flag f -> 0 < f.
Proof. intros (n & Hn & ->). by apply Z.pow_pos_nonneg. Qed.

Lemma flag_land a f : is_flag f -> Z.land a f = 0 \/ Z.land a f = f.
Proof.
  intros (n & Hn & ->). destruct (Z.testbit a n) eqn:E; [right | left];
    apply Z.bits_inj'; intros b Hb; rewrite Z.land_spec, Z.pow2_bits_eqb, ?Z.bits_0 by done;
    destruct (Z.eqb_spec n b) as [-> |]; rewrite ?E, ?andb_false_r; done.
Qed.

(** ** Results and errors of the standard library *)

(** [std::io::ErrorKind], as of the toolchain the crate is built with. *)
Inductive ErrorKind :=
| NotFound | PermissionDenied | ConnectionRefused | ConnectionReset | ConnectionAborted
| NotConnected | AddrInUse | AddrNotAvailable | BrokenPipe | AlreadyExists | WouldBlock
| InvalidInput | InvalidData | TimedOut | WriteZero | Interrupted | Other | UnexpectedEof.

#[export] Instance ErrorKind_eq_dec : EqDecision ErrorKind.
Proof. solve_decision. Defined.

(** [std::io::Error]: its kind and its message. *)
Record Error := io_error { kind : ErrorKind; message : string }.

#[export] Instance Error_eq_dec : EqDecision Error.
Proof. solve_decision. Defined.

(** [std::io::Result<A>]. *)
Inductive io_result (A : Type) : Type :=
| Ok (a : A)
| Err (e : Error).
Arguments Ok {A} a.
Arguments Err {A} e.

(** [std::task::Poll<A>]. *)
Inductive Poll (A : Type) : Type :=
| Ready (a : A)
| Pending.
Arguments Ready {A} a.
Arguments Pending {A}.

(** [Result::map]. *)
Definition io_map {A B} (f : A -> B) (r : io_result A) : io_result B :=
  match r with Ok a => Ok (f a) | Err e => Err e end.

(** [Result::is_ok]. *)
Definition is_ok {A} (r : io_result A) : bool :=
  match r with Ok _ => true | Err _ => false end.

(** [Poll::is_ready]. *)
Definition is_ready {A} (p : Poll A) : bool :=
  match p with Ready _ => true | Pending => false end.

Lemma io_map_id {A} (r : io_result A) : io_map id r = r.
Proof. by destruct r. Qed.

(** A key that a map does not have. *)
Lemma lookup_fresh `{Countable K, Infinite K} {V} (f : gmap K V) : f !! fresh (dom f) = None.
Proof. apply not_elem_of_dom. apply is_fresh. Qed.

(** ** Counting the elements of a list that satisfy a test *)
Section count.
Context {A : Type} (f : A -> bool).

Fixpoint count (l : list A) : nat :=
  match l with [] => 0 | a :: l => Nat.b2n (f a) + count l end.

Lemma count_insert l i a a' :
  l !! i = Some a -> (count (<[i := a']> l) + Nat.b2n (f a) = count l + Nat.b2n (f a'))%nat.
Proof.
  revert i. induction l as [| b l IH]; intros [| i] E; simplify_eq/=; [lia |].
  specialize (IH i E). lia.
Qed.

Lemma count_pos l i a : l !! i = Some a -> f a = true -> (0 < count l)%nat.
Proof.
  revert i. induction l as [| b l IH]; intros [| i] E Ef; simplify_eq/=; [rewrite Ef; cbn; lia |].
  specialize (IH i E Ef). lia.
Qed.

Lemma count_pos_inv l : (0 < count l)%nat -> exists i a, l !! i = Some a /\ f a = true.
Proof.
  induction l as [| b l IH]; cbn; [lia |]. destruct (f b) eqn:Eb; [by exists 0%nat, b |].
  cbn. intros (i & a & Hi & Ha)%IH. by exists (S i), a.
Qed.

Lemma count_two l i j a b :
  l !! i = Some a -> l !! j = Some b -> i <> j -> f a = true -> f b = true -> (1 < count l)%nat.
Proof.
  revert i j. induction l as [| c l IH]; intros [| i] [| j] Ei Ej Hne Ea Eb; simplify_eq/=.
  - pose proof (count_pos l j b Ej Eb). rewrite Ea. cbn. lia.
  - pose proof (count_pos l i a Ei Ea). rewrite Eb. cbn. lia.
  - pose proof (IH i j Ei Ej ltac:(congruence) Ea Eb). lia.
Qed.

Lemma count_replicate n a : f a = false -> count (replicate n a) = 0%nat.
Proof. intros E. induction n as [| n IH]; cbn; [done | by rewrite E, IH]. Qed.
End count.
