(* ===== verification/Conc.v ===== *)
(** * Resumption programs, thread pools and a rely-guarantee logic

    A Rust function that touches shared state is a [prog W A]: a tree of atomic
    actions on a shared store [W].  The same term is used in two ways: [run]
    executes it alone, and [cstep] interleaves a pool of such programs, one
    atomic action at a time. *)
From S2P Require Import Prelude.

(** What ends a thread without a value: a Rust panic, the dereference of a
    pointer to memory that is gone, a value that its type does not allow, an allocation
    failure, or the bound that the model puts on a retry loop. *)
Inductive fault :=
| Panicked (msg : string)
| UseAfterFree
| InvalidValue
| OutOfMemory
| OutOfFuel.

Inductive prog (W A : Type) : Type :=
| Ret (a : A)
| Fault (e : fault)
| Atom (f : W -> option (W * prog W A)).
Arguments Ret {W A} a.
Arguments Fault {W A} e.
Arguments Atom {W A} f.

(** Induction on programs: every continuation an action can lead to is smaller. *)
Lemma prog_ind' {W A} (P : prog W A -> Prop)
  (HRet : forall a, P (Ret a)) (HFault : forall e, P (Fault e))
  (HAtom : forall f, (forall w w' p', f w = Some (w', p') -> P p') -> P (Atom f)) :
  forall p, P p.
Proof.
  fix IH 1. intros [a | e | f]; [apply HRet | apply HFault | apply HAtom].
  intros w w' p'. destruct (f w) as [[w1 p1] |]; [| discriminate].
  intros E. pose proof (IH p1) as Hp1. clear IH. by simplify_eq.
Defined.

Fixpoint bind {W A B} (p : prog W A) (k : A -> prog W B) : prog W B :=
  match p with
  | Ret a => k a
  | Fault e => Fault e
  | Atom f => Atom (fun w => match f w with
                             | Some (w', p') => Some (w', bind p' k)
                             | None => None
                             end)
  end.

Declare Scope prog_scope.
Delimit Scope prog_scope with prog.
Open Scope prog_scope.

(** [let! x := p in k]: run [p], then [k]. *)
Notation "'let!' x ':=' p 'in' k" := (bind p (fun x => k))
  (at level 10, x binder, p at level 200, k at level 200) : prog_scope.
(** [let? x := p in k]: the operator [?] on an [io::Result]. *)
Notation "'let?' x ':=' p 'in' k" :=
  (bind p (fun r => match r with Ok x => k | Err e => Ret (Err e) end))
  (at level 10, x binder, p at level 200, k at level 200) : prog_scope.

(** One atomic action: it gives a value and a new store, waits, or crashes. *)
Inductive step_res (W A : Type) : Type :=
| Next (a : A) (w : W)
| Wait
| Crash (e : fault).
Arguments Next {W A} a w.
Arguments Wait {W A}.
Arguments Crash {W A} e.

Definition action {W A} (f : W -> step_res W A) : prog W A :=
  Atom (fun w => match f w with
                 | Next a w' => Some (w', Ret a)
                 | Wait => None
                 | Crash e => Some (w, Fault e)
                 end).

(** An action that neither waits nor crashes. *)
Definition atom {W A} (f : W -> A * W) : prog W A :=
  action (fun w => let '(a, w') := f w in Next a w').

#[global] Arguments action : simpl never.
#[global] Arguments atom : simpl never.

(** ** Sequential execution *)

Inductive outcome (A : Type) : Type :=
| Done (a : A)
| Faulted (e : fault)
| Blocked.
Arguments Done {A} a.
Arguments Faulted {A} e.
Arguments Blocked {A}.

Fixpoint run {W A} (p : prog W A) (w : W) : outcome A * W :=
  match p with
  | Ret a => (Done a, w)
  | Fault e => (Faulted e, w)
  | Atom f => match f w with
              | Some (w', p') => run p' w'
              | None => (Blocked, w)
              end
  end.

(** A thread that is not finished and that no state of the store lets move. *)
Definition suspended {W A} (p : prog W A) : Prop :=
  match p with Atom f => forall w, f w = None | _ => False end.

Lemma run_bind {W A B} (p : prog W A) (k : A -> prog W B) w :
  run (bind p k) w =
  match run p w with
  | (Done a, w') => run (k a) w'
  | (Faulted e, w') => (Faulted e, w')
  | (Blocked, w') => (Blocked, w')
  end.
Proof.
  revert w. induction p as [a | e | f IH] using prog_ind'; intros w; cbn; [done | done |].
  destruct (f w) as [[w' p'] |] eqn:E; [| done]. by eapply IH.
Qed.

Lemma run_bind_done {W A B} (p : prog W A) (k : A -> prog W B) w a w' :
  run p w = (Done a, w') -> run (bind p k) w = run (k a) w'.
Proof. intros E. by rewrite run_bind, E. Qed.

Lemma run_bind_faulted {W A B} (p : prog W A) (k : A -> prog W B) w e w' :
  run p w = (Faulted e, w') -> run (bind p k) w = (Faulted e, w').
Proof. intros E. by rewrite run_bind, E. Qed.

Lemma run_action {W A B} (f : W -> step_res W A) (k : A -> prog W B) w :
  run (bind (action f) k) w =
  match f w with
  | Next a w' => run (k a) w'
  | Wait => (Blocked, w)
  | Crash e => (Faulted e, w)
  end.
Proof. unfold action. cbn. by destruct (f w). Qed.

Lemma run_action_next {W A B} (f : W -> step_res W A) (k : A -> prog W B) w a w' :
  f w = Next a w' -> run (bind (action f) k) w = run (k a) w'.
Proof. intros E. by rewrite run_action, E. Qed.

Lemma run_atom {W A B} (f : W -> A * W) (k : A -> prog W B) w :
  run (bind (atom f) k) w = run (k (f w).1) (f w).2.
Proof. unfold atom. rewrite run_action. by destruct (f w). Qed.

Lemma run_ret_bind {W A} (p : prog W A) w : run (bind p Ret) w = run p w.
Proof. rewrite run_bind. by destruct (run p w) as [[] ?]. Qed.

(** [run] does not distinguish how sequences are nested. *)
Lemma run_bind_assoc {W A B C} (p : prog W A) (k : A -> prog W B) (l : B -> prog W C) w :
  run (bind (bind p k) l) w = run (bind p (fun a => bind (k a) l)) w.
Proof. rewrite !run_bind. destruct (run p w) as [[] ?]; [by rewrite run_bind | done | done]. Qed.

(** ** Thread pools *)

Section pool.
Context {W R : Type}.

Definition config : Type := W * list (prog W R).

(** One atomic action of one thread. *)
Inductive cstep : config -> config -> Prop :=
| cstep_thread i f w w' p' ts :
    ts !! i = Some (Atom f) -> f w = Some (w', p') ->
    cstep (w, ts) (w', <[i := p']> ts).

Definition sched_step (i : nat) (c : config) : option config :=
  match c.2 !! i with
  | Some (Atom f) => match f c.1 with
                     | Some (w', p') => Some (w', <[i := p']> c.2)
                     | None => None
                     end
  | _ => None
  end.

(** Run the pool along a schedule, a list of thread numbers. *)
Fixpoint exec (sched : list nat) (c : config) : option config :=
  match sched with
  | [] => Some c
  | i :: sched' => match sched_step i c with
                   | Some c' => exec sched' c'
                   | None => None
                   end
  end.

Lemma sched_step_sound i c c' : sched_step i c = Some c' -> cstep c c'.
Proof.
  destruct c as [w ts]. unfold sched_step. cbn. intros E.
  destruct (ts !! i) as [[| | f] |] eqn:Hi; try done.
  destruct (f w) as [[w' p'] |] eqn:Hf; simplify_eq. by econstructor.
Qed.

Lemma exec_sound sched c c' : exec sched c = Some c' -> rtc cstep c c'.
Proof.
  revert c. induction sched as [| i sched IH]; cbn; intros c E; [by simplify_eq |].
  destruct (sched_step i c) as [c1 |] eqn:E1; [| done].
  eapply rtc_l; [by eapply sched_step_sound | by apply IH].
Qed.

(** Programs are finite trees, so a pool of them cannot run forever. *)
Definition psub (p' p : prog W R) : Prop :=
  exists f w w', p = Atom f /\ f w = Some (w', p').

Lemma psub_wf p : Acc psub p.
Proof.
  induction p as [a | e | f IH] using prog_ind'; constructor;
    intros p' (g & w & w' & E & Hg); simplify_eq.
  by eapply IH.
Qed.

Lemma cstep_nil_acc w : Acc (flip cstep) (w, []).
Proof. constructor. intros c Hc. inversion Hc; simplify_eq. Qed.

(** A step of the pool is a step of one thread, so the pool inherits well-foundedness. *)
Definition tstep (ts' ts : list (prog W R)) : Prop :=
  exists i p p', ts !! i = Some p /\ psub p' p /\ ts' = <[i := p']> ts.

Lemma tstep_nil_acc : Acc tstep [].
Proof. constructor. intros ts' (i & p & p' & Hi & _). done. Qed.

Lemma tstep_cons_acc p ts : Acc psub p -> Acc tstep ts -> Acc tstep (p :: ts).
Proof.
  intros Hp. revert ts. induction Hp as [p Hp IHp]. intros ts Hts.
  induction Hts as [ts Hts IHts]. constructor.
  intros ts' ([| i] & q & q' & Hi & Hq & ->); cbn in *; simplify_eq.
  - apply IHp; [done |]. by constructor.
  - apply IHts. by exists i, q, q'.
Qed.

Lemma tstep_wf ts : Acc tstep ts.
Proof.
  induction ts as [| p ts IH]; [apply tstep_nil_acc |].
  apply tstep_cons_acc; [apply psub_wf | apply IH].
Qed.

Lemma cstep_wf (c : config) : Acc (flip cstep) c.
Proof.
  destruct c as [w ts]. revert w. induction (tstep_wf ts) as [ts _ IH]. intros w.
  constructor. intros c' Hc. inversion Hc as [i f w1 w' p' ts1 Hi Hf]; simplify_eq.
  apply IH. exists i, (Atom f), p'. split_and!; [done | | done]. by exists f, w, w'.
Qed.

Lemma cstep_length c c' : cstep c c' -> length c'.2 = length c.2.
Proof. destruct 1. cbn. by rewrite length_insert. Qed.

Lemma sched_step_complete c c' :
  cstep c c' -> exists i, (i < length c.2)%nat /\ sched_step i c = Some c'.
Proof.
  destruct 1 as [i f w w' p' ts Hi Hf]. exists i. unfold sched_step. cbn.
  rewrite Hi, Hf. split; [by eapply lookup_lt_Some | done].
Qed.

Lemma cstep_dec c : (exists c', cstep c c') \/ (forall c', ~ cstep c c').
Proof.
  destruct (decide (Exists (fun i => is_Some (sched_step i c)) (seq 0 (length c.2)))) as [He | Hn].
  - left. apply Exists_exists in He as (i & _ & c' & Hc). exists c'. by eapply sched_step_sound.
  - right. intros c' (i & Hlt & Hc)%sched_step_complete. apply Hn, Exists_exists.
    exists i. split; [| by eexists]. apply elem_of_seq. lia.
Qed.

(** Every pool can be run until no thread can move. *)
Lemma cstep_normalizes c : exists c', rtc cstep c c' /\ forall c'', ~ cstep c' c''.
Proof.
  induction (cstep_wf c) as [c _ IH]. destruct (cstep_dec c) as [[c1 Hc] | Hn].
  - destruct (IH c1 Hc) as (c' & Hr & Hn). exists c'. split; [by eapply rtc_l | done].
  - by exists c.
Qed.

Lemma rtc_cstep_length c c' : rtc cstep c c' -> length c'.2 = length c.2.
Proof. induction 1 as [| c c1 c' Hc _ IH]; [done |]. rewrite IH. by apply cstep_length. Qed.

(** A thread that runs alone for a while. *)
Lemma run_cstep i p w ts o w' :
  ts !! i = Some p -> run p w = (o, w') ->
  exists p', rtc cstep (w, ts) (w', <[i := p']> ts) /\
    match o with
    | Done a => p' = Ret a
    | Faulted e => p' = Fault e
    | Blocked => exists f, p' = Atom f /\ f w' = None
    end.
Proof.
  revert w ts. induction p as [a | e | f IH] using prog_ind'; cbn; intros w ts Hi Hr.
  1, 2: injection Hr as <- <-; eexists; split; [by rewrite list_insert_id | done].
  destruct (f w) as [[w1 p1] |] eqn:Ef.
  - destruct (IH _ _ _ Ef w1 (<[i := p1]> ts)) as (p' & Hp & Ho); [| done |].
    { rewrite list_lookup_insert_eq; [done | by eapply lookup_lt_Some]. }
    exists p'. split; [| done]. eapply rtc_l; [by econstructor |]. by rewrite list_insert_insert_eq in Hp.
  - injection Hr as <- <-. exists (Atom f). split; [by rewrite list_insert_id | by exists f].
Qed.

(** A pool of finished threads cannot move. *)
Lemma finished_stuck w ts : Forall (fun p => exists a, p = Ret a) ts -> forall c', ~ cstep (w, ts) c'.
Proof.
  intros Hf c' Hc. inversion Hc as [i f w1 w' p' ts1 Hi _]; simplify_eq.
  rewrite Forall_lookup in Hf. destruct (Hf _ _ Hi) as [a E]. done.
Qed.
End pool.
