(* ===== verification/RelyGuar.v ===== *)
(** * A rely-guarantee logic with ghost state for thread pools

    [act i] is what thread [i] may do to the store and to the ghost state; what
    it relies on is any number of steps of the others.  [wp i p Q s] says that
    from [s], whatever the others do, [p] keeps the invariant, does only [act i],
    never faults, blocks only in states that satisfy [Blk i b], where [b] says that
    the thread is suspended and would block in every state, and returns values
    that satisfy [Q]. *)
From S2P Require Import Prelude Conc.

Section rg.
Context {W G : Type}.
Context (Inv : W * G -> Prop) (act : nat -> W * G -> W * G -> Prop).
Context (Blk : nat -> bool -> W * G -> Prop).

Definition others (i : nat) (s s' : W * G) : Prop :=
  Inv s' /\ exists j, j <> i /\ act j s s'.

Definition rely (i : nat) : W * G -> W * G -> Prop := rtc (others i).

Definition stable (i : nat) (P : W * G -> Prop) : Prop :=
  forall s s', P s -> Inv s' -> (exists j, j <> i /\ act j s s') -> P s'.

Lemma stable_rely i P s s' : stable i P -> P s -> rely i s s' -> P s'.
Proof.
  intros HP H0 Hr. induction Hr as [| s s1 s' [Hi Ha] _ IH]; [done |].
  apply IH. by eapply HP.
Qed.

Lemma stable_and i P Q : stable i P -> stable i Q -> stable i (fun s => P s /\ Q s).
Proof. intros HP HQ s s' [H1 H2] Hi Ha. split; [by eapply HP | by eapply HQ]. Qed.

Lemma stable_or i P Q : stable i P -> stable i Q -> stable i (fun s => P s \/ Q s).
Proof. intros HP HQ s s' [H1 | H2] Hi Ha; [left; by eapply HP | right; by eapply HQ]. Qed.

Lemma stable_exists {A} i (P : A -> W * G -> Prop) :
  (forall a, stable i (P a)) -> stable i (fun s => exists a, P a s).
Proof. intros HP s s' [a Ha] Hi Hj. exists a. by eapply HP. Qed.

Lemma stable_pure i (P : Prop) : stable i (fun _ => P).
Proof. by intros s s' HP _ _. Qed.

Lemma stable_true i : stable i (fun _ => True).
Proof. done. Qed.

Fixpoint wp {A} (i : nat) (p : prog W A) (Q : A -> W * G -> Prop) (s : W * G) : Prop :=
  forall s', rely i s s' -> Inv s' ->
  match p with
  | Ret a => Q a s'
  | Fault _ => False
  | Atom f => match f s'.1 with
              | Some (w', p') =>
                  exists g', Inv (w', g') /\ act i s' (w', g') /\ wp i p' Q (w', g')
              | None => exists b, (b = true -> forall w, f w = None) /\ Blk i b s'
              end
  end.

Lemma wp_rely {A} i (p : prog W A) Q s s' : rely i s s' -> wp i p Q s -> wp i p Q s'.
Proof. intros Hr. destruct p; cbn; intros Hw s2 Hr2 Hi2; exact (Hw s2 (transitivity Hr Hr2) Hi2). Qed.

Lemma wp_conseq {A} i (p : prog W A) (Q Q' : A -> W * G -> Prop) s :
  (forall a s', Inv s' -> Q a s' -> Q' a s') -> wp i p Q s -> wp i p Q' s.
Proof.
  intros HQ. revert s. induction p as [a | e | f IH] using prog_ind'; intros s Hw; cbn in *.
  - intros s' Hr Hi. apply HQ; [done |]. by apply Hw.
  - done.
  - intros s' Hr Hi. specialize (Hw s' Hr Hi).
    destruct (f s'.1) as [[w' p'] |] eqn:E; [| done].
    destruct Hw as (g' & Hi' & Ha & Hw). exists g'. split_and!; [done | done |]. by eapply IH.
Qed.

Lemma blocks_bind {A B} i (f : W -> option (W * prog W A)) (k : A -> prog W B) s :
  (exists b, (b = true -> forall w, f w = None) /\ Blk i b s) ->
  exists b, (b = true -> forall w, match f w with Some (w', p') => Some (w', bind p' k) | None => None end = None) /\ Blk i b s.
Proof. intros (b & Hb & Hs). exists b. split; [| done]. intros Eb w. by rewrite (Hb Eb w). Qed.

Lemma wp_bind {A B} i (p : prog W A) (k : A -> prog W B) Q s :
  wp i p (fun a s' => wp i (k a) Q s') s -> wp i (bind p k) Q s.
Proof.
  revert s. induction p as [a | e | f IH] using prog_ind'; intros s Hw; cbn in *.
  - destruct (k a) as [b | e | f]; cbn; intros s' Hr Hi;
      exact (Hw s' Hr Hi s' (rtc_refl _ _) Hi).
  - done.
  - intros s' Hr Hi. specialize (Hw s' Hr Hi).
    destruct (f s'.1) as [[w' p'] |] eqn:E; [| by apply blocks_bind].
    destruct Hw as (g' & Hi' & Ha & Hw). exists g'. split_and!; [done | done |]. by eapply IH.
Qed.

Lemma wp_bind_assoc {A B C} i (p : prog W A) (q : A -> prog W B) (k : B -> prog W C) Q s :
  wp i (bind p (fun a => bind (q a) k)) Q s -> wp i (bind (bind p q) k) Q s.
Proof.
  revert s. induction p as [a | e | f IH] using prog_ind'; intros s Hw; cbn in *; [done | done |].
  intros s' Hr Hi. specialize (Hw s' Hr Hi).
  destruct (f s'.1) as [[w' p'] |] eqn:E.
  2: { destruct Hw as (b & Hb & Hw). exists b. split; [| done]. intros Eb w. specialize (Hb Eb w). by destruct (f w) as [[]|]. }
  destruct Hw as (g' & Hi' & Ha & Hw). exists g'. split_and!; [done | done |]. by eapply IH.
Qed.

Lemma wp_tail {A} i (p : prog W A) Q s : wp i (bind p Ret) Q s -> wp i p Q s.
Proof.
  revert s. induction p as [a | e | f IH] using prog_ind'; intros s Hw; cbn in *; [done | done |].
  intros s' Hr Hi. specialize (Hw s' Hr Hi).
  destruct (f s'.1) as [[w' p'] |] eqn:E.
  2: { destruct Hw as (b & Hb & Hw). exists b. split; [| done]. intros Eb w. specialize (Hb Eb w). by destruct (f w) as [[]|]. }
  destruct Hw as (g' & Hi' & Ha & Hw). exists g'. split_and!; [done | done |]. by eapply IH.
Qed.

(** A thread that is about to act knows what is stable under the others. *)
Lemma wp_ret {A} i (a : A) (Q : A -> W * G -> Prop) P s :
  stable i P -> P s -> (forall s', P s' -> Inv s' -> Q a s') -> wp i (Ret a) Q s.
Proof. intros HP H0 HQ s' Hr Hi. apply HQ; [| done]. by eapply stable_rely. Qed.

Lemma wp_action {A B} i (f : W -> step_res W A) (k : A -> prog W B) Q P s :
  stable i P -> P s ->
  (forall w g, P (w, g) -> Inv (w, g) ->
     match f w with
     | Next a w' =>
         exists g', Inv (w', g') /\ act i (w, g) (w', g') /\ wp i (k a) Q (w', g')
     | Wait => Blk i false (w, g)
     | Crash _ => False
     end) ->
  wp i (bind (action f) k) Q s.
Proof.
  intros HP H0 Hk [w g] Hr Hi. unfold action. cbn.
  assert (P (w, g)) as Hpre by (by eapply stable_rely).
  specialize (Hk w g Hpre Hi). destruct (f w); [done | | done]. by exists false.
Qed.

(** A thread that is not scheduled any more. *)
Lemma wp_wait {A} i (Q : A -> W * G -> Prop) P s :
  stable i P -> P s -> (forall w g, P (w, g) -> Inv (w, g) -> Blk i true (w, g)) ->
  wp i (action (fun _ => Wait)) Q s.
Proof. intros HP H0 Hk [w g] Hr Hi. exists true. split; [done |]. apply Hk; [| done]. by eapply stable_rely. Qed.

Lemma wp_atom {A B} i (f : W -> A * W) (k : A -> prog W B) Q P s :
  stable i P -> P s ->
  (forall w g, P (w, g) -> Inv (w, g) ->
     exists g', Inv ((f w).2, g') /\ act i (w, g) ((f w).2, g') /\
                wp i (k (f w).1) Q ((f w).2, g')) ->
  wp i (bind (atom f) k) Q s.
Proof.
  intros HP H0 Hk. eapply wp_action; [done | done |]. intros w g Hpre Hi.
  specialize (Hk w g Hpre Hi). by destruct (f w).
Qed.

(** ** Adequacy: every interleaving of verified threads keeps the invariant *)

Definition pool_ok {R} (Q : nat -> R -> W * G -> Prop) (ts : list (prog W R)) (s : W * G) : Prop :=
  Inv s /\ forall i p, ts !! i = Some p -> wp i p (Q i) s.

Lemma pool_ok_step {R} (Q : nat -> R -> W * G -> Prop) w ts w' ts' g :
  cstep (w, ts) (w', ts') -> pool_ok Q ts (w, g) ->
  exists i g', (i < length ts)%nat /\ act i (w, g) (w', g') /\ pool_ok Q ts' (w', g').
Proof.
  intros Hc [Hi Hts]. inversion Hc as [i f w1 w1' p' ts1 Hl Hf]; simplify_eq.
  pose proof (Hts _ _ Hl) as Hp. cbn in Hp. specialize (Hp (w, g) (rtc_refl _ _) Hi).
  cbn in Hp. rewrite Hf in Hp. destruct Hp as (g' & Hi' & Ha & Hp').
  exists i, g'. split_and!; [by eapply lookup_lt_Some | done |].
  split; [done |]. intros j q Hj. destruct (decide (j = i)) as [-> | Hne].
  - rewrite list_lookup_insert_eq in Hj by (by eapply lookup_lt_Some). by simplify_eq.
  - rewrite list_lookup_insert_ne in Hj by done.
    eapply wp_rely; [| by apply Hts]. apply rtc_once. split; [done |]. by exists i.
Qed.

Lemma pool_ok_steps {R} (Q : nat -> R -> W * G -> Prop) c c' g :
  rtc cstep c c' -> pool_ok Q c.2 (c.1, g) -> exists g', pool_ok Q c'.2 (c'.1, g').
Proof.
  intros Hr. revert g. induction Hr as [c | [w ts] [w1 ts1] c' Hc _ IH]; intros g H0; [by exists g |].
  destruct (pool_ok_step _ _ _ _ _ _ Hc H0) as (i & g1 & _ & _ & H1). by eapply IH.
Qed.

(** The same, with the actions of the threads on the way. *)
Lemma pool_ok_trace {R} (Q : nat -> R -> W * G -> Prop) c c' g :
  rtc cstep c c' -> pool_ok Q c.2 (c.1, g) ->
  exists g', pool_ok Q c'.2 (c'.1, g') /\
    rtc (fun s s' => exists i, (i < length c.2)%nat /\ act i s s') (c.1, g) (c'.1, g').
Proof.
  intros Hr. revert g. induction Hr as [c | [w ts] [w1 ts1] c' Hc _ IH]; intros g H0; [by exists g |].
  destruct (pool_ok_step _ _ _ _ _ _ Hc H0) as (i & g1 & Hi & Ha & H1). destruct (IH g1 H1) as (g' & Hg' & Hr').
  exists g'. split; [done |]. eapply rtc_l; [by exists i |].
  apply cstep_length in Hc. cbn in *. by rewrite Hc in Hr'.
Qed.

(** What an adequate pool gives: the invariant, no fault, and every returned value
    satisfies its postcondition in the current state. *)
Lemma pool_ok_adequate {R} (Q : nat -> R -> W * G -> Prop) ts s :
  pool_ok Q ts s ->
  Inv s /\ (forall i e, ts !! i <> Some (Fault e)) /\
  (forall i a, ts !! i = Some (Ret a) -> Q i a s).
Proof.
  intros [Hi Hts]. split_and!; [done | |].
  - intros i e Hl. by apply (Hts _ _ Hl s (rtc_refl _ _)).
  - intros i a Hl. by apply (Hts _ _ Hl s (rtc_refl _ _)).
Qed.

(** A pool that cannot move consists of finished threads and of threads that block. *)
Lemma pool_ok_stuck {R} (Q : nat -> R -> W * G -> Prop) w g ts :
  pool_ok Q ts (w, g) -> (forall c', ~ cstep (w, ts) c') ->
  forall i p, ts !! i = Some p ->
    (exists a, p = Ret a /\ Q i a (w, g)) \/
    exists b, (b = true -> suspended p) /\ Blk i b (w, g).
Proof.
  intros [Hi Hts] Hstuck i p Hl. pose proof (Hts _ _ Hl) as Hp.
  destruct p as [a | e | f]; cbn in Hp; specialize (Hp (w, g) (rtc_refl _ _) Hi).
  - left. by exists a.
  - done.
  - right. cbn in Hp. destruct (f w) as [[w' p'] |] eqn:Hf.
    { exfalso. eapply Hstuck. by econstructor. }
    exact Hp.
Qed.
End rg.
#[global] Arguments wp : simpl never.

(** Bring the next action to the front. *)
Ltac wp_assoc :=
  repeat lazymatch goal with |- wp _ _ _ _ (bind (bind _ _) _) _ _ => apply wp_bind_assoc end.
