(* ===== verification/Deps.v ===== *)
(** * The crates that the program depends on, as interfaces

    Each class lists the operations that the program calls, and a second class the
    documented behaviour that it relies on.  Nothing here is defined: the
    development is proved for every implementation that satisfies the laws. *)
From S2P Require Import Prelude.

(** ** parking_lot::RwLock<()>

    A lock is held by any number of readers or by one writer.  [raw_read] and
    [raw_write] give [None] when the caller has to wait. *)
Class RawRwLock := {
  raw : Type;
  raw_new : raw;
  raw_read : raw -> option raw;
  raw_unlock_read : raw -> raw;
  raw_write : raw -> option raw;
  raw_unlock_write : raw -> raw;
  raw_readers : raw -> nat;
  raw_writer : raw -> bool;
}.

Definition raw_free `{RawRwLock} (l : raw) : Prop := raw_readers l = 0%nat /\ raw_writer l = false.

Class RawRwLockLaws `{RawRwLock} : Prop := {
  raw_new_free : raw_free raw_new;
  raw_read_some l l' : raw_read l = Some l' ->
    raw_writer l = false /\ raw_writer l' = false /\ raw_readers l' = S (raw_readers l);
  raw_read_free l : raw_free l -> is_Some (raw_read l);
  raw_unlock_read_some l n : raw_readers l = S n ->
    raw_readers (raw_unlock_read l) = n /\ raw_writer (raw_unlock_read l) = raw_writer l;
  raw_write_some l l' : raw_write l = Some l' ->
    raw_free l /\ raw_writer l' = true /\ raw_readers l' = 0%nat;
  raw_write_free l : raw_free l -> is_Some (raw_write l);
  raw_unlock_write_free l : raw_writer l = true -> raw_free (raw_unlock_write l);
}.

(** ** futures::task::AtomicWaker

    A cell that holds the waker last registered.  The program names a task by a
    number: two wakers are the same when they wake the same task. *)
Abbreviation waker := nat (only parsing).

Class AtomicWaker := {
  aw : Type;
  aw_new : aw;
  aw_register : waker -> aw -> aw;
  aw_take : aw -> option waker * aw;
}.

(** The waker that a [take] would return. *)
Definition aw_waker `{AtomicWaker} (a : aw) : option waker := (aw_take a).1.

Class AtomicWakerLaws `{AtomicWaker} : Prop := {
  aw_new_waker : aw_waker aw_new = None;
  aw_register_waker w a : aw_waker (aw_register w a) = Some w;
  aw_take_waker a : aw_waker (aw_take a).2 = None;
}.

(** ** slab::Slab<T>

    [slab_get] is the contents, [slab_high] the number of slots that have been
    allocated; a vacant slot is reused before a new one is allocated.
    [slab_set] is a write through a reference to a stored value, and
    [slab_remove] gives [None] where the crate panics. *)
Class Slab := {
  slab : Type -> Type;
  slab_with_capacity {A} : Z -> slab A;
  slab_len {A} : slab A -> Z;
  slab_high {A} : slab A -> Z;
  slab_insert {A} : A -> slab A -> Z * slab A;
  slab_get {A} : Z -> slab A -> option A;
  slab_set {A} : Z -> A -> slab A -> slab A;
  slab_remove {A} : Z -> slab A -> option (slab A);
  slab_iter {A} : slab A -> list (Z * A);
}.

Class SlabLaws `{Slab} : Prop := {
  slab_new_get {A} n k : slab_get k (slab_with_capacity n : slab A) = None;
  slab_new_len {A} n : slab_len (slab_with_capacity n : slab A) = 0;
  slab_new_high {A} n : slab_high (slab_with_capacity n : slab A) = 0;
  slab_len_high {A} (s : slab A) : 0 <= slab_len s <= slab_high s;
  slab_get_range {A} (s : slab A) k a : slab_get k s = Some a -> 0 <= k < slab_high s;
  slab_insert_fresh {A} (a : A) s : slab_get (slab_insert a s).1 s = None;
  slab_insert_get {A} (a : A) s k :
    slab_get k (slab_insert a s).2 =
    if decide (k = (slab_insert a s).1) then Some a else slab_get k s;
  slab_insert_len {A} (a : A) s : slab_len (slab_insert a s).2 = slab_len s + 1;
  slab_insert_high {A} (a : A) s :
    slab_high (slab_insert a s).2 = Z.max (slab_high s) (slab_len s + 1);
  slab_set_get {A} (a : A) s k k' : is_Some (slab_get k s) ->
    slab_get k' (slab_set k a s) = if decide (k' = k) then Some a else slab_get k' s;
  slab_set_len {A} (a : A) s k : slab_len (slab_set k a s) = slab_len s;
  slab_set_high {A} (a : A) s k : slab_high (slab_set k a s) = slab_high s;
  slab_set_set {A} (a b : A) s k : slab_set k a (slab_set k b s) = slab_set k a s;
  slab_set_id {A} (a : A) s k : slab_get k s = Some a -> slab_set k a s = s;
  slab_remove_get {A} (s : slab A) k : is_Some (slab_get k s) ->
    exists s', slab_remove k s = Some s' /\
      (forall k', slab_get k' s' = if decide (k' = k) then None else slab_get k' s) /\
      slab_len s' = slab_len s - 1 /\ slab_high s' = slab_high s;
  slab_remove_none {A} (s : slab A) k : slab_get k s = None -> slab_remove k s = None;
  slab_iter_get {A} (s : slab A) k a : (k, a) ∈ slab_iter s <-> slab_get k s = Some a;
  slab_iter_nodup {A} (s : slab A) : NoDup (slab_iter s).*1;
}.

(** ** mio::Ready

    A readiness is a set of flags; [from_usize] and [as_usize] give its bits, and
    [&], [|], [-] and [!] are the set operations on them.  A target without
    [UnixReady] has no [hup] flag ([#[cfg(windows)]]). *)
Class MioReady := {
  Ready_readable : Z;
  Ready_writable : Z;
  Ready_all : Z;
  UnixReady_hup : Z;
  cfg_unix : bool;
}.

Definition Ready_empty : Z := 0.

(** [Ready::is_empty], [Ready::contains] and [Sub for Ready]. *)
Definition Ready_is_empty (r : Z) : bool := r =? 0.
Definition Ready_contains (r flag : Z) : bool := Z.land r flag =? flag.
Definition Ready_sub (a b : Z) : Z := Z.ldiff a b.

Class MioReadyLaws `{MioReady} : Prop := {
  Ready_all_range : 0 <= Ready_all < 2 ^ 32;
  Ready_readable_flag : is_flag Ready_readable;
  Ready_writable_flag : is_flag Ready_writable;
  UnixReady_hup_flag : is_flag UnixReady_hup;
  Ready_readable_all : Z.land Ready_readable Ready_all = Ready_readable;
  Ready_writable_all : Z.land Ready_writable Ready_all = Ready_writable;
  UnixReady_hup_all : Z.land UnixReady_hup Ready_all = UnixReady_hup;
  Ready_readable_writable : Z.land Ready_readable Ready_writable = 0;
  UnixReady_hup_readable : Z.land UnixReady_hup Ready_readable = 0;
  UnixReady_hup_writable : Z.land UnixReady_hup Ready_writable = 0;
}.

(** ** mio::Poll, mio::Registration and mio::event::Evented

    [Os] is the state of the operating system; every call is a function of it.
    [Poll_poll] gives [None] when the caller has to wait.  An event is a token and
    a readiness. *)
Inductive PollOpt := PollOpt_edge | PollOpt_level.

Class Mio := {
  Os : Type;
  PollId : Type;
  Evented : Type;
  SetReadiness : Type;
  Poll_new : Os -> io_result PollId * Os;
  Registration_new2 : Os -> (Evented * SetReadiness) * Os;
  Poll_register : PollId -> Evented -> Z -> Z -> PollOpt -> Os -> io_result unit * Os;
  Poll_deregister : PollId -> Evented -> Os -> io_result unit * Os;
  Poll_poll : PollId -> option Z -> Os -> option (io_result (list (Z * Z)) * Os);
  set_readiness : SetReadiness -> Z -> Os -> io_result unit * Os;
}.

(** ** The allocator

    [box_alloc n live] is the address of the next box, after [n] allocations and with
    [live] telling which addresses are in use, or [None] when there is no memory left.  An
    address is a non-null word that no live box has, but that an earlier one may have had;
    it is aligned like a pointer, to 4 or to 8 bytes. *)
Class BoxAlloc := {
  box_alloc : nat -> (Z -> bool) -> option Z;
}.

Class BoxAllocLaws `{UsizeWidth} `{BoxAlloc} : Prop := {
  box_alloc_some n live p : box_alloc n live = Some p ->
    live p = false /\ 0 < p /\ is_usize p /\ (usize_bits / 8 | p);
}.

(** ** Threads of the standard library: the system may refuse to start one *)
Class OsThreads `{Mio} := {
  thread_spawn : Os -> io_result unit * Os;
}.

(** ** All of them *)
Class Deps := {
  deps_usize :: UsizeWidth;
  deps_aw :: AtomicWaker;
  deps_slab :: Slab;
  deps_ready :: MioReady;
  deps_mio :: Mio;
  deps_threads :: OsThreads;
  deps_boxes :: BoxAlloc;
}.

Class DepsLaws `{Deps} : Prop := {
  deps_aw_laws :: AtomicWakerLaws;
  deps_slab_laws :: SlabLaws;
  deps_ready_laws :: MioReadyLaws;
  deps_boxes_laws :: BoxAllocLaws;
}.

(** ** mio::net, mio_uds and libc: the sockets

    [Evented] covers every kind of socket.  Buffers are lists of bytes; a call that
    fills one returns it. *)
Class NetOps `{Mio} := {
  SocketAddr : Type;
  UnixAddr : Type;
  Path : Type;
  StdTcpStream : Type;
  StdTcpListener : Type;
  StdUdpSocket : Type;
  StdUnixStream : Type;
  StdUnixListener : Type;
  io_read : Evented -> list Z -> Os -> (io_result Z * list Z) * Os;
  io_write : Evented -> list Z -> Os -> io_result Z * Os;
  io_flush : Evented -> Os -> io_result unit * Os;
  io_close : Evented -> Os -> Os;
  io_take_error : Evented -> Os -> io_result (option Error) * Os;
  as_raw_fd : Evented -> Z;
  tcp_connect : SocketAddr -> Os -> io_result Evented * Os;
  tcp_from_stream : StdTcpStream -> Os -> io_result Evented * Os;
  tcp_bind : SocketAddr -> Os -> io_result Evented * Os;
  tcp_from_listener : StdTcpListener -> Os -> io_result Evented * Os;
  tcp_accept_std : Evented -> Os -> io_result (StdTcpStream * SocketAddr) * Os;
  udp_bind : SocketAddr -> Os -> io_result Evented * Os;
  udp_from_socket : StdUdpSocket -> Os -> io_result Evented * Os;
  udp_send_to : Evented -> list Z -> SocketAddr -> Os -> io_result Z * Os;
  udp_recv_from : Evented -> list Z -> Os -> (io_result (Z * SocketAddr) * list Z) * Os;
  uds_connect : Path -> Os -> io_result Evented * Os;
  uds_pair : Os -> io_result (Evented * Evented) * Os;
  uds_from_stream : StdUnixStream -> Os -> io_result Evented * Os;
  uds_bind : Path -> Os -> io_result Evented * Os;
  uds_from_listener : StdUnixListener -> Os -> io_result Evented * Os;
  uds_accept_std : Evented -> Os -> io_result (option (StdUnixStream * UnixAddr)) * Os;
  uds_datagram_bind : Path -> Os -> io_result Evented * Os;
  uds_datagram_pair : Os -> io_result (Evented * Evented) * Os;
  uds_datagram_unbound : Os -> io_result Evented * Os;
  uds_send_to : Evented -> list Z -> Path -> Os -> io_result Z * Os;
  uds_recv_from : Evented -> list Z -> Os -> (io_result (Z * UnixAddr) * list Z) * Os;
  getsockopt_peercred : Z -> Z -> Os -> (Z * (Z * Z) * Z) * Os;
  getpeereid : Z -> Os -> (Z * (Z * Z)) * Os;
  last_os_error : Os -> Error * Os;
}.

(** The addresses and options of the sockets, which the program only passes on.  A
    [Duration] is counted in nanoseconds; an IP address is its 32 or 128 bits. *)
Inductive Shutdown := Shutdown_Read | Shutdown_Write | Shutdown_Both.
Abbreviation Duration := Z (only parsing).
Abbreviation Ipv4Addr := Z (only parsing).
Abbreviation Ipv6Addr := Z (only parsing).

Class SocketOptions `{NetOps} := {
  tcp_local_addr : Evented -> Os -> io_result SocketAddr * Os;
  tcp_peer_addr : Evented -> Os -> io_result SocketAddr * Os;
  tcp_shutdown : Evented -> Shutdown -> Os -> io_result unit * Os;
  tcp_nodelay : Evented -> Os -> io_result bool * Os;
  tcp_set_nodelay : Evented -> bool -> Os -> io_result unit * Os;
  tcp_recv_buffer_size : Evented -> Os -> io_result Z * Os;
  tcp_set_recv_buffer_size : Evented -> Z -> Os -> io_result unit * Os;
  tcp_send_buffer_size : Evented -> Os -> io_result Z * Os;
  tcp_set_send_buffer_size : Evented -> Z -> Os -> io_result unit * Os;
  tcp_keepalive : Evented -> Os -> io_result (option Duration) * Os;
  tcp_set_keepalive : Evented -> option Duration -> Os -> io_result unit * Os;
  tcp_ttl : Evented -> Os -> io_result Z * Os;
  tcp_set_ttl : Evented -> Z -> Os -> io_result unit * Os;
  tcp_linger : Evented -> Os -> io_result (option Duration) * Os;
  tcp_set_linger : Evented -> option Duration -> Os -> io_result unit * Os;
  listener_local_addr : Evented -> Os -> io_result SocketAddr * Os;
  listener_ttl : Evented -> Os -> io_result Z * Os;
  listener_set_ttl : Evented -> Z -> Os -> io_result unit * Os;
  udp_local_addr : Evented -> Os -> io_result SocketAddr * Os;
  udp_broadcast : Evented -> Os -> io_result bool * Os;
  udp_set_broadcast : Evented -> bool -> Os -> io_result unit * Os;
  udp_multicast_loop_v4 : Evented -> Os -> io_result bool * Os;
  udp_set_multicast_loop_v4 : Evented -> bool -> Os -> io_result unit * Os;
  udp_multicast_ttl_v4 : Evented -> Os -> io_result Z * Os;
  udp_set_multicast_ttl_v4 : Evented -> Z -> Os -> io_result unit * Os;
  udp_multicast_loop_v6 : Evented -> Os -> io_result bool * Os;
  udp_set_multicast_loop_v6 : Evented -> bool -> Os -> io_result unit * Os;
  udp_ttl : Evented -> Os -> io_result Z * Os;
  udp_set_ttl : Evented -> Z -> Os -> io_result unit * Os;
  udp_join_multicast_v4 : Evented -> Ipv4Addr -> Ipv4Addr -> Os -> io_result unit * Os;
  udp_join_multicast_v6 : Evented -> Ipv6Addr -> Z -> Os -> io_result unit * Os;
  udp_leave_multicast_v4 : Evented -> Ipv4Addr -> Ipv4Addr -> Os -> io_result unit * Os;
  udp_leave_multicast_v6 : Evented -> Ipv6Addr -> Z -> Os -> io_result unit * Os;
  uds_stream_local_addr : Evented -> Os -> io_result UnixAddr * Os;
  uds_stream_peer_addr : Evented -> Os -> io_result UnixAddr * Os;
  uds_stream_shutdown : Evented -> Shutdown -> Os -> io_result unit * Os;
  uds_listener_local_addr : Evented -> Os -> io_result UnixAddr * Os;
  uds_datagram_local_addr : Evented -> Os -> io_result UnixAddr * Os;
  uds_datagram_peer_addr : Evented -> Os -> io_result UnixAddr * Os;
  uds_datagram_shutdown : Evented -> Shutdown -> Os -> io_result unit * Os;
}.
