(* ===== verification/Toy.v ===== *)
(** * Concrete instances of the interfaces

    Small implementations that satisfy the laws of [Deps], used only to evaluate
    the program on concrete inputs: they show that the hypotheses of the theorems
    can hold.  They are not models of the crates.  [Import Toy] in a section makes
    them the instances there. *)
From S2P Require Import Prelude Deps.

Module Toy.

(** ** A reader-writer lock: the number of readers, or held by a writer *)
#[export] Instance toy_raw : RawRwLock := {|
  raw := option nat;
  raw_new := Some 0%nat;
  raw_read l := match l with Some n => Some (Some (S n)) | None => None end;
  raw_unlock_read l := pred <$> l;
  raw_write l := match l with Some 0%nat => Some None | _ => None end;
  raw_unlock_write l := Some 0%nat;
  raw_readers l := default 0%nat l;
  raw_writer l := bool_decide (l = None);
|}.

#[export] Instance toy_raw_laws : RawRwLockLaws.
Proof.
  constructor; unfold raw_free; cbn.
  - done.
  - by intros [n |] l' E; simplify_eq/=.
  - intros [n |] [_ ?]; [by eexists | done].
  - by intros [n |] m E; simplify_eq/=.
  - by intros [[|] |] l' E; simplify_eq/=.
  - intros [[|] |] [? ?]; simplify_eq/=; by eexists.
  - done.
Qed.

(** ** An atomic waker: the cell itself *)
#[export] Instance toy_aw : AtomicWaker := {|
  aw := option waker;
  aw_new := None;
  aw_register w _ := Some w;
  aw_take a := (a, None);
|}.

#[export] Instance toy_aw_laws : AtomicWakerLaws.
Proof. by constructor. Qed.

(** ** A slab: a vector of slots; the first vacant slot is reused *)
Section slab.
Context {A : Type}.

Fixpoint vec_insert (a : A) (l : list (option A)) : Z * list (option A) :=
  match l with
  | [] => (0, [Some a])
  | None :: l' => (0, Some a :: l')
  | Some b :: l' => let r := vec_insert a l' in (r.1 + 1, Some b :: r.2)
  end.

Definition vec_get (k : Z) (l : list (option A)) : option A :=
  if decide (0 <= k) then mjoin (l !! Z.to_nat k) else None.

Fixpoint vec_len (l : list (option A)) : Z :=
  match l with [] => 0 | None :: l' => vec_len l' | Some _ :: l' => vec_len l' + 1 end.

Definition vec_set (k : Z) (a : option A) (l : list (option A)) : list (option A) :=
  if decide (0 <= k) then <[Z.to_nat k := a]> l else l.

Fixpoint vec_iter (k : Z) (l : list (option A)) : list (Z * A) :=
  match l with
  | [] => []
  | None :: l' => vec_iter (k + 1) l'
  | Some a :: l' => (k, a) :: vec_iter (k + 1) l'
  end.

Lemma vec_get_cons k x l :
  vec_get k (x :: l) = if decide (k = 0) then x else vec_get (k - 1) l.
Proof.
  unfold vec_get. repeat case_decide; try lia; try done.
  - by subst.
  - by replace (Z.to_nat k) with (S (Z.to_nat (k - 1))) by lia.
Qed.

Lemma vec_get_nil k : vec_get k [] = None.
Proof. unfold vec_get. by case_decide. Qed.

Lemma vec_get_lookup k l a :
  vec_get k l = Some a <-> 0 <= k /\ l !! Z.to_nat k = Some (Some a).
Proof.
  unfold vec_get. case_decide; [| naive_solver]. destruct (l !! Z.to_nat k) as [[b |] |]; cbn; naive_solver.
Qed.

Lemma vec_insert_nonneg a l : 0 <= (vec_insert a l).1.
Proof. induction l as [| [|] l IH]; cbn; lia. Qed.

Lemma vec_insert_fresh a l : vec_get (vec_insert a l).1 l = None.
Proof.
  induction l as [| [b |] l IH]; cbn; [apply vec_get_nil | | by rewrite vec_get_cons].
  rewrite vec_get_cons. pose proof (vec_insert_nonneg a l). case_decide; [lia |].
  by replace ((vec_insert a l).1 + 1 - 1) with (vec_insert a l).1 by lia.
Qed.

Lemma vec_insert_get a l k :
  vec_get k (vec_insert a l).2 = if decide (k = (vec_insert a l).1) then Some a else vec_get k l.
Proof.
  revert k. induction l as [| [b |] l IH]; intros k; cbn; rewrite !vec_get_cons, ?vec_get_nil; try done.
  - pose proof (vec_insert_nonneg a l). rewrite IH. repeat case_decide; (lia || done).
  - repeat case_decide; (lia || done).
Qed.

Lemma vec_insert_len a l : vec_len (vec_insert a l).2 = vec_len l + 1.
Proof. induction l as [| [|] l IH]; cbn; lia. Qed.

Lemma vec_len_length l : 0 <= vec_len l <= Z.of_nat (length l).
Proof. induction l as [| [|] l IH]; cbn; lia. Qed.

Lemma vec_insert_length a l :
  Z.of_nat (length (vec_insert a l).2) = Z.max (Z.of_nat (length l)) (vec_len l + 1).
Proof.
  induction l as [| [|] l IH]; cbn; [lia | lia |].
  pose proof (vec_len_length l). lia.
Qed.

Lemma vec_set_get k k' x l : 0 <= k < Z.of_nat (length l) ->
  vec_get k' (vec_set k x l) = if decide (k' = k) then x else vec_get k' l.
Proof.
  intros Hk. unfold vec_get, vec_set. rewrite (decide_True _ _ (proj1 Hk)).
  destruct (decide (k' = k)) as [-> |].
  - case_decide; [| lia]. rewrite list_lookup_insert_eq; [done | lia].
  - case_decide; [| done]. rewrite list_lookup_insert_ne; [done | lia].
Qed.

Lemma vec_set_len k x l a : vec_get k l = Some a ->
  vec_len (vec_set k x l) = vec_len l - 1 + match x with Some _ => 1 | None => 0 end.
Proof.
  revert k. induction l as [| y l IH]; intros k; [by rewrite vec_get_nil |].
  rewrite vec_get_cons. unfold vec_set. case_decide as E; intros Hk.
  - subst k y. rewrite decide_True by lia. destruct x; simpl; lia.
  - assert (0 <= k - 1) as Hk1. { unfold vec_get in Hk. by case_decide. }
    rewrite decide_True by lia. specialize (IH _ Hk). unfold vec_set in IH.
    rewrite decide_True in IH by done.
    replace (Z.to_nat k) with (S (Z.to_nat (k - 1))) by lia. destruct y; simpl; lia.
Qed.

Lemma vec_set_length k x l : length (vec_set k x l) = length l.
Proof. unfold vec_set. case_decide; [apply length_insert | done]. Qed.

Lemma vec_iter_elem l k0 k a : (k, a) ∈ vec_iter k0 l <-> vec_get (k - k0) l = Some a.
Proof.
  revert k0. induction l as [| [b |] l IH]; intros k0; cbn.
  - rewrite vec_get_nil. split; [by intros ?%elem_of_nil | done].
  - rewrite elem_of_cons, IH, vec_get_cons. replace (k - (k0 + 1)) with (k - k0 - 1) by lia.
    case_decide; [| split; [intros [?|]; [simplify_eq; lia | done] | by right]].
    split; [| intros [= ->]; left; f_equal; lia].
    intros [[= -> ->] | Hx]; [done |]. unfold vec_get in Hx. case_decide; [lia | done].
  - rewrite IH, vec_get_cons. replace (k - (k0 + 1)) with (k - k0 - 1) by lia.
    case_decide; [| done]. split; [| done]. unfold vec_get. case_decide; [lia | done].
Qed.

Lemma vec_iter_fst_ge l k0 k : k ∈ (vec_iter k0 l).*1 -> k0 <= k.
Proof.
  revert k0. induction l as [| [b |] l IH]; intros k0; cbn; [by intros ?%elem_of_nil | |].
  - intros [-> | Hk%IH]%elem_of_cons; lia.
  - intros Hk%IH. lia.
Qed.

Lemma vec_iter_nodup l k0 : NoDup (vec_iter k0 l).*1.
Proof.
  revert k0. induction l as [| [b |] l IH]; intros k0; cbn; [constructor | | apply IH].
  constructor; [| apply IH]. intros Hk%vec_iter_fst_ge. lia.
Qed.
End slab.

#[export] Instance toy_slab : Slab := {|
  slab A := list (option A);
  slab_with_capacity A _ := [];
  slab_len A s := vec_len s;
  slab_high A s := Z.of_nat (length s);
  slab_insert A a s := vec_insert a s;
  slab_get A k s := vec_get k s;
  slab_set A k a s := match vec_get k s with Some _ => vec_set k (Some a) s | None => s end;
  slab_remove A k s := match vec_get k s with Some _ => Some (vec_set k None s) | None => None end;
  slab_iter A s := vec_iter 0 s;
|}.

Lemma vec_get_range {A} k (l : list (option A)) a : vec_get k l = Some a -> 0 <= k < Z.of_nat (length l).
Proof. intros [Hk Hl%lookup_lt_Some]%vec_get_lookup. lia. Qed.

#[export] Instance toy_slab_laws : SlabLaws.
Proof.
  constructor; cbn; intros A.
  - intros _ k. apply vec_get_nil.
  - done.
  - done.
  - apply vec_len_length.
  - intros s k a. apply vec_get_range.
  - intros a s. apply vec_insert_fresh.
  - intros a s k. apply vec_insert_get.
  - intros a s. apply vec_insert_len.
  - intros a s. apply vec_insert_length.
  - intros a s k k' [b Hb]. rewrite Hb. apply vec_set_get. by eapply vec_get_range.
  - intros a s k. destruct (vec_get k s) eqn:E; [| done]. rewrite (vec_set_len _ _ _ _ E). lia.
  - intros a s k. destruct (vec_get k s) eqn:E; [| done]. by rewrite vec_set_length.
  - intros a b s k. destruct (vec_get k s) as [c |] eqn:E; [| by rewrite E].
    pose proof (vec_get_range _ _ _ E). rewrite vec_set_get, decide_True by done.
    unfold vec_set. rewrite !decide_True by lia. apply list_insert_insert_eq.
  - intros a s k E. rewrite E. apply vec_get_lookup in E as [Hk E].
    unfold vec_set. rewrite decide_True by done. by apply list_insert_id.
  - intros s k [b Hb]. rewrite Hb. pose proof (vec_get_range _ _ _ Hb). eexists. split; [done |].
    split_and!; [intros k'; by apply vec_set_get | rewrite (vec_set_len _ _ _ _ Hb); lia |].
    by rewrite vec_set_length.
  - intros s k E. by rewrite E.
  - intros s k a. rewrite vec_iter_elem. by rewrite Z.sub_0_r.
  - intros s. apply vec_iter_nodup.
Qed.

(** ** The target and the readiness flags of Linux *)
#[export] Instance toy_usize : UsizeWidth := {| usize_bits := 64; usize_bits_cases := or_intror eq_refl |}.

#[export] Instance toy_ready : MioReady := {|
  Ready_readable := 1; Ready_writable := 2; Ready_all := 15; UnixReady_hup := 8; cfg_unix := true;
|}.

#[export] Instance toy_ready_laws : MioReadyLaws.
Proof.
  constructor; [by split | exists 0 | exists 1 | exists 3 | ..]; by vm_compute.
Qed.

(** ** An operating system: registered sources and a queue of events *)
Record toy_os := {
  os_next : Z;
  os_tokens : list (Z * Z);
  os_events : list (Z * Z);
  os_fail : bool;
}.

Definition toy_token (e : Z) (os : toy_os) : option Z :=
  snd <$> head (filter (fun p => p.1 = e) (os_tokens os)).

#[export] Instance toy_mio : Mio := {|
  Os := toy_os; PollId := Z; Evented := Z; SetReadiness := Z;
  Poll_new os := (Ok (os_next os), {| os_next := os_next os + 1; os_tokens := os_tokens os;
    os_events := os_events os; os_fail := os_fail os |});
  Registration_new2 os := ((os_next os, os_next os), {| os_next := os_next os + 1;
    os_tokens := os_tokens os; os_events := os_events os; os_fail := os_fail os |});
  Poll_register _ e t _ _ os :=
    if os_fail os then (Err (io_error AlreadyExists "register"), os)
    else (Ok tt, {| os_next := os_next os; os_tokens := (e, t) :: os_tokens os;
                    os_events := os_events os; os_fail := false |});
  Poll_deregister _ e os :=
    (Ok tt, {| os_next := os_next os; os_tokens := filter (fun p => p.1 <> e) (os_tokens os);
               os_events := os_events os; os_fail := os_fail os |});
  Poll_poll _ timeout os :=
    if os_fail os then Some (Err (io_error Other "poll"), os)
    else match os_events os, timeout with
    | [], None => None
    | evs, _ => Some (Ok evs, {| os_next := os_next os; os_tokens := os_tokens os;
                                 os_events := []; os_fail := os_fail os |})
    end;
  set_readiness e r os :=
    (Ok tt, match toy_token e os with
            | Some t => if r =? 0 then os
                        else {| os_next := os_next os; os_tokens := os_tokens os;
                                os_events := os_events os ++ [(t, r)]; os_fail := os_fail os |}
            | None => os
            end);
|}.

#[export] Instance toy_threads : OsThreads := {|
  thread_spawn os := if os_fail os then (Err (io_error Other "spawn"), os) else (Ok tt, os);
|}.

(** A small memory, which is used up from below. *)
#[export] Instance toy_boxes : BoxAlloc := {|
  box_alloc n live :=
    match nth_error [8; 16; 24; 32] n with
    | Some p => if live p then None else Some p
    | None => None
    end;
|}.
Lemma toy_boxes_aligned n q : nth_error [8; 16; 24; 32] n = Some q -> 0 < q <= 32 /\ (8 | q).
Proof.
  intros Hq%nth_error_In. destruct Hq as [<- | [<- | [<- | [<- | []]]]].
  - by split; [| exists 1].
  - by split; [| exists 2].
  - by split; [| exists 3].
  - by split; [| exists 4].
Qed.

Lemma toy_boxes_laws_any `{UsizeWidth} : BoxAllocLaws.
Proof.
  constructor. intros n live p. cbn [box_alloc toy_boxes]. destruct (nth_error _ n) as [q |] eqn:En; [| done].
  destruct (live q) eqn:E; [done |]. intros [= <-]. apply toy_boxes_aligned in En as [Hq Hd].
  split_and!; [done | lia | | etransitivity; [| exact Hd]]; unfold is_usize.
  - destruct usize_bits_cases as [-> | ->]; split; (lia || (eapply Z.le_lt_trans; [apply Hq | reflexivity])).
  - destruct usize_bits_cases as [-> | ->]; [by exists 2 | by exists 1].
Qed.
#[export] Instance toy_boxes_laws : BoxAllocLaws := toy_boxes_laws_any.

#[export] Instance toy_deps : Deps := {|
  deps_usize := toy_usize; deps_aw := toy_aw; deps_slab := toy_slab;
  deps_ready := toy_ready; deps_mio := toy_mio; deps_threads := toy_threads; deps_boxes := toy_boxes;
|}.

#[export] Instance toy_deps_laws : DepsLaws.
Proof. constructor; apply _. Qed.

(** The same on a target of 32 bits. *)
Definition toy_usize32 : UsizeWidth := {| usize_bits := 32; usize_bits_cases := or_introl eq_refl |}.

Definition toy_deps32 : Deps := {|
  deps_usize := toy_usize32; deps_aw := toy_aw; deps_slab := toy_slab;
  deps_ready := toy_ready; deps_mio := toy_mio; deps_threads := toy_threads; deps_boxes := toy_boxes;
|}.

Lemma toy_deps32_laws : @DepsLaws toy_deps32.
Proof. constructor; [apply toy_aw_laws | apply toy_slab_laws | apply toy_ready_laws | apply toy_boxes_laws_any]. Qed.

Definition toy_os_init : toy_os :=
  {| os_next := 100; os_tokens := []; os_events := []; os_fail := false |}.

(** ** A network whose connections are refused, and on which reading and accepting would
    block, except that UDP always has a datagram and a Unix socket has one when an event
    is queued *)
#[export] Instance toy_net : NetOps := {|
  SocketAddr := Z; UnixAddr := Z; Path := Z; StdTcpStream := Z; StdTcpListener := Z;
  StdUdpSocket := Z; StdUnixStream := Z; StdUnixListener := Z;
  io_read _ buf os := ((Err (io_error WouldBlock "read"), buf), os);
  io_write _ buf os := (Ok (Z.of_nat (length buf)), os);
  io_flush _ os := (Ok tt, os);
  io_close _ os := os;
  io_take_error e os := (Ok (if e =? 7 then Some (io_error ConnectionRefused "connect") else None), os);
  as_raw_fd e := e;
  tcp_connect a os := (Ok a, os);
  tcp_from_stream s os := (Ok s, os);
  tcp_bind a os := (Ok a, os);
  tcp_from_listener l os := (Ok l, os);
  tcp_accept_std _ os := (Err (io_error WouldBlock "accept"), os);
  udp_bind a os := (Ok a, os);
  udp_from_socket s os := (Ok s, os);
  udp_send_to _ buf _ os := (Ok (Z.of_nat (length buf)), os);
  udp_recv_from _ buf os := ((Ok (Z.of_nat (length buf), 4), map (fun _ => 7) buf), os);
  uds_connect p os := (Ok p, os);
  uds_pair os := (Ok (1, 2), os);
  uds_from_stream s os := (Ok s, os);
  uds_bind p os := (Ok p, os);
  uds_from_listener l os := (Ok l, os);
  uds_accept_std _ os := (Ok None, os);
  uds_datagram_bind p os := (Ok p, os);
  uds_datagram_pair os := (Ok (1, 2), os);
  uds_datagram_unbound os := (Ok 1, os);
  uds_send_to _ buf _ os := (Ok (Z.of_nat (length buf)), os);
  uds_recv_from _ buf os :=
    match os_events os with
    | [] => ((Err (io_error WouldBlock "recv"), buf), os)
    | (sender, byte) :: _ => ((Ok (1, sender), [byte]), os)
    end;
  getsockopt_peercred _ size os := ((0, (1000, 100), size), os);
  getpeereid _ os := ((0, (1000, 100)), os);
  last_os_error os := (io_error Other "errno", os);
|}.
#[export] Instance toy_options : SocketOptions := {|
  tcp_local_addr _ os := (Ok 4, os);
  tcp_peer_addr _ os := (Ok 4, os);
  tcp_shutdown _ _ os := (Ok tt, os);
  tcp_nodelay _ os := (Ok true, os);
  tcp_set_nodelay _ _ os := (Ok tt, os);
  tcp_recv_buffer_size _ os := (Ok 64, os);
  tcp_set_recv_buffer_size _ _ os := (Ok tt, os);
  tcp_send_buffer_size _ os := (Ok 64, os);
  tcp_set_send_buffer_size _ _ os := (Ok tt, os);
  tcp_keepalive _ os := (Ok None, os);
  tcp_set_keepalive _ _ os := (Ok tt, os);
  tcp_ttl _ os := (Ok 64, os);
  tcp_set_ttl _ _ os := (Ok tt, os);
  tcp_linger _ os := (Ok None, os);
  tcp_set_linger _ _ os := (Ok tt, os);
  listener_local_addr _ os := (Ok 4, os);
  listener_ttl _ os := (Ok 64, os);
  listener_set_ttl _ _ os := (Ok tt, os);
  udp_local_addr _ os := (Ok 4, os);
  udp_broadcast _ os := (Ok true, os);
  udp_set_broadcast _ _ os := (Ok tt, os);
  udp_multicast_loop_v4 _ os := (Ok true, os);
  udp_set_multicast_loop_v4 _ _ os := (Ok tt, os);
  udp_multicast_ttl_v4 _ os := (Ok 64, os);
  udp_set_multicast_ttl_v4 _ _ os := (Ok tt, os);
  udp_multicast_loop_v6 _ os := (Ok true, os);
  udp_set_multicast_loop_v6 _ _ os := (Ok tt, os);
  udp_ttl _ os := (Ok 64, os);
  udp_set_ttl _ _ os := (Ok tt, os);
  udp_join_multicast_v4 _ _ _ os := (Ok tt, os);
  udp_join_multicast_v6 _ _ _ os := (Ok tt, os);
  udp_leave_multicast_v4 _ _ _ os := (Ok tt, os);
  udp_leave_multicast_v6 _ _ _ os := (Ok tt, os);
  uds_stream_local_addr _ os := (Ok 4, os);
  uds_stream_peer_addr _ os := (Ok 4, os);
  uds_stream_shutdown _ _ os := (Ok tt, os);
  uds_listener_local_addr _ os := (Ok 4, os);
  uds_datagram_local_addr _ os := (Ok 4, os);
  uds_datagram_peer_addr _ os := (Ok 4, os);
  uds_datagram_shutdown _ _ os := (Ok tt, os);
|}.
End Toy.
