(* ===== verification/RwLock.v ===== *)
(** * reactor/sharded_rwlock.rs: the sharded reader-writer lock

    [new], [read], [write] and the two [Drop] implementations, as programs over
    the vector of shards and the protected value. *)
From S2P Require Import Prelude Conc RelyGuar Deps.

Module RwLock.
Section rwlock.
Context `{RawRwLock} {T : Type}.

Record RwLock := mkRwLock { shards : list raw; value : T }.

(** [usize::next_power_of_two] *)
Definition next_power_of_two (n : Z) : Z := 2 ^ Z.log2_up n.

(** [num_cpus] is what [num_cpus::get()] returns. *)
Definition new (num_cpus : Z) (v : T) : RwLock :=
  let num_shards := next_power_of_two num_cpus in
  {| shards := replicate (Z.to_nat num_shards) raw_new; value := v |}.

Definition set_shard (k : nat) (s : raw) (l : RwLock) : RwLock :=
  {| shards := <[k := s]> (shards l); value := value l |}.

(** Index a shard of the vector; Rust panics when the index is out of bounds. *)
Definition on_shard (k : nat) (f : raw -> option raw) : prog RwLock unit :=
  action (fun l =>
    match shards l !! k with
    | None => Crash (Panicked "index out of bounds")
    | Some s => match f s with
                | Some s' => Next tt (set_shard k s' l)
                | None => Wait
                end
    end).

Definition shards_len : prog RwLock nat := atom (fun l => (length (shards l), l)).

(** A read guard holds the guard of one shard. *)
Definition ReadGuard : Type := nat.

Definition read (thread_index : Z) : prog RwLock ReadGuard :=
  let! n := shards_len in
  let shard_index := Z.to_nat (Z.land thread_index (Z.of_nat n - 1)) in
  let! _ := on_shard shard_index raw_read in
  Ret shard_index.

Definition drop_read (g : ReadGuard) : prog RwLock unit :=
  on_shard g (fun s => Some (raw_unlock_read s)).

(** [for shard in &self.shards { mem::forget(shard.write()) }] *)
Fixpoint write_loop (k n : nat) : prog RwLock unit :=
  match n with
  | O => Ret tt
  | S n' => let! _ := on_shard k raw_write in write_loop (S k) n'
  end.

Definition write : prog RwLock unit :=
  let! n := shards_len in write_loop 0 n.

(** [for shard in self.parent.shards.iter().rev() { shard.force_unlock_write() }] *)
Fixpoint unlock_loop (n : nat) : prog RwLock unit :=
  match n with
  | O => Ret tt
  | S k => let! _ := on_shard k (fun s => Some (raw_unlock_write s)) in unlock_loop k
  end.

Definition drop_write : prog RwLock unit :=
  let! n := shards_len in unlock_loop n.

Definition deref : prog RwLock T := atom (fun l => (value l, l)).
Definition deref_mut (v : T) : prog RwLock unit :=
  atom (fun l => (tt, {| shards := shards l; value := v |})).

(** ** The specification: an atomic reader-writer lock *)

Record ARwLock := mkARwLock { a_readers : nat; a_writer : bool; a_value : T }.

Inductive astep : ARwLock -> ARwLock -> Prop :=
| astep_read n v : astep (mkARwLock n false v) (mkARwLock (S n) false v)
| astep_drop_read n b v : astep (mkARwLock (S n) b v) (mkARwLock n b v)
| astep_write v : astep (mkARwLock 0 false v) (mkARwLock 0 true v)
| astep_update v v' : astep (mkARwLock 0 true v) (mkARwLock 0 true v')
| astep_drop_write v : astep (mkARwLock 0 true v) (mkARwLock 0 false v).

(** The readers of the sharded lock are those of all its shards; it is held by a
    writer exactly when its last shard is, since that one is locked last and
    unlocked first. *)
Definition abs (l : RwLock) : ARwLock :=
  {| a_readers := sum_list (raw_readers <$> shards l);
     a_writer := match last (shards l) with Some s => raw_writer s | None => false end;
     a_value := value l |}.

(** ** Clients: a critical section under the read lock, or one under the write lock *)

Inductive client :=
| CRead
| CWrite (h : T -> T).

Definition client_prog (thread_index : Z) (c : client) : prog RwLock T :=
  match c with
  | CRead =>
      let! g := read thread_index in
      let! v := deref in
      let! _ := drop_read g in
      Ret v
  | CWrite h =>
      let! _ := write in
      let! v := deref in
      let! _ := deref_mut (h v) in
      let! _ := drop_write in
      Ret (h v)
  end.

Definition clients (cs : list (Z * client)) : list (prog RwLock T) :=
  (fun c => client_prog c.1 c.2) <$> cs.

(** ** The number of shards *)

Lemma next_power_of_two_pos n : 1 <= next_power_of_two n.
Proof.
  unfold next_power_of_two. pose proof (Z.log2_up_nonneg n).
  pose proof (Z.pow_pos_nonneg 2 (Z.log2_up n)). lia.
Qed.

(** A power of two makes [thread_index & (len - 1)] the remainder by [len]. *)
Lemma land_pow2_pred ti e : 0 <= e -> Z.land ti (2 ^ e - 1) = ti mod 2 ^ e.
Proof.
  intros He. replace (2 ^ e - 1) with (Z.ones e) by (rewrite Z.ones_equiv; lia).
  by apply Z.land_ones.
Qed.

Definition pow2_len (N : nat) : Prop := exists e, 0 <= e /\ Z.of_nat N = 2 ^ e.

Lemma pow2_len_pos N : pow2_len N -> (0 < N)%nat.
Proof. intros (e & He & E). pose proof (Z.pow_pos_nonneg 2 e). lia. Qed.

Lemma new_len num_cpus v : pow2_len (length (shards (new num_cpus v))).
Proof.
  exists (Z.log2_up num_cpus). split; [apply Z.log2_up_nonneg |]. cbn.
  rewrite length_replicate. pose proof (next_power_of_two_pos num_cpus).
  unfold next_power_of_two in *. lia.
Qed.

Lemma shard_index_lt ti N :
  pow2_len N -> (Z.to_nat (Z.land ti (Z.of_nat N - 1)) < N)%nat.
Proof.
  intros (e & He & E). rewrite E, land_pow2_pred by done.
  pose proof (Z.mod_pos_bound ti (2 ^ e)). pose proof (Z.pow_pos_nonneg 2 e). lia.
Qed.

End rwlock.
Arguments RwLock {_} T.
Arguments client T : clear implicits.
Arguments ARwLock T : clear implicits.
End RwLock.
