(* ===== verification/RwLockProof.v ===== *)
(** * The sharded lock implements an atomic reader-writer lock

    The ghost state records which shard each reader has locked, how many shards
    each writer has locked (always a prefix, because shards are locked in order
    and unlocked in reverse) and the order in which critical sections commit. *)
From S2P Require Import Prelude Conc RelyGuar Deps Toy RwLock.

(** ** Counting the readers of a shard *)

Definition rd_count (k : nat) (m : gmap nat nat) : nat := size (filter (fun p => p.2 = k) m).

Lemma rd_count_insert k i k' m :
  m !! i = None ->
  rd_count k (<[i := k']> m) = ((if decide (k' = k) then 1 else 0) + rd_count k m)%nat.
Proof.
  intros Hi. unfold rd_count. destruct (decide (k' = k)) as [E | E].
  - rewrite map_filter_insert_True by done. rewrite map_size_insert_None; [done |].
    apply map_lookup_filter_None. by left.
  - rewrite map_filter_insert_False by done. rewrite delete_id by done. done.
Qed.

Lemma rd_count_delete k i k' m :
  m !! i = Some k' ->
  rd_count k m = ((if decide (k' = k) then 1 else 0) + rd_count k (delete i m))%nat.
Proof.
  intros Hi. rewrite <- (insert_delete_id m i k') at 1 by done.
  apply rd_count_insert, lookup_delete_eq.
Qed.

Lemma rd_count_pos k m : (0 < rd_count k m)%nat <-> exists i, m !! i = Some k.
Proof.
  split.
  - intros Hp. destruct (decide (filter (fun p : nat * nat => p.2 = k) m = ∅)) as [E | E].
    { unfold rd_count in Hp. rewrite E, map_size_empty in Hp. lia. }
    apply map_choose in E as (i & k' & [Hi Hk]%map_lookup_filter_Some). cbn in Hk.
    subst. by exists i.
  - intros [i Hi]. rewrite (rd_count_delete k i k) by done. case_decide; [lia | done].
Qed.

(** ** Sums over the shards *)

Lemma sum_list_insert (l : list nat) k x y :
  l !! k = Some x -> (sum_list (<[k := y]> l) + x = sum_list l + y)%nat.
Proof.
  revert k. induction l as [| z l IH]; intros [| k] Hk; simpl in *; simplify_eq; [lia |].
  specialize (IH k Hk). lia.
Qed.

Lemma sum_list_zero (l : list nat) : (forall k x, l !! k = Some x -> x = 0%nat) -> sum_list l = 0%nat.
Proof.
  induction l as [| z l IH]; intros Hl; [done |]. cbn.
  rewrite (Hl 0%nat z) by done. rewrite IH; [done |]. intros k. apply (Hl (S k)).
Qed.

Module RwLockProof.
Import RwLock.
Section proof.
Context `{RawRwLockLaws} {T : Type}.
Context (cs : list (Z * client T)) (v0 : T) (N : nat) (HN : pow2_len N).

Record ghost := { g_rd : gmap nat nat; g_wr : nat -> nat; g_log : list nat }.

Definition effect (v : T) (i : nat) : T :=
  match cs !! i with Some (_, CWrite h) => h v | _ => v end.

(** The value after the writers of [log] have run one after the other. *)
Definition replay (log : list nat) : T := foldl effect v0 log.

Definition is_writer (i : nat) : Prop := exists ti h, cs !! i = Some (ti, CWrite h).

Abbreviation st := (RwLock T * ghost)%type.

Record lock_inv (s : st) : Prop := {
  li_len : length (shards s.1) = N;
  li_wr k x : shards s.1 !! k = Some x ->
    raw_writer x = true <-> exists i, (k < g_wr s.2 i)%nat;
  li_rd k x : shards s.1 !! k = Some x -> raw_readers x = rd_count k (g_rd s.2);
  li_rd_lt i k : g_rd s.2 !! i = Some k -> (k < N)%nat;
  li_excl i j : i <> j -> g_wr s.2 i = 0%nat \/ g_wr s.2 j = 0%nat;
  li_rw i j k : g_rd s.2 !! j = Some k -> (g_wr s.2 i <= k)%nat;
  li_le i : (g_wr s.2 i <= N)%nat;
  li_dom_rd i : is_Some (g_rd s.2 !! i) -> (i < length cs)%nat;
  li_dom_wr i : (0 < g_wr s.2 i)%nat -> (i < length cs)%nat;
  li_val : value s.1 = replay (g_log s.2);
  li_nodup : NoDup (g_log s.2);
  li_writers i : i ∈ g_log s.2 -> is_writer i;
}.

Definition abs_step (l l' : RwLock T) : Prop := abs l = abs l' \/ astep (abs l) (abs l').

Record lock_act (i : nat) (s s' : st) : Prop := {
  la_rd j : j <> i -> g_rd s'.2 !! j = g_rd s.2 !! j;
  la_wr j : j <> i -> g_wr s'.2 j = g_wr s.2 j;
  la_val : (value s'.1 = value s.1 /\ g_log s'.2 = g_log s.2) \/
           (g_wr s'.2 i = N /\ g_log s'.2 = g_log s.2 ++ [i]);
  la_abs : abs_step s.1 s'.1;
}.

(** A thread that waits holds no read lock, and wants the shard after those it has. *)
Definition lock_blk (i : nat) (_ : bool) (s : st) : Prop :=
  g_rd s.2 !! i = None /\
  exists k x, shards s.1 !! k = Some x /\ ~ raw_free x /\
    (g_wr s.2 i = 0%nat \/ g_wr s.2 i = k).

(** What thread [i] knows about itself, and about the log. *)
Definition own (i : nat) (r : option nat) (n : nat) (L : list nat -> Prop) (s : st) : Prop :=
  g_rd s.2 !! i = r /\ g_wr s.2 i = n /\ L (g_log s.2).

Definition log_stable (i : nat) (L : list nat -> Prop) : Prop :=
  forall log j, j <> i -> L log -> L (log ++ [j]).

Lemma own_stable i r n L : log_stable i L -> stable lock_inv lock_act i (own i r n L).
Proof.
  intros HL s s' (Hr & Hn & Hl) _ (j & Hj & Ha). unfold own.
  rewrite (la_rd _ _ _ Ha), (la_wr _ _ _ Ha) by done. split_and!; [done | done |].
  destruct (la_val _ _ _ Ha) as [[_ ->] | [_ ->]]; [done | by apply HL].
Qed.

(** Inside the write lock nobody else changes the value. *)
Lemma own_value_stable i r L v :
  log_stable i L -> stable lock_inv lock_act i (fun s => own i r N L s /\ value s.1 = v).
Proof.
  intros HL s s' [Ho Hv] Hi Hex. assert (own i r N L s') as Ho' by (by eapply own_stable).
  split; [done |]. destruct Hex as (j & Hj & Ha).
  destruct (la_val _ _ _ Ha) as [[-> _] | [HjN _]]; [done |].
  destruct (li_excl _ Hi j i Hj) as [E | E].
  - pose proof (pow2_len_pos _ HN). lia.
  - destruct Ho' as (_ & HiN & _). pose proof (pow2_len_pos _ HN). lia.
Qed.

(** ** The five transitions *)

Lemma abs_set_shard (l : RwLock T) k x x' :
  length (shards l) = N -> shards l !! k = Some x ->
  (a_readers (abs (set_shard k x' l)) + raw_readers x = a_readers (abs l) + raw_readers x')%nat /\
  a_writer (abs (set_shard k x' l)) =
    (if decide (k = pred N) then raw_writer x' else a_writer (abs l)) /\
  a_value (abs (set_shard k x' l)) = a_value (abs l).
Proof.
  intros Hl Hk. unfold abs. cbn. split_and!; [| | done].
  - rewrite list_fmap_insert. apply sum_list_insert. by rewrite list_lookup_fmap, Hk.
  - rewrite !last_lookup, length_insert, Hl. case_decide as E.
    + subst k. rewrite list_lookup_insert_eq; [done |]. by eapply lookup_lt_Some.
    + by rewrite list_lookup_insert_ne.
Qed.

Lemma shard_insert (l : RwLock T) k x' j y :
  shards (set_shard k x' l) !! j = Some y ->
  (j = k /\ y = x') \/ (j <> k /\ shards l !! j = Some y).
Proof.
  cbn. intros Hj. apply list_lookup_insert_Some in Hj as [(-> & -> & _) | [Hne Hj]]; [by left |].
  right. split; [congruence | done].
Qed.

Lemma abs_eq (a b : ARwLock T) :
  a_readers a = a_readers b -> a_writer a = a_writer b -> a_value a = a_value b -> a = b.
Proof. destruct a, b. cbn. by intros -> -> ->. Qed.

Lemma last_shard s : lock_inv s -> exists x, shards s.1 !! pred N = Some x /\ a_writer (abs s.1) = raw_writer x.
Proof.
  intros Hi. pose proof (li_len _ Hi) as Hl. pose proof (pow2_len_pos _ HN).
  destruct (lookup_lt_is_Some_2 (shards s.1) (pred N)) as [x Hx]; [lia |].
  exists x. split; [done |]. unfold abs. cbn. by rewrite last_lookup, Hl, Hx.
Qed.

(** No writer has reached the last shard while some shard is not write-locked. *)
Lemma abs_writer_false s k x :
  lock_inv s -> shards s.1 !! k = Some x -> raw_writer x = false -> a_writer (abs s.1) = false.
Proof.
  intros Hi Hk Hx. destruct (last_shard s Hi) as (y & Hy & ->).
  destruct (raw_writer y) eqn:Ey; [| done]. exfalso.
  apply (li_wr _ Hi _ _ Hy) in Ey as [i Hlt]. apply lookup_lt_Some in Hk as Hkl.
  rewrite (li_len _ Hi) in Hkl.
  assert (raw_writer x = true); [| congruence].
  apply (li_wr _ Hi _ _ Hk). exists i. lia.
Qed.

Lemma full_writer_abs s i :
  lock_inv s -> g_wr s.2 i = N -> abs s.1 = mkARwLock 0 true (value s.1).
Proof.
  intros Hi HiN. pose proof (pow2_len_pos _ HN). apply abs_eq; cbn; [| | done].
  - apply sum_list_zero. intros k n Hk. rewrite list_lookup_fmap in Hk.
    destruct (shards s.1 !! k) as [x |] eqn:Hx; cbn in Hk; simplify_eq.
    rewrite (li_rd _ Hi _ _ Hx). destruct (rd_count k (g_rd s.2)) eqn:E; [done |].
    destruct (proj1 (rd_count_pos k (g_rd s.2))) as [j Hj]; [lia |].
    pose proof (li_rw _ Hi i _ _ Hj). pose proof (li_rd_lt _ Hi _ _ Hj). lia.
  - destruct (last_shard s Hi) as (y & Hy & Hw). unfold abs in Hw. cbn in Hw. rewrite Hw.
    apply (li_wr _ Hi _ _ Hy). exists i. lia.
Qed.

Definition with_rd (g : ghost) (m : gmap nat nat) : ghost := {| g_rd := m; g_wr := g_wr g; g_log := g_log g |}.
Definition with_wr (g : ghost) (i n : nat) : ghost :=
  {| g_rd := g_rd g; g_wr := <[i := n]> (g_wr g); g_log := g_log g |}.
Definition with_log (g : ghost) (i : nat) : ghost :=
  {| g_rd := g_rd g; g_wr := g_wr g; g_log := g_log g ++ [i] |}.

(** A thread's entry in the ghost state is the only one it changes. *)
Ltac own_entry := repeat match goal with
  | |- context [<[?i := _]> _ !! ?j] => rewrite (lookup_insert_ne _ i j) by congruence
  | |- context [delete ?i _ !! ?j] => rewrite (lookup_delete_ne _ i j) by congruence
  | |- context [<[?i := ?n]> ?f ?i] => rewrite (fn_lookup_insert f i n)
  | |- context [<[?i := ?n]> ?f ?j] => rewrite (fn_lookup_insert_ne f i j n) by congruence
  end.

Lemma trans_read i l g k x x' :
  lock_inv (l, g) -> (i < length cs)%nat -> g_rd g !! i = None -> g_wr g i = 0%nat ->
  shards l !! k = Some x -> raw_read x = Some x' ->
  lock_inv (set_shard k x' l, with_rd g (<[i := k]> (g_rd g))) /\
  lock_act i (l, g) (set_shard k x' l, with_rd g (<[i := k]> (g_rd g))).
Proof.
  intros Hi Hlt Hr Hw Hk Hx. destruct (raw_read_some _ _ Hx) as (Hx1 & Hx2 & Hx3).
  pose proof (li_len _ Hi) as Hlen. cbn in Hlen.
  pose proof (lookup_lt_Some _ _ _ Hk) as Hkl.
  assert (forall j, (g_wr g j <= k)%nat) as Hnw.
  { intros j. destruct (decide (g_wr g j <= k)%nat); [done |]. exfalso.
    assert (raw_writer x = true); [| congruence].
    apply (li_wr _ Hi _ _ Hk). exists j. cbn. lia. }
  split; [constructor; cbn | constructor; cbn].
  - by rewrite length_insert.
  - intros j y [[-> ->] | [Hne Hj]]%shard_insert; [| by apply (li_wr _ Hi)].
    rewrite Hx2. split; [done |]. intros [j Hj]. specialize (Hnw j). lia.
  - intros j y [[-> ->] | [Hne Hj]]%shard_insert; rewrite rd_count_insert by done.
    + rewrite decide_True by done. pose proof (li_rd _ Hi _ _ Hk). cbn in *. lia.
    + rewrite decide_False by congruence. by apply (li_rd _ Hi).
  - intros j k' [(-> & ->) | [Hne Hj]]%lookup_insert_Some; [lia | by apply (li_rd_lt _ Hi j)].
  - apply (li_excl _ Hi).
  - intros j j' k' [(-> & ->) | [Hne Hj]]%lookup_insert_Some; [apply Hnw | by apply (li_rw _ Hi j j')].
  - apply (li_le _ Hi).
  - intros j [k' [(-> & ->) | [Hne Hj]]%lookup_insert_Some]; [done |]. by apply (li_dom_rd _ Hi).
  - apply (li_dom_wr _ Hi).
  - apply (li_val _ Hi).
  - apply (li_nodup _ Hi).
  - apply (li_writers _ Hi).
  - intros j Hj. by own_entry.
  - done.
  - by left.
  - right. destruct (abs_set_shard l k x x') as (E1 & E2 & E3); [lia | done |].
    pose proof (abs_writer_false (l, g) k x Hi Hk Hx1) as Hf. cbn [fst] in Hf.
    rewrite Hx2, Hf in E2. destruct (abs l) as [n b v] eqn:El.
    destruct (abs (set_shard k x' l)) as [n' b' v'] eqn:El'. cbn in *.
    assert (n' = S n) as -> by lia. assert (b' = false) as -> by (by destruct (decide (k = pred N))).
    subst. constructor.
Qed.

Lemma trans_drop_read i l g k :
  lock_inv (l, g) -> g_rd g !! i = Some k -> g_wr g i = 0%nat ->
  exists x, shards l !! k = Some x /\
  lock_inv (set_shard k (raw_unlock_read x) l, with_rd g (delete i (g_rd g))) /\
  lock_act i (l, g) (set_shard k (raw_unlock_read x) l, with_rd g (delete i (g_rd g))).
Proof.
  intros Hi Hr Hw. pose proof (li_len _ Hi) as Hlen. cbn in Hlen.
  destruct (lookup_lt_is_Some_2 (shards l) k) as [x Hk].
  { rewrite Hlen. by apply (li_rd_lt _ Hi i). }
  exists x. split; [done |]. pose proof (rd_count_delete k i k (g_rd g) Hr) as Hc.
  rewrite decide_True in Hc by done. pose proof (li_rd _ Hi _ _ Hk) as Hx. cbn in Hx.
  destruct (raw_unlock_read_some x (rd_count k (delete i (g_rd g)))) as [Hx1 Hx2]; [lia |].
  split; [constructor; cbn | constructor; cbn].
  - by rewrite length_insert.
  - intros j y [[-> ->] | [Hne Hj]]%shard_insert; [| by apply (li_wr _ Hi)].
    rewrite Hx2. by apply (li_wr _ Hi).
  - intros j y [[-> ->] | [Hne Hj]]%shard_insert; [done |].
    pose proof (rd_count_delete j i k (g_rd g) Hr) as Hc'. rewrite decide_False in Hc' by congruence.
    pose proof (li_rd _ Hi _ _ Hj). cbn in *. lia.
  - intros j k' [_ Hj]%lookup_delete_Some. by apply (li_rd_lt _ Hi j).
  - apply (li_excl _ Hi).
  - intros j j' k' [_ Hj]%lookup_delete_Some. by apply (li_rw _ Hi j j').
  - apply (li_le _ Hi).
  - intros j [k' [_ Hj]%lookup_delete_Some]. by apply (li_dom_rd _ Hi).
  - apply (li_dom_wr _ Hi).
  - apply (li_val _ Hi).
  - apply (li_nodup _ Hi).
  - apply (li_writers _ Hi).
  - intros j Hj. by own_entry.
  - done.
  - by left.
  - right. destruct (abs_set_shard l k x (raw_unlock_read x)) as (E1 & E2 & E3); [lia | done |].
    rewrite Hx2 in E2. pose proof (last_shard (l, g) Hi) as (y & Hy & Ey). cbn [fst] in Hy, Ey.
    destruct (abs l) as [n b v] eqn:El.
    destruct (abs (set_shard k (raw_unlock_read x) l)) as [n' b' v'] eqn:El'. cbn in *.
    assert (n = S n') as -> by lia.
    assert (b' = b) as ->. { destruct (decide (k = pred N)); [| done]. subst k. congruence. }
    subst. constructor.
Qed.

(** Writers that share a shard with nobody. *)
Lemma other_writers_idle i k l g x :
  lock_inv (l, g) -> g_wr g i = k -> shards l !! k = Some x -> raw_writer x = false ->
  forall j, j <> i -> g_wr g j = 0%nat.
Proof.
  intros Hi Hw Hk Hx j Hj. destruct (li_excl _ Hi i j) as [E | E]; [congruence | | done].
  cbn in E. rewrite E in Hw. subst k. destruct (g_wr g j) eqn:Ej; [done |]. exfalso.
  assert (raw_writer x = true); [| congruence].
  apply (li_wr _ Hi _ _ Hk). exists j. cbn. lia.
Qed.

(** A writer that goes up or down shard by shard meets no reader of a shard below [m]. *)
Definition no_reader_below (m : nat) (g : ghost) : Prop := forall j k', g_rd g !! j = Some k' -> (m <= k')%nat.

Lemma no_reader_count m k g : no_reader_below m g -> (k < m)%nat -> rd_count k (g_rd g) = 0%nat.
Proof.
  intros Hrd Hk. destruct (rd_count k (g_rd g)) eqn:E; [done |].
  destruct (proj1 (rd_count_pos k (g_rd g))) as [j Hj]; [lia |]. specialize (Hrd _ _ Hj). lia.
Qed.

(** The only writer passes shard [k], in either direction: it held [k] or [S k] shards and
    holds [c] of them afterwards. *)
Lemma writer_moves i l g k c x' :
  lock_inv (l, g) -> (i < length cs)%nat -> (k < N)%nat ->
  (forall j, j <> i -> g_wr g j = 0%nat) -> no_reader_below (S k) g ->
  (k <= g_wr g i <= S k)%nat -> (k <= c <= S k)%nat ->
  raw_readers x' = 0%nat -> (raw_writer x' = true <-> (k < c)%nat) ->
  lock_inv (set_shard k x' l, with_wr g i c).
Proof.
  intros Hi Hlt HkN Hidle Hrd Hw Hc Hx0 Hxw. pose proof (li_len _ Hi) as Hlen. cbn in Hlen. constructor; cbn.
  - by rewrite length_insert.
  - intros j y [[-> ->] | [Hne Hj]]%shard_insert.
    + rewrite Hxw. split; [intros Hkc; exists i; by own_entry |]. intros [j Hj]. revert Hj.
      destruct (decide (j = i)) as [-> |]; own_entry; [done |]. rewrite Hidle by done. lia.
    + rewrite (li_wr _ Hi _ _ Hj). cbn. split; intros [j' Hj']; exists j'; revert Hj';
        (destruct (decide (j' = i)) as [-> |]; own_entry; [lia | done]).
  - intros j y [[-> ->] | [Hne Hj]]%shard_insert; [| by apply (li_rd _ Hi)].
    rewrite Hx0. symmetry. apply (no_reader_count (S k)); [done | lia].
  - intros j k'. apply (li_rd_lt _ Hi).
  - intros j j' Hne. destruct (decide (j = i)) as [-> |]; [right | left]; own_entry; by apply Hidle.
  - intros j j' k' Hj. destruct (decide (j = i)) as [-> |]; own_entry; [| by apply (li_rw _ Hi j j')].
    specialize (Hrd _ _ Hj). lia.
  - intros j. destruct (decide (j = i)) as [-> |]; own_entry; [lia | apply (li_le _ Hi)].
  - intros j. apply (li_dom_rd _ Hi).
  - intros j. destruct (decide (j = i)) as [-> |]; own_entry; [done | apply (li_dom_wr _ Hi)].
  - apply (li_val _ Hi).
  - apply (li_nodup _ Hi).
  - apply (li_writers _ Hi).
Qed.

(** Without readers the abstract lock has none either. *)
Lemma no_readers_abs l g : lock_inv (l, g) -> no_reader_below N g -> a_readers (abs l) = 0%nat.
Proof.
  intros Hi Hrd. cbn. apply sum_list_zero. intros m n Hm. rewrite list_lookup_fmap in Hm.
  destruct (shards l !! m) as [y |] eqn:Hy; cbn in Hm; simplify_eq. rewrite (li_rd _ Hi _ _ Hy).
  apply (no_reader_count N); [done |]. apply lookup_lt_Some in Hy. pose proof (li_len _ Hi). cbn in *. lia.
Qed.

Lemma trans_write i l g k x x' :
  lock_inv (l, g) -> (i < length cs)%nat -> g_wr g i = k ->
  shards l !! k = Some x -> raw_write x = Some x' ->
  lock_inv (set_shard k x' l, with_wr g i (S k)) /\
  lock_act i (l, g) (set_shard k x' l, with_wr g i (S k)).
Proof.
  intros Hi Hlt Hw Hk Hx. destruct (raw_write_some _ _ Hx) as ([Hx0 Hx1] & Hx2 & Hx3).
  pose proof (li_len _ Hi) as Hlen. cbn in Hlen. pose proof (lookup_lt_Some _ _ _ Hk) as Hkl.
  pose proof (other_writers_idle i k l g x Hi Hw Hk Hx1) as Hidle.
  pose proof (li_rd _ Hi _ _ Hk) as Hrc. cbn in Hrc.
  assert (no_reader_below (S k) g) as Hrd.
  { intros j k' Hj. pose proof (li_rw _ Hi i _ _ Hj). cbn in *. assert (k' <> k); [| lia]. intros ->.
    assert (0 < rd_count k (g_rd g))%nat by (apply rd_count_pos; by exists j). lia. }
  split; [apply writer_moves; [done | done | lia | done | done | lia | lia | lia | by rewrite Hx2; split; [lia |]] |].
  constructor; cbn; [done | intros j Hj; by own_entry | by left |].
  destruct (abs_set_shard l k x x') as (E1 & E2 & E3); [lia | done |].
  pose proof (abs_writer_false (l, g) k x Hi Hk Hx1) as Hf. cbn [fst] in Hf.
  destruct (decide (k = pred N)) as [-> | Hne].
  - right. pose proof (no_readers_abs l g Hi) as Hr0. rewrite Nat.succ_pred in Hrd by lia. specialize (Hr0 Hrd).
    destruct (abs l) as [n b v] eqn:El. destruct (abs (set_shard (pred N) x' l)) as [n' b' v'] eqn:El'.
    cbn in *. subst. assert (n' = 0%nat) as -> by lia. rewrite Hx2. constructor.
  - left. apply abs_eq; [lia | congruence | congruence].
Qed.

Lemma trans_unlock i l g k :
  lock_inv (l, g) -> g_wr g i = S k ->
  exists x, shards l !! k = Some x /\
  lock_inv (set_shard k (raw_unlock_write x) l, with_wr g i k) /\
  lock_act i (l, g) (set_shard k (raw_unlock_write x) l, with_wr g i k).
Proof.
  intros Hi Hw. pose proof (li_len _ Hi) as Hlen. cbn in Hlen.
  pose proof (li_le _ Hi i) as Hle. cbn in Hle.
  destruct (lookup_lt_is_Some_2 (shards l) k) as [x Hk]; [lia |]. exists x. split; [done |].
  assert (raw_writer x = true) as Hxw by (apply (li_wr _ Hi _ _ Hk); exists i; cbn; lia).
  destruct (raw_unlock_write_free x Hxw) as [Hx1 Hx2].
  assert (forall j, j <> i -> g_wr g j = 0%nat) as Hidle.
  { intros j Hj. destruct (li_excl _ Hi i j) as [E | E]; [congruence | cbn in E; lia | done]. }
  assert (no_reader_below (S k) g) as Hrd.
  { intros j k' Hj. pose proof (li_rw _ Hi i _ _ Hj). cbn in *. lia. }
  assert (raw_readers x = 0%nat) as Hx0.
  { rewrite (li_rd _ Hi _ _ Hk). apply (no_reader_count (S k)); [done | lia]. }
  assert (i < length cs)%nat as Hlt by (apply (li_dom_wr _ Hi); cbn; lia).
  split; [apply writer_moves; [done | done | lia | done | done | lia | lia | lia | by rewrite Hx2; split; [| lia]] |].
  constructor; cbn; [done | intros j Hj; by own_entry | by left |].
  destruct (abs_set_shard l k x (raw_unlock_write x)) as (E1 & E2 & E3); [lia | done |].
  destruct (decide (k = pred N)) as [-> | Hne].
  - right. pose proof (full_writer_abs (l, g) i Hi) as Ea. cbn [fst] in Ea. rewrite Ea in * by (cbn; lia).
    destruct (abs (set_shard (pred N) _ l)) as [n' b' v'] eqn:El'. cbn in *. subst.
    assert (n' = 0%nat) as -> by lia. rewrite Hx2. constructor.
  - left. apply abs_eq; [lia | congruence | congruence].
Qed.

Lemma trans_update i l g h ti :
  lock_inv (l, g) -> cs !! i = Some (ti, CWrite h) -> g_wr g i = N -> i ∉ g_log g ->
  lock_inv ({| shards := shards l; value := h (value l) |}, with_log g i) /\
  lock_act i (l, g) ({| shards := shards l; value := h (value l) |}, with_log g i).
Proof.
  intros Hi Hc Hw Hn. split; [constructor; cbn | constructor; cbn].
  - apply (li_len _ Hi).
  - apply (li_wr _ Hi).
  - apply (li_rd _ Hi).
  - apply (li_rd_lt _ Hi).
  - apply (li_excl _ Hi).
  - apply (li_rw _ Hi).
  - apply (li_le _ Hi).
  - apply (li_dom_rd _ Hi).
  - apply (li_dom_wr _ Hi).
  - unfold replay. rewrite foldl_app. cbn. pose proof (li_val _ Hi) as E. cbn in E.
    unfold effect at 1. by rewrite Hc, E.
  - apply NoDup_app. split_and!; [apply (li_nodup _ Hi) | | by apply NoDup_singleton].
    intros j Hj ->%list_elem_of_singleton. done.
  - intros j [Hj | ->%list_elem_of_singleton]%elem_of_app; [by apply (li_writers _ Hi) |].
    by exists ti, h.
  - done.
  - done.
  - right. done.
  - right. pose proof (full_writer_abs (l, g) i Hi Hw) as E. cbn [fst] in E. rewrite E.
    replace (abs _) with (mkARwLock 0 true (h (value l))); [constructor |].
    unfold abs in *. cbn in *. injection E as E1 E2. by rewrite E1, E2.
Qed.

(** ** What each operation guarantees to the thread that calls it *)

Abbreviation lwp := (wp lock_inv lock_act lock_blk).

Section thread.
Context (i : nat) (Hlt : (i < length cs)%nat).
Context (L : list nat -> Prop) (HL : log_stable i L).

Lemma wp_shards_len {B} r n (k : nat -> prog (RwLock T) B) Q s :
  own i r n L s -> (forall s', own i r n L s' -> lwp i (k N) Q s') ->
  lwp i (bind shards_len k) Q s.
Proof.
  intros Ho Hk. eapply wp_atom; [by apply own_stable | done |]. intros l g Ho' Hi. cbn.
  exists g. split_and!; [done | | ].
  - constructor; [done | done | by left | by left].
  - rewrite (li_len _ Hi : length (shards l) = N). by apply Hk.
Qed.

Lemma wp_deref {B} r n (k : T -> prog (RwLock T) B) Q s :
  own i r n L s ->
  (forall s', own i r n L s' -> lock_inv s' -> lwp i (k (value s'.1)) Q s') ->
  lwp i (bind deref k) Q s.
Proof.
  intros Ho Hk. eapply wp_atom; [by apply own_stable | done |]. intros l g Ho' Hi. cbn.
  exists g. split_and!; [done | | ].
  - constructor; [done | done | by left | by left].
  - by apply (Hk (l, g)).
Qed.

Lemma wp_read ti {B} (k : nat -> prog (RwLock T) B) Q s :
  own i None 0 L s ->
  (forall c s', own i (Some c) 0 L s' -> lwp i (k c) Q s') ->
  lwp i (bind (read ti) k) Q s.
Proof.
  intros Ho Hk. apply wp_bind_assoc. eapply wp_shards_len; [done |]. intros s1 Ho1.
  apply wp_bind_assoc. eapply wp_action; [by apply own_stable | done |]. intros l g (Hr & Hw & Hl) Hi. cbn in *.
  pose proof (shard_index_lt ti N HN) as Hb. set (c := Z.to_nat _) in *.
  destruct (shards l !! c) as [x |] eqn:Hc.
  2: { apply lookup_ge_None in Hc. rewrite (li_len _ Hi : length (shards l) = N) in Hc. lia. }
  destruct (raw_read x) as [x' |] eqn:Hx.
  - destruct (trans_read i l g c x x') as [Hi' Ha]; [done.. |].
    eexists. split_and!; [exact Hi' | exact Ha |].
    cbn. apply Hk. split_and!; cbn; [apply lookup_insert_eq | done | done].
  - split; [done |]. exists c, x. split_and!; [done | | by left].
    intros Hf. destruct (raw_read_free _ Hf). congruence.
Qed.

Lemma wp_drop_read {B} c (k : unit -> prog (RwLock T) B) Q s :
  own i (Some c) 0 L s ->
  (forall s', own i None 0 L s' -> lwp i (k tt) Q s') ->
  lwp i (bind (drop_read c) k) Q s.
Proof.
  intros Ho Hk. eapply wp_action; [by apply own_stable | done |].
  intros l g (Hr & Hw & Hl) Hi. cbn in *.
  destruct (trans_drop_read i l g c) as (x & Hx & Hi' & Ha); [done.. |]. rewrite Hx.
  eexists. split_and!; [exact Hi' | exact Ha |]. apply Hk.
  split_and!; cbn; [apply lookup_delete_eq | done | done].
Qed.

Lemma wp_write_loop {B} n m (k : unit -> prog (RwLock T) B) Q s :
  own i None n L s -> (n + m = N)%nat ->
  (forall s', own i None N L s' -> lwp i (k tt) Q s') ->
  lwp i (bind (write_loop n m) k) Q s.
Proof.
  revert n s. induction m as [| m IH]; intros n s Ho Hm Hk; cbn [write_loop].
  { cbn. replace n with N in Ho by lia. by apply Hk. }
  apply wp_bind_assoc. eapply wp_action; [by apply own_stable | done |]. intros l g (Hr & Hw & Hl) Hi. cbn in *.
  destruct (lookup_lt_is_Some_2 (shards l) n) as [x Hx].
  { rewrite (li_len _ Hi : length (shards l) = N). lia. }
  rewrite Hx. destruct (raw_write x) as [x' |] eqn:Hx'.
  - destruct (trans_write i l g n x x') as [Hi' Ha]; [done.. |].
    eexists. split_and!; [exact Hi' | exact Ha |].
    apply IH; [| lia | done].
    split_and!; cbn; [done | apply fn_lookup_insert | done].
  - split; [done |]. exists n, x. split_and!; [done | | by right].
    intros Hf. destruct (raw_write_free _ Hf). congruence.
Qed.

Lemma wp_write {B} (k : unit -> prog (RwLock T) B) Q s :
  own i None 0 L s -> (forall s', own i None N L s' -> lwp i (k tt) Q s') ->
  lwp i (bind write k) Q s.
Proof.
  intros Ho Hk. apply wp_bind_assoc. eapply wp_shards_len; [done |]. intros s1 Ho1.
  by eapply wp_write_loop.
Qed.

Lemma wp_unlock_loop {B} n (k : unit -> prog (RwLock T) B) Q s :
  own i None n L s -> (forall s', own i None 0 L s' -> lwp i (k tt) Q s') ->
  lwp i (bind (unlock_loop n) k) Q s.
Proof.
  revert s. induction n as [| n IH]; intros s Ho Hk; cbn [unlock_loop]; [by apply Hk |].
  apply wp_bind_assoc. eapply wp_action; [by apply own_stable | done |].
  intros l g (Hr & Hw & Hl) Hi. cbn in *.
  destruct (trans_unlock i l g n) as (x & Hx & Hi' & Ha); [done.. |]. rewrite Hx.
  eexists. split_and!; [exact Hi' | exact Ha |]. apply IH; [| done].
  split_and!; cbn; [done | apply fn_lookup_insert | done].
Qed.

Lemma wp_drop_write {B} (k : unit -> prog (RwLock T) B) Q s :
  own i None N L s -> (forall s', own i None 0 L s' -> lwp i (k tt) Q s') ->
  lwp i (bind drop_write k) Q s.
Proof.
  intros Ho Hk. apply wp_bind_assoc. eapply wp_shards_len; [done |]. intros s1 Ho1.
  by eapply wp_unlock_loop.
Qed.
End thread.

Lemma wp_deref_mut i ti h v {B} (k : unit -> prog (RwLock T) B) Q s :
  cs !! i = Some (ti, CWrite h) ->
  own i None N (fun log => i ∉ log) s -> value s.1 = v ->
  (forall log s', replay (log ++ [i]) = h v ->
     own i None N (prefix (log ++ [i])) s' -> lwp i (k tt) Q s') ->
  lwp i (bind (deref_mut (h v)) k) Q s.
Proof.
  intros Hc Ho Hv Hk.
  eapply (wp_atom _ _ _ _ _ _ _ (fun s => own i None N (fun log => i ∉ log) s /\ value s.1 = v)).
  - apply own_value_stable. intros log j Hj Hn. by intros [?%Hn | ?%list_elem_of_singleton]%elem_of_app.
  - done.
  - intros l g ((Hr & Hw & Hn) & Hv') Hi. clear Hv. cbn in *. subst v.
    destruct (trans_update i l g h ti) as [Hi' Ha]; [done.. |].
    eexists. split_and!; [exact Hi' | exact Ha |].
    apply (Hk (g_log g)).
    + pose proof (li_val _ Hi') as E. cbn in E. done.
    + split; [done |]. split; [done |]. cbn. reflexivity.
Qed.

(** What a finished client leaves behind: no lock, and a result that is the value
    after some prefix of the log, which for a writer ends with itself. *)
Definition client_post (i : nat) (r : T) (s : st) : Prop :=
  exists pre, own i None 0 (prefix pre) s /\ r = replay pre /\ (is_writer i -> last pre = Some i).

Lemma prefix_stable i pre : log_stable i (prefix pre).
Proof. intros log j _ Hp. by apply prefix_app_r. Qed.

Lemma client_ok i ti c s :
  cs !! i = Some (ti, c) -> own i None 0 (fun log => i ∉ log) s ->
  lwp i (client_prog ti c) (client_post i) s.
Proof.
  intros Hc Ho. pose proof (lookup_lt_Some _ _ _ Hc) as Hlt.
  assert (log_stable i (fun log => i ∉ log)) as HL by (intros log j Hj Hn; by intros [?%Hn | ?%list_elem_of_singleton]%elem_of_app).
  destruct c as [| h]; cbn.
  - eapply wp_read; [done | done | done |]. intros c s1 Ho1.
    eapply wp_deref; [done | done |]. intros s2 (Hr & Hw & _) Hi2.
    eapply wp_drop_read; [apply (prefix_stable i (g_log s2.2)) | by split_and! |].
    intros s3 Ho3. eapply wp_ret; [apply own_stable, prefix_stable | done |].
    intros s4 Ho4 _. exists (g_log s2.2). split_and!; [done | apply (li_val _ Hi2) |].
    intros (ti' & h & Hc'). congruence.
  - eapply wp_write; [done | done | done |]. intros s1 Ho1.
    eapply wp_deref; [done | done |]. intros s2 Ho2 Hi2.
    eapply wp_deref_mut; [done | done | done |]. intros log s3 Hrep Ho3.
    eapply wp_drop_write; [apply prefix_stable | done |]. intros s4 Ho4.
    eapply wp_ret; [apply own_stable, prefix_stable | done |].
    intros s5 Ho5 _. exists (log ++ [i]). split_and!; [done | done |].
    intros _. apply last_snoc.
Qed.

Definition init_ghost : ghost := {| g_rd := ∅; g_wr := fun _ => 0%nat; g_log := [] |}.

Lemma init_ok (l : RwLock T) :
  shards l = replicate N raw_new -> value l = v0 ->
  pool_ok lock_inv lock_act lock_blk client_post (clients cs) (l, init_ghost).
Proof.
  intros Hl Hv. split; [constructor; cbn |].
  - by rewrite Hl, length_replicate.
  - intros k x Hk. rewrite Hl in Hk. apply lookup_replicate in Hk as [-> _].
    destruct raw_new_free as [_ ->]. split; [done |]. intros [i Hi]. lia.
  - intros k x Hk. rewrite Hl in Hk. apply lookup_replicate in Hk as [-> _].
    destruct raw_new_free as [-> _]. unfold rd_count. by rewrite map_filter_empty.
  - intros i k Hk. by rewrite lookup_empty in Hk.
  - by left.
  - intros i j k Hk. by rewrite lookup_empty in Hk.
  - lia.
  - intros i [k Hk]. by rewrite lookup_empty in Hk.
  - lia.
  - done.
  - constructor.
  - intros i Hi. by apply not_elem_of_nil in Hi.
  - intros i p Hp. unfold clients in Hp. apply list_lookup_fmap_Some in Hp as ([ti c] & -> & Hc).
    apply client_ok; [done |]. split_and!; cbn; [apply lookup_empty | done | apply not_elem_of_nil].
Qed.

(** No client can be waiting in a pool that cannot move: whoever waits for a shard
    waits for a thread that is further ahead, and the one furthest ahead waits for
    nobody. *)
Lemma stuck_done (l : RwLock T) g ts :
  pool_ok lock_inv lock_act lock_blk client_post ts (l, g) -> length ts = length cs ->
  (forall c', ~ cstep (l, ts) c') ->
  forall i p, ts !! i = Some p -> exists r, p = Ret r /\ client_post i r (l, g).
Proof.
  intros Hok Hlen Hst. pose proof (pool_ok_stuck _ _ _ _ _ _ _ Hok Hst) as Hs.
  destruct Hok as [Hi _].
  assert (forall i, (i < length cs)%nat ->
    g_rd g !! i = None /\ (g_wr g i = 0%nat \/ lock_blk i false (l, g))) as Hcase.
  { intros i Hlt. destruct (lookup_lt_is_Some_2 ts i) as [p Hp]; [lia |].
    destruct (Hs i p Hp) as [(a & -> & pre & (Hr & Hw & _) & _) | (? & _ & Hb)].
    - split; [done |]. by left.
    - split; [apply Hb | by right]. }
  assert (forall i, g_rd g !! i = None) as Hnord.
  { intros i. destruct (g_rd g !! i) eqn:E; [| done].
    destruct (Hcase i) as [E' _]; [apply (li_dom_rd _ Hi); by exists n | congruence]. }
  assert (forall k x, shards l !! k = Some x -> ~ raw_free x ->
    exists j, (k < g_wr g j)%nat /\ lock_blk j false (l, g)) as Hheld.
  { intros k x Hk Hf. destruct (raw_writer x) eqn:Ew.
    - apply (li_wr _ Hi _ _ Hk) in Ew as [j Hj]. cbn in Hj. exists j. split; [done |].
      destruct (Hcase j) as [_ [E | Hb]]; [apply (li_dom_wr _ Hi); cbn; lia | lia | done].
    - exfalso. apply Hf. split; [| done]. rewrite (li_rd _ Hi _ _ Hk).
      destruct (rd_count k _) eqn:E; [done |].
      destruct (proj1 (rd_count_pos k (g_rd g))) as [j Hj]; [cbn in E; lia |].
      by rewrite Hnord in Hj. }
  intros i p Hp. destruct (Hs i p Hp) as [Hr | (? & _ & _ & k & x & Hk & Hf & _)]; [done |]. exfalso.
  destruct (Hheld k x Hk Hf) as (j & Hj & _ & k' & x' & Hk' & Hf' & [E | E]); [cbn in E; lia |].
  destruct (Hheld k' x' Hk' Hf') as (j' & Hj' & _). cbn in E.
  destruct (decide (j = j')) as [-> | Hne]; [lia |].
  destruct (li_excl _ Hi j j' Hne) as [E' | E']; cbn in E'; lia.
Qed.
End proof.

Section theorems.
Context `{RawRwLockLaws} {T : Type}.

Lemma new_ok num_cpus (v0 : T) cs :
  pool_ok (lock_inv cs v0 (length (shards (new num_cpus v0))))
    (lock_act (length (shards (new num_cpus v0)))) lock_blk (client_post cs v0)
    (clients cs) (new num_cpus v0, init_ghost).
Proof.
  apply init_ok; [apply new_len | | done]. cbn. by rewrite length_replicate.
Qed.

(** C5: Clients of the lock run as if one after the other.  However the threads
    interleave, when no thread can move any more every client has returned (there
    is no deadlock, and no access out of bounds), the protected value is what the
    writers produce when they run one at a time in some order, and every client
    returned the value that it would have seen at its place in that order. *)
Theorem rwlock_serializable num_cpus (v0 : T) cs l ts :
  rtc cstep (new num_cpus v0, clients cs) (l, ts) ->
  (forall c', ~ cstep (l, ts) c') ->
  exists log, NoDup log /\ (forall i, i ∈ log <-> is_writer cs i) /\ value l = replay cs v0 log /\
    forall i c, cs !! i = Some c ->
      exists pre, pre `prefix_of` log /\ ts !! i = Some (Ret (replay cs v0 pre)) /\
        (is_writer cs i -> last pre = Some i).
Proof.
  intros Hr Hst. destruct (pool_ok_steps _ _ _ _ _ _ _ Hr (new_ok num_cpus v0 cs)) as [g Hok].
  assert (length ts = length cs) as Hlen.
  { apply rtc_cstep_length in Hr. cbn in Hr. unfold clients in Hr. by rewrite length_fmap in Hr. }
  pose proof (stuck_done _ _ _ _ _ _ Hok Hlen Hst) as Hd.
  assert (forall i c, cs !! i = Some c -> exists pre, pre `prefix_of` g_log g /\
    ts !! i = Some (Ret (replay cs v0 pre)) /\ (is_writer cs i -> last pre = Some i)) as Hts.
  { intros i c Hc. apply lookup_lt_Some in Hc. rewrite <- Hlen in Hc.
    apply lookup_lt_is_Some_2 in Hc as [p Hp].
    destruct (Hd i p Hp) as (r & -> & pre & (_ & _ & Hpre) & -> & Hlast). by exists pre. }
  exists (g_log g). destruct Hok as [Hi _]. split_and!.
  - apply (li_nodup _ _ _ _ Hi).
  - intros i. split; [apply (li_writers _ _ _ _ Hi) |]. intros Hw.
    pose proof Hw as (ti & h & Hc). destruct (Hts i _ Hc) as (pre & Hpre & _ & Hlast).
    specialize (Hlast Hw). apply last_Some in Hlast as [pre' ->].
    eapply elem_of_prefix; [| done]. apply elem_of_app. right. by apply list_elem_of_singleton.
  - apply (li_val _ _ _ _ Hi).
  - done.
Qed.

(** C4: The sharded lock refines the atomic reader-writer lock: seen through [abs]
    (readers are counted over all shards, the last shard tells whether a writer is
    in), every step of every pool of clients is either invisible or one transition
    of the specification, in which a writer excludes everybody else and only a
    writer changes the value. *)
Theorem rwlock_refines num_cpus (v0 : T) cs c c' :
  rtc cstep (new num_cpus v0, clients cs) c -> cstep c c' ->
  abs c.1 = abs c'.1 \/ astep (abs c.1) (abs c'.1).
Proof.
  intros Hr Hc. destruct (pool_ok_steps _ _ _ _ _ _ _ Hr (new_ok num_cpus v0 cs)) as [g Hok].
  destruct c as [l ts], c' as [l' ts'].
  destruct (pool_ok_step _ _ _ _ _ _ _ _ _ Hc Hok) as (i & g' & _ & Ha & _).
  apply (la_abs _ _ _ _ Ha).
Qed.

(** C6: From every state that a pool of clients can reach, the pool can be run to the
    end, and every client then has its result. *)
Theorem rwlock_completes num_cpus (v0 : T) cs c :
  rtc cstep (new num_cpus v0, clients cs) c ->
  exists c', rtc cstep c c' /\ length c'.2 = length cs /\ Forall (fun p => exists r, p = Ret r) c'.2.
Proof.
  intros Hr. destruct (cstep_normalizes c) as (c' & Hr' & Hst). exists c'.
  assert (rtc cstep (new num_cpus v0, clients cs) c') as Hr2 by (by etrans).
  destruct (pool_ok_steps _ _ _ _ _ _ _ Hr2 (new_ok num_cpus v0 cs)) as [g Hok].
  destruct c' as [l ts]. cbn in *.
  assert (length ts = length cs) as Hlen.
  { apply rtc_cstep_length in Hr2. cbn in Hr2. unfold clients in Hr2. by rewrite length_fmap in Hr2. }
  split_and!; [done | done |]. apply Forall_lookup. intros i p Hp.
  destruct (stuck_done _ _ _ _ _ _ Hok Hlen Hst i p Hp) as (r & -> & _). by exists r.
Qed.
End theorems.

(** ** A run with a reader and two writers on two shards *)
Import Toy.
Definition demo_clients : list (Z * client Z) := [(1, CRead); (0, CWrite (Z.add 5)); (3, CWrite (Z.mul 2))].
Definition demo_schedule : list nat :=
  [0; 1; 1; 0; 2; 0; 0; 1; 1; 1; 1; 1; 1; 2; 2; 2; 2; 2; 2; 2]%nat.
Definition demo_init : config (W := RwLock Z) (R := Z) := (new 2 10, clients demo_clients).

Lemma rwlock_serializable_witness :
  exists l ts, exec demo_schedule demo_init = Some (l, ts) /\
  exists log, NoDup log /\ (forall i, i ∈ log <-> is_writer demo_clients i) /\
    value l = replay demo_clients 10 log /\
    forall i c, demo_clients !! i = Some c ->
      exists pre, pre `prefix_of` log /\ ts !! i = Some (Ret (replay demo_clients 10 pre)) /\
        (is_writer demo_clients i -> last pre = Some i).
Proof.
  destruct (exec demo_schedule demo_init) as [[l ts] |] eqn:E; [| vm_compute in E; discriminate].
  exists l, ts. split; [reflexivity |].
  apply (rwlock_serializable 2 10 demo_clients l ts).
  - exact (exec_sound _ _ _ E).
  - vm_compute in E. injection E as <- <-. apply finished_stuck.
    repeat constructor; eexists; reflexivity.
Defined.

Lemma rwlock_refines_witness :
  exists c c', exec [0; 1; 1]%nat demo_init = Some c /\ sched_step 0 c = Some c' /\
    a_readers (abs c'.1) = 1%nat /\
    (abs c.1 = abs c'.1 \/ astep (abs c.1) (abs c'.1)).
Proof.
  eexists _, _. split; [vm_compute; reflexivity |]. split; [vm_compute; reflexivity |].
  split; [vm_compute; reflexivity |].
  apply (rwlock_refines 2 10 demo_clients).
  - apply (exec_sound [0; 1; 1]%nat). vm_compute. reflexivity.
  - apply (sched_step_sound 0). vm_compute. reflexivity.
Defined.

Lemma rwlock_completes_witness :
  exists c c', exec [0; 1; 1; 0]%nat demo_init = Some c /\
    rtc cstep c c' /\ length c'.2 = 3%nat /\ Forall (fun p => exists r, p = Ret r) c'.2.
Proof.
  destruct (exec [0; 1; 1; 0]%nat demo_init) as [c |] eqn:E; [| vm_compute in E; discriminate].
  destruct (rwlock_completes 2 10 demo_clients c (exec_sound _ _ _ E)) as (c' & Hr & Hl & Hf).
  by exists c, c'.
Defined.
End RwLockProof.
