(* ===== verification/ThreadIndex.v ===== *)
(** * reactor/sharded_rwlock.rs: the registry of thread indices

    The global [THREAD_INDICES], the thread-local [REGISTRATION] with its [Drop],
    and [thread_index].  The mutex is held from the first to the last access of
    each of the two critical sections, so each of them is one transition. *)
From S2P Require Import Prelude.
Open Scope Z_scope.

Module ThreadIndex.

(** [std::thread::ThreadId]: never reused. *)
Abbreviation ThreadId := nat (only parsing).

Record ThreadIndices := mkThreadIndices {
  mapping : gmap ThreadId Z;
  free_list : list Z;
  next_index : Z;
}.

Record Registration := mkRegistration { index : Z; thread_id : ThreadId }.

(** A thread-local slot that has been initialized, and one that is being or has been
    destroyed; a thread with no entry has not used its slot. *)
Inductive Slot :=
| Alive (reg : Registration)
| Destroyed.

Record State := mkState { THREAD_INDICES : ThreadIndices; REGISTRATION : gmap ThreadId Slot }.

Definition init_state : State :=
  {| THREAD_INDICES := {| mapping := ∅; free_list := []; next_index := 0 |}; REGISTRATION := ∅ |}.

(** [Vec::pop] and [Vec::push] work at the end of the vector. *)
Definition vec_pop (l : list Z) : option (Z * list Z) :=
  match last l with Some i => Some (i, take (pred (length l)) l) | None => None end.

(** The initializer of the thread-local [REGISTRATION]. *)
Definition registration_init (thread_id : ThreadId) (indices : ThreadIndices) : Registration * ThreadIndices :=
  let '(i, free, next) :=
    match vec_pop (free_list indices) with
    | Some (i, free) => (i, free, next_index indices)
    | None => (next_index indices, free_list indices, next_index indices + 1)
    end in
  ({| index := i; thread_id := thread_id |},
   {| mapping := <[thread_id := i]> (mapping indices); free_list := free; next_index := next |}).

(** [thread_index]: [try_with] initializes the slot on first use, and fails during
    the teardown of the thread, where the index is 0. *)
Definition thread_index (t : ThreadId) (s : State) : Z * State :=
  match REGISTRATION s !! t with
  | Some (Alive reg) => (index reg, s)
  | Some Destroyed => (0, s)
  | None =>
      let '(reg, indices) := registration_init t (THREAD_INDICES s) in
      (index reg, {| THREAD_INDICES := indices;
                     REGISTRATION := <[t := Alive reg]> (REGISTRATION s) |})
  end.

(** [Drop for Registration], run when the thread exits. *)
Definition drop_registration (reg : Registration) (indices : ThreadIndices) : ThreadIndices :=
  {| mapping := delete (thread_id reg) (mapping indices);
     free_list := free_list indices ++ [index reg];
     next_index := next_index indices |}.

Definition thread_exit (t : ThreadId) (s : State) : State :=
  match REGISTRATION s !! t with
  | Some (Alive reg) =>
      {| THREAD_INDICES := drop_registration reg (THREAD_INDICES s);
         REGISTRATION := <[t := Destroyed]> (REGISTRATION s) |}
  | _ => {| THREAD_INDICES := THREAD_INDICES s;
            REGISTRATION := <[t := Destroyed]> (REGISTRATION s) |}
  end.

(** ** Histories: threads use the lock and exit *)
Inductive event :=
| Use (t : ThreadId)
| Exit (t : ThreadId).

Definition apply_event (s : State) (e : event) : State :=
  match e with Use t => (thread_index t s).2 | Exit t => thread_exit t s end.

Definition history (es : list event) : State := foldl apply_event init_state es.

(** The largest number of threads that were registered at the same time. *)
Definition live (s : State) : Z := Z.of_nat (size (mapping (THREAD_INDICES s))).

Fixpoint peak_from (s : State) (es : list event) : Z :=
  match es with
  | [] => live s
  | e :: es' => Z.max (live s) (peak_from (apply_event s e) es')
  end.

Definition peak (es : list event) : Z := peak_from init_state es.

(** ** The registry invariant *)

(** Every index below [next_index] is either mapped by one thread or free, once. *)
Record registry_inv (s : State) : Prop := {
  ri_inj t t' i : mapping (THREAD_INDICES s) !! t = Some i ->
    mapping (THREAD_INDICES s) !! t' = Some i -> t = t';
  ri_disj t i : mapping (THREAD_INDICES s) !! t = Some i -> i ∉ free_list (THREAD_INDICES s);
  ri_nodup : NoDup (free_list (THREAD_INDICES s));
  ri_map_range t i : mapping (THREAD_INDICES s) !! t = Some i -> 0 <= i < next_index (THREAD_INDICES s);
  ri_free_range i : i ∈ free_list (THREAD_INDICES s) -> 0 <= i < next_index (THREAD_INDICES s);
  ri_count : next_index (THREAD_INDICES s) = live s + Z.of_nat (length (free_list (THREAD_INDICES s)));
  ri_tls t reg : REGISTRATION s !! t = Some (Alive reg) ->
    thread_id reg = t /\ mapping (THREAD_INDICES s) !! t = Some (index reg);
  ri_map t i : mapping (THREAD_INDICES s) !! t = Some i ->
    REGISTRATION s !! t = Some (Alive {| index := i; thread_id := t |});
}.

Lemma vec_pop_spec l :
  match vec_pop l with Some (i, l') => l = l' ++ [i] | None => l = [] end.
Proof.
  unfold vec_pop. destruct (last l) as [i |] eqn:E; [| by apply last_None].
  apply last_Some in E as [l' ->]. rewrite length_app, Nat.add_1_r. cbn. by rewrite take_app_length.
Qed.

Lemma init_inv : registry_inv init_state.
Proof.
  constructor; cbn; try done.
  - constructor.
  - intros i Hi. by apply not_elem_of_nil in Hi.
Qed.

(** Mapping a thread to an index that nobody has. *)
Lemma map_index_inv t i free' next' s :
  registry_inv s -> REGISTRATION s !! t = None ->
  (forall t', mapping (THREAD_INDICES s) !! t' <> Some i) -> i ∉ free' -> NoDup free' ->
  (forall j, j ∈ free' -> j ∈ free_list (THREAD_INDICES s)) ->
  0 <= i < next' -> next_index (THREAD_INDICES s) <= next' ->
  next' = live s + 1 + Z.of_nat (length free') ->
  registry_inv
    {| THREAD_INDICES := {| mapping := <[t := i]> (mapping (THREAD_INDICES s));
                            free_list := free'; next_index := next' |};
       REGISTRATION := <[t := Alive {| index := i; thread_id := t |}]> (REGISTRATION s) |}.
Proof.
  intros Hi Ht Hnew Hif Hnd Hsub Hr Hnext Hc.
  assert (mapping (THREAD_INDICES s) !! t = None) as Hmt.
  { destruct (mapping (THREAD_INDICES s) !! t) eqn:E; [| done].
    apply (ri_map _ Hi) in E. congruence. }
  constructor; cbn.
  - intros t1 t2 j [(<- & <-) | [Hn1 H1]]%lookup_insert_Some [(<- & E) | [Hn2 H2]]%lookup_insert_Some;
      try done; [by apply Hnew in H2 | subst; by apply Hnew in H1 | by eapply (ri_inj _ Hi)].
  - intros t1 j [(<- & <-) | [Hn1 H1]]%lookup_insert_Some; [done |].
    intros Hj. by apply (ri_disj _ Hi t1 j), Hsub.
  - done.
  - intros t1 j [(<- & <-) | [Hn1 H1]]%lookup_insert_Some; [done |].
    pose proof (ri_map_range _ Hi _ _ H1). lia.
  - intros j Hj. pose proof (ri_free_range _ Hi j (Hsub j Hj)). lia.
  - unfold live in *. cbn. rewrite map_size_insert_None by done. lia.
  - intros t1 reg [(<- & E) | [Hn1 H1]]%lookup_insert_Some.
    + simplify_eq. cbn. split; [done | apply lookup_insert_eq].
    + destruct (ri_tls _ Hi _ _ H1) as [E E']. split; [done |]. by rewrite lookup_insert_ne.
  - intros t1 j [(<- & <-) | [Hn1 H1]]%lookup_insert_Some; [apply lookup_insert_eq |].
    rewrite lookup_insert_ne by done. by apply (ri_map _ Hi).
Qed.

Lemma thread_index_inv t s : registry_inv s -> registry_inv (thread_index t s).2.
Proof.
  intros Hi. unfold thread_index. destruct (REGISTRATION s !! t) as [[reg |] |] eqn:Ht; [done | done |].
  unfold registration_init. pose proof (vec_pop_spec (free_list (THREAD_INDICES s))) as Hp.
  pose proof (ri_count _ Hi) as Hc. pose proof (ri_nodup _ Hi) as Hnd.
  destruct (vec_pop _) as [[i free'] |]; cbn; apply map_index_inv; try done; try lia.
  - intros t' E. apply (ri_disj _ Hi _ _ E). rewrite Hp. set_solver.
  - rewrite Hp in Hnd. apply NoDup_app in Hnd as (_ & Hd & _). intros Hin. apply (Hd i); set_solver.
  - rewrite Hp in Hnd. by apply NoDup_app in Hnd as (? & _ & _).
  - intros j Hj. rewrite Hp. set_solver.
  - apply (ri_free_range _ Hi). rewrite Hp. set_solver.
  - rewrite Hc, Hp, length_app. cbn. lia.
  - intros t' E%(ri_map_range _ Hi). lia.
  - intros E%(ri_free_range _ Hi). lia.
  - unfold live in *. lia.
Qed.

(** Dropping the registration of a thread puts its index on the free list. *)
Lemma drop_registration_inv t reg s :
  registry_inv s -> REGISTRATION s !! t = Some (Alive reg) ->
  registry_inv {| THREAD_INDICES := drop_registration reg (THREAD_INDICES s);
                  REGISTRATION := <[t := Destroyed]> (REGISTRATION s) |}.
Proof.
  intros Hi Ht. destruct (ri_tls _ Hi _ _ Ht) as [Et Em]. rewrite <- Et in Em. constructor; cbn.
  - intros t1 t2 j [Hn1 H1]%lookup_delete_Some [Hn2 H2]%lookup_delete_Some. by eapply (ri_inj _ Hi).
  - intros t1 j [Hn1 H1]%lookup_delete_Some [Hj | ->%list_elem_of_singleton]%elem_of_app.
    + by apply (ri_disj _ Hi t1 j).
    + apply Hn1. by eapply (ri_inj _ Hi).
  - apply NoDup_app. split_and!; [apply (ri_nodup _ Hi) | | by apply NoDup_singleton].
    intros j Hj ->%list_elem_of_singleton. by apply (ri_disj _ Hi _ _ Em).
  - intros t1 j [Hn1 H1]%lookup_delete_Some. by apply (ri_map_range _ Hi t1).
  - intros j [Hj | ->%list_elem_of_singleton]%elem_of_app; [by apply (ri_free_range _ Hi) |].
    by apply (ri_map_range _ Hi _ _ Em).
  - rewrite (ri_count _ Hi), length_app. unfold live. cbn. rewrite map_size_delete_Some by done.
    assert (size (mapping (THREAD_INDICES s)) <> 0%nat); [| lia].
    intros E%map_size_empty_inv. by rewrite E in Em.
  - intros t1 reg1 [(<- & E) | [Hn1 H1]]%lookup_insert_Some; [done |].
    destruct (ri_tls _ Hi _ _ H1) as [E E']. split; [done |].
    rewrite lookup_delete_ne; [done | congruence].
  - intros t1 j [Hn1 H1]%lookup_delete_Some. rewrite lookup_insert_ne by congruence.
    by apply (ri_map _ Hi).
Qed.

Lemma mark_destroyed_inv t s :
  registry_inv s -> (forall reg, REGISTRATION s !! t <> Some (Alive reg)) ->
  registry_inv {| THREAD_INDICES := THREAD_INDICES s; REGISTRATION := <[t := Destroyed]> (REGISTRATION s) |}.
Proof.
  intros Hi Ht. destruct Hi. constructor; cbn; try done.
  - intros t1 reg [(<- & E) | [Hn1 H1]]%lookup_insert_Some; [done | by apply ri_tls0].
  - intros t1 j Hj. rewrite lookup_insert_ne; [by apply ri_map0 |]. intros ->. eapply Ht. by apply ri_map0.
Qed.

Lemma thread_exit_inv t s : registry_inv s -> registry_inv (thread_exit t s).
Proof.
  intros Hi. unfold thread_exit. destruct (REGISTRATION s !! t) as [[reg |] |] eqn:Ht.
  - by apply drop_registration_inv.
  - apply mark_destroyed_inv; congruence.
  - apply mark_destroyed_inv; congruence.
Qed.

Lemma apply_event_inv s e : registry_inv s -> registry_inv (apply_event s e).
Proof. destruct e; [apply thread_index_inv | apply thread_exit_inv]. Qed.

Lemma foldl_events_inv es s : registry_inv s -> registry_inv (foldl apply_event s es).
Proof. revert s. induction es as [| e es IH]; intros s Hi; [done |]. by apply IH, apply_event_inv. Qed.

Lemma history_inv es : registry_inv (history es).
Proof. apply foldl_events_inv, init_inv. Qed.

(** Using the registry registers the thread, unless its slot is destroyed. *)
Lemma thread_index_registered t s :
  registry_inv s -> REGISTRATION s !! t <> Some Destroyed ->
  mapping (THREAD_INDICES (thread_index t s).2) !! t = Some (thread_index t s).1.
Proof.
  intros Hi Hd. unfold thread_index. destruct (REGISTRATION s !! t) as [[reg |] |] eqn:Ht; [| done |].
  - by apply (ri_tls _ Hi).
  - unfold registration_init. destruct (vec_pop _) as [[i free] |]; cbn; apply lookup_insert_eq.
Qed.

(** Growing: [next_index] moves only when no index is free, by one. *)
Lemma apply_event_next s e :
  registry_inv s ->
  next_index (THREAD_INDICES (apply_event s e)) =
  Z.max (next_index (THREAD_INDICES s)) (live (apply_event s e)).
Proof.
  intros Hi. pose proof (ri_count _ Hi) as Hc.
  pose proof (ri_count _ (apply_event_inv s e Hi)) as Hc'.
  destruct e as [t | t]; cbn in *.
  - unfold thread_index in *. destruct (REGISTRATION s !! t) as [[reg |] |]; cbn in *; [lia | lia |].
    unfold registration_init in *. pose proof (vec_pop_spec (free_list (THREAD_INDICES s))) as Hp.
    destruct (vec_pop _) as [[i free] |]; cbn in *; [| rewrite Hp in *; cbn in *]; lia.
  - assert (next_index (THREAD_INDICES (thread_exit t s)) = next_index (THREAD_INDICES s)) as E; [| lia].
    unfold thread_exit. by destruct (REGISTRATION s !! t) as [[reg |] |].
Qed.

Lemma peak_from_next es s :
  registry_inv s ->
  next_index (THREAD_INDICES (foldl apply_event s es)) =
  Z.max (next_index (THREAD_INDICES s)) (peak_from s es).
Proof.
  revert s. induction es as [| e es IH]; intros s Hi; cbn.
  - pose proof (ri_count _ Hi). lia.
  - rewrite IH by (by apply apply_event_inv). rewrite apply_event_next by done.
    pose proof (ri_count _ Hi).
    assert (live (apply_event s e) <= peak_from (apply_event s e) es) by (destruct es; cbn; lia). lia.
Qed.

(** Registered threads have different indices. *)
Lemma thread_index_distinct es t t' i i' :
  mapping (THREAD_INDICES (history es)) !! t = Some i ->
  mapping (THREAD_INDICES (history es)) !! t' = Some i' -> t <> t' -> i <> i'.
Proof. intros Ht Ht' Hne <-. apply Hne. by eapply (ri_inj _ (history_inv es)). Qed.

(** Indices are recycled, so they stay small. *)
Lemma thread_index_small es t i :
  mapping (THREAD_INDICES (history es)) !! t = Some i -> 0 <= i < peak es.
Proof.
  intros Ht. pose proof (ri_map_range _ (history_inv es) _ _ Ht) as Hr. unfold history in Hr.
  rewrite peak_from_next in Hr by apply init_inv. cbn in Hr.
  assert (0 <= peak es); [| unfold peak in *; lia]. unfold peak. destruct es; cbn; unfold live; lia.
Qed.

(** A thread keeps its index for as long as it lives: whatever the other threads do,
    and however often it asks, [thread_index] gives the same answer. *)
Lemma thread_index_stable es es' t i :
  mapping (THREAD_INDICES (history es)) !! t = Some i -> Exit t ∉ es' ->
  (thread_index t (foldl apply_event (history es) es')).1 = i.
Proof.
  intros Ht. assert (REGISTRATION (history es) !! t = Some (Alive {| index := i; thread_id := t |})) as Hs.
  { by apply (ri_map _ (history_inv es)). }
  revert Hs. generalize (history es). clear Ht.
  induction es' as [| e es' IH]; intros s Hs Hn; cbn.
  - unfold thread_index. by rewrite Hs.
  - apply not_elem_of_cons in Hn as [Hne Hn]. apply IH; [| done]. destruct e as [u | u]; cbn.
    + unfold thread_index. destruct (REGISTRATION s !! u) as [[reg |] |] eqn:Hu; [done | done |].
      destruct (registration_init u (THREAD_INDICES s)) as [reg ind]. cbn.
      rewrite lookup_insert_ne; [done | congruence].
    + assert (u <> t) by congruence. unfold thread_exit.
      destruct (REGISTRATION s !! u) as [[reg |] |]; cbn; by rewrite lookup_insert_ne.
Qed.

(** C34: The index of a registered thread is its own, small and stable: no other registered
    thread has it, it is smaller than the largest number of threads that were ever
    registered at the same time, and as long as the thread lives it gets the same
    answer, whatever the other threads do and however often it asks. *)
Theorem thread_index_assigned es t i :
  mapping (THREAD_INDICES (history es)) !! t = Some i ->
  (forall t' i', mapping (THREAD_INDICES (history es)) !! t' = Some i' -> t <> t' -> i <> i') /\
  0 <= i < peak es /\
  (forall es', Exit t ∉ es' -> (thread_index t (foldl apply_event (history es) es')).1 = i).
Proof.
  intros Ht. split; [| split; [by eapply thread_index_small |]].
  - intros t' i' Ht' Hne. by eapply thread_index_distinct.
  - intros es' Hes. by apply thread_index_stable.
Qed.

Lemma thread_index_assigned_witness :
  let es := [Use 7; Use 8; Exit 7; Use 9; Use 5]%nat in
  0 <> 2 /\ 0 <= 0 < peak es /\ peak es = 3 /\
  (thread_index 9 (foldl apply_event (history es) [Exit 5; Use 3; Use 9; Exit 8]))%nat.1 = 0.
Proof.
  destruct (thread_index_assigned [Use 7; Use 8; Exit 7; Use 9; Use 5]%nat 9%nat 0 ltac:(vm_compute; reflexivity))
    as (Hne & Hsmall & Hstable).
  split; [apply (Hne 5%nat 2 ltac:(vm_compute; reflexivity)); lia |].
  split; [exact Hsmall |]. split; [vm_compute; reflexivity |]. apply Hstable.
  repeat (apply not_elem_of_cons; split; [discriminate |]). apply not_elem_of_nil.
Defined.
End ThreadIndex.
