(* ===== verification/World.v ===== *)
(** * The shared state of the crate, and the atomic actions on it

    Everything that outlives one call, in one record: the reactors, the
    registrations, the wrapped I/O resources, the boxes and wakers that raw
    pointers refer to, the globals, and the operating system.  Rust references
    are identifiers in these maps; using one whose target is gone is a
    [UseAfterFree]. *)
From S2P Require Import Prelude Conc Deps RwLock.
Export RwLock.

(** reactor/mod.rs: [Direction] *)
Inductive Direction := Read | Write.

#[export] Instance Direction_eq_dec : EqDecision Direction.
Proof. solve_decision. Defined.

Section world.
Context `{Deps}.

(** [Arc<reactor::Inner>], by a number that is never reused. *)
Definition ReactorId : Type := nat.

(** reactor/mod.rs: [ScheduledIo] *)
Record ScheduledIo := mkScheduledIo {
  aba_guard : Z;
  readiness : Z;
  reader : aw;
  writer : aw;
}.

(** reactor/mod.rs: [Inner], with the strong count of the [Arc] that holds it.
    [io_dispatch] is the specification of the sharded lock. *)
Record ReactorInner := mkReactorInner {
  io : PollId;
  next_aba_guard : Z;
  io_dispatch : ARwLock (slab ScheduledIo);
  wakeup : SetReadiness;
  strong : nat;
}.

(** reactor/mod.rs: [HandlePriv], a [Weak<Inner>]. *)
Definition HandlePriv : Type := ReactorId.

(** The [usize] in [HANDLE_FALLBACK]: 0, or the bits of a [Weak].  The program compares the
    word with 0, stores it, and turns it back into the [Weak]; it never computes with it, so
    that the bits stay symbolic, and what it relies on is that a [Weak] is not 0. *)
Inductive FallbackWord := Zero | Bits (h : HandlePriv).
Definition is_zero (v : FallbackWord) : bool := match v with Zero => true | Bits _ => false end.

(** reactor/registration.rs: [Inner], [Node] and [Registration].  A pointer to a node
    or to a waker is an address; 0 is null. *)
Record RegInner := mkRegInner { handle : HandlePriv; token : Z }.
Record Node := mkNode { direction : Direction; node_waker : Z; next : Z }.
Record Registration := mkRegistration { inner : option RegInner; state : Z }.
Definition RegId : Type := nat.

(** raw/poll_evented.rs: [PollEvented<E>] with its [Inner]. *)
Record PollEvented := mkPollEvented {
  pe_io : option Evented;
  registration : RegId;
  read_readiness : Z;
  write_readiness : Z;
}.
Definition PeId : Type := nat.

(** reactor/background.rs: [Shared] *)
Record Shared := mkShared { shutdown : Z; shutdown_task : aw }.
Definition SharedId : Type := nat.

Record World := mkWorld {
  os : Os;
  reactors : gmap ReactorId ReactorInner;
  next_reactor : ReactorId;
  HANDLE_FALLBACK : FallbackWord;
  CURRENT_REACTOR : gmap nat HandlePriv;
  registrations : gmap RegId Registration;
  boxes : gmap Z Node;
  allocations : nat;
  wakers : gmap Z waker;
  polled : gmap PeId PollEvented;
  shareds : gmap SharedId Shared;
  spawned : list (ReactorId * SharedId);
  woken : list waker;
}.

Definition set_os o w := mkWorld o (reactors w) (next_reactor w) (HANDLE_FALLBACK w)
  (CURRENT_REACTOR w) (registrations w) (boxes w) (allocations w) (wakers w) (polled w)
  (shareds w) (spawned w) (woken w).
Definition set_reactors m w := mkWorld (os w) m (next_reactor w) (HANDLE_FALLBACK w)
  (CURRENT_REACTOR w) (registrations w) (boxes w) (allocations w) (wakers w) (polled w)
  (shareds w) (spawned w) (woken w).
Definition set_next_reactor n w := mkWorld (os w) (reactors w) n (HANDLE_FALLBACK w)
  (CURRENT_REACTOR w) (registrations w) (boxes w) (allocations w) (wakers w) (polled w)
  (shareds w) (spawned w) (woken w).
Definition set_fallback_handle v w := mkWorld (os w) (reactors w) (next_reactor w) v
  (CURRENT_REACTOR w) (registrations w) (boxes w) (allocations w) (wakers w) (polled w)
  (shareds w) (spawned w) (woken w).
Definition set_registrations m w := mkWorld (os w) (reactors w) (next_reactor w) (HANDLE_FALLBACK w)
  (CURRENT_REACTOR w) m (boxes w) (allocations w) (wakers w) (polled w)
  (shareds w) (spawned w) (woken w).
Definition set_boxes m w := mkWorld (os w) (reactors w) (next_reactor w) (HANDLE_FALLBACK w)
  (CURRENT_REACTOR w) (registrations w) m (allocations w) (wakers w) (polled w)
  (shareds w) (spawned w) (woken w).
Definition set_allocations n w := mkWorld (os w) (reactors w) (next_reactor w) (HANDLE_FALLBACK w)
  (CURRENT_REACTOR w) (registrations w) (boxes w) n (wakers w) (polled w)
  (shareds w) (spawned w) (woken w).
Definition set_wakers m w := mkWorld (os w) (reactors w) (next_reactor w) (HANDLE_FALLBACK w)
  (CURRENT_REACTOR w) (registrations w) (boxes w) (allocations w) m (polled w)
  (shareds w) (spawned w) (woken w).
Definition set_polled m w := mkWorld (os w) (reactors w) (next_reactor w) (HANDLE_FALLBACK w)
  (CURRENT_REACTOR w) (registrations w) (boxes w) (allocations w) (wakers w) m
  (shareds w) (spawned w) (woken w).
Definition set_shareds m w := mkWorld (os w) (reactors w) (next_reactor w) (HANDLE_FALLBACK w)
  (CURRENT_REACTOR w) (registrations w) (boxes w) (allocations w) (wakers w) (polled w)
  m (spawned w) (woken w).
Definition set_spawned l w := mkWorld (os w) (reactors w) (next_reactor w) (HANDLE_FALLBACK w)
  (CURRENT_REACTOR w) (registrations w) (boxes w) (allocations w) (wakers w) (polled w)
  (shareds w) l (woken w).
Definition set_woken l w := mkWorld (os w) (reactors w) (next_reactor w) (HANDLE_FALLBACK w)
  (CURRENT_REACTOR w) (registrations w) (boxes w) (allocations w) (wakers w) (polled w)
  (shareds w) (spawned w) l.

Definition set_reactor (rid : ReactorId) (x : ReactorInner) (w : World) : World :=
  set_reactors (<[rid := x]> (reactors w)) w.

#[local] Abbreviation prg := (prog World).

(** ** The operating system *)
Definition os_call {A} (f : Os -> A * Os) : prg A :=
  atom (fun w => let '(a, o) := f (os w) in (a, set_os o w)).

(** A call that may wait, like [mio::Poll::poll]. *)
Definition os_wait {A} (f : Os -> option (A * Os)) : prg A :=
  action (fun w => match f (os w) with
                   | Some (a, o) => Next a (set_os o w)
                   | None => Wait
                   end).

(** ** Wakers *)

(** [Waker::wake]: the task will be polled again. *)
Definition wake (k : waker) : prg unit := atom (fun w => (tt, set_woken (woken w ++ [k]) w)).

Definition wake_opt (k : option waker) : prg unit :=
  match k with Some k => wake k | None => Ret tt end.

(** [&*waker]: follow a pointer to a [Waker]; the pointer in a [Context] is one. *)
Definition deref_waker (p : Z) : prg waker :=
  action (fun w => match wakers w !! p with Some k => Next k w | None => Crash UseAfterFree end).

(** ** [Arc] and [Weak] *)
Definition on_reactor {A} (rid : ReactorId) (f : ReactorInner -> step_res ReactorInner A) : prg A :=
  action (fun w =>
    match reactors w !! rid with
    | None => Crash UseAfterFree
    | Some x => match f x with
                | Next a x' => Next a (set_reactor rid x' w)
                | Wait => Wait
                | Crash e => Crash e
                end
    end).

Definition with_strong (n : nat) (x : ReactorInner) : ReactorInner :=
  mkReactorInner (io x) (next_aba_guard x) (io_dispatch x) (wakeup x) n.

(** [Weak::upgrade] *)
Definition upgrade (h : HandlePriv) : prg (option ReactorId) :=
  atom (fun w =>
    match reactors w !! h with
    | Some x => match strong x with
                | O => (None, w)
                | S n => (Some h, set_reactor h (with_strong (S (S n)) x) w)
                end
    | None => (None, w)
    end).

(** ** The lock of [io_dispatch] *)
Definition with_dispatch (l : ARwLock (slab ScheduledIo)) (x : ReactorInner) : ReactorInner :=
  mkReactorInner (io x) (next_aba_guard x) l (wakeup x) (strong x).

Definition with_slab (s : slab ScheduledIo) (x : ReactorInner) : ReactorInner :=
  with_dispatch (mkARwLock (a_readers (io_dispatch x)) (a_writer (io_dispatch x)) s) x.

Definition slab_of (x : ReactorInner) : slab ScheduledIo := a_value (io_dispatch x).

Definition io_dispatch_read (rid : ReactorId) : prg unit :=
  on_reactor rid (fun x =>
    match io_dispatch x with
    | mkARwLock n false v => Next tt (with_dispatch (mkARwLock (S n) false v) x)
    | _ => Wait
    end).

Definition io_dispatch_drop_read (rid : ReactorId) : prg unit :=
  on_reactor rid (fun x =>
    match io_dispatch x with
    | mkARwLock n b v => Next tt (with_dispatch (mkARwLock (pred n) b v) x)
    end).

Definition io_dispatch_write (rid : ReactorId) : prg unit :=
  on_reactor rid (fun x =>
    match io_dispatch x with
    | mkARwLock O false v => Next tt (with_dispatch (mkARwLock 0 true v) x)
    | _ => Wait
    end).

Definition io_dispatch_drop_write (rid : ReactorId) : prg unit :=
  on_reactor rid (fun x =>
    match io_dispatch x with
    | mkARwLock n _ v => Next tt (with_dispatch (mkARwLock n false v) x)
    end).

(** A read or an atomic update through the reference [&io_dispatch[key]]. *)
Definition on_io {A} (rid : ReactorId) (key : Z) (f : ScheduledIo -> A * ScheduledIo) : prg A :=
  on_reactor rid (fun x =>
    match slab_get key (slab_of x) with
    | None => Crash UseAfterFree
    | Some i => let '(a, i') := f i in Next a (with_slab (slab_set key i' (slab_of x)) x)
    end).

Definition readiness_fetch_or (rid : ReactorId) (key bits : Z) : prg Z :=
  on_io rid key (fun i => (readiness i,
    mkScheduledIo (aba_guard i) (Z.lor (readiness i) bits) (reader i) (writer i))).

Definition readiness_fetch_and (rid : ReactorId) (key bits : Z) : prg Z :=
  on_io rid key (fun i => (readiness i,
    mkScheduledIo (aba_guard i) (Z.land (readiness i) bits) (reader i) (writer i))).

Definition readiness_load (rid : ReactorId) (key : Z) : prg Z :=
  on_io rid key (fun i => (readiness i, i)).

Definition aw_of (d : Direction) (i : ScheduledIo) : aw :=
  match d with Read => reader i | Write => writer i end.

Definition with_aw (d : Direction) (a : aw) (i : ScheduledIo) : ScheduledIo :=
  match d with
  | Read => mkScheduledIo (aba_guard i) (readiness i) a (writer i)
  | Write => mkScheduledIo (aba_guard i) (readiness i) (reader i) a
  end.

(** [AtomicWaker::take] and [AtomicWaker::register] on [reader] or [writer]. *)
Definition io_take (rid : ReactorId) (key : Z) (d : Direction) : prg (option waker) :=
  on_io rid key (fun i => let '(k, a) := aw_take (aw_of d i) in (k, with_aw d a i)).

Definition io_register (rid : ReactorId) (key : Z) (d : Direction) (k : waker) : prg unit :=
  on_io rid key (fun i => (tt, with_aw d (aw_register k (aw_of d i)) i)).

(** [AtomicWaker::wake]: take the waker, if any, and wake it. *)
Definition io_wake (rid : ReactorId) (key : Z) (d : Direction) : prg unit :=
  let! k := io_take rid key d in wake_opt k.
End world.
#[global] Arguments World {_}.

(** Programs over the shared state. *)
Abbreviation prg := (prog World).
