(* ===== verification/Reactor.v ===== *)
(** * reactor/mod.rs: the reactor, its I/O sources and its handles

    Module [Inner] is [impl Inner], module [HandlePriv] the weak handles and the
    global fallback, module [Reactor] the event loop. *)
From S2P Require Import Prelude Conc Deps World.

Definition TOKEN_SHIFT : Z := 22.
Definition MAX_SOURCES : Z := Z.shiftl 1 TOKEN_SHIFT - 1.
Definition TOKEN_WAKEUP : Z := MAX_SOURCES.

Definition other (msg : string) : Error := io_error Other msg.

(** [mod platform], for unix and for windows. *)
Module platform.
Section platform.
Context `{MioReady}.

Definition hup : Z := if cfg_unix then UnixReady_hup else Ready_empty.
Definition is_hup (ready : Z) : bool := if cfg_unix then Ready_contains ready UnixReady_hup else false.
End platform.
End platform.

Section direction.
Context `{UsizeWidth} `{MioReady}.

(** [Direction::mask] *)
Definition mask (d : Direction) : Z :=
  match d with
  | Read => Ready_sub Ready_all Ready_writable
  | Write => Z.lor Ready_writable platform.hup
  end.
End direction.

Module Inner.
Section inner.
Context `{Deps}.

(** [let _ = lock.read(); body], the guard dropped at the end of the block. *)
Definition with_read {A} (rid : ReactorId) (body : prg A) : prg A :=
  let! _ := io_dispatch_read rid in
  let! a := body in
  let! _ := io_dispatch_drop_read rid in
  Ret a.

Definition with_write {A} (rid : ReactorId) (body : prg A) : prg A :=
  let! _ := io_dispatch_write rid in
  let! a := body in
  let! _ := io_dispatch_drop_write rid in
  Ret a.

Definition next_aba_guard_fetch_add (rid : ReactorId) (n : Z) : prg Z :=
  on_reactor rid (fun x => Next (next_aba_guard x)
    (mkReactorInner (io x) (wrapping_add (next_aba_guard x) n) (io_dispatch x) (wakeup x) (strong x))).

(** The methods of [Slab], under the lock. *)
Definition io_dispatch_len (rid : ReactorId) : prg Z :=
  on_reactor rid (fun x => Next (slab_len (slab_of x)) x).
Definition io_dispatch_insert (rid : ReactorId) (i : ScheduledIo) : prg Z :=
  on_reactor rid (fun x => let '(k, s) := slab_insert i (slab_of x) in Next k (with_slab s x)).
Definition io_dispatch_remove (rid : ReactorId) (key : Z) : prg unit :=
  on_reactor rid (fun x => match slab_remove key (slab_of x) with
                           | Some s => Next tt (with_slab s x)
                           | None => Crash (Panicked "invalid key")
                           end).
Definition io_dispatch_get (rid : ReactorId) (key : Z) : prg (option Z) :=
  on_reactor rid (fun x => Next (aba_guard <$> slab_get key (slab_of x)) x).
Definition io_dispatch_keys (rid : ReactorId) : prg (list Z) :=
  on_reactor rid (fun x => Next (slab_iter (slab_of x)).*1 x).

(** The fields of the reactor that never change. *)
Definition get_io (rid : ReactorId) : prg PollId := on_reactor rid (fun x => Next (io x) x).
Definition get_wakeup (rid : ReactorId) : prg SetReadiness := on_reactor rid (fun x => Next (wakeup x) x).

Definition add_source (rid : ReactorId) (source : Evented) : prg (io_result Z) :=
  let! aba_guard := next_aba_guard_fetch_add rid (Z.shiftl 1 TOKEN_SHIFT) in
  with_write rid
    (let! len := io_dispatch_len rid in
     if len =? MAX_SOURCES then
       Ret (Err (other "reactor at max registered I/O resources"))
     else
       let! key := io_dispatch_insert rid (mkScheduledIo aba_guard 0 aw_new aw_new) in
       let! io := get_io rid in
       let? _ := os_call (Poll_register io source (Z.lor aba_guard key) Ready_all PollOpt_edge) in
       Ret (Ok key)).

Definition deregister_source (rid : ReactorId) (source : Evented) : prg (io_result unit) :=
  let! io := get_io rid in
  os_call (Poll_deregister io source).

Definition drop_source (rid : ReactorId) (token : Z) : prg unit :=
  with_write rid (io_dispatch_remove rid token).

(** [register]: the waker is stored first, then the readiness is checked. *)
Definition register (rid : ReactorId) (cx : Z) (token : Z) (dir : Direction) : prg unit :=
  with_read rid
    (let! sched := io_dispatch_get rid token in
     match sched with
     | None => Fault (Panicked "called `Option::unwrap()` on a `None` value")
     | Some _ =>
         let ready := match dir with Read => unot Ready_writable | Write => Ready_writable end in
         let! k := deref_waker cx in
         let! _ := io_register rid token dir k in
         let! r := readiness_load rid token in
         if negb (Z.land r ready =? 0) then io_wake rid token dir else Ret tt
     end).

(** [for (_, io) in io.iter() { io.writer.wake(); io.reader.wake(); }] *)
Fixpoint wake_all (rid : ReactorId) (keys : list Z) : prg unit :=
  match keys with
  | [] => Ret tt
  | key :: keys' =>
      let! _ := io_wake rid key Write in
      let! _ := io_wake rid key Read in
      wake_all rid keys'
  end.

(** [Drop for Inner] *)
Definition drop (rid : ReactorId) : prg unit :=
  with_read rid (let! keys := io_dispatch_keys rid in wake_all rid keys).

(** The last [Arc] runs [drop] and frees the reactor; [Weak]s can no longer upgrade. *)
Definition arc_drop (rid : ReactorId) : prg unit :=
  let! n := on_reactor rid (fun x => Next (pred (strong x)) (with_strong (pred (strong x)) x)) in
  match n with
  | S _ => Ret tt
  | O => let! _ := drop rid in
         atom (fun w => (tt, set_reactors (delete rid (reactors w)) w))
  end.

(** [match self.inner() { Some(inner) => body, None => none }]: upgrade the handle, and
    release the [Arc] when the block ends. *)
Definition with_inner {A} (h : HandlePriv) (none : prg A) (some : ReactorId -> prg A) : prg A :=
  let! r := upgrade h in
  match r with
  | None => none
  | Some rid => let! a := some rid in let! _ := arc_drop rid in Ret a
  end.
End inner.
End Inner.

Module HandlePriv.
Section handle.
Context `{Deps}.

(** [transmute] keeps the bits; there is no [Weak] whose bits are 0. *)
Definition into_usize (h : HandlePriv) : FallbackWord := Bits h.
Definition from_usize (val : FallbackWord) : prg HandlePriv :=
  match val with Bits h => Ret h | Zero => Fault InvalidValue end.

Definition wakeup_handle (h : HandlePriv) : prg unit :=
  Inner.with_inner h (Ret tt) (fun rid =>
    let! s := Inner.get_wakeup rid in
    let! r := os_call (set_readiness s Ready_readable) in
    match r with
    | Ok _ => Ret tt
    | Err _ => Fault (Panicked "called `Result::unwrap()` on an `Err` value")
    end).

(** [HANDLE_FALLBACK.compare_exchange(0, val)] *)
Definition set_fallback (h : HandlePriv) : prg (unit + unit) :=
  atom (fun w => if is_zero (HANDLE_FALLBACK w)
                 then (inl tt, set_fallback_handle (into_usize h) w)
                 else (inr tt, w)).

Definition load_fallback : prg FallbackWord := atom (fun w => (HANDLE_FALLBACK w, w)).
End handle.
End HandlePriv.

(** A [Handle] may be empty: [Handle::default] binds to no reactor. *)
Module Handle.
Section handle.
Context `{Deps}.

Definition Handle : Type := option HandlePriv.
Definition as_priv (h : Handle) : option HandlePriv := h.
Definition into_priv (h : Handle) : option HandlePriv := h.
Definition default : Handle := None.

Definition wakeup (h : Handle) : prg unit :=
  match as_priv h with Some handle => HandlePriv.wakeup_handle handle | None => Ret tt end.
End handle.
End Handle.

Module Reactor.
Section reactor.
Context `{Deps}.

Definition handle (rid : ReactorId) : Handle.Handle := Some rid.

(** [Arc::new(Inner { .. })] *)
Definition alloc_inner (io : PollId) (wakeup : SetReadiness) : prg ReactorId :=
  atom (fun w => (next_reactor w,
    set_next_reactor (S (next_reactor w))
      (set_reactor (next_reactor w)
        (mkReactorInner io 0 (mkARwLock 0 false (slab_with_capacity 1)) wakeup 1) w))).

Definition new : prg (io_result ReactorId) :=
  let? io := os_call Poll_new in
  let! wakeup_pair := os_call Registration_new2 in
  let? _ := os_call (Poll_register io wakeup_pair.1 TOKEN_WAKEUP Ready_readable PollOpt_level) in
  let! rid := alloc_inner io wakeup_pair.2 in
  Ret (Ok rid).

Definition is_idle (rid : ReactorId) : prg bool :=
  Inner.with_read rid (let! n := Inner.io_dispatch_len rid in Ret (n =? 0)).

(** [dispatch]: the tasks are taken in the critical section and woken after it. *)
Definition dispatch (rid : ReactorId) (token ready : Z) : prg unit :=
  let aba_guard := Z.land token (unot MAX_SOURCES) in
  let token := Z.land token MAX_SOURCES in
  let! tasks := Inner.with_read rid
    (let! io := Inner.io_dispatch_get rid token in
     match io with
     | None => Ret None
     | Some io_aba_guard =>
         if negb (aba_guard =? io_aba_guard) then Ret None
         else
           let! _ := readiness_fetch_or rid token ready in
           let! wr := if Ready_contains ready Ready_writable || platform.is_hup ready
                      then io_take rid token Write else Ret None in
           let! rd := if negb (Ready_is_empty (Z.land ready (unot Ready_writable)))
                      then io_take rid token Read else Ret None in
           Ret (Some (rd, wr))
     end) in
  match tasks with
  | None => Ret tt
  | Some (rd, wr) => let! _ := wake_opt rd in wake_opt wr
  end.

(** [for event in self.events.iter()] *)
Fixpoint process (rid : ReactorId) (events : list (Z * Z)) : prg unit :=
  match events with
  | [] => Ret tt
  | (token, ready) :: events' =>
      let! _ :=
        if token =? TOKEN_WAKEUP then
          let! s := Inner.get_wakeup rid in
          let! r := os_call (set_readiness s Ready_empty) in
          match r with
          | Ok _ => Ret tt
          | Err _ => Fault (Panicked "called `Result::unwrap()` on an `Err` value")
          end
        else dispatch rid token ready in
      process rid events'
  end.

Definition poll (rid : ReactorId) (max_wait : option Z) : prg (io_result unit) :=
  let! io := Inner.get_io rid in
  let? events := os_wait (Poll_poll io max_wait) in
  let! _ := process rid events in
  Ret (Ok tt).

(** [Turn] carries no information. *)
Definition turn (rid : ReactorId) (max_wait : option Z) : prg (io_result unit) :=
  let? _ := poll rid max_wait in Ret (Ok tt).
End reactor.
End Reactor.
