(* ===== verification/Background.v ===== *)
(** * reactor/background.rs: the reactor thread, its handle and its shutdown;
      and the global fallback reactor of reactor/mod.rs, which runs on one *)
From S2P Require Import Prelude Conc Deps World Reactor.

Definition SHUTDOWN_IDLE : Z := 1.
Definition SHUTDOWN_NOW : Z := 2.
Definition SHUTDOWN : Z := 3.

Module Background.
Section background.
Context `{Deps}.

(** [Inner] of background.rs, and [Background], which is empty once forgotten. *)
Record BgInner := mkBgInner { bg_handle : Handle.Handle; bg_shared : SharedId }.
Definition Background : Type := option BgInner.

Definition on_shared {A} (sid : SharedId) (f : Shared -> A * Shared) : prg A :=
  action (fun w => match shareds w !! sid with
                   | None => Crash UseAfterFree
                   | Some x => let '(a, x') := f x in Next a (set_shareds (<[sid := x']> (shareds w)) w)
                   end).

Definition shutdown_load (sid : SharedId) : prg Z := on_shared sid (fun x => (shutdown x, x)).
Definition shutdown_store (sid : SharedId) (v : Z) : prg unit :=
  on_shared sid (fun x => (tt, mkShared v (shutdown_task x))).
Definition shutdown_compare_and_swap (sid : SharedId) (current new : Z) : prg Z :=
  on_shared sid (fun x => (shutdown x,
    if shutdown x =? current then mkShared new (shutdown_task x) else x)).
Definition shutdown_task_register (sid : SharedId) (k : waker) : prg unit :=
  on_shared sid (fun x => (tt, mkShared (shutdown x) (aw_register k (shutdown_task x)))).
Definition shutdown_task_wake (sid : SharedId) : prg unit :=
  let! k := on_shared sid (fun x => let '(k, a) := aw_take (shutdown_task x) in
                                    (k, mkShared (shutdown x) a)) in
  wake_opt k.

(** [Arc::new(Shared { .. })] *)
Definition alloc_shared : prg SharedId :=
  atom (fun w => let sid := fresh (dom (shareds w)) in
                 (sid, set_shareds (<[sid := mkShared 0 aw_new]> (shareds w)) w)).

(** [thread::Builder::new().spawn(move || run(reactor, shared2))]: a thread that cannot
    be started drops what was moved into it. *)
Definition spawn (rid : ReactorId) (sid : SharedId) : prg (io_result unit) :=
  let! r := os_call thread_spawn in
  match r with
  | Ok _ => atom (fun w => (Ok tt, set_spawned (spawned w ++ [(rid, sid)]) w))
  | Err e => let! _ := Inner.arc_drop rid in Ret (Err e)
  end.

Definition new (reactor : ReactorId) : prg (io_result Background) :=
  let handle := Reactor.handle reactor in
  let! shared := alloc_shared in
  let? _ := spawn reactor shared in
  Ret (Ok (Some (mkBgInner handle shared))).

(** [forget] leaves the thread running. *)
Definition forget (self : Background) : prg Background := Ret None.

Definition is_shutdown (self : BgInner) : prg bool :=
  let! s := shutdown_load (bg_shared self) in Ret (s =? SHUTDOWN).

Fixpoint shutdown_now_loop (fuel : nat) (self : BgInner) (curr : Z) : prg unit :=
  match fuel with
  | O => Fault OutOfFuel
  | S fuel =>
      if SHUTDOWN_NOW <=? curr then Ret tt
      else
        let! act := shutdown_compare_and_swap (bg_shared self) curr SHUTDOWN_NOW in
        if act =? curr then Handle.wakeup (bg_handle self)
        else shutdown_now_loop fuel self act
  end.

Definition shutdown_now (fuel : nat) (self : BgInner) : prg unit :=
  let! curr := shutdown_load (bg_shared self) in shutdown_now_loop fuel self curr.

(** [Future for Shutdown]: the waker is stored before the state is read. *)
Definition shutdown_poll (self : BgInner) (cx : Z) : prg (Poll (unit + unit)) :=
  let! k := deref_waker cx in
  let! _ := shutdown_task_register (bg_shared self) k in
  let! b := is_shutdown self in
  if negb b then Ret Pending else Ret (Ready (inl tt)).

(** [Drop for Background]; [block_on] is [futures::executor::block_on]. *)
Definition drop (block_on : (Z -> prg (Poll (unit + unit))) -> prg (unit + unit)) (fuel : nat)
    (self : Background) : prg unit :=
  match self with
  | None => Ret tt
  | Some inner =>
      let! _ := shutdown_now fuel inner in
      let! _ := block_on (shutdown_poll inner) in
      Ret tt
  end.

(** The thread is not scheduled any more: where a model of a server loop ends. *)
Definition suspend {A} : prg A := action (fun _ => Wait).

(** [run]: what follows the loop, and the loop itself, unrolled [n] times. *)
Definition announce (sid : SharedId) : prg unit :=
  let! _ := shutdown_store sid SHUTDOWN in
  shutdown_task_wake sid.

Definition run_exit (rid : ReactorId) (sid : SharedId) : prg unit :=
  let! _ := Inner.arc_drop rid in
  announce sid.

Fixpoint run (n : nat) (rid : ReactorId) (sid : SharedId) : prg unit :=
  match n with
  | O => suspend
  | S n =>
      let! shutdown := shutdown_load sid in
      if shutdown =? SHUTDOWN_NOW then run_exit rid sid
      else
        let! idle := if shutdown =? SHUTDOWN_IDLE then Reactor.is_idle rid else Ret false in
        if idle then run_exit rid sid
        else
          let! r := Reactor.turn rid None in
          match r with
          | Ok _ => run n rid sid
          | Err _ => Fault (Panicked "called `Result::unwrap()` on an `Err` value")
          end
  end.
End background.
End Background.

(** ** The fallback reactor (reactor/mod.rs) *)
Module Fallback.
Section fallback.
Context `{Deps}.

(** [Reactor::background] *)
Definition background (self : ReactorId) : prg (io_result Background.Background) := Background.new self.

(** [HandlePriv::fallback] *)
Definition fallback : prg (io_result HandlePriv) :=
  let! fallback := HandlePriv.load_fallback in
  if is_zero fallback then
    let! reactor := Reactor.new in
    match reactor with
    | Err _ => Ret (Err (other "failed to create reactor"))
    | Ok reactor =>
        let! set := HandlePriv.set_fallback reactor in
        match set with
        | inl _ =>
            let! bg := background reactor in
            let! _ := match bg with
                      | Ok bg => let! _ := Background.forget bg in Ret tt
                      | Err _ => Ret tt
                      end in
            Ret (Ok reactor)
        | inr _ =>
            let! fallback := HandlePriv.load_fallback in
            let! _ := Inner.arc_drop reactor in
            if is_zero fallback then Fault (Panicked "assertion failed: fallback != 0")
            else let! handle := HandlePriv.from_usize fallback in Ret (Ok handle)
        end
    end
  else let! handle := HandlePriv.from_usize fallback in Ret (Ok handle).

(** [HandlePriv::try_current], called on thread [t]. *)
Definition try_current (t : nat) : prg (io_result HandlePriv) :=
  let! current := atom (fun w => (CURRENT_REACTOR w !! t, w)) in
  match current with
  | Some handle => Ret (Ok handle)
  | None => fallback
  end.
End fallback.
End Fallback.
