(* ===== verification/Registration.v ===== *)
(** * reactor/registration.rs: one I/O resource's link to its reactor

    Module [Inner] is [impl Inner] with its [Drop]; module [Registration] the
    lock-free state machine around it.  The loops of [register2] and [poll_ready]
    are bounded by [fuel]; running out of it is a fault, and the theorems about
    these functions include that it does not happen. *)
From S2P Require Import Prelude Conc Deps World Reactor Background.

Section constants.
Context `{Deps}.
Definition INIT : Z := 0.
Definition LOCKED : Z := 1.
Definition READY : Z := 2.
Definition LIFECYCLE_MASK : Z := 3.
Definition ERROR : Z := usize_MAX.
End constants.

(** ** impl Inner *)
Module RegInner.
Section inner.
Context `{Deps}.

Definition new (io : Evented) (handle : HandlePriv) : prg (RegInner * io_result unit) :=
  let! token_res :=
    Inner.with_inner handle
      (Ret (ERROR, Err (other "event loop gone")))
      (fun rid =>
         let! r := Inner.add_source rid io in
         match r with
         | Ok token => Ret (token, Ok tt)
         | Err e => Ret (ERROR, Err e)
         end) in
  Ret (mkRegInner handle token_res.1, token_res.2).

(** [cx.waker().wake_by_ref()] *)
Definition wake_by_ref (cx : Z) : prg unit := let! k := deref_waker cx in wake k.

Definition register (self : RegInner) (cx : Z) (direction : Direction) : prg unit :=
  if token self =? ERROR then wake_by_ref cx
  else Inner.with_inner (handle self) (wake_by_ref cx)
         (fun rid => Inner.register rid cx (token self) direction).

Definition deregister (self : RegInner) (io : Evented) : prg (io_result unit) :=
  if token self =? ERROR then Ret (Err (other "failed to associate with reactor"))
  else Inner.with_inner (handle self) (Ret (Err (other "reactor gone")))
         (fun rid => Inner.deregister_source rid io).

(** The critical section of [poll_ready], under the read lock of [io_dispatch]. *)
Definition poll_io (rid : ReactorId) (token : Z) (cx : option Z) (direction : Direction) :
    prg (io_result (option Z)) :=
  let mask := mask direction in
  let mask_no_hup := Ready_sub mask platform.hup in
  let! sched := Inner.io_dispatch_get rid token in
  match sched with
  | None => Fault (Panicked "invalid key")
  | Some _ =>
      let! r := readiness_fetch_and rid token (unot mask_no_hup) in
      let ready := Z.land mask r in
      let! ready :=
        match cx with
        | Some cx =>
            if Ready_is_empty ready then
              let! k := deref_waker cx in
              let! _ := io_register rid token direction k in
              let! r := readiness_fetch_and rid token (unot mask_no_hup) in
              Ret (Z.land mask r)
            else Ret ready
        | None => Ret ready
        end in
      if Ready_is_empty ready then Ret (Ok None) else Ret (Ok (Some ready))
  end.

Definition poll_ready (self : RegInner) (cx : option Z) (direction : Direction) :
    prg (io_result (option Z)) :=
  if token self =? ERROR then Ret (Err (other "failed to associate with reactor"))
  else Inner.with_inner (handle self) (Ret (Err (other "reactor gone")))
         (fun rid => Inner.with_read rid (poll_io rid (token self) cx direction)).

(** [Drop for Inner] *)
Definition drop (self : RegInner) : prg unit :=
  if token self =? ERROR then Ret tt
  else Inner.with_inner (handle self) (Ret tt) (fun rid => Inner.drop_source rid (token self)).
End inner.
End RegInner.

(** ** [Box<Node>] *)
Section boxes.
Context `{Deps}.

Definition in_use (w : World) (p : Z) : bool := bool_decide (is_Some (boxes w !! p)).

(** [Box::into_raw(Box::new(n))]: a [Node] is aligned like the pointers in it, so that the
    low bits of its address are free for the life cycle. *)
Definition box_new (n : Node) : prg Z :=
  action (fun w =>
    match box_alloc (allocations w) (in_use w) with
    | Some p => Next p (set_allocations (S (allocations w)) (set_boxes (<[p := n]> (boxes w)) w))
    | None => Crash OutOfMemory
    end).

Definition box_set_next (p : Z) (next : Z) : prg unit :=
  action (fun w => match boxes w !! p with
                   | Some n => Next tt (set_boxes (<[p := mkNode (direction n) (node_waker n) next]> (boxes w)) w)
                   | None => Crash UseAfterFree
                   end).

(** [Box::from_raw(ptr)], then move the node out of the box, which frees it. *)
Definition box_take (p : Z) : prg Node :=
  action (fun w => match boxes w !! p with
                   | Some n => Next n (set_boxes (delete p (boxes w)) w)
                   | None => Crash UseAfterFree
                   end).

Definition box_drop (p : option Z) : prg unit :=
  match p with Some p => let! _ := box_take p in Ret tt | None => Ret tt end.
End boxes.

(** ** impl Registration *)
Module Registration.
Section registration.
Context `{Deps}.

Definition new : Registration := mkRegistration None INIT.

Definition on_reg {A} (r : RegId) (f : Registration -> step_res Registration A) : prg A :=
  action (fun w =>
    match registrations w !! r with
    | None => Crash UseAfterFree
    | Some x => match f x with
                | Next a x' => Next a (set_registrations (<[r := x']> (registrations w)) w)
                | Wait => Wait
                | Crash e => Crash e
                end
    end).

Definition state_load (r : RegId) : prg Z := on_reg r (fun x => Next (state x) x).
Definition compare_and_swap (r : RegId) (current new : Z) : prg Z :=
  on_reg r (fun x => Next (state x)
    (if state x =? current then mkRegistration (inner x) new else x)).
Definition state_swap (r : RegId) (new : Z) : prg Z :=
  on_reg r (fun x => Next (state x) (mkRegistration (inner x) new)).
Definition set_inner (r : RegId) (i : RegInner) : prg unit :=
  on_reg r (fun x => Next tt (mkRegistration (Some i) (state x))).

(** Read the cell [inner] and unwrap it. *)
Definition get_inner (r : RegId) : prg RegInner :=
  on_reg r (fun x => match inner x with
                     | Some i => Next i x
                     | None => Crash (Panicked "called `Option::unwrap()` on a `None` value")
                     end).

(** [while !ptr.is_null()]: register each direction once, for the node nearest the top. *)
Fixpoint consume (fuel : nat) (inner : RegInner) (ptr : Z) (read write : bool) : prg unit :=
  match fuel with
  | O => Fault OutOfFuel
  | S fuel =>
      if ptr =? 0 then Ret tt
      else
        let! node := box_take ptr in
        match direction node with
        | Read =>
            let! _ := if read then Ret tt else RegInner.register inner (node_waker node) Read in
            consume fuel inner (next node) true write
        | Write =>
            let! _ := if write then Ret tt else RegInner.register inner (node_waker node) Write in
            consume fuel inner (next node) read true
        end
  end.

(** The thread that locked the state creates the association and unlocks it. *)
Definition register_locked (fuel : nat) (r : RegId) (io : Evented) (handle : HandlePriv) : prg (io_result bool) :=
  let! inner_res := RegInner.new io handle in
  let! _ := set_inner r inner_res.1 in
  let! actual := state_swap r READY in
  let! inner := get_inner r in
  let! _ := consume fuel inner (Z.land actual (unot LIFECYCLE_MASK)) false false in
  Ret (io_map (fun _ => true) inner_res.2).

Fixpoint register_loop (fuel : nat) (r : RegId) (io : Evented) (f : prg (io_result HandlePriv)) (state : Z) :
    prg (io_result bool) :=
  match fuel with
  | O => Fault OutOfFuel
  | S fuel' =>
      if state =? INIT then
        let? handle := f in
        let! actual := compare_and_swap r INIT LOCKED in
        if negb (actual =? state) then register_loop fuel' r io f actual
        else register_locked fuel r io handle
      else Ret (Ok false)
  end.

Definition register2 (fuel : nat) (r : RegId) (io : Evented) (f : prg (io_result HandlePriv)) :
    prg (io_result bool) :=
  let! state := state_load r in register_loop fuel r io f state.

(** [register], called on thread [t]. *)
Definition register (fuel t : nat) (r : RegId) (io : Evented) : prg (io_result bool) :=
  register2 fuel r io (Fallback.try_current t).

Definition deregister (r : RegId) (io : Evented) : prg (io_result unit) :=
  let! i := on_reg r (fun x => Next (inner x) x) in
  match i with
  | Some inner => let? _ := RegInner.deregister inner io in Ret (Ok tt)
  | None => Ret (Ok tt)
  end.

(** [node] is the box that a failed attempt left over. *)
Fixpoint poll_loop (fuel : nat) (r : RegId) (cx : option Z) (direction : Direction)
    (node : option Z) (state : Z) : prg (io_result (option Z)) :=
  match fuel with
  | O => Fault OutOfFuel
  | S fuel =>
      if state =? INIT then
        let! _ := box_drop node in
        Ret (Err (other "must call `register`
                                              before poll_read_ready"))
      else if state =? READY then
        let! inner := get_inner r in
        let! res := RegInner.poll_ready inner cx direction in
        let! _ := box_drop node in
        Ret res
      else if state =? LOCKED then
        match cx with
        | None => let! _ := box_drop node in Ret (Ok None)
        | Some cx' =>
            let next_ptr := Z.land state (unot LIFECYCLE_MASK) in
            let! n := match node with Some n => Ret n | None => box_new (mkNode direction cx' 0) end in
            let! _ := box_set_next n next_ptr in
            let next := Z.lor n (Z.land state LIFECYCLE_MASK) in
            let! actual := compare_and_swap r state next in
            if negb (actual =? state) then poll_loop fuel r cx direction (Some n) actual
            else Ret (Ok None)
        end
      else Fault (Panicked "internal error: entered unreachable code")
  end.

Definition poll_ready (fuel : nat) (r : RegId) (cx : option Z) (direction : Direction) :
    prg (io_result (option Z)) :=
  let! state := state_load r in poll_loop fuel r cx direction None state.

Definition to_poll (r : io_result (option Z)) : Poll (io_result Z) :=
  match r with
  | Ok (Some v) => Ready (Ok v)
  | Ok None => Pending
  | Err e => Ready (Err e)
  end.

Definition poll_read_ready (fuel : nat) (r : RegId) (cx : Z) : prg (Poll (io_result Z)) :=
  let! res := poll_ready fuel r (Some cx) Read in Ret (to_poll res).
Definition take_read_ready (fuel : nat) (r : RegId) : prg (io_result (option Z)) :=
  poll_ready fuel r None Read.
Definition poll_write_ready (fuel : nat) (r : RegId) (cx : Z) : prg (Poll (io_result Z)) :=
  let! res := poll_ready fuel r (Some cx) Write in Ret (to_poll res).
Definition take_write_ready (fuel : nat) (r : RegId) : prg (io_result (option Z)) :=
  poll_ready fuel r None Write.
End registration.
End Registration.
