(* ===== verification/PollEvented.v ===== *)
(** * raw/poll_evented.rs: an I/O resource with a cache of its readiness

    [poll_read_ready] and [poll_write_ready] differ in the direction only; they are
    two definitions because the source has two functions. *)
From S2P Require Import Prelude Conc Deps World Reactor Background Registration.

Module PollEvented.
Section poll_evented.
Context `{Deps}.
(** The bound of the retry loops, and the thread that runs the calls. *)
Context (fuel t : nat).

Definition on_pe {A} (p : PeId) (f : PollEvented -> step_res PollEvented A) : prg A :=
  action (fun w =>
    match polled w !! p with
    | None => Crash UseAfterFree
    | Some x => match f x with
                | Next a x' => Next a (set_polled (<[p := x']> (polled w)) w)
                | Wait => Wait
                | Crash e => Crash e
                end
    end).

(** [PollEvented::new] *)
Definition new (io : Evented) : prg PeId :=
  let! r := atom (fun w => let r := fresh (dom (registrations w)) in
                           (r, set_registrations (<[r := Registration.new]> (registrations w)) w)) in
  atom (fun w => let p := fresh (dom (polled w)) in
                 (p, set_polled (<[p := mkPollEvented (Some io) r 0 0]> (polled w)) w)).

Definition get_registration (p : PeId) : prg RegId := on_pe p (fun x => Next (registration x) x).

(** [self.io.as_ref().unwrap()], for [get_ref], [get_mut] and [register]. *)
Definition get_ref (p : PeId) : prg Evented :=
  on_pe p (fun x => match pe_io x with
                    | Some e => Next e x
                    | None => Crash (Panicked "called `Option::unwrap()` on a `None` value")
                    end).

Definition read_load (p : PeId) : prg Z := on_pe p (fun x => Next (read_readiness x) x).
Definition read_store (p : PeId) (v : Z) : prg unit :=
  on_pe p (fun x => Next tt (mkPollEvented (pe_io x) (registration x) v (write_readiness x))).
Definition read_fetch_and (p : PeId) (v : Z) : prg Z :=
  on_pe p (fun x => Next (read_readiness x)
    (mkPollEvented (pe_io x) (registration x) (Z.land (read_readiness x) v) (write_readiness x))).
Definition write_load (p : PeId) : prg Z := on_pe p (fun x => Next (write_readiness x) x).
Definition write_store (p : PeId) (v : Z) : prg unit :=
  on_pe p (fun x => Next tt (mkPollEvented (pe_io x) (registration x) (read_readiness x) v)).
Definition write_fetch_and (p : PeId) (v : Z) : prg Z :=
  on_pe p (fun x => Next (write_readiness x)
    (mkPollEvented (pe_io x) (registration x) (read_readiness x) (Z.land (write_readiness x) v))).

Definition register (p : PeId) : prg (io_result unit) :=
  let! io := get_ref p in
  let! r := get_registration p in
  let? _ := Registration.register fuel t r io in
  Ret (Ok tt).

(** The loop that drains the registration's readiness stream. *)
Fixpoint drain_read (n : nat) (p : PeId) (r : RegId) (cx mask cached ret : Z) : prg (Poll (io_result Z)) :=
  match n with
  | O => Fault OutOfFuel
  | S n =>
      let! res := Registration.poll_read_ready fuel r cx in
      match res with
      | Pending => Ret Pending
      | Ready (Err e) => Ret (Ready (Err e))
      | Ready (Ok ready) =>
          let cached := Z.lor cached ready in
          let! _ := read_store p cached in
          let ret := Z.lor ret (Z.land ready mask) in
          if negb (Ready_is_empty ret) then Ret (Ready (Ok ret))
          else drain_read n p r cx mask cached ret
      end
  end.

Definition poll_read_ready (p : PeId) (cx : Z) : prg (Poll (io_result Z)) :=
  let! reg := register p in
  match reg with
  | Err e => Ret (Ready (Err e))
  | Ok _ =>
      let! cached := read_load p in
      let mask := Z.lor Ready_readable platform.hup in
      let ret := Z.land cached Ready_readable in
      let! r := get_registration p in
      if Ready_is_empty ret then drain_read fuel p r cx mask cached ret
      else
        let! taken := Registration.take_read_ready fuel r in
        match taken with
        | Err e => Ret (Ready (Err e))
        | Ok (Some ready) =>
            let cached := Z.lor cached ready in
            let! _ := read_store p cached in
            Ret (Ready (Ok cached))
        | Ok None => Ret (Ready (Ok cached))
        end
  end.

Definition clear_read_ready (p : PeId) (cx : Z) : prg (io_result unit) :=
  let! _ := read_fetch_and p (unot Ready_readable) in
  let! res := poll_read_ready p cx in
  match res with
  | Ready (Err e) => Ret (Err e)
  | Ready (Ok _) => let! _ := RegInner.wake_by_ref cx in Ret (Ok tt)
  | Pending => Ret (Ok tt)
  end.

Fixpoint drain_write (n : nat) (p : PeId) (r : RegId) (cx mask cached ret : Z) : prg (Poll (io_result Z)) :=
  match n with
  | O => Fault OutOfFuel
  | S n =>
      let! res := Registration.poll_write_ready fuel r cx in
      match res with
      | Pending => Ret Pending
      | Ready (Err e) => Ret (Ready (Err e))
      | Ready (Ok ready) =>
          let cached := Z.lor cached ready in
          let! _ := write_store p cached in
          let ret := Z.lor ret (Z.land ready mask) in
          if negb (Ready_is_empty ret) then Ret (Ready (Ok ret))
          else drain_write n p r cx mask cached ret
      end
  end.

Definition poll_write_ready (p : PeId) (cx : Z) : prg (Poll (io_result Z)) :=
  let! reg := register p in
  match reg with
  | Err e => Ret (Ready (Err e))
  | Ok _ =>
      let! cached := write_load p in
      let mask := Z.lor Ready_writable platform.hup in
      let ret := Z.land cached Ready_writable in
      let! r := get_registration p in
      if Ready_is_empty ret then drain_write fuel p r cx mask cached ret
      else
        let! taken := Registration.take_write_ready fuel r in
        match taken with
        | Err e => Ret (Ready (Err e))
        | Ok (Some ready) =>
            let cached := Z.lor cached ready in
            let! _ := write_store p cached in
            Ret (Ready (Ok cached))
        | Ok None => Ret (Ready (Ok cached))
        end
  end.

Definition clear_write_ready (p : PeId) (cx : Z) : prg (io_result unit) :=
  let! _ := write_fetch_and p (unot Ready_writable) in
  let! res := poll_write_ready p cx in
  match res with
  | Ready (Err e) => Ret (Err e)
  | Ready (Ok _) => let! _ := RegInner.wake_by_ref cx in Ret (Ok tt)
  | Pending => Ret (Ok tt)
  end.

(** [is_wouldblock] *)
Definition is_wouldblock {A} (r : io_result A) : bool :=
  match r with
  | Ok _ => false
  | Err e => bool_decide (kind e = WouldBlock)
  end.

(** [ready!(..?)] on a readiness, in a function that returns a [Poll] of a result. *)
Definition when_ready {A} (poll : prg (Poll (io_result Z))) (k : prg (Poll (io_result A))) :
    prg (Poll (io_result A)) :=
  let! res := poll in
  match res with
  | Pending => Ret Pending
  | Ready (Err e) => Ret (Ready (Err e))
  | Ready (Ok _) => k
  end.

(** [clear(cx)?; Poll::Pending] *)
Definition clear_and_wait {A} (clear : prg (io_result unit)) : prg (Poll (io_result A)) :=
  let! r := clear in
  match r with Err e => Ret (Ready (Err e)) | Ok _ => Ret Pending end.

(** [AsyncRead] and [AsyncWrite]: the I/O call itself is the resource's.  [read] fills
    the buffer of the caller, which comes back with the result. *)
Definition poll_read {B} (read : Evented -> B -> Os -> (io_result Z * B) * Os) (p : PeId) (cx : Z)
    (buf : B) : prg (Poll (io_result Z) * B) :=
  let! res := poll_read_ready p cx in
  match res with
  | Pending => Ret (Pending, buf)
  | Ready (Err e) => Ret (Ready (Err e), buf)
  | Ready (Ok _) =>
      let! io := get_ref p in
      let! r := os_call (read io buf) in
      if is_wouldblock r.1 then
        let! res := clear_and_wait (clear_read_ready p cx) in Ret (res, r.2)
      else Ret (Ready r.1, r.2)
  end.

Definition poll_write (write : Evented -> Os -> io_result Z * Os) (p : PeId) (cx : Z) :
    prg (Poll (io_result Z)) :=
  when_ready (poll_write_ready p cx)
    (let! io := get_ref p in
     let! r := os_call (write io) in
     if is_wouldblock r then clear_and_wait (clear_write_ready p cx) else Ret (Ready r)).

Definition poll_flush (flush : Evented -> Os -> io_result unit * Os) (p : PeId) (cx : Z) :
    prg (Poll (io_result unit)) :=
  when_ready (poll_write_ready p cx)
    (let! io := get_ref p in
     let! r := os_call (flush io) in
     if is_wouldblock r then clear_and_wait (clear_write_ready p cx) else Ret (Ready r)).

Definition poll_close (p : PeId) (cx : Z) : prg (Poll (io_result unit)) := Ret (Ready (Ok tt)).

(** [Drop for PollEvented]: deregister the resource, close it, and drop the fields;
    the [Registration] drops its [Inner], which releases the slot of the reactor. *)
Definition drop (close : Evented -> Os -> Os) (p : PeId) : prg unit :=
  let! r := get_registration p in
  let! io := on_pe p (fun x => Next (pe_io x)
               (mkPollEvented None (registration x) (read_readiness x) (write_readiness x))) in
  let! _ := match io with
            | Some io => let! _ := Registration.deregister r io in
                         os_call (fun o => (tt, close io o))
            | None => Ret tt
            end in
  let! i := Registration.on_reg r (fun x => Next (inner x) x) in
  let! _ := match i with Some inner => RegInner.drop inner | None => Ret tt end in
  atom (fun w => (tt, set_registrations (delete r (registrations w))
                        (set_polled (delete p (polled w)) w))).
End poll_evented.
End PollEvented.
