(* ===== verification/Tcp.v ===== *)
(** * tcp/stream.rs and tcp/listener.rs

    A [TcpStream] and a [TcpListener] are a [PollEvented] each. *)
From S2P Require Import Prelude Conc Deps World Reactor Background Registration PollEvented.

Module TcpStream.
Section tcp_stream.
Context `{Deps} `{!NetOps} (fuel t : nat).

Definition TcpStream : Type := PeId.

Inductive ConnectFutureState :=
| Waiting (stream : TcpStream)
| Error (e : Prelude.Error)
| Empty.

Definition new (connected : Evented) : prg TcpStream := PollEvented.new connected.

Definition connect (addr : SocketAddr) : prg ConnectFutureState :=
  let! tcp := os_call (tcp_connect addr) in
  match tcp with
  | Ok tcp => let! s := new tcp in Ret (Waiting s)
  | Err e => Ret (Error e)
  end.

Definition drop (s : TcpStream) : prg unit := PollEvented.drop io_close s.

Definition poll_read (s : TcpStream) (cx : Z) (buf : list Z) : prg (Poll (io_result Z) * list Z) :=
  PollEvented.poll_read fuel t io_read s cx buf.
Definition poll_write (s : TcpStream) (cx : Z) (buf : list Z) : prg (Poll (io_result Z)) :=
  PollEvented.poll_write fuel t (fun e => io_write e buf) s cx.
Definition poll_flush (s : TcpStream) (cx : Z) : prg (Poll (io_result unit)) :=
  PollEvented.poll_flush fuel t io_flush s cx.
Definition poll_close (s : TcpStream) (cx : Z) : prg (Poll (io_result unit)) :=
  PollEvented.poll_close s cx.
Definition poll_read_ready (s : TcpStream) (cx : Z) : prg (Poll (io_result Z)) :=
  PollEvented.poll_read_ready fuel t s cx.
Definition poll_write_ready (s : TcpStream) (cx : Z) : prg (Poll (io_result Z)) :=
  PollEvented.poll_write_ready fuel t s cx.

(** [Future for ConnectFuture]: the state is taken out, and put back only while the
    connection is pending.  A stream that is not put back nor returned is dropped. *)
Definition connect_poll (self : ConnectFutureState) (cx : Z) :
    prg (Poll (io_result TcpStream) * ConnectFutureState) :=
  match self with
  | Waiting stream =>
      let! ready := PollEvented.poll_write_ready fuel t stream cx in
      match ready with
      | Ready (Err e) => let! _ := drop stream in Ret (Ready (Err e), Empty)
      | Pending => Ret (Pending, Waiting stream)
      | Ready (Ok _) =>
          let! io := PollEvented.get_ref stream in
          let! err := os_call (io_take_error io) in
          match err with
          | Err e => let! _ := drop stream in Ret (Ready (Err e), Empty)
          | Ok (Some e) => let! _ := drop stream in Ret (Ready (Err e), Empty)
          | Ok None => Ret (Ready (Ok stream), Empty)
          end
      end
  | Error e => Ret (Ready (Err e), Empty)
  | Empty => Fault (Panicked "can't poll TCP stream twice")
  end.

(** [TryFrom<std::net::TcpStream>] and [TryFrom<&SocketAddr>] *)
Definition try_from (stream : StdTcpStream) : prg (io_result TcpStream) :=
  let? tcp := os_call (tcp_from_stream stream) in
  let! s := new tcp in Ret (Ok s).
Definition try_from_addr (addr : SocketAddr) : prg (io_result TcpStream) :=
  let? tcp := os_call (tcp_connect addr) in
  let! s := new tcp in Ret (Ok s).
End tcp_stream.

(** Addresses and options: one call on the socket, which need not be registered. *)
Section options.
Context `{Deps} `{!NetOps} `{!SocketOptions}.

Definition local_addr (self : TcpStream) : prg (io_result SocketAddr) :=
  let! io := PollEvented.get_ref self in os_call (tcp_local_addr io).
Definition peer_addr (self : TcpStream) : prg (io_result SocketAddr) :=
  let! io := PollEvented.get_ref self in os_call (tcp_peer_addr io).
Definition shutdown (self : TcpStream) (how : Shutdown) : prg (io_result unit) :=
  let! io := PollEvented.get_ref self in os_call (tcp_shutdown io how).
Definition nodelay (self : TcpStream) : prg (io_result bool) :=
  let! io := PollEvented.get_ref self in os_call (tcp_nodelay io).
Definition set_nodelay (self : TcpStream) (nodelay : bool) : prg (io_result unit) :=
  let! io := PollEvented.get_ref self in os_call (tcp_set_nodelay io nodelay).
Definition recv_buffer_size (self : TcpStream) : prg (io_result Z) :=
  let! io := PollEvented.get_ref self in os_call (tcp_recv_buffer_size io).
Definition set_recv_buffer_size (self : TcpStream) (size : Z) : prg (io_result unit) :=
  let! io := PollEvented.get_ref self in os_call (tcp_set_recv_buffer_size io size).
Definition send_buffer_size (self : TcpStream) : prg (io_result Z) :=
  let! io := PollEvented.get_ref self in os_call (tcp_send_buffer_size io).
Definition set_send_buffer_size (self : TcpStream) (size : Z) : prg (io_result unit) :=
  let! io := PollEvented.get_ref self in os_call (tcp_set_send_buffer_size io size).
Definition keepalive (self : TcpStream) : prg (io_result (option Duration)) :=
  let! io := PollEvented.get_ref self in os_call (tcp_keepalive io).
Definition set_keepalive (self : TcpStream) (keepalive : option Duration) : prg (io_result unit) :=
  let! io := PollEvented.get_ref self in os_call (tcp_set_keepalive io keepalive).
Definition ttl (self : TcpStream) : prg (io_result Z) :=
  let! io := PollEvented.get_ref self in os_call (tcp_ttl io).
Definition set_ttl (self : TcpStream) (ttl : Z) : prg (io_result unit) :=
  let! io := PollEvented.get_ref self in os_call (tcp_set_ttl io ttl).
Definition linger (self : TcpStream) : prg (io_result (option Duration)) :=
  let! io := PollEvented.get_ref self in os_call (tcp_linger io).
Definition set_linger (self : TcpStream) (dur : option Duration) : prg (io_result unit) :=
  let! io := PollEvented.get_ref self in os_call (tcp_set_linger io dur).
Definition as_raw_fd (self : TcpStream) : prg Z :=
  let! io := PollEvented.get_ref self in Ret (Deps.as_raw_fd io).
End options.
#[global] Arguments ConnectFutureState : clear implicits.
End TcpStream.

Module TcpListener.
Section tcp_listener.
Context `{Deps} `{!NetOps} (fuel t : nat).

Definition TcpListener : Type := PeId.

Definition new (listener : Evented) : prg TcpListener := PollEvented.new listener.

Definition bind (addr : SocketAddr) : prg (io_result TcpListener) :=
  let? l := os_call (tcp_bind addr) in
  let! l := new l in Ret (Ok l).

Definition poll_accept_std (self : TcpListener) (cx : Z) : prg (Poll (io_result (StdTcpStream * SocketAddr))) :=
  PollEvented.when_ready (PollEvented.poll_read_ready fuel t self cx)
    (let! io := PollEvented.get_ref self in
     let! r := os_call (tcp_accept_std io) in
     match r with
     | Ok accepted => Ret (Ready (Ok accepted))
     | Err e =>
         if decide (kind e = WouldBlock)
         then PollEvented.clear_and_wait (PollEvented.clear_read_ready fuel t self cx)
         else Ret (Ready (Err e))
     end).

(** [AsyncReady for TcpListener] *)
Definition poll_ready (self : TcpListener) (cx : Z) : prg (Poll (io_result (TcpStream.TcpStream * SocketAddr))) :=
  let! r := poll_accept_std self cx in
  match r with
  | Pending => Ret Pending
  | Ready (Err e) => Ret (Ready (Err e))
  | Ready (Ok (io, addr)) =>
      let! io := os_call (tcp_from_stream io) in
      match io with
      | Err e => Ret (Ready (Err e))
      | Ok io => let! s := TcpStream.new io in Ret (Ready (Ok (s, addr)))
      end
  end.

(** [Incoming] borrows the listener. *)
Record Incoming := mkIncoming { inner : TcpListener }.

Definition incoming (self : TcpListener) : Incoming := mkIncoming self.

(** [Stream for Incoming] *)
Definition poll_next (self : Incoming) (cx : Z) : prg (Poll (option (io_result TcpStream.TcpStream))) :=
  let! r := poll_ready (inner self) cx in
  match r with
  | Pending => Ret Pending
  | Ready (Err e) => Ret (Ready (Some (Err e)))
  | Ready (Ok (socket, _)) => Ret (Ready (Some (Ok socket)))
  end.

Definition try_from (socket : StdTcpListener) : prg (io_result TcpListener) :=
  let? l := os_call (tcp_from_listener socket) in
  let! l := new l in Ret (Ok l).
End tcp_listener.

(** Addresses and options: one call on the socket, which need not be registered. *)
Section options.
Context `{Deps} `{!NetOps} `{!SocketOptions}.

Definition local_addr (self : TcpListener) : prg (io_result SocketAddr) :=
  let! io := PollEvented.get_ref self in os_call (listener_local_addr io).
Definition ttl (self : TcpListener) : prg (io_result Z) :=
  let! io := PollEvented.get_ref self in os_call (listener_ttl io).
Definition set_ttl (self : TcpListener) (ttl : Z) : prg (io_result unit) :=
  let! io := PollEvented.get_ref self in os_call (listener_set_ttl io ttl).
Definition as_raw_fd (self : TcpListener) : prg Z :=
  let! io := PollEvented.get_ref self in Ret (Deps.as_raw_fd io).
End options.
End TcpListener.
