(* ===== verification/Udp.v ===== *)
(** * udp.rs: [UdpSocket] and its futures *)
From S2P Require Import Prelude Conc Deps World Reactor Background Registration PollEvented.

Module UdpSocket.
Section udp.
Context `{Deps} `{!NetOps} (fuel t : nat).

Definition UdpSocket : Type := PeId.

Definition new (socket : Evented) : prg UdpSocket := PollEvented.new socket.

Definition bind (addr : SocketAddr) : prg (io_result UdpSocket) :=
  let? s := os_call (udp_bind addr) in
  let! s := new s in Ret (Ok s).

Definition try_from (socket : StdUdpSocket) : prg (io_result UdpSocket) :=
  let? s := os_call (udp_from_socket socket) in
  let! s := new s in Ret (Ok s).

(** [AsyncDatagram for UdpSocket] *)
Definition poll_send_to (self : UdpSocket) (cx : Z) (buf : list Z) (receiver : SocketAddr) :
    prg (Poll (io_result Z)) :=
  PollEvented.when_ready (PollEvented.poll_write_ready fuel t self cx)
    (let! io := PollEvented.get_ref self in
     let! r := os_call (udp_send_to io buf receiver) in
     match r with
     | Ok n => Ret (Ready (Ok n))
     | Err e =>
         if decide (kind e = WouldBlock)
         then PollEvented.clear_and_wait (PollEvented.clear_write_ready fuel t self cx)
         else Ret (Ready (Err e))
     end).

Definition poll_recv_from (self : UdpSocket) (cx : Z) (buf : list Z) :
    prg (Poll (io_result (Z * SocketAddr)) * list Z) :=
  let! res := PollEvented.poll_read_ready fuel t self cx in
  match res with
  | Pending => Ret (Pending, buf)
  | Ready (Err e) => Ret (Ready (Err e), buf)
  | Ready (Ok _) =>
      let! io := PollEvented.get_ref self in
      let! r := os_call (udp_recv_from io buf) in
      match r.1 with
      | Ok n => Ret (Ready (Ok n), r.2)
      | Err e =>
          if decide (kind e = WouldBlock)
          then let! res := PollEvented.clear_and_wait (PollEvented.clear_read_ready fuel t self cx) in
               Ret (res, r.2)
          else Ret (Ready (Err e), r.2)
      end
  end.

(** The futures [SendTo] and [RecvFrom] borrow their socket and their arguments. *)
Record SendTo := mkSendTo { send_socket : UdpSocket; send_buf : list Z; send_target : SocketAddr }.
Record RecvFrom := mkRecvFrom { recv_socket : UdpSocket; recv_buf : list Z }.

Definition send_to (self : UdpSocket) (buf : list Z) (target : SocketAddr) : SendTo :=
  mkSendTo self buf target.
Definition recv_from (self : UdpSocket) (buf : list Z) : RecvFrom := mkRecvFrom self buf.

Definition SendTo_poll (self : SendTo) (cx : Z) : prg (Poll (io_result Z)) :=
  poll_send_to (send_socket self) cx (send_buf self) (send_target self).
Definition RecvFrom_poll (self : RecvFrom) (cx : Z) : prg (Poll (io_result (Z * SocketAddr)) * RecvFrom) :=
  let! r := poll_recv_from (recv_socket self) cx (recv_buf self) in
  Ret (r.1, mkRecvFrom (recv_socket self) r.2).

Definition poll_read_ready (s : UdpSocket) (cx : Z) : prg (Poll (io_result Z)) :=
  PollEvented.poll_read_ready fuel t s cx.
Definition poll_write_ready (s : UdpSocket) (cx : Z) : prg (Poll (io_result Z)) :=
  PollEvented.poll_write_ready fuel t s cx.
End udp.

(** Addresses and options: one call on the socket, which need not be registered. *)
Section options.
Context `{Deps} `{!NetOps} `{!SocketOptions}.

Definition local_addr (self : UdpSocket) : prg (io_result SocketAddr) :=
  let! io := PollEvented.get_ref self in os_call (udp_local_addr io).
Definition broadcast (self : UdpSocket) : prg (io_result bool) :=
  let! io := PollEvented.get_ref self in os_call (udp_broadcast io).
Definition set_broadcast (self : UdpSocket) (on : bool) : prg (io_result unit) :=
  let! io := PollEvented.get_ref self in os_call (udp_set_broadcast io on).
Definition multicast_loop_v4 (self : UdpSocket) : prg (io_result bool) :=
  let! io := PollEvented.get_ref self in os_call (udp_multicast_loop_v4 io).
Definition set_multicast_loop_v4 (self : UdpSocket) (on : bool) : prg (io_result unit) :=
  let! io := PollEvented.get_ref self in os_call (udp_set_multicast_loop_v4 io on).
Definition multicast_ttl_v4 (self : UdpSocket) : prg (io_result Z) :=
  let! io := PollEvented.get_ref self in os_call (udp_multicast_ttl_v4 io).
Definition set_multicast_ttl_v4 (self : UdpSocket) (ttl : Z) : prg (io_result unit) :=
  let! io := PollEvented.get_ref self in os_call (udp_set_multicast_ttl_v4 io ttl).
Definition multicast_loop_v6 (self : UdpSocket) : prg (io_result bool) :=
  let! io := PollEvented.get_ref self in os_call (udp_multicast_loop_v6 io).
Definition set_multicast_loop_v6 (self : UdpSocket) (on : bool) : prg (io_result unit) :=
  let! io := PollEvented.get_ref self in os_call (udp_set_multicast_loop_v6 io on).
Definition ttl (self : UdpSocket) : prg (io_result Z) :=
  let! io := PollEvented.get_ref self in os_call (udp_ttl io).
Definition set_ttl (self : UdpSocket) (ttl : Z) : prg (io_result unit) :=
  let! io := PollEvented.get_ref self in os_call (udp_set_ttl io ttl).
Definition join_multicast_v4 (self : UdpSocket) (multiaddr : Ipv4Addr) (interface : Ipv4Addr) : prg (io_result unit) :=
  let! io := PollEvented.get_ref self in os_call (udp_join_multicast_v4 io multiaddr interface).
Definition join_multicast_v6 (self : UdpSocket) (multiaddr : Ipv6Addr) (interface : Z) : prg (io_result unit) :=
  let! io := PollEvented.get_ref self in os_call (udp_join_multicast_v6 io multiaddr interface).
Definition leave_multicast_v4 (self : UdpSocket) (multiaddr : Ipv4Addr) (interface : Ipv4Addr) : prg (io_result unit) :=
  let! io := PollEvented.get_ref self in os_call (udp_leave_multicast_v4 io multiaddr interface).
Definition leave_multicast_v6 (self : UdpSocket) (multiaddr : Ipv6Addr) (interface : Z) : prg (io_result unit) :=
  let! io := PollEvented.get_ref self in os_call (udp_leave_multicast_v6 io multiaddr interface).
Definition as_raw_fd (self : UdpSocket) : prg Z :=
  let! io := PollEvented.get_ref self in Ret (Deps.as_raw_fd io).
End options.
End UdpSocket.
