(* ===== verification/Uds.v ===== *)
(** * uds/: Unix domain sockets

    [UnixStream] with its connect future and peer credentials, [UnixListener] and
    [UnixDatagram]. *)
From S2P Require Import Prelude Conc Deps World Reactor Background Registration PollEvented.

(** uds/ucred.rs; [peer_cred] is the one of Linux and Android. *)
Module UCred.
Section ucred.
Context `{Deps} `{!NetOps}.

Record UCred := mkUCred { uid : Z; gid : Z }.

(** [mem::size_of::<libc::ucred>()]: three 32-bit fields. *)
Definition size_of_ucred : Z := 12.

(** [mem::size_of::<u32>()] and [mem::size_of::<usize>()] *)
Definition size_of_u32 : Z := 4.
Definition size_of_usize : Z := usize_bits / 8.

(** [impl_linux]: [getsockopt] returns its status, the credentials and their size. *)
Definition get_peer_cred_linux (sock : PeId) : prg (io_result UCred) :=
  let! io := PollEvented.get_ref sock in
  let raw_fd := as_raw_fd io in
  if negb (size_of_u32 <=? size_of_usize) then Fault (Panicked "assertion failed")
  else if negb (size_of_ucred <=? 2 ^ 32 - 1) then Fault (Panicked "assertion failed")
  else
    let! r := os_call (getsockopt_peercred raw_fd size_of_ucred) in
    let '(ret, (uid, gid), ucred_size) := r in
    if (ret =? 0) && (ucred_size =? size_of_ucred) then Ret (Ok (mkUCred uid gid))
    else let! e := os_call last_os_error in Ret (Err e).

(** [impl_macos] *)
Definition get_peer_cred_macos (sock : PeId) : prg (io_result UCred) :=
  let! io := PollEvented.get_ref sock in
  let raw_fd := as_raw_fd io in
  let! r := os_call (getpeereid raw_fd) in
  let '(ret, (uid, gid)) := r in
  if ret =? 0 then Ret (Ok (mkUCred uid gid))
  else let! e := os_call last_os_error in Ret (Err e).
End ucred.
End UCred.

(** uds/stream.rs *)
Module UnixStream.
Section unix_stream.
Context `{Deps} `{!NetOps} (fuel t : nat).

Definition UnixStream : Type := PeId.

Inductive State :=
| Waiting (stream : UnixStream)
| Error (e : Prelude.Error)
| Empty.

Definition new (stream : Evented) : prg UnixStream := PollEvented.new stream.

Definition connect (path : Path) : prg State :=
  let! res := os_call (uds_connect path) in
  match res with
  | Ok stream => let! s := new stream in Ret (Waiting s)
  | Err e => Ret (Error e)
  end.

Definition pair : prg (io_result (UnixStream * UnixStream)) :=
  let? ab := os_call uds_pair in
  let! a := new ab.1 in
  let! b := new ab.2 in
  Ret (Ok (a, b)).

Definition peer_cred (s : UnixStream) : prg (io_result UCred.UCred) :=
  UCred.get_peer_cred_linux s.

Definition poll_read (s : UnixStream) (cx : Z) (buf : list Z) : prg (Poll (io_result Z) * list Z) :=
  PollEvented.poll_read fuel t io_read s cx buf.
Definition poll_write (s : UnixStream) (cx : Z) (buf : list Z) : prg (Poll (io_result Z)) :=
  PollEvented.poll_write fuel t (fun e => io_write e buf) s cx.
Definition poll_flush (s : UnixStream) (cx : Z) : prg (Poll (io_result unit)) :=
  PollEvented.poll_flush fuel t io_flush s cx.
Definition poll_close (s : UnixStream) (cx : Z) : prg (Poll (io_result unit)) :=
  PollEvented.poll_close s cx.
Definition poll_read_ready (s : UnixStream) (cx : Z) : prg (Poll (io_result Z)) :=
  PollEvented.poll_read_ready fuel t s cx.
Definition poll_write_ready (s : UnixStream) (cx : Z) : prg (Poll (io_result Z)) :=
  PollEvented.poll_write_ready fuel t s cx.
Definition take_error (s : UnixStream) : prg (io_result (option Prelude.Error)) :=
  let! io := PollEvented.get_ref s in os_call (io_take_error io).

(** [Future for ConnectFuture]: the stream is borrowed while it is polled and moved
    out at the end; an error while connecting leaves the future as it was. *)
Definition connect_poll (self : State) (cx : Z) : prg (Poll (io_result UnixStream) * State) :=
  match self with
  | Waiting stream =>
      let! ready := PollEvented.poll_write_ready fuel t stream cx in
      match ready with
      | Ready (Err e) => Ret (Ready (Err e), self)
      | Pending => Ret (Pending, self)
      | Ready (Ok _) =>
          let! io := PollEvented.get_ref stream in
          let! err := os_call (io_take_error io) in
          match err with
          | Err e => Ret (Ready (Err e), self)
          | Ok (Some e) => Ret (Ready (Err e), self)
          | Ok None => Ret (Ready (Ok stream), Empty)
          end
      end
  | Error e => Ret (Ready (Err e), Empty)
  | Empty => Fault (Panicked "can't poll stream twice")
  end.
End unix_stream.

(** Addresses and options: one call on the socket, which need not be registered. *)
Section options.
Context `{Deps} `{!NetOps} `{!SocketOptions}.

Definition local_addr (self : UnixStream) : prg (io_result UnixAddr) :=
  let! io := PollEvented.get_ref self in os_call (uds_stream_local_addr io).
Definition peer_addr (self : UnixStream) : prg (io_result UnixAddr) :=
  let! io := PollEvented.get_ref self in os_call (uds_stream_peer_addr io).
Definition shutdown (self : UnixStream) (how : Shutdown) : prg (io_result unit) :=
  let! io := PollEvented.get_ref self in os_call (uds_stream_shutdown io how).
Definition as_raw_fd (self : UnixStream) : prg Z :=
  let! io := PollEvented.get_ref self in Ret (Deps.as_raw_fd io).
End options.
#[global] Arguments State : clear implicits.
End UnixStream.

(** uds/listener.rs *)
Module UnixListener.
Section unix_listener.
Context `{Deps} `{!NetOps} (fuel t : nat).

Definition UnixListener : Type := PeId.

Definition new (listener : Evented) : prg UnixListener := PollEvented.new listener.

Definition bind (path : Path) : prg (io_result UnixListener) :=
  let? l := os_call (uds_bind path) in
  let! l := PollEvented.new l in Ret (Ok l).

Definition poll_accept_std (self : UnixListener) (cx : Z) : prg (Poll (io_result (StdUnixStream * UnixAddr))) :=
  PollEvented.when_ready (PollEvented.poll_read_ready fuel t self cx)
    (let! io := PollEvented.get_ref self in
     let! r := os_call (uds_accept_std io) in
     match r with
     | Ok (Some accepted) => Ret (Ready (Ok accepted))
     | Ok None => PollEvented.clear_and_wait (PollEvented.clear_read_ready fuel t self cx)
     | Err e =>
         if decide (kind e = WouldBlock)
         then PollEvented.clear_and_wait (PollEvented.clear_read_ready fuel t self cx)
         else Ret (Ready (Err e))
     end).

(** [AsyncReady for UnixListener] *)
Definition poll_ready (self : UnixListener) (cx : Z) : prg (Poll (io_result (UnixStream.UnixStream * UnixAddr))) :=
  let! r := poll_accept_std self cx in
  match r with
  | Pending => Ret Pending
  | Ready (Err e) => Ret (Ready (Err e))
  | Ready (Ok (io, addr)) =>
      let! io := os_call (uds_from_stream io) in
      match io with
      | Err e => Ret (Ready (Err e))
      | Ok io => let! s := UnixStream.new io in Ret (Ready (Ok (s, addr)))
      end
  end.

(** [Incoming] owns the listener. *)
Record Incoming := mkIncoming { inner : UnixListener }.

Definition Incoming_new (listener : UnixListener) : Incoming := mkIncoming listener.
Definition incoming (self : UnixListener) : Incoming := Incoming_new self.

(** [Stream for Incoming] *)
Definition poll_next (self : Incoming) (cx : Z) : prg (Poll (option (io_result UnixStream.UnixStream))) :=
  let! r := poll_ready (inner self) cx in
  match r with
  | Pending => Ret Pending
  | Ready (Err e) => Ret (Ready (Some (Err e)))
  | Ready (Ok (socket, _)) => Ret (Ready (Some (Ok socket)))
  end.

Definition take_error (s : UnixListener) : prg (io_result (option Error)) :=
  let! io := PollEvented.get_ref s in os_call (io_take_error io).

Definition try_from (socket : StdUnixListener) : prg (io_result UnixListener) :=
  let? l := os_call (uds_from_listener socket) in
  let! l := new l in Ret (Ok l).
End unix_listener.

(** Addresses and options: one call on the socket, which need not be registered. *)
Section options.
Context `{Deps} `{!NetOps} `{!SocketOptions}.

Definition local_addr (self : UnixListener) : prg (io_result UnixAddr) :=
  let! io := PollEvented.get_ref self in os_call (uds_listener_local_addr io).
Definition as_raw_fd (self : UnixListener) : prg Z :=
  let! io := PollEvented.get_ref self in Ret (Deps.as_raw_fd io).
End options.
End UnixListener.

(** uds/datagram.rs *)
Module UnixDatagram.
Section unix_datagram.
Context `{Deps} `{!NetOps} (fuel t : nat).

Definition UnixDatagram : Type := PeId.

Definition new (socket : Evented) : prg UnixDatagram := PollEvented.new socket.

Definition bind (path : Path) : prg (io_result UnixDatagram) :=
  let? s := os_call (uds_datagram_bind path) in
  let! s := new s in Ret (Ok s).

Definition pair : prg (io_result (UnixDatagram * UnixDatagram)) :=
  let? ab := os_call uds_datagram_pair in
  let! a := new ab.1 in
  let! b := new ab.2 in
  Ret (Ok (a, b)).

Definition unbound : prg (io_result UnixDatagram) :=
  let? s := os_call uds_datagram_unbound in
  let! s := new s in Ret (Ok s).

(** The function of this file of the same name as in raw/poll_evented.rs. *)
Definition is_wouldblock {A} (r : io_result A) : bool :=
  match r with
  | Ok _ => false
  | Err e => bool_decide (kind e = WouldBlock)
  end.

(** [AsyncDatagram for UnixDatagram] *)
Definition poll_send_to (self : UnixDatagram) (cx : Z) (buf : list Z) (receiver : Path) :
    prg (Poll (io_result Z)) :=
  PollEvented.when_ready (PollEvented.poll_write_ready fuel t self cx)
    (let! io := PollEvented.get_ref self in
     let! r := os_call (uds_send_to io buf receiver) in
     match r with
     | Ok n => Ret (Ready (Ok n))
     | Err e =>
         if decide (kind e = WouldBlock)
         then PollEvented.clear_and_wait (PollEvented.clear_write_ready fuel t self cx)
         else Ret (Ready (Err e))
     end).

Definition poll_recv_from (self : UnixDatagram) (cx : Z) (buf : list Z) :
    prg (Poll (io_result (Z * UnixAddr)) * list Z) :=
  let! res := PollEvented.poll_read_ready fuel t self cx in
  match res with
  | Pending => Ret (Pending, buf)
  | Ready (Err e) => Ret (Ready (Err e), buf)
  | Ready (Ok _) =>
      let! io := PollEvented.get_ref self in
      let! r := os_call (uds_recv_from io buf) in
      if is_wouldblock r.1 then
        let! res := PollEvented.clear_and_wait (PollEvented.clear_read_ready fuel t self cx) in
        Ret (res, r.2)
      else Ret (Ready r.1, r.2)
  end.

(** The futures [SendTo] and [RecvFrom]. *)
Record SendTo := mkSendTo { send_socket : UnixDatagram; send_buf : list Z; send_target : Path }.
Record RecvFrom := mkRecvFrom { recv_socket : UnixDatagram; recv_buf : list Z }.

Definition send_to (self : UnixDatagram) (buf : list Z) (target : Path) : SendTo :=
  mkSendTo self buf target.
Definition recv_from (self : UnixDatagram) (buf : list Z) : RecvFrom := mkRecvFrom self buf.

Definition SendTo_poll (self : SendTo) (cx : Z) : prg (Poll (io_result Z)) :=
  poll_send_to (send_socket self) cx (send_buf self) (send_target self).
Definition RecvFrom_poll (self : RecvFrom) (cx : Z) : prg (Poll (io_result (Z * UnixAddr)) * RecvFrom) :=
  let! r := poll_recv_from (recv_socket self) cx (recv_buf self) in
  Ret (r.1, mkRecvFrom (recv_socket self) r.2).

Definition poll_read_ready (s : UnixDatagram) (cx : Z) : prg (Poll (io_result Z)) :=
  PollEvented.poll_read_ready fuel t s cx.
Definition poll_write_ready (s : UnixDatagram) (cx : Z) : prg (Poll (io_result Z)) :=
  PollEvented.poll_write_ready fuel t s cx.
Definition take_error (s : UnixDatagram) : prg (io_result (option Error)) :=
  let! io := PollEvented.get_ref s in os_call (io_take_error io).
End unix_datagram.

(** Addresses and options: one call on the socket, which need not be registered. *)
Section options.
Context `{Deps} `{!NetOps} `{!SocketOptions}.

Definition local_addr (self : UnixDatagram) : prg (io_result UnixAddr) :=
  let! io := PollEvented.get_ref self in os_call (uds_datagram_local_addr io).
Definition peer_addr (self : UnixDatagram) : prg (io_result UnixAddr) :=
  let! io := PollEvented.get_ref self in os_call (uds_datagram_peer_addr io).
Definition shutdown (self : UnixDatagram) (how : Shutdown) : prg (io_result unit) :=
  let! io := PollEvented.get_ref self in os_call (uds_datagram_shutdown io how).
Definition as_raw_fd (self : UnixDatagram) : prg Z :=
  let! io := PollEvented.get_ref self in Ret (Deps.as_raw_fd io).
End options.
End UnixDatagram.
