(* ===== verification/ReactorProof.v ===== *)
(** * The reactor: what each operation does

    First the symbolic execution of the atomic actions on one reactor, then the
    functional behaviour of [add_source], [drop_source], [register] and [dispatch]
    when they run without interference. *)
From S2P Require Import Prelude Conc Deps Toy World Reactor.

Section exec.
Context `{DepsLaws}.

(** World [w] where reactor [rid] is [x], with lock and slab as given. *)
Definition st (w : World) (rid : ReactorId) (x : ReactorInner) (l : ARwLock (slab ScheduledIo)) : World :=
  set_reactor rid (with_dispatch l x) w.

Lemma set_reactor_id w rid x : reactors w !! rid = Some x -> set_reactor rid x w = w.
Proof. intros E. destruct w. unfold set_reactor, set_reactors. cbn in *. by rewrite insert_id. Qed.

Lemma set_reactor_twice w rid x y : set_reactor rid x (set_reactor rid y w) = set_reactor rid x w.
Proof. unfold set_reactor, set_reactors. cbn. by rewrite insert_insert_eq. Qed.

Lemma set_reactor_lookup w rid x : reactors (set_reactor rid x w) !! rid = Some x.
Proof. apply lookup_insert_eq. Qed.

Lemma with_dispatch_id x : with_dispatch (io_dispatch x) x = x.
Proof. by destruct x. Qed.

Lemma st_id w rid x : reactors w !! rid = Some x -> st w rid x (io_dispatch x) = w.
Proof. intros E. unfold st. rewrite with_dispatch_id. by apply set_reactor_id. Qed.

Lemma st_twice w rid x l l' y : st (st w rid y l) rid x l' = st w rid x l'.
Proof. apply set_reactor_twice. Qed.

Lemma st_lookup w rid x l : reactors (st w rid x l) !! rid = Some (with_dispatch l x).
Proof. apply set_reactor_lookup. Qed.

Lemma run_on_reactor {A B} rid (f : ReactorInner -> step_res ReactorInner A) (k : A -> prg B) w x a x' :
  reactors w !! rid = Some x -> f x = Next a x' ->
  run (bind (on_reactor rid f) k) w = run (k a) (set_reactor rid x' w).
Proof.
  intros E Ef. unfold on_reactor. erewrite run_action_next; [done |]. cbn. by rewrite E, Ef.
Qed.

(** An access that gives a value and leaves the reactor as it is. *)
Lemma run_on_reactor_get {A B} rid (f : ReactorInner -> step_res ReactorInner A) (k : A -> prg B) w x a :
  reactors w !! rid = Some x -> f x = Next a x ->
  run (bind (on_reactor rid f) k) w = run (k a) w.
Proof. intros E Ef. rewrite (run_on_reactor _ _ _ _ _ _ _ E Ef). by rewrite set_reactor_id. Qed.

Lemma run_io_get {B} rid key (k : option Z -> prg B) w x n b s :
  run (bind (Inner.io_dispatch_get rid key) k) (st w rid x (mkARwLock n b s)) =
  run (k (aba_guard <$> slab_get key s)) (st w rid x (mkARwLock n b s)).
Proof. eapply run_on_reactor_get; [apply st_lookup | done]. Qed.

Lemma run_on_io {A B} rid key (f : ScheduledIo -> A * ScheduledIo) (k : A -> prg B) w x n b s i a i' :
  slab_get key s = Some i -> f i = (a, i') ->
  run (bind (on_io rid key f) k) (st w rid x (mkARwLock n b s)) =
  run (k a) (st w rid x (mkARwLock n b (slab_set key i' s))).
Proof.
  intros Es Ef. unfold on_io. erewrite run_on_reactor; [| apply st_lookup | unfold slab_of; cbn; by rewrite Es, Ef].
  unfold st. by rewrite set_reactor_twice.
Qed.

Lemma run_on_io_get {A B} rid key (f : ScheduledIo -> A * ScheduledIo) (k : A -> prg B) w x n b s i a :
  slab_get key s = Some i -> f i = (a, i) ->
  run (bind (on_io rid key f) k) (st w rid x (mkARwLock n b s)) =
  run (k a) (st w rid x (mkARwLock n b s)).
Proof. intros Es Ef. erewrite run_on_io by done. by rewrite slab_set_id. Qed.

Lemma run_deref_waker {B} p k0 (k : waker -> prg B) w :
  wakers w !! p = Some k0 -> run (bind (deref_waker p) k) w = run (k k0) w.
Proof. intros E. unfold deref_waker. erewrite run_action_next; [done |]. by rewrite E. Qed.

Lemma run_wake {B} t (k : unit -> prg B) w :
  run (bind (wake t) k) w = run (k tt) (set_woken (woken w ++ [t]) w).
Proof. unfold wake. by rewrite run_atom. Qed.

Lemma run_os_call {A B} (f : Os -> A * Os) (k : A -> prg B) w a o :
  f (os w) = (a, o) -> run (bind (os_call f) k) w = run (k a) (set_os o w).
Proof. intros E. unfold os_call. rewrite run_atom. by rewrite E. Qed.

(** Two worlds with the same fields are the same. *)
Lemma world_ext w1 w2 :
  os w1 = os w2 -> reactors w1 = reactors w2 -> next_reactor w1 = next_reactor w2 ->
  HANDLE_FALLBACK w1 = HANDLE_FALLBACK w2 -> CURRENT_REACTOR w1 = CURRENT_REACTOR w2 ->
  registrations w1 = registrations w2 -> boxes w1 = boxes w2 -> allocations w1 = allocations w2 ->
  wakers w1 = wakers w2 -> polled w1 = polled w2 -> shareds w1 = shareds w2 -> spawned w1 = spawned w2 ->
  woken w1 = woken w2 -> w1 = w2.
Proof. destruct w1, w2. cbn. intros. by subst. Qed.

(** The tasks woken by [wake_opt]. *)
Definition opt_list (k : option waker) : list waker := match k with Some t => [t] | None => [] end.

Lemma run_wake_opt {B} t (k : unit -> prg B) w :
  run (bind (wake_opt t) k) w = run (k tt) (set_woken (woken w ++ opt_list t) w).
Proof.
  destruct t as [t |]; cbn [wake_opt opt_list]; [apply run_wake |].
  cbn. rewrite app_nil_r. by destruct w.
Qed.

Lemma run_with_read {A} rid (body : prg A) w x n s a w' x' n' b' s' :
  reactors w !! rid = Some x -> io_dispatch x = mkARwLock n false s ->
  run body (st w rid x (mkARwLock (S n) false s)) = (Done a, st w' rid x' (mkARwLock (S n') b' s')) ->
  run (Inner.with_read rid body) w = (Done a, st w' rid x' (mkARwLock n' b' s')).
Proof.
  intros E El Hb. unfold Inner.with_read, io_dispatch_read, io_dispatch_drop_read.
  erewrite run_on_reactor; [| done | by rewrite El].
  change (set_reactor rid _ w) with (st w rid x (mkARwLock (S n) false s)).
  erewrite run_bind_done by done.
  erewrite run_on_reactor; [| apply st_lookup | done]. cbn [run]. unfold st. by rewrite set_reactor_twice.
Qed.

Lemma run_with_write {A} rid (body : prg A) w x s a w' x' n' b' s' :
  reactors w !! rid = Some x -> io_dispatch x = mkARwLock 0 false s ->
  run body (st w rid x (mkARwLock 0 true s)) = (Done a, st w' rid x' (mkARwLock n' b' s')) ->
  run (Inner.with_write rid body) w = (Done a, st w' rid x' (mkARwLock n' false s')).
Proof.
  intros E El Hb. unfold Inner.with_write, io_dispatch_write, io_dispatch_drop_write.
  erewrite run_on_reactor; [| done | by rewrite El].
  change (set_reactor rid _ w) with (st w rid x (mkARwLock 0 true s)).
  erewrite run_bind_done by done.
  erewrite run_on_reactor; [| apply st_lookup | done]. cbn [run]. unfold st. by rewrite set_reactor_twice.
Qed.
End exec.

(** ** Tokens: a slot number below the ABA guard *)
Section tokens.
Context `{UsizeWidth}.

(** A guard is a word whose low [TOKEN_SHIFT] bits are free for the slot number. *)
Definition guard_wf (g : Z) : Prop := is_usize g /\ Z.land g MAX_SOURCES = 0.

Lemma MAX_SOURCES_ones : MAX_SOURCES = Z.ones TOKEN_SHIFT.
Proof. reflexivity. Qed.

Lemma guard_wf_mod g : guard_wf g <-> is_usize g /\ g mod 2 ^ TOKEN_SHIFT = 0.
Proof. unfold guard_wf. rewrite MAX_SOURCES_ones, Z.land_ones by done. done. Qed.

Lemma token_divides : (2 ^ TOKEN_SHIFT | 2 ^ usize_bits).
Proof.
  exists (2 ^ (usize_bits - TOKEN_SHIFT)). pose proof usize_bits_ge. unfold TOKEN_SHIFT.
  rewrite <- Z.pow_add_r by lia. f_equal. lia.
Qed.

Lemma guard_wf_0 : guard_wf 0.
Proof. split; [apply is_usize_0 | done]. Qed.

(** The guard of the [n]-th registration after one with guard [g]. *)
Definition nth_guard (g : Z) (n : Z) : Z := wrapping_add g (n * 2 ^ TOKEN_SHIFT).

Lemma nth_guard_wf g n : guard_wf g -> guard_wf (nth_guard g n).
Proof.
  rewrite !guard_wf_mod. intros [_ Hg]. split; [apply is_usize_wrapping_add |].
  unfold nth_guard, wrapping_add. rewrite Z.mod_mod_divide by apply token_divides.
  by rewrite Z.mod_add.
Qed.

Lemma nth_guard_succ g n : wrapping_add (nth_guard g n) (Z.shiftl 1 TOKEN_SHIFT) = nth_guard g (n + 1).
Proof.
  unfold nth_guard, wrapping_add. rewrite Z.add_mod_idemp_l.
  - f_equal. change (Z.shiftl 1 TOKEN_SHIFT) with (2 ^ TOKEN_SHIFT). lia.
  - pose proof (Z.pow_pos_nonneg 2 usize_bits). pose proof usize_bits_pos. lia.
Qed.

Lemma nth_guard_add g n m : nth_guard (nth_guard g n) m = nth_guard g (n + m).
Proof.
  unfold nth_guard, wrapping_add. rewrite Z.add_mod_idemp_l; [f_equal; lia |].
  pose proof (Z.pow_pos_nonneg 2 usize_bits). pose proof usize_bits_pos. lia.
Qed.

(** Guards repeat with period [2 ^ (usize_bits - TOKEN_SHIFT)] and not before. *)
Lemma nth_guard_inj g n :
  is_usize g -> nth_guard g n = g <-> n mod 2 ^ (usize_bits - TOKEN_SHIFT) = 0.
Proof.
  intros Hg. pose proof usize_bits_ge as Hb. unfold nth_guard, wrapping_add, is_usize, TOKEN_SHIFT in *.
  assert (2 ^ usize_bits = 2 ^ (usize_bits - 22) * 2 ^ 22) as E.
  { rewrite <- Z.pow_add_r by lia. f_equal. lia. }
  pose proof (Z.pow_pos_nonneg 2 (usize_bits - 22)) as Hp. rewrite E in *.
  set (P := 2 ^ (usize_bits - 22)) in *. split.
  - intros Hm. pose proof (Z.div_mod (g + n * 2 ^ 22) (P * 2 ^ 22)) as Hd. rewrite Hm in Hd.
    assert (n = P * ((g + n * 2 ^ 22) / (P * 2 ^ 22))) as Hn by nia. rewrite Hn, Z.mul_comm.
    apply Z.mod_mul. lia.
  - intros Hn. pose proof (Z.div_mod n P) as Hd. rewrite Hn in Hd.
    replace (g + n * 2 ^ 22) with (g + (n / P) * (P * 2 ^ 22)) by nia.
    rewrite Z.mod_add by nia. apply Z.mod_small. lia.
Qed.

Lemma guard_testbit g n : guard_wf g -> 0 <= n < TOKEN_SHIFT -> Z.testbit g n = false.
Proof.
  intros [_ Hg] Hn. apply (f_equal (fun z => Z.testbit z n)) in Hg.
  rewrite Z.land_spec, Z.bits_0, MAX_SOURCES_ones, Z.ones_spec_low in Hg by lia.
  by rewrite andb_true_r in Hg.
Qed.

Lemma key_testbit key n : 0 <= key < 2 ^ TOKEN_SHIFT -> TOKEN_SHIFT <= n -> Z.testbit key n = false.
Proof.
  intros Hk Hn. rewrite <- (Z.mod_small key (2 ^ TOKEN_SHIFT)) by done.
  apply Z.mod_pow2_bits_high. unfold TOKEN_SHIFT in *. lia.
Qed.

(** The two parts of a token can be read back. *)
Lemma token_key g key : guard_wf g -> 0 <= key < 2 ^ TOKEN_SHIFT -> Z.land (Z.lor g key) MAX_SOURCES = key.
Proof.
  intros Hg Hk. apply Z.bits_inj'. intros n Hn. rewrite MAX_SOURCES_ones, Z.land_spec, Z.lor_spec.
  destruct (decide (n < TOKEN_SHIFT)) as [Hlt | Hge].
  - rewrite Z.ones_spec_low, (guard_testbit g) by (done || lia). by rewrite andb_true_r.
  - rewrite Z.ones_spec_high by (unfold TOKEN_SHIFT in *; lia).
    rewrite (key_testbit key) by (done || lia). by rewrite andb_false_r.
Qed.

Lemma token_guard g key : guard_wf g -> 0 <= key < 2 ^ TOKEN_SHIFT -> Z.land (Z.lor g key) (unot MAX_SOURCES) = g.
Proof.
  intros Hg Hk. rewrite land_unot.
  2: { apply is_usize_lor; [apply Hg |]. apply is_usize_small.
       assert (2 ^ TOKEN_SHIFT < 2 ^ 32) by done. lia. }
  apply Z.bits_inj'. intros n Hn. rewrite MAX_SOURCES_ones, Z.ldiff_spec, Z.lor_spec.
  destruct (decide (n < TOKEN_SHIFT)) as [Hlt | Hge].
  - rewrite Z.ones_spec_low, (guard_testbit g) by (done || lia). by rewrite andb_false_r.
  - rewrite Z.ones_spec_high by (unfold TOKEN_SHIFT in *; lia).
    rewrite (key_testbit key) by (done || lia). by rewrite orb_false_r, andb_true_r.
Qed.

(** No I/O resource gets the token of the wakeup event. *)
Lemma token_not_wakeup g key : guard_wf g -> 0 <= key < MAX_SOURCES -> Z.lor g key <> TOKEN_WAKEUP.
Proof.
  intros Hg Hk E. assert (Z.land (Z.lor g key) MAX_SOURCES = key) as Ek.
  { apply token_key; [done |]. change (2 ^ TOKEN_SHIFT) with (MAX_SOURCES + 1). lia. }
  rewrite E in Ek. change (Z.land TOKEN_WAKEUP MAX_SOURCES) with MAX_SOURCES in Ek. lia.
Qed.
End tokens.

(** ** Event dispatch *)
Module Dispatch.
Section dispatch.
Context `{DepsLaws}.

(** Which directions an event concerns. *)
Definition wants_write (ready : Z) : bool := Ready_contains ready Ready_writable || platform.is_hup ready.
Definition wants_read (ready : Z) : bool := negb (Ready_is_empty (Z.land ready (unot Ready_writable))).

(** The source after the event, and the tasks that are woken, the reader first. *)
Definition after_event (ready : Z) (i : ScheduledIo) : ScheduledIo :=
  mkScheduledIo (aba_guard i) (Z.lor (readiness i) ready)
    (if wants_read ready then (aw_take (reader i)).2 else reader i)
    (if wants_write ready then (aw_take (writer i)).2 else writer i).
Definition woken_by (ready : Z) (i : ScheduledIo) : list waker :=
  (if wants_read ready then opt_list (aw_waker (reader i)) else []) ++
  (if wants_write ready then opt_list (aw_waker (writer i)) else []).

Lemma run_dispatch w rid x n s token ready i :
  reactors w !! rid = Some x -> io_dispatch x = mkARwLock n false s ->
  slab_get (Z.land token MAX_SOURCES) s = Some i ->
  Z.land token (unot MAX_SOURCES) = aba_guard i ->
  run (Reactor.dispatch rid token ready) w =
  (Done tt, set_woken (woken w ++ woken_by ready i)
     (st w rid x (mkARwLock n false (slab_set (Z.land token MAX_SOURCES) (after_event ready i) s)))).
Proof.
  intros E El Es Eg. unfold Reactor.dispatch. set (key := Z.land token MAX_SOURCES) in *.
  erewrite run_bind_done.
  2: { eapply run_with_read; [done | done |]. rewrite run_io_get, Es. cbn [fmap option_fmap option_map].
    rewrite Eg, Z.eqb_refl. cbn [negb]. unfold readiness_fetch_or.
    erewrite run_on_io by done.
    match goal with |- run (bind ?p ?k) _ = _ => set (P := p); set (K := k) end.
    assert (forall i', slab_get key (slab_set key i' s) = Some i') as Hget.
    { intros i'. rewrite slab_set_get by (by eexists). by rewrite decide_True. }
    assert (run (bind P K) (st w rid x (mkARwLock (S n) false (slab_set key
        (mkScheduledIo (aba_guard i) (Z.lor (readiness i) ready) (reader i) (writer i)) s))) =
      (Done (Some (if wants_read ready then aw_waker (reader i) else None,
                   if wants_write ready then aw_waker (writer i) else None)),
       st w rid x (mkARwLock (S n) false (slab_set key (after_event ready i) s)))) as ->.
    { unfold P, K, after_event, io_take. fold (wants_write ready) (wants_read ready).
      destruct (wants_write ready), (wants_read ready); cbn [bind];
        repeat (erewrite run_on_io; [| by rewrite ?slab_set_set; apply Hget
          | cbn [aw_of reader writer]; by rewrite (surjective_pairing (aw_take _))]);
        cbn [run]; by rewrite ?slab_set_set. }
    reflexivity. }
  cbv beta iota. rewrite run_wake_opt. rewrite <- (run_ret_bind (wake_opt _)), run_wake_opt.
  cbn [run]. f_equal. unfold woken_by.
  destruct (wants_write ready), (wants_read ready); cbn; rewrite ?app_nil_r, ?app_assoc; done.
Qed.
End dispatch.
End Dispatch.

(** ** Adding and dropping sources *)
Section sources.
Context `{DepsLaws}.

Definition with_guard (g : Z) (x : ReactorInner) : ReactorInner :=
  mkReactorInner (io x) g (io_dispatch x) (wakeup x) (strong x).

(** The reactor after [add_source] took its guard. *)
Definition bump (x : ReactorInner) : ReactorInner :=
  with_guard (wrapping_add (next_aba_guard x) (Z.shiftl 1 TOKEN_SHIFT)) x.

(** The source that [add_source] inserts. *)
Definition fresh_io (g : Z) : ScheduledIo := mkScheduledIo g 0 aw_new aw_new.

Lemma run_add_source w rid x s source :
  reactors w !! rid = Some x -> io_dispatch x = mkARwLock 0 false s ->
  run (Inner.add_source rid source) w =
  if slab_len s =? MAX_SOURCES then
    (Done (Err (other "reactor at max registered I/O resources")), set_reactor rid (bump x) w)
  else
    let '(key, s') := slab_insert (fresh_io (next_aba_guard x)) s in
    let '(r, o) := Poll_register (io x) source (Z.lor (next_aba_guard x) key) Ready_all PollOpt_edge (os w) in
    (Done (io_map (fun _ => key) r), set_os o (st w rid (bump x) (mkARwLock 0 false s'))).
Proof.
  intros E El. unfold Inner.add_source, Inner.next_aba_guard_fetch_add.
  erewrite run_on_reactor by done. cbv beta.
  change (mkReactorInner _ _ _ _ _) with (bump x). set (w1 := set_reactor rid (bump x) w).
  assert (reactors w1 !! rid = Some (bump x)) as E1 by apply set_reactor_lookup.
  assert (io_dispatch (bump x) = mkARwLock 0 false s) as El1 by done.
  unfold Inner.io_dispatch_len. destruct (slab_len s =? MAX_SOURCES) eqn:Efull.
  - erewrite (run_with_write _ _ w1); [| done | done |].
    2: { erewrite run_on_reactor_get; [| apply st_lookup | done]. cbn. rewrite Efull. reflexivity. }
    f_equal. rewrite <- El1. by apply st_id.
  - destruct (slab_insert _ s) as [key s'] eqn:Ei.
    destruct (Poll_register (io x) source _ _ _ (os w)) as [r o] eqn:Er.
    erewrite (run_with_write _ _ w1 _ _ _ (set_os o w1) (bump x) 0 true s'); [| done | done |].
    { f_equal. unfold w1, st, set_reactor, set_reactors, set_os. cbn. by rewrite insert_insert_eq. }
    erewrite run_on_reactor_get; [| apply st_lookup | done]. cbn [slab_of a_value io_dispatch with_dispatch].
    rewrite Efull. unfold Inner.io_dispatch_insert.
    erewrite run_on_reactor; [| apply st_lookup |]; cbv beta.
    2: { unfold slab_of. cbn [a_value io_dispatch with_dispatch]. fold (fresh_io (next_aba_guard x)). by rewrite Ei. }
    unfold Inner.get_io. erewrite run_on_reactor_get; [| apply set_reactor_lookup | done]. cbv beta.
    erewrite run_os_call by exact Er. unfold w1, st.
    destruct r as [[] | e]; cbn [run io_map]; f_equal;
      unfold set_os, set_reactor, set_reactors; cbn; by rewrite !insert_insert_eq.
Qed.

Lemma run_deregister_source w rid x source :
  reactors w !! rid = Some x ->
  run (Inner.deregister_source rid source) w =
  (Done (Poll_deregister (io x) source (os w)).1, set_os (Poll_deregister (io x) source (os w)).2 w).
Proof.
  intros E. unfold Inner.deregister_source, Inner.get_io.
  erewrite run_on_reactor_get by done. rewrite <- run_ret_bind.
  by erewrite run_os_call by apply surjective_pairing.
Qed.

Lemma run_drop_source w rid x s s' token :
  reactors w !! rid = Some x -> io_dispatch x = mkARwLock 0 false s -> slab_remove token s = Some s' ->
  run (Inner.drop_source rid token) w = (Done tt, st w rid x (mkARwLock 0 false s')).
Proof.
  intros E El Es. unfold Inner.drop_source. erewrite run_with_write; [done | done | done |].
  rewrite <- run_ret_bind. unfold Inner.io_dispatch_remove.
  erewrite run_on_reactor; [| apply st_lookup | unfold slab_of; cbn; by rewrite Es].
  cbn [run]. unfold st. by rewrite set_reactor_twice.
Qed.

(** What [register] leaves behind: its waker, unless the awaited readiness is there. *)
Definition register_bits (d : Direction) : Z :=
  match d with Read => unot Ready_writable | Write => Ready_writable end.

Definition after_register (d : Direction) (k : waker) (i : ScheduledIo) : ScheduledIo :=
  if Z.land (readiness i) (register_bits d) =? 0
  then with_aw d (aw_register k (aw_of d i)) i
  else with_aw d (aw_take (aw_register k (aw_of d i))).2 i.

Lemma aw_of_with_aw d a i : aw_of d (with_aw d a i) = a.
Proof. by destruct d. Qed.

Lemma with_aw_twice d a b i : with_aw d a (with_aw d b i) = with_aw d a i.
Proof. by destruct d. Qed.

Lemma with_aw_readiness d a i : readiness (with_aw d a i) = readiness i.
Proof. by destruct d. Qed.

Lemma run_io_wake w rid x n b s key d i :
  slab_get key s = Some i ->
  run (io_wake rid key d) (st w rid x (mkARwLock n b s)) =
  (Done tt, set_woken (woken w ++ opt_list (aw_waker (aw_of d i)))
     (st w rid x (mkARwLock n b (slab_set key (with_aw d (aw_take (aw_of d i)).2 i) s)))).
Proof.
  intros Es. unfold io_wake, io_take.
  erewrite run_on_io; [| done | by rewrite (surjective_pairing (aw_take _))].
  rewrite <- (run_ret_bind (wake_opt _)), run_wake_opt. done.
Qed.

Lemma run_register w rid x n s cx k token d i :
  reactors w !! rid = Some x -> io_dispatch x = mkARwLock n false s ->
  slab_get token s = Some i -> wakers w !! cx = Some k ->
  run (Inner.register rid cx token d) w =
  (Done tt, set_woken (woken w ++ if Z.land (readiness i) (register_bits d) =? 0 then [] else [k])
     (st w rid x (mkARwLock n false (slab_set token (after_register d k i) s)))).
Proof.
  intros E El Es Ek. unfold Inner.register.
  set (i1 := with_aw d (aw_register k (aw_of d i)) i).
  assert (slab_get token (slab_set token i1 s) = Some i1) as Hget.
  { rewrite slab_set_get by (by eexists). by rewrite decide_True. }
  set (W := if Z.land (readiness i) (register_bits d) =? 0 then w else set_woken (woken w ++ [k]) w).
  erewrite (run_with_read rid _ w x n s tt W x n false (slab_set token (after_register d k i) s)); [| done | done |].
  { f_equal. unfold W. case_match; [rewrite app_nil_r; by destruct w | done]. }
  rewrite run_io_get, Es. cbn [fmap option_fmap option_map].
  erewrite run_deref_waker by exact Ek. unfold io_register.
  erewrite run_on_io; [| done | done]. fold i1. unfold readiness_load.
  erewrite run_on_io_get; [| exact Hget | done].
  replace (readiness i1) with (readiness i) by (unfold i1; by rewrite with_aw_readiness).
  unfold W, after_register. fold (register_bits d).
  destruct (Z.land (readiness i) (register_bits d) =? 0) eqn:Eb; cbn [negb]; [done |].
  erewrite run_io_wake by exact Hget. unfold i1. rewrite aw_of_with_aw, aw_register_waker, with_aw_twice.
  by rewrite slab_set_set.
Qed.
End sources.
