(* ===== verification/RegistrationProof.v ===== *)
(** * Registrations: what each operation does

    Symbolic execution of [Weak::upgrade], of the cells of a [Registration], and the
    functional behaviour of [poll_ready] without interference. *)
From S2P Require Import Prelude Conc Deps World Reactor Background Registration ReactorProof.

Section exec.
Context `{DepsLaws}.

Lemma with_strong_twice a b x : with_strong a (with_strong b x) = with_strong a x.
Proof. done. Qed.

Lemma with_strong_id x : with_strong (strong x) x = x.
Proof. by destruct x. Qed.

(** A live handle: the body runs with one more strong reference, which is gone after it. *)
Lemma run_with_inner {A} (h : HandlePriv) (none : prg A) some w x n a w1 x1 m :
  reactors w !! h = Some x -> strong x = S n ->
  run (some h) (set_reactor h (with_strong (S (S n)) x) w) = (Done a, w1) ->
  reactors w1 !! h = Some x1 -> strong x1 = S (S m) ->
  run (Inner.with_inner h none some) w = (Done a, set_reactor h (with_strong (S m) x1) w1).
Proof.
  intros E Es Hb E1 Es1. unfold Inner.with_inner, upgrade. rewrite run_atom. cbv beta. rewrite E, Es. cbn [fst snd].
  erewrite run_bind_done by exact Hb. unfold Inner.arc_drop. rewrite run_bind_assoc.
  erewrite run_on_reactor by done. rewrite Es1. done.
Qed.

(** A handle whose reactor is gone. *)
Lemma run_with_inner_gone {A} (h : HandlePriv) (none : prg A) some w :
  reactors w !! h = None -> run (Inner.with_inner h none some) w = run none w.
Proof. intros E. unfold Inner.with_inner, upgrade. rewrite run_atom. cbv beta. by rewrite E. Qed.

Lemma run_with_inner_dead {A} (h : HandlePriv) (none : prg A) some w x :
  reactors w !! h = Some x -> strong x = 0%nat -> run (Inner.with_inner h none some) w = run none w.
Proof. intros E Es. unfold Inner.with_inner, upgrade. rewrite run_atom. cbv beta. by rewrite E, Es. Qed.

(** ** [poll_ready] *)

Definition mask_no_hup (d : Direction) : Z := Ready_sub (mask d) platform.hup.

(** The events of direction [d] that a source has. *)
Definition bits (d : Direction) (i : ScheduledIo) : Z := Z.land (mask d) (readiness i).

Definition consume_bits (d : Direction) (i : ScheduledIo) : ScheduledIo :=
  mkScheduledIo (aba_guard i) (Z.land (readiness i) (unot (mask_no_hup d))) (reader i) (writer i).

(** The source after a poll: the events of the direction are consumed; if there were
    none, the task that asked is stored. *)
Definition after_poll (d : Direction) (k : option waker) (i : ScheduledIo) : ScheduledIo :=
  match k with
  | Some k => if bits d i =? 0
              then with_aw d (aw_register k (aw_of d i)) (consume_bits d i)
              else consume_bits d i
  | None => consume_bits d i
  end.

Definition polled_bits (d : Direction) (i : ScheduledIo) : option Z :=
  if bits d i =? 0 then None else Some (bits d i).

Lemma land_ldiff_same a b c : Z.land (Z.ldiff a b) c = Z.ldiff (Z.land a c) b.
Proof. zbits. Qed.

Lemma consume_bits_empty d i : is_usize (readiness i) -> bits d i = 0 -> bits d (consume_bits d i) = 0.
Proof.
  unfold bits, consume_bits. cbn [readiness]. intros Hr E. rewrite land_unot by done.
  replace (Z.land (mask d) (Z.ldiff (readiness i) (mask_no_hup d))) with
    (Z.ldiff (Z.land (mask d) (readiness i)) (mask_no_hup d)) by zbits.
  by rewrite E.
Qed.

Lemma consume_bits_twice d i : consume_bits d (consume_bits d i) = consume_bits d i.
Proof.
  unfold consume_bits. cbn [readiness aba_guard reader writer].
  f_equal. by rewrite <- Z.land_assoc, Z.land_diag.
Qed.

Lemma consume_bits_with_aw d d' a i : consume_bits d (with_aw d' a i) = with_aw d' a (consume_bits d i).
Proof. by destruct d'. Qed.

(** The waker that [cx] points to is [k]; a call without a context has neither. *)
Definition cx_waker (w : World) (cx : option Z) (k : option waker) : Prop :=
  match cx, k with
  | Some cx, Some k => wakers w !! cx = Some k
  | None, None => True
  | _, _ => False
  end.

Lemma run_poll_io w rid x n b s token cx k d i :
  slab_get token s = Some i -> is_usize (readiness i) -> cx_waker w cx k ->
  run (RegInner.poll_io rid token cx d) (st w rid x (mkARwLock n b s)) =
  (Done (Ok (polled_bits d i)), st w rid x (mkARwLock n b (slab_set token (after_poll d k i) s))).
Proof.
  intros Es Hr Hk. unfold RegInner.poll_io. rewrite run_io_get, Es. cbn [fmap option_fmap option_map].
  unfold readiness_fetch_and at 1. erewrite run_on_io; [| done | done]. cbv beta.
  fold (mask_no_hup d) (consume_bits d i). fold (bits d i). unfold polled_bits, after_poll, Ready_is_empty.
  set (i1 := consume_bits d i). set (i2 := with_aw d (aw_register (default 0%nat k) (aw_of d i)) i1).
  assert (forall j, slab_get token (slab_set token j s) = Some j) as Hget.
  { intros j. rewrite slab_set_get by (by eexists). by rewrite decide_True. }
  destruct (bits d i =? 0) eqn:Eb.
  - destruct cx as [cx |], k as [k |]; try done; cbn [bind].
    + cbn in Hk. rewrite !run_bind_assoc. erewrite run_deref_waker by exact Hk.
      unfold io_register. rewrite run_bind_assoc. erewrite run_on_io; [| apply Hget | done].
      rewrite slab_set_set. replace (aw_of d i1) with (aw_of d i) by (by destruct d).
      fold i2. rewrite run_bind_assoc. unfold readiness_fetch_and.
      erewrite run_on_io; [| apply Hget | done]. cbv beta. rewrite slab_set_set.
      assert (i2 = with_aw d (aw_register k (aw_of d i)) i1) as Ei2 by done.
      change (mkScheduledIo _ _ _ _) with (consume_bits d i2).
      rewrite Ei2, consume_bits_with_aw. assert (consume_bits d i1 = i1) as -> by apply consume_bits_twice.
      cbn [bind]. rewrite with_aw_readiness. fold (bits d i1).
      unfold i1 at 1. rewrite consume_bits_empty; [done | done | by apply Z.eqb_eq].
    + by rewrite Eb.
  - destruct cx as [cx |], k as [k |]; try done; cbn [bind]; by rewrite Eb.
Qed.

Lemma run_poll_ready_inner w h token x m n s cx k d i :
  token <> ERROR -> reactors w !! h = Some x -> strong x = S m -> io_dispatch x = mkARwLock n false s ->
  slab_get token s = Some i -> is_usize (readiness i) -> cx_waker w cx k ->
  run (RegInner.poll_ready (mkRegInner h token) cx d) w =
  (Done (Ok (polled_bits d i)), st w h x (mkARwLock n false (slab_set token (after_poll d k i) s))).
Proof.
  intros Ht E Em El Es Hr Hk. unfold RegInner.poll_ready. cbn [World.token World.handle].
  rewrite (proj2 (Z.eqb_neq _ _) Ht). set (x1 := with_strong (S (S m)) x).
  set (l := mkARwLock n false (slab_set token (after_poll d k i) s)).
  erewrite (run_with_inner h _ _ w x m _ (st (set_reactor h x1 w) h x1 l) (with_dispatch l x1)); try done.
  - f_equal. unfold st. rewrite !set_reactor_twice. f_equal. unfold x1. destruct x; cbn in *. by subst.
  - eapply (run_with_read h _ _ x1 n s); [apply set_reactor_lookup | done |].
    by apply run_poll_io.
  - apply set_reactor_lookup.
Qed.

(** [Inner::register], as the thread that registers a resource calls it for a queued task. *)
Lemma run_reginner_register w h token x m n s cx k d i :
  token <> ERROR -> reactors w !! h = Some x -> strong x = S m -> io_dispatch x = mkARwLock n false s ->
  slab_get token s = Some i -> wakers w !! cx = Some k ->
  run (RegInner.register (mkRegInner h token) cx d) w =
  (Done tt, set_woken (woken w ++ if Z.land (readiness i) (register_bits d) =? 0 then [] else [k])
     (st w h x (mkARwLock n false (slab_set token (after_register d k i) s)))).
Proof.
  intros Ht E Em El Es Hk. unfold RegInner.register. cbn [World.token World.handle].
  rewrite (proj2 (Z.eqb_neq _ _) Ht). set (x1 := with_strong (S (S m)) x).
  set (l := mkARwLock n false (slab_set token (after_register d k i) s)).
  set (new := if _ =? 0 then [] else [k]).
  erewrite (run_with_inner h _ _ w x m tt (set_woken (woken w ++ new) (st (set_reactor h x1 w) h x1 l)) (with_dispatch l x1)); try done.
  - f_equal. unfold st, set_reactor, set_reactors, set_woken. cbn. rewrite !insert_insert_eq. f_equal. f_equal.
    unfold x1. destruct x; cbn in *. by subst.
  - by apply (run_register (set_reactor h x1 w) h x1 n s); [apply set_reactor_lookup | ..].
  - apply set_reactor_lookup.
Qed.

Lemma run_reginner_register_error w h cx k d :
  wakers w !! cx = Some k ->
  run (RegInner.register (mkRegInner h ERROR) cx d) w = (Done tt, set_woken (woken w ++ [k]) w).
Proof.
  intros Hk. unfold RegInner.register. cbn [World.token]. rewrite Z.eqb_refl. unfold RegInner.wake_by_ref.
  erewrite run_deref_waker by exact Hk. rewrite <- (run_ret_bind (wake _)). by rewrite run_wake.
Qed.

(** ** [register] *)

(** [add_source] as a function: its result, the reactor and the operating system. *)
Definition add_source_result (x : ReactorInner) (s : slab ScheduledIo) (source : Evented) (o : Os) :
    io_result Z * ReactorInner * Os :=
  if slab_len s =? MAX_SOURCES then
    (Err (other "reactor at max registered I/O resources"), bump x, o)
  else
    let key := (slab_insert (fresh_io (next_aba_guard x)) s).1 in
    let res := Poll_register (io x) source (Z.lor (next_aba_guard x) key) Ready_all PollOpt_edge o in
    (io_map (fun _ => key) res.1,
     with_dispatch (mkARwLock 0 false (slab_insert (fresh_io (next_aba_guard x)) s).2) (bump x), res.2).

Lemma set_os_id w : set_os (os w) w = w.
Proof. by destruct w. Qed.

Lemma run_add_source_result w rid x s source :
  reactors w !! rid = Some x -> io_dispatch x = mkARwLock 0 false s ->
  run (Inner.add_source rid source) w =
  let '(res, x', o) := add_source_result x s source (os w) in (Done res, set_os o (set_reactor rid x' w)).
Proof.
  intros E El. rewrite (run_add_source w rid x s source E El). unfold add_source_result.
  destruct (slab_len s =? MAX_SOURCES).
  - by destruct w.
  - rewrite (surjective_pairing (slab_insert _ s)). cbv beta iota. by destruct (Poll_register _ _ _ _ _ _).
Qed.

(** The token of a registration: a slot number, or [ERROR]. *)
Definition token_of (res : io_result Z) : Z := match res with Ok token => token | Err _ => ERROR end.

Lemma run_reginner_new w h x m s source :
  reactors w !! h = Some x -> strong x = S m -> io_dispatch x = mkARwLock 0 false s ->
  run (RegInner.new source h) w =
  let '(res, x', o) := add_source_result x s source (os w) in
  (Done (mkRegInner h (token_of res), io_map (fun _ => tt) res), set_os o (set_reactor h x' w)).
Proof.
  intros E Em El. unfold RegInner.new.
  assert (add_source_result (with_strong (S (S m)) x) s source (os w) =
    let '(res, x', o) := add_source_result x s source (os w) in (res, with_strong (S (S m)) x', o)) as E1.
  { unfold add_source_result. by destruct (slab_len s =? MAX_SOURCES). }
  assert (strong (add_source_result x s source (os w)).1.2 = S m) as Es.
  { unfold add_source_result. destruct (slab_len s =? MAX_SOURCES); done. }
  destruct (add_source_result x s source (os w)) as [[res x'] o] eqn:Er. cbn in Es.
  erewrite run_bind_done.
  2: { eapply (run_with_inner h _ _ w x m); [done | done | | |].
    - rewrite run_bind. rewrite (run_add_source_result _ h (with_strong (S (S m)) x) s); [| apply set_reactor_lookup | done].
      cbn [os set_reactor set_reactors]. rewrite E1. cbv beta iota.
      instantiate (1 := set_os o (set_reactor h (with_strong (S (S m)) x') w)).
      instantiate (1 := (token_of res, io_map (fun _ => tt) res)).
      rewrite set_reactor_twice. by destruct res.
    - apply lookup_insert_eq.
    - done. }
  cbn [run fst snd]. f_equal. rewrite with_strong_twice, <- Es, with_strong_id.
  unfold set_reactor, set_reactors, set_os. cbn. by rewrite insert_insert_eq.
Qed.

Definition set_reg (r : RegId) (x : World.Registration) (w : World) : World :=
  set_registrations (<[r := x]> (registrations w)) w.

Lemma run_on_reg {A B} r (f : World.Registration -> step_res World.Registration A) (c : A -> prg B) w x a x' :
  registrations w !! r = Some x -> f x = Next a x' ->
  run (bind (Registration.on_reg r f) c) w = run (c a) (set_reg r x' w).
Proof.
  intros E Ef. unfold Registration.on_reg. erewrite run_action_next; [done |]. by rewrite E, Ef.
Qed.

Lemma set_reg_id r x w : registrations w !! r = Some x -> set_reg r x w = w.
Proof. intros E. destruct w. unfold set_reg, set_registrations. cbn in *. by rewrite insert_id. Qed.

Lemma set_reg_twice r x y w : set_reg r x (set_reg r y w) = set_reg r x w.
Proof. unfold set_reg, set_registrations. cbn. by rewrite insert_insert_eq. Qed.

(** The reactor that [try_current] finds on thread [t] without creating one: the one that
    the thread runs in, or else the fallback.  Nothing in the crate sets [CURRENT_REACTOR],
    so that it is the fallback, once there is one. *)
Definition current (w : World) (t : nat) : option HandlePriv :=
  match CURRENT_REACTOR w !! t with
  | Some h => Some h
  | None => match HANDLE_FALLBACK w with Bits h => Some h | Zero => None end
  end.

Lemma run_try_current t h {B} (c : io_result HandlePriv -> prg B) w :
  current w t = Some h -> run (bind (Fallback.try_current t) c) w = run (c (Ok h)) w.
Proof.
  unfold current, Fallback.try_current. intros E. rewrite run_bind_assoc, run_atom. cbn [fst snd].
  destruct (CURRENT_REACTOR w !! t) as [h' |]; [by injection E as -> |].
  unfold Fallback.fallback, HandlePriv.load_fallback. rewrite run_bind_assoc, run_atom. cbn [fst snd].
  destruct (HANDLE_FALLBACK w) as [| h']; [done |]. by injection E as ->.
Qed.

(** [register] on a registration that nobody uses yet, given what its two calls do. *)
Lemma run_register_err fuel t r w source e w1 :
  registrations w !! r = Some Registration.new -> run (Fallback.try_current t) w = (Done (Err e), w1) ->
  run (Registration.register (S fuel) t r source) w = (Done (Err e), w1).
Proof.
  intros Er Hc. unfold Registration.register, Registration.register2, Registration.state_load.
  erewrite (run_on_reg r _ _ _ _ INIT Registration.new); [| exact Er | done]. rewrite (set_reg_id _ _ _ Er).
  cbn [Registration.register_loop]. change (INIT =? INIT) with true. cbv iota.
  by rewrite (run_bind_done _ _ _ _ _ Hc).
Qed.

Lemma run_register_calls fuel t r w source h w1 ri res w2 :
  registrations w !! r = Some Registration.new ->
  run (Fallback.try_current t) w = (Done (Ok h), w1) -> registrations w1 = registrations w ->
  run (RegInner.new source h) (set_reg r (mkRegistration None LOCKED) w1) = (Done (ri, res), w2) ->
  registrations w2 !! r = Some (mkRegistration None LOCKED) ->
  run (Registration.register (S fuel) t r source) w =
    (Done (io_map (fun _ => true) res), set_reg r (mkRegistration (Some ri) READY) w2).
Proof.
  intros Er Hc E1 Hnew E2. unfold Registration.register, Registration.register2, Registration.state_load.
  erewrite (run_on_reg r _ _ _ _ INIT Registration.new); [| exact Er | done]. rewrite (set_reg_id _ _ _ Er).
  cbn [Registration.register_loop]. change (INIT =? INIT) with true. cbv iota.
  rewrite (run_bind_done _ _ _ _ _ Hc). unfold Registration.compare_and_swap.
  erewrite (run_on_reg r _ _ _ _ INIT (mkRegistration None LOCKED)); [| by rewrite E1 | done].
  change (negb (INIT =? INIT)) with false. cbv iota. unfold Registration.register_locked.
  rewrite (run_bind_done _ _ _ _ _ Hnew). cbn [fst snd].
  unfold Registration.set_inner. erewrite (run_on_reg r _ _ _ _ tt); [| exact E2 | done]. cbn [state].
  unfold Registration.state_swap. erewrite (run_on_reg r _ _ _ _ LOCKED); [| apply lookup_insert_eq | done].
  cbn [inner]. rewrite set_reg_twice. unfold Registration.get_inner.
  erewrite (run_on_reg r _ _ _ _ ri); [| apply lookup_insert_eq | done]. rewrite set_reg_twice.
  assert (Z.land LOCKED (unot LIFECYCLE_MASK) = 0) as ->.
  { rewrite land_unot by by apply is_usize_small. done. }
  cbn [Registration.consume]. rewrite Z.eqb_refl. cbn [bind run]. reflexivity.
Qed.

Lemma run_try_current_found t h w : current w t = Some h -> run (Fallback.try_current t) w = (Done (Ok h), w).
Proof. intros E. rewrite <- run_ret_bind. by rewrite (run_try_current t h). Qed.

Lemma run_registration_register fuel t r w h x m s source :
  registrations w !! r = Some Registration.new -> current w t = Some h ->
  reactors w !! h = Some x -> strong x = S m -> io_dispatch x = mkARwLock 0 false s ->
  run (Registration.register (S fuel) t r source) w =
  let '(res, x', o) := add_source_result x s source (os w) in
  (Done (io_map (fun _ => true) res),
   set_os o (set_reactor h x' (set_reg r (mkRegistration (Some (mkRegInner h (token_of res))) READY) w))).
Proof.
  intros Er Ec E Em El. set (w1 := set_reg r (mkRegistration None LOCKED) w).
  pose proof (run_reginner_new w1 h x m s source E Em El) as Hnew. change (os w1) with (os w) in Hnew.
  destruct (add_source_result x s source (os w)) as [[res x'] o].
  erewrite run_register_calls; [| exact Er | by apply run_try_current_found | done | exact Hnew | apply lookup_insert_eq].
  f_equal; [by destruct res |]. unfold w1, set_reg, set_registrations, set_os, set_reactor, set_reactors. cbn.
  by rewrite insert_insert_eq.
Qed.

(** A handle whose reactor is gone breaks the association. *)
Lemma run_register_gone fuel t r w h source :
  registrations w !! r = Some Registration.new -> current w t = Some h -> reactors w !! h = None ->
  run (Registration.register (S fuel) t r source) w =
    (Done (Err (other "event loop gone")), set_reg r (mkRegistration (Some (mkRegInner h ERROR)) READY) w).
Proof.
  intros Er Ec E. set (w1 := set_reg r (mkRegistration None LOCKED) w).
  assert (run (RegInner.new source h) w1 = (Done (mkRegInner h ERROR, Err (other "event loop gone")), w1)) as Hnew.
  { unfold RegInner.new. by rewrite run_bind, run_with_inner_gone. }
  erewrite run_register_calls; [| exact Er | by apply run_try_current_found | done | exact Hnew | apply lookup_insert_eq].
  unfold w1. by rewrite set_reg_twice.
Qed.

(** ** The box of a node *)

(** The address of a box: it shares a word with the life cycle. *)
Definition addr (p : Z) : Prop := 0 < p /\ is_usize p /\ Z.land p LIFECYCLE_MASK = 0.

Lemma box_alloc_addr n live p : box_alloc n live = Some p -> addr p.
Proof.
  intros (_ & Hp & Hu & Hd)%box_alloc_some. split_and!; [done | done |].
  change LIFECYCLE_MASK with (Z.ones 2). rewrite Z.land_ones by done. apply Z.mod_divide; [done |].
  etransitivity; [| exact Hd]. destruct usize_bits_cases as [-> | ->]; [by exists 1 | by exists 2].
Qed.

Lemma box_alloc_fresh w p : box_alloc (allocations w) (in_use w) = Some p -> boxes w !! p = None.
Proof. intros (Hp & _)%box_alloc_some. apply bool_decide_eq_false, eq_None_not_Some in Hp. done. Qed.

Definition boxed (p : Z) (n : Node) (w : World) : World :=
  set_allocations (S (allocations w)) (set_boxes (<[p := n]> (boxes w)) w).

Lemma run_box_new {B} p n (c : Z -> prg B) w :
  box_alloc (allocations w) (in_use w) = Some p -> run (bind (box_new n) c) w = run (c p) (boxed p n w).
Proof. intros E. unfold box_new. by rewrite (run_action_next _ _ _ p (boxed p n w)) by (by rewrite E). Qed.

(** ** [deregister] and [Drop for Inner] *)
Lemma run_reginner_deregister w h x m token source :
  token <> ERROR -> reactors w !! h = Some x -> strong x = S m ->
  run (RegInner.deregister (mkRegInner h token) source) w =
  (Done (Poll_deregister (io x) source (os w)).1, set_os (Poll_deregister (io x) source (os w)).2 w).
Proof.
  intros Ht E Em. unfold RegInner.deregister. cbn [World.token World.handle].
  rewrite (proj2 (Z.eqb_neq _ _) Ht). set (o := Poll_deregister (io x) source (os w)).
  erewrite (run_with_inner h _ _ w x m o.1); [| done | done | | |].
  2: { erewrite run_deregister_source by apply set_reactor_lookup. reflexivity. }
  2: { apply lookup_insert_eq. }
  2: { done. }
  f_equal. rewrite with_strong_twice. rewrite <- Em, with_strong_id.
  destruct w. unfold set_reactor, set_reactors, set_os. cbn in *. rewrite insert_insert_eq. by rewrite insert_id.
Qed.

Lemma run_reginner_drop w h x m token s s' :
  token <> ERROR -> reactors w !! h = Some x -> strong x = S m -> io_dispatch x = mkARwLock 0 false s ->
  slab_remove token s = Some s' ->
  run (RegInner.drop (mkRegInner h token)) w = (Done tt, st w h x (mkARwLock 0 false s')).
Proof.
  intros Ht E Em El Es. unfold RegInner.drop. cbn [World.token World.handle].
  rewrite (proj2 (Z.eqb_neq _ _) Ht).
  erewrite (run_with_inner h _ _ w x m tt); [| done | done | | |].
  2: { eapply (run_drop_source _ h _ s s'); [apply set_reactor_lookup | done | done]. }
  2: { apply lookup_insert_eq. }
  2: { done. }
  f_equal. unfold st. rewrite !set_reactor_twice. f_equal. destruct x; cbn in *. by subst.
Qed.
End exec.
