(* ===== verification/Local.v ===== *)
(** * Programs that touch only the reactors, and exclusive ownership

    Many operations only use the reactors, the operating system and the list of woken
    tasks.  A thread that has exclusive access to these runs such an operation among other
    threads as it would run it alone: [wp_local] turns what [run] computes into a fact
    about every interleaving. *)
From S2P Require Import Prelude Conc RelyGuar Deps World Reactor Background Registration.

Section local.
Context `{Deps}.

(** The part of the world that these operations use; they also read the wakers. *)
Record View := mkView {
  v_reactors : gmap ReactorId ReactorInner;
  v_os : Os;
  v_woken : list waker;
}.

Definition view (w : World) : View := mkView (reactors w) (os w) (woken w).
Definition put (v : View) (w : World) : World :=
  set_woken (v_woken v) (set_os (v_os v) (set_reactors (v_reactors v) w)).

Lemma put_view w : put (view w) w = w.
Proof. by destruct w. Qed.

Lemma view_put v w : view (put v w) = v.
Proof. by destruct v. Qed.

Inductive local {A} : prg A -> Prop :=
| local_ret a : local (Ret a)
| local_fault e : local (Fault e)
| local_Atom f (g : gmap Z waker -> View -> option (View * prg A)) :
    (forall w, f w = match g (wakers w) (view w) with
                     | Some (v, p) => Some (put v w, p)
                     | None => None
                     end) ->
    (forall k v v' p, g k v = Some (v', p) -> local p) ->
    local (Atom f).

Lemma local_wakers {A} (p : prg A) w : local p -> wakers (run p w).2 = wakers w.
Proof.
  intros Hp. revert w. induction Hp as [a | e | f g Hf Hg IH]; intros w; cbn; [done | done |].
  rewrite Hf. destruct (g _ _) as [[v p] |] eqn:E; [| done]. by rewrite (IH _ _ _ _ E).
Qed.

Lemma local_bind {A B} (p : prg A) (k : A -> prg B) :
  local p -> (forall a, local (k a)) -> local (bind p k).
Proof.
  intros Hp Hk. induction Hp as [a | e | f g Hf Hg IH]; cbn; [apply Hk | apply local_fault |].
  apply (local_Atom _ (fun m v => match g m v with Some (v', p') => Some (v', bind p' k) | None => None end)).
  - intros w. rewrite Hf. by destruct (g _ _) as [[] |].
  - intros m v v' p E. destruct (g m v) as [[v1 p1] |] eqn:Eg; [| done]. injection E as <- <-. by eapply IH.
Qed.

(** An action is local when it is a function of the view and the wakers. *)
Lemma local_action {A} (f : World -> step_res World A) (g : gmap Z waker -> View -> step_res View A) :
  (forall w, f w = match g (wakers w) (view w) with
                   | Next a v => Next a (put v w)
                   | Wait => Wait
                   | Crash e => Crash e
                   end) ->
  local (action f).
Proof.
  intros Hf. unfold action.
  apply (local_Atom _ (fun m v => match g m v with
    | Next a v' => Some (v', Ret a) | Wait => None | Crash e => Some (v, Fault e) end)).
  - intros w. rewrite Hf. destruct (g _ _); [done | done |]. by rewrite put_view.
  - intros m v v' p E. destruct (g m v); simplify_eq; constructor.
Qed.

Lemma local_on_reactor {A} rid (f : ReactorInner -> step_res ReactorInner A) : local (on_reactor rid f).
Proof.
  apply (local_action _ (fun _ v => match v_reactors v !! rid with
    | None => Crash UseAfterFree
    | Some x => match f x with
                | Next a x' => Next a (mkView (<[rid := x']> (v_reactors v)) (v_os v) (v_woken v))
                | Wait => Wait
                | Crash e => Crash e
                end
    end)).
  intros w. cbn. destruct (reactors w !! rid) as [x |]; [| done]. by destruct (f x).
Qed.

Lemma local_upgrade h : local (upgrade h).
Proof.
  unfold upgrade, atom. apply (local_action _ (fun _ v => match v_reactors v !! h with
    | Some x => match strong x with
                | O => Next None v
                | S n => Next (Some h) (mkView (<[h := with_strong (S (S n)) x]> (v_reactors v)) (v_os v) (v_woken v))
                end
    | None => Next None v
    end)).
  intros w. cbn. destruct (reactors w !! h) as [x |]; [| by rewrite put_view].
  destruct (strong x); [by rewrite put_view | done].
Qed.

Lemma local_os_call {A} (f : Os -> A * Os) : local (os_call f).
Proof.
  unfold os_call, atom. apply (local_action _ (fun _ v =>
    Next (f (v_os v)).1 (mkView (v_reactors v) (f (v_os v)).2 (v_woken v)))).
  intros w. cbn. by destruct (f (os w)).
Qed.

Lemma local_wake k : local (wake k).
Proof.
  unfold wake, atom.
  by apply (local_action _ (fun _ v => Next tt (mkView (v_reactors v) (v_os v) (v_woken v ++ [k])))).
Qed.

Lemma local_deref_waker p : local (deref_waker p).
Proof.
  apply (local_action _ (fun m v => match m !! p with Some k => Next k v | None => Crash UseAfterFree end)).
  intros w. cbn. destruct (wakers w !! p); [| done]. by rewrite put_view.
Qed.

Lemma local_free rid : local (atom (fun w => (tt, set_reactors (delete rid (reactors w)) w))).
Proof.
  unfold atom.
  by apply (local_action _ (fun _ v => Next tt (mkView (delete rid (v_reactors v)) (v_os v) (v_woken v)))).
Qed.
End local.

Create HintDb local.
#[export] Hint Resolve local_ret local_fault local_on_reactor local_upgrade local_os_call local_wake
  local_deref_waker local_free : local.

(** Take a program apart until its actions are left. *)
Ltac solve_local :=
  repeat match goal with
  | |- local (bind _ _) => apply local_bind; [| intros ?]
  | |- local (match ?x with _ => _ end) => destruct x
  | |- local (let '(_, _) := ?x in _) => destruct x
  | |- local _ => solve [auto with local nocore]
  end.

Section operations.
Context `{Deps}.

Lemma local_on_io {A} rid key (f : ScheduledIo -> A * ScheduledIo) : local (on_io rid key f).
Proof. apply local_on_reactor. Qed.

Lemma local_io_wake rid key d : local (io_wake rid key d).
Proof. unfold io_wake, io_take, wake_opt, on_io. solve_local. Qed.
#[local] Hint Resolve local_on_io local_io_wake : local.

Lemma local_with_read {A} rid (body : prg A) : local body -> local (Inner.with_read rid body).
Proof. intros Hb. unfold Inner.with_read, io_dispatch_read, io_dispatch_drop_read. solve_local; done. Qed.

Lemma local_with_write {A} rid (body : prg A) : local body -> local (Inner.with_write rid body).
Proof. intros Hb. unfold Inner.with_write, io_dispatch_write, io_dispatch_drop_write. solve_local; done. Qed.

Lemma local_wake_all rid keys : local (Inner.wake_all rid keys).
Proof. induction keys as [| key keys IH]; cbn; solve_local; done. Qed.

Lemma local_arc_drop rid : local (Inner.arc_drop rid).
Proof.
  unfold Inner.arc_drop, Inner.drop. solve_local. apply local_with_read.
  unfold Inner.io_dispatch_keys. solve_local. apply local_wake_all.
Qed.
#[local] Hint Resolve local_arc_drop : local.

Lemma local_with_inner {A} h (none : prg A) some :
  local none -> (forall rid, local (some rid)) -> local (Inner.with_inner h none some).
Proof. intros Hn Hs. unfold Inner.with_inner. solve_local; done. Qed.

Lemma local_add_source rid source : local (Inner.add_source rid source).
Proof.
  unfold Inner.add_source, Inner.next_aba_guard_fetch_add. apply local_bind; [solve_local | intros g].
  apply local_with_write. unfold Inner.io_dispatch_len, Inner.io_dispatch_insert, Inner.get_io. solve_local.
Qed.

Lemma local_new source h : local (RegInner.new source h).
Proof.
  unfold RegInner.new. apply local_bind; [| intros ?; solve_local].
  apply local_with_inner; [solve_local |]. intros rid. apply local_bind; [apply local_add_source |].
  intros ?. solve_local.
Qed.

Lemma local_register ri cx d : local (RegInner.register ri cx d).
Proof.
  unfold RegInner.register, RegInner.wake_by_ref. destruct (_ =? _); [solve_local |].
  apply local_with_inner; [solve_local |]. intros rid. unfold Inner.register. apply local_with_read.
  unfold Inner.io_dispatch_get, io_register, readiness_load. solve_local.
Qed.

Lemma local_poll_ready ri cx d : local (RegInner.poll_ready ri cx d).
Proof.
  unfold RegInner.poll_ready. destruct (_ =? _); [solve_local |].
  apply local_with_inner; [solve_local |]. intros rid. apply local_with_read.
  unfold RegInner.poll_io, Inner.io_dispatch_get, readiness_fetch_and, io_register. solve_local.
Qed.
End operations.
#[export] Hint Resolve local_arc_drop local_new local_register local_poll_ready : local.

(** ** A local program of a thread that owns the view *)
Section owner.
Context `{Deps} {G : Type}.
Context (Inv : World * G -> Prop) (act : nat -> World * G -> World * G -> Prop)
  (Blk : nat -> bool -> World * G -> Prop).
Context (i : nat) (wk : gmap Z waker) (Own : View -> World * G -> Prop).
(** [Own v]: the thread owns the view, which is [v]. *)
Context (Own_stable : forall v, stable Inv act i (Own v)).
Context (Own_put : forall v w g, Own v (w, g) -> Inv (w, g) -> view w = v /\ wakers w = wk /\
  forall v', Inv (put v' w, g) /\ act i (w, g) (put v' w, g) /\ Own v' (put v' w, g)).

Lemma wp_local {A} (p : prg A) Q w0 a w1 s :
  local p -> run p w0 = (Done a, w1) -> wakers w0 = wk -> Own (view w0) s ->
  (forall s', Own (view w1) s' -> Inv s' -> Q a s') ->
  wp Inv act Blk i p Q s.
Proof.
  intros Hp. revert w0 s. induction Hp as [b | e | f g Hf Hg IH]; intros w0 s Hrun Hwk Ho HQ; cbn in Hrun.
  - injection Hrun as -> ->. eapply wp_ret; [apply Own_stable | exact Ho | exact HQ].
  - done.
  - cbn. intros [w gh] Hr Hi. cbn.
    assert (Own (view w0) (w, gh)) as Ho' by (by eapply stable_rely).
    destruct (Own_put _ _ _ Ho' Hi) as (Ev & Ek & Hput).
    rewrite Hf, Hwk in Hrun. rewrite Hf, Ek, Ev. destruct (g wk (view w0)) as [[v' p'] |] eqn:Eg; [| done].
    destruct (Hput v') as (Hi' & Ha & Ho2). exists gh. split_and!; [done | done |].
    eapply IH; [exact Eg | exact Hrun | done | by rewrite view_put | exact HQ].
Qed.
End owner.
