(* ===== verification/Resource.v ===== *)
(** * A registered I/O resource, as its clients see it

    The specification of [PollEvented]: a resource is its slot in the reactor, the two
    cached readinesses and the outside world, and every operation of
    raw/poll_evented.rs is a function on that.  The second half proves that the
    operations implement these functions, on any world in which the resource is
    registered. *)
From S2P Require Import Prelude Conc Deps World Reactor Background Registration PollEvented.
From S2P Require Import ReactorProof RegistrationProof.

(** ** The specification *)
Module Resource.
Section spec.
Context `{Deps}.

Record Res := mkRes {
  slot : ScheduledIo;
  cache_read : Z;
  cache_write : Z;
  res_os : Os;
  res_woken : list waker;
}.

Definition cache (d : Direction) (r : Res) : Z := match d with Read => cache_read r | Write => cache_write r end.
Definition set_cache (d : Direction) (c : Z) (r : Res) : Res :=
  match d with
  | Read => mkRes (slot r) c (cache_write r) (res_os r) (res_woken r)
  | Write => mkRes (slot r) (cache_read r) c (res_os r) (res_woken r)
  end.
Definition set_slot (i : ScheduledIo) (r : Res) : Res :=
  mkRes i (cache_read r) (cache_write r) (res_os r) (res_woken r).
Definition set_res_os (o : Os) (r : Res) : Res :=
  mkRes (slot r) (cache_read r) (cache_write r) o (res_woken r).
Definition add_woken (k : waker) (r : Res) : Res :=
  mkRes (slot r) (cache_read r) (cache_write r) (res_os r) (res_woken r ++ [k]).

(** The event that makes a resource ready in a direction. *)
Definition ready_bit (d : Direction) : Z := match d with Read => Ready_readable | Write => Ready_writable end.

(** Consume the events of the slot; if there are none, [k] waits for one. *)
Definition take_events (d : Direction) (k : option waker) (r : Res) : Z * Res :=
  (bits d (slot r), set_slot (after_poll d k (slot r)) r).

(** [poll_read_ready] and [poll_write_ready].  A cached readiness stays; events that are
    neither the awaited one nor HUP are cached but do not make the resource ready. *)
Definition poll_ready (d : Direction) (k : waker) (r : Res) : option Z * Res :=
  let c := cache d r in
  if Z.land c (ready_bit d) =? 0 then
    let '(e, r1) := take_events d (Some k) r in
    if e =? 0 then (None, r1)
    else
      let r1 := set_cache d (Z.lor c e) r1 in
      let ret := Z.land e (Z.lor (ready_bit d) platform.hup) in
      if ret =? 0 then (None, (take_events d (Some k) r1).2) else (Some ret, r1)
  else
    let '(e, r1) := take_events d None r in
    (Some (Z.lor c e), if e =? 0 then r1 else set_cache d (Z.lor c e) r1).

(** [clear_read_ready] and [clear_write_ready]. *)
Definition clear_ready (d : Direction) (k : waker) (r : Res) : Res :=
  let r := set_cache d (Z.land (cache d r) (unot (ready_bit d))) r in
  match poll_ready d k r with
  | (None, r) => r
  | (Some _, r) => add_woken k r
  end.

(** An I/O call, made when the resource is ready; a call that would block gives the
    readiness back. *)
Definition io_op {A} (d : Direction) (k : waker) (call : Os -> io_result A * Os) (r : Res) :
    Poll (io_result A) * Res :=
  match poll_ready d k r with
  | (None, r) => (Pending, r)
  | (Some _, r) =>
      let '(res, o) := call (res_os r) in
      let r := set_res_os o r in
      if PollEvented.is_wouldblock res then (Pending, clear_ready d k r) else (Ready res, r)
  end.

(** The same for a call that fills a buffer, which comes back in any case. *)
Definition io_op_buf {A B} (d : Direction) (k : waker) (call : B -> Os -> (io_result A * B) * Os) (buf : B)
    (r : Res) : (Poll (io_result A) * B) * Res :=
  match poll_ready d k r with
  | (None, r) => ((Pending, buf), r)
  | (Some _, r) =>
      let '((res, buf), o) := call buf (res_os r) in
      let r := set_res_os o r in
      if PollEvented.is_wouldblock res then ((Pending, buf), clear_ready d k r) else ((Ready res, buf), r)
  end.

(** The promise of a [Poll::Pending]: the task is woken already, or it waits in the slot
    and no event of its direction is there. *)
Definition armed (d : Direction) (k : waker) (r : Res) : Prop :=
  k ∈ res_woken r \/ (aw_waker (aw_of d (slot r)) = Some k /\ bits d (slot r) = 0).
End spec.
End Resource.

(** ** The operations implement the specification *)
Module ResourceProof.
Import Resource.
Section refinement.
Context `{DepsLaws}.

(** A world in which resource [p] is registered in slot [key] of reactor [rid], whose
    lock no writer holds, and where [cx] is the context of task [k]. *)
Record registered (w : World) (p : PeId) (e : Evented) (reg : RegId) (rid : ReactorId) (x : ReactorInner)
    (m n : nat) (s : slab ScheduledIo) (key cx : Z) (k : waker) : Prop := {
  rg_polled : exists cr cw, polled w !! p = Some (mkPollEvented (Some e) reg cr cw);
  rg_reg : registrations w !! reg = Some (mkRegistration (Some (mkRegInner rid key)) READY);
  rg_key : key <> ERROR;
  rg_reactor : reactors w !! rid = Some x;
  rg_strong : strong x = S m;
  rg_dispatch : io_dispatch x = mkARwLock n false s;
  rg_slot : is_Some (slab_get key s);
  rg_waker : wakers w !! cx = Some k;
}.

Context (w : World) (p : PeId) (e : Evented) (reg : RegId) (rid : ReactorId) (x : ReactorInner).
Context (m n : nat) (s : slab ScheduledIo) (key cx : Z) (k : waker).
Hypothesis Hw : registered w p e reg rid x m n s key cx k.

(** The world in which the resource is in state [r]; everything else is as in [w]. *)
Definition cfg (r : Res) : World := {|
  os := res_os r;
  reactors := <[rid := with_dispatch (mkARwLock n false (slab_set key (slot r) s)) x]> (reactors w);
  next_reactor := next_reactor w;
  HANDLE_FALLBACK := HANDLE_FALLBACK w;
  CURRENT_REACTOR := CURRENT_REACTOR w;
  registrations := registrations w;
  boxes := boxes w; allocations := allocations w;
  wakers := wakers w;
  polled := <[p := mkPollEvented (Some e) reg (cache_read r) (cache_write r)]> (polled w);
  shareds := shareds w; spawned := spawned w;
  woken := res_woken r;
|}.

Definition pe_of (r : Res) : PollEvented := mkPollEvented (Some e) reg (cache_read r) (cache_write r).
Definition res_wf (r : Res) : Prop := is_usize (readiness (slot r)).

Lemma cfg_polled r : polled (cfg r) !! p = Some (pe_of r).
Proof. apply lookup_insert_eq. Qed.

Lemma slot_get r : slab_get key (slab_set key (slot r) s) = Some (slot r).
Proof. rewrite slab_set_get by apply Hw. by rewrite decide_True. Qed.

(** Access to a field of the [PollEvented]. *)
Lemma run_on_pe {A B} (f : PollEvented -> step_res PollEvented A) (c : A -> prg B) r a r' :
  f (pe_of r) = Next a (pe_of r') -> slot r' = slot r -> res_os r' = res_os r -> res_woken r' = res_woken r ->
  run (bind (PollEvented.on_pe p f) c) (cfg r) = run (c a) (cfg r').
Proof.
  intros Ef Es Eo Ew. unfold PollEvented.on_pe. erewrite run_action_next; [done |].
  rewrite cfg_polled, Ef. unfold cfg. rewrite Es, Eo, Ew. unfold set_polled. cbn.
  by rewrite insert_insert_eq.
Qed.

Lemma run_get_ref {B} (c : Evented -> prg B) r : run (bind (PollEvented.get_ref p) c) (cfg r) = run (c e) (cfg r).
Proof. by apply (run_on_pe _ _ r e r). Qed.

Lemma run_get_registration {B} (c : RegId -> prg B) r :
  run (bind (PollEvented.get_registration p) c) (cfg r) = run (c reg) (cfg r).
Proof. by apply (run_on_pe _ _ r reg r). Qed.

(** Access to the [Registration]. *)
Lemma run_on_reg_get {A B} (f : World.Registration -> step_res World.Registration A) (c : A -> prg B) r a :
  f (mkRegistration (Some (mkRegInner rid key)) READY) =
    Next a (mkRegistration (Some (mkRegInner rid key)) READY) ->
  run (bind (Registration.on_reg reg f) c) (cfg r) = run (c a) (cfg r).
Proof.
  intros Ef. unfold Registration.on_reg. erewrite run_action_next; [done |]. cbn [registrations cfg].
  rewrite (rg_reg _ _ _ _ _ _ _ _ _ _ _ _ Hw), Ef. unfold set_registrations, cfg. cbn.
  rewrite (insert_id (registrations w)); [done | apply Hw].
Qed.

Lemma run_register_again fuel t {B} (c : io_result unit -> prg B) r :
  run (bind (PollEvented.register (S fuel) t p) c) (cfg r) = run (c (Ok tt)) (cfg r).
Proof.
  erewrite run_bind_done; [done |]. unfold PollEvented.register. rewrite run_get_ref, run_get_registration.
  unfold Registration.register, Registration.register2, Registration.state_load.
  rewrite run_bind_assoc. erewrite run_on_reg_get by done. reflexivity.
Qed.

(** Consuming events. *)
Lemma run_registration_poll fuel cx' k' d {B} (c : io_result (option Z) -> prg B) r :
  res_wf r -> cx_waker w cx' k' ->
  run (bind (Registration.poll_ready (S fuel) reg cx' d) c) (cfg r) =
  run (c (Ok (polled_bits d (slot r)))) (cfg (take_events d k' r).2).
Proof.
  intros Hr Hk. erewrite run_bind_done; [done |].
  unfold Registration.poll_ready, Registration.state_load. erewrite run_on_reg_get by done.
  cbn [Registration.poll_loop state].
  change (READY =? INIT) with false. change (READY =? READY) with true. cbv iota.
  unfold Registration.get_inner. erewrite run_on_reg_get by done.
  erewrite run_bind_done; [reflexivity |].
  erewrite (run_poll_ready_inner (cfg r) rid key _ m n _ cx' k' d (slot r));
    [| apply Hw | apply lookup_insert_eq | apply Hw | done | apply slot_get | done | done].
  f_equal. unfold st, set_reactor, set_reactors, cfg. cbn. by rewrite insert_insert_eq, slab_set_set.
Qed.

Lemma res_wf_take d k' r : res_wf r -> res_wf (take_events d k' r).2.
Proof.
  unfold res_wf. intros Hr. cbn. unfold after_poll, consume_bits.
  destruct k', d; try case_match; cbn; by apply is_usize_land.
Qed.

Lemma res_wf_set_cache d c r : res_wf r -> res_wf (set_cache d c r).
Proof. by destruct d. Qed.

Lemma run_to_poll fuel d r :
  res_wf r ->
  run (let! res := Registration.poll_ready (S fuel) reg (Some cx) d in Ret (Registration.to_poll res)) (cfg r) =
  (Done (match polled_bits d (slot r) with Some v => Ready (Ok v) | None => Pending end),
   cfg (take_events d (Some k) r).2).
Proof.
  intros Hr. rewrite (run_registration_poll fuel (Some cx) (Some k)); [| done | apply Hw]. cbn [run Registration.to_poll].
  by destruct (polled_bits d (slot r)).
Qed.

(** Events that are neither the awaited one nor HUP are consumed at once, so that a
    second look finds nothing: the loops go round at most twice. *)
Lemma second_look d r :
  res_wf r -> Z.land (bits d (slot r)) (Z.lor (ready_bit d) platform.hup) = 0 ->
  bits d (slot (take_events d (Some k) r).2) = 0.
Proof.
  intros Hr E. cbn. unfold after_poll.
  assert (bits d (consume_bits d (slot r)) = 0) as E1.
  { unfold bits, consume_bits in *. cbn [readiness]. rewrite land_unot by done.
    unfold mask_no_hup, Ready_sub.
    apply Z.bits_inj'. intros b Hb. apply (f_equal (fun z => Z.testbit z b)) in E.
    rewrite Z.bits_0 in *. rewrite ?Z.land_spec, ?Z.lor_spec, ?Z.ldiff_spec in *.
    rewrite ?Z.land_spec, ?Z.lor_spec, ?Z.ldiff_spec in *.
    destruct (Z.testbit (mask d) b), (Z.testbit (readiness _) b), (Z.testbit platform.hup b),
      (Z.testbit (ready_bit d) b); done. }
  case_match; [| done]. unfold bits in *. by rewrite with_aw_readiness.
Qed.

Lemma poll_ready_eq d r :
  poll_ready d k r =
  if Z.land (cache d r) (ready_bit d) =? 0 then
    let r1 := (take_events d (Some k) r).2 in
    if bits d (slot r) =? 0 then (None, r1)
    else
      let r2 := set_cache d (Z.lor (cache d r) (bits d (slot r))) r1 in
      let ret := Z.land (bits d (slot r)) (Z.lor (ready_bit d) platform.hup) in
      if ret =? 0 then (None, (take_events d (Some k) r2).2) else (Some ret, r2)
  else
    let r1 := (take_events d None r).2 in
    (Some (Z.lor (cache d r) (bits d (slot r))),
     if bits d (slot r) =? 0 then r1 else set_cache d (Z.lor (cache d r) (bits d (slot r))) r1).
Proof. done. Qed.

Definition poll_result (v : option Z) : Poll (io_result Z) :=
  match v with Some v => Ready (Ok v) | None => Pending end.

Lemma run_drain_read fuel n' c r :
  res_wf r -> Z.land c (ready_bit Read) = 0 -> cache Read r = c ->
  run (PollEvented.drain_read (S fuel) (S (S n')) p reg cx (Z.lor (ready_bit Read) platform.hup) c 0) (cfg r) =
  (Done (poll_result (poll_ready Read k r).1), cfg (poll_ready Read k r).2).
Proof.
  intros Hr Hc Ec. rewrite poll_ready_eq, Ec, Hc. cbn [Z.eqb PollEvented.drain_read]. cbv zeta.
  unfold Registration.poll_read_ready at 1. erewrite run_bind_done by by apply run_to_poll.
  unfold polled_bits. set (r1 := (take_events Read (Some k) r).2).
  destruct (bits Read (slot r) =? 0) eqn:E0; [done |].
  unfold PollEvented.read_store.
  erewrite (run_on_pe _ _ r1 tt (set_cache Read (Z.lor c (bits Read (slot r))) r1)) by done.
  rewrite Z.lor_0_l. unfold Ready_is_empty.
  destruct (Z.land (bits Read (slot r)) _ =? 0) eqn:E1; cbn [negb]; [| done].
  unfold Registration.poll_read_ready. erewrite run_bind_done.
  2: { apply run_to_poll. apply res_wf_set_cache, res_wf_take, Hr. }
  unfold polled_bits. rewrite (proj2 (Z.eqb_eq (bits Read _) 0)); [done |].
  apply second_look; [done | by apply Z.eqb_eq].
Qed.

Lemma run_poll_read_ready fuel t r :
  res_wf r ->
  run (PollEvented.poll_read_ready (S (S fuel)) t p cx) (cfg r) =
  (Done (poll_result (poll_ready Read k r).1), cfg (poll_ready Read k r).2).
Proof.
  intros Hr. unfold PollEvented.poll_read_ready. rewrite run_register_again. unfold PollEvented.read_load.
  rewrite (run_on_pe _ _ r (cache Read r) r) by done. rewrite run_get_registration.
  unfold Ready_is_empty. change (Z.lor _ platform.hup) with (Z.lor (ready_bit Read) platform.hup).
  change (Z.land (cache Read r) _) with (Z.land (cache Read r) (ready_bit Read)).
  destruct (Z.land (cache Read r) _ =? 0) eqn:Ec.
  - rewrite (proj1 (Z.eqb_eq _ _) Ec). apply run_drain_read; [done | by apply Z.eqb_eq | done].
  - rewrite poll_ready_eq, Ec. cbv zeta. set (r1 := (take_events Read None r).2).
    unfold Registration.take_read_ready. rewrite (run_registration_poll _ None None) by done. fold r1.
    unfold polled_bits. destruct (bits Read (slot r) =? 0) eqn:E0.
    + rewrite (proj1 (Z.eqb_eq _ _) E0), Z.lor_0_r. done.
    + unfold PollEvented.read_store.
      by erewrite (run_on_pe _ _ r1 tt (set_cache Read (Z.lor (cache Read r) (bits Read (slot r))) r1)) by done.
Qed.

Lemma run_drain_write fuel n' c r :
  res_wf r -> Z.land c (ready_bit Write) = 0 -> cache Write r = c ->
  run (PollEvented.drain_write (S fuel) (S (S n')) p reg cx (Z.lor (ready_bit Write) platform.hup) c 0) (cfg r) =
  (Done (poll_result (poll_ready Write k r).1), cfg (poll_ready Write k r).2).
Proof.
  intros Hr Hc Ec. rewrite poll_ready_eq, Ec, Hc. cbn [Z.eqb PollEvented.drain_write]. cbv zeta.
  unfold Registration.poll_write_ready at 1. erewrite run_bind_done by by apply run_to_poll.
  unfold polled_bits. set (r1 := (take_events Write (Some k) r).2).
  destruct (bits Write (slot r) =? 0) eqn:E0; [done |].
  unfold PollEvented.write_store.
  erewrite (run_on_pe _ _ r1 tt (set_cache Write (Z.lor c (bits Write (slot r))) r1)) by done.
  rewrite Z.lor_0_l. unfold Ready_is_empty.
  destruct (Z.land (bits Write (slot r)) _ =? 0) eqn:E1; cbn [negb]; [| done].
  unfold Registration.poll_write_ready. erewrite run_bind_done.
  2: { apply run_to_poll. apply res_wf_set_cache, res_wf_take, Hr. }
  unfold polled_bits. rewrite (proj2 (Z.eqb_eq (bits Write _) 0)); [done |].
  apply second_look; [done | by apply Z.eqb_eq].
Qed.

Lemma run_poll_write_ready fuel t r :
  res_wf r ->
  run (PollEvented.poll_write_ready (S (S fuel)) t p cx) (cfg r) =
  (Done (poll_result (poll_ready Write k r).1), cfg (poll_ready Write k r).2).
Proof.
  intros Hr. unfold PollEvented.poll_write_ready. rewrite run_register_again. unfold PollEvented.write_load.
  rewrite (run_on_pe _ _ r (cache Write r) r) by done. rewrite run_get_registration.
  unfold Ready_is_empty. change (Z.lor _ platform.hup) with (Z.lor (ready_bit Write) platform.hup).
  change (Z.land (cache Write r) _) with (Z.land (cache Write r) (ready_bit Write)).
  destruct (Z.land (cache Write r) _ =? 0) eqn:Ec.
  - rewrite (proj1 (Z.eqb_eq _ _) Ec). apply run_drain_write; [done | by apply Z.eqb_eq | done].
  - rewrite poll_ready_eq, Ec. cbv zeta. set (r1 := (take_events Write None r).2).
    unfold Registration.take_write_ready. rewrite (run_registration_poll _ None None) by done. fold r1.
    unfold polled_bits. destruct (bits Write (slot r) =? 0) eqn:E0.
    + rewrite (proj1 (Z.eqb_eq _ _) E0), Z.lor_0_r. done.
    + unfold PollEvented.write_store.
      by erewrite (run_on_pe _ _ r1 tt (set_cache Write (Z.lor (cache Write r) (bits Write (slot r))) r1)) by done.
Qed.

Lemma run_wake_by_ref {B} (c : unit -> prg B) r :
  run (bind (RegInner.wake_by_ref cx) c) (cfg r) = run (c tt) (cfg (add_woken k r)).
Proof.
  unfold RegInner.wake_by_ref. rewrite run_bind_assoc. erewrite run_deref_waker by apply Hw.
  rewrite run_wake. done.
Qed.

Lemma res_wf_poll_ready d r : res_wf r -> res_wf (poll_ready d k r).2.
Proof.
  intros Hr. rewrite poll_ready_eq.
  repeat (case_match; cbn [snd]); repeat first [apply res_wf_set_cache | apply res_wf_take]; done.
Qed.

Lemma res_wf_clear_ready d r : res_wf r -> res_wf (clear_ready d k r).
Proof.
  intros Hr. unfold clear_ready.
  pose proof (res_wf_poll_ready d (set_cache d (Z.land (cache d r) (unot (ready_bit d))) r)) as H1.
  destruct (poll_ready d k _) as [[] ?]; apply H1; by apply res_wf_set_cache.
Qed.

Lemma cache_set_cache d c r : cache d (set_cache d c r) = c.
Proof. by destruct d. Qed.

Lemma run_clear_read_ready fuel t r :
  res_wf r ->
  run (PollEvented.clear_read_ready (S (S fuel)) t p cx) (cfg r) = (Done (Ok tt), cfg (clear_ready Read k r)).
Proof.
  intros Hr. unfold PollEvented.clear_read_ready, PollEvented.read_fetch_and, clear_ready.
  set (r1 := set_cache Read _ r). rewrite (run_on_pe _ _ r (cache Read r) r1) by done.
  erewrite run_bind_done by by apply run_poll_read_ready, res_wf_set_cache.
  destruct (poll_ready Read k r1) as [[v |] r2]; cbn [fst snd poll_result]; [| done].
  by rewrite run_wake_by_ref.
Qed.

Lemma run_clear_write_ready fuel t r :
  res_wf r ->
  run (PollEvented.clear_write_ready (S (S fuel)) t p cx) (cfg r) = (Done (Ok tt), cfg (clear_ready Write k r)).
Proof.
  intros Hr. unfold PollEvented.clear_write_ready, PollEvented.write_fetch_and, clear_ready.
  set (r1 := set_cache Write _ r). rewrite (run_on_pe _ _ r (cache Write r) r1) by done.
  erewrite run_bind_done by by apply run_poll_write_ready, res_wf_set_cache.
  destruct (poll_ready Write k r1) as [[v |] r2]; cbn [fst snd poll_result]; [| done].
  by rewrite run_wake_by_ref.
Qed.

(** ** The I/O calls *)

Lemma run_io_call {A B} (call : Os -> A * Os) (c : A -> prg B) r :
  run (bind (os_call call) c) (cfg r) = run (c (call (res_os r)).1) (cfg (set_res_os (call (res_os r)).2 r)).
Proof. unfold os_call. rewrite run_atom. cbn [os cfg]. by destruct (call (res_os r)). Qed.

Lemma run_clear_and_wait {A} d clear r :
  run clear (cfg r) = (Done (Ok tt), cfg (clear_ready d k r)) ->
  run (PollEvented.clear_and_wait clear : prg (Poll (io_result A))) (cfg r) = (Done Pending, cfg (clear_ready d k r)).
Proof. intros E. unfold PollEvented.clear_and_wait. by rewrite (run_bind_done _ _ _ _ _ E). Qed.

(** A call under [ready!(..?)], whose result is examined by [body]. *)
Lemma run_when_ready {A} d poll (body : prg (Poll (io_result A))) call r :
  res_wf r -> run poll (cfg r) = (Done (poll_result (poll_ready d k r).1), cfg (poll_ready d k r).2) ->
  (forall r1, res_wf r1 -> run body (cfg r1) =
     (let '(res, o) := call (res_os r1) in
      let r2 := set_res_os o r1 in
      if PollEvented.is_wouldblock res then (Done Pending, cfg (clear_ready d k r2))
      else (Done (Ready res), cfg r2))) ->
  run (PollEvented.when_ready poll body) (cfg r) =
  (Done (io_op d k call r).1, cfg (io_op d k call r).2).
Proof.
  intros Hr Ep Hb. pose proof (res_wf_poll_ready d r Hr) as Hr1.
  unfold PollEvented.when_ready, io_op. erewrite run_bind_done by exact Ep.
  destruct (poll_ready d k r) as [[v |] r1]; cbn [fst snd poll_result]; [| done].
  rewrite (Hb r1 Hr1). destruct (call (res_os r1)) as [res o]. by case_match.
Qed.

Lemma run_poll_write fuel t write r :
  res_wf r ->
  run (PollEvented.poll_write (S (S fuel)) t write p cx) (cfg r) =
  (Done (io_op Write k (write e) r).1, cfg (io_op Write k (write e) r).2).
Proof.
  intros Hr. apply run_when_ready; [done | by apply run_poll_write_ready |]. intros r1 Hr1.
  rewrite run_get_ref, run_io_call. destruct (write e (res_os r1)) as [res o]. cbn [fst snd].
  case_match; [| done]. by apply run_clear_and_wait, run_clear_write_ready.
Qed.

Lemma run_poll_flush fuel t flush r :
  res_wf r ->
  run (PollEvented.poll_flush (S (S fuel)) t flush p cx) (cfg r) =
  (Done (io_op Write k (flush e) r).1, cfg (io_op Write k (flush e) r).2).
Proof.
  intros Hr. apply run_when_ready; [done | by apply run_poll_write_ready |]. intros r1 Hr1.
  rewrite run_get_ref, run_io_call. destruct (flush e (res_os r1)) as [res o]. cbn [fst snd].
  case_match; [| done]. by apply run_clear_and_wait, run_clear_write_ready.
Qed.

Lemma run_poll_read {B} fuel t (read : Evented -> B -> Os -> (io_result Z * B) * Os) buf r :
  res_wf r ->
  run (PollEvented.poll_read (S (S fuel)) t read p cx buf) (cfg r) =
  (Done (io_op_buf Read k (read e) buf r).1, cfg (io_op_buf Read k (read e) buf r).2).
Proof.
  intros Hr. pose proof (res_wf_poll_ready Read r Hr) as Hr1. unfold PollEvented.poll_read, io_op_buf.
  erewrite run_bind_done by by apply run_poll_read_ready.
  destruct (poll_ready Read k r) as [[v |] r1]; cbn [fst snd poll_result]; [| done].
  rewrite run_get_ref, run_io_call. destruct (read e buf (res_os r1)) as [[res buf'] o]. cbn [fst snd].
  case_match; [| done]. erewrite run_bind_done; [done |]. by apply run_clear_and_wait, run_clear_read_ready.
Qed.

(** ** [Drop for PollEvented] *)

(** The world without the resource. *)
Definition dropped (o : Os) (s' : slab ScheduledIo) (r : Res) : World := {|
  os := o;
  reactors := <[rid := with_dispatch (mkARwLock 0 false s') x]> (reactors w);
  next_reactor := next_reactor w;
  HANDLE_FALLBACK := HANDLE_FALLBACK w;
  CURRENT_REACTOR := CURRENT_REACTOR w;
  registrations := delete reg (registrations w);
  boxes := boxes w; allocations := allocations w;
  wakers := wakers w;
  polled := delete p (polled w);
  shareds := shareds w; spawned := spawned w;
  woken := res_woken r;
|}.

Lemma run_drop close r s' :
  n = 0%nat -> slab_remove key (slab_set key (slot r) s) = Some s' ->
  run (PollEvented.drop close p) (cfg r) =
  (Done tt, dropped (close e (Poll_deregister (io x) e (res_os r)).2) s' r).
Proof.
  intros Hn Es. unfold PollEvented.drop. rewrite run_get_registration.
  unfold PollEvented.on_pe. erewrite run_action_next; [| by rewrite cfg_polled].
  cbn [pe_io pe_of]. cbv iota. set (w1 := set_polled _ (cfg r)).
  assert (registrations w1 !! reg = Some (mkRegistration (Some (mkRegInner rid key)) READY)) as Er by apply Hw.
  set (x1 := with_dispatch (mkARwLock n false (slab_set key (slot r) s)) x).
  assert (reactors w1 !! rid = Some x1) as Ex by apply lookup_insert_eq.
  rewrite run_bind_assoc. unfold Registration.deregister. rewrite run_bind_assoc.
  erewrite (run_on_reg reg); [| exact Er | done]. rewrite (set_reg_id _ _ _ Er). cbn [inner].
  rewrite run_bind_assoc, run_bind.
  rewrite (run_reginner_deregister w1 rid x1 m key e (rg_key _ _ _ _ _ _ _ _ _ _ _ _ Hw) Ex
    (rg_strong _ _ _ _ _ _ _ _ _ _ _ _ Hw)).
  change (Poll_deregister (io x1) e (os w1)) with (Poll_deregister (io x) e (res_os r)).
  set (res := Poll_deregister (io x) e (res_os r)).
  transitivity (run (let! _ := os_call (fun o => (tt, close e o)) in
    let! i := Registration.on_reg reg (fun x => Next (inner x) x) in
    let! _ := match i with Some inner => RegInner.drop inner | None => Ret tt end in
    atom (fun w => (tt, set_registrations (delete reg (registrations w))
                        (set_polled (delete p (polled w)) w)))) (set_os res.2 w1)).
  { by destruct res.1. }
  erewrite run_os_call by done. set (w2 := set_os _ (set_os _ w1)).
  erewrite (run_on_reg reg _ _ w2); [| exact Er | done].
  rewrite (set_reg_id _ _ w2 Er). cbn [inner]. rewrite run_bind.
  rewrite (run_reginner_drop w2 rid x1 m key _ s' (rg_key _ _ _ _ _ _ _ _ _ _ _ _ Hw) Ex
    (rg_strong _ _ _ _ _ _ _ _ _ _ _ _ Hw) ltac:(unfold x1; by rewrite Hn) Es).
  rewrite <- (run_ret_bind (atom _)), run_atom. cbn [run fst snd]. f_equal.
  unfold dropped, st, set_reactor, set_reactors, set_registrations, set_polled, w2, w1, set_os. cbn.
  by rewrite insert_insert_eq, !delete_insert_eq.
Qed.
End refinement.
End ResourceProof.
