(* ===== verification/Demo.v ===== *)
(** * Small worlds on which the theorems are evaluated

    Built by running the program itself on the instances of [Toy]. *)
From S2P Require Import Prelude Conc Deps Toy World Reactor Background Registration PollEvented.

Module Demo.
Import Toy.

Definition empty_world : World := {|
  os := toy_os_init; reactors := ∅; next_reactor := 0%nat; HANDLE_FALLBACK := Zero;
  CURRENT_REACTOR := ∅; registrations := ∅; boxes := ∅; allocations := 0; wakers := ∅;
  polled := ∅; shareds := ∅; spawned := []; woken := [];
|}.

(** One reactor, number 0. *)
Definition world0 : World := Eval vm_compute in (run Reactor.new empty_world).2.

(** Two I/O resources, in slots 0 and 1, and two wakers, at addresses 500 and 600. *)
Definition with_wakers (w : World) : World := set_wakers {[500 := 51%nat; 600 := 61%nat]} w.
Definition world1 : World := Eval vm_compute in with_wakers (run (Inner.add_source 0%nat 7) world0).2.
Definition world2 : World := Eval vm_compute in (run (Inner.add_source 0%nat 9) world1).2.

(** An I/O resource, wrapped and registered by thread 0: [PollEvented] 0 and registration 0,
    in slot 0.  Reactor 0 is the fallback. *)
Definition set_current : World -> World := set_fallback_handle (HandlePriv.into_usize 0%nat).
Definition world_unregistered : World := Eval vm_compute in
  (run (PollEvented.new 7) (set_current (with_wakers world0))).2.
Definition world_pe : World := Eval vm_compute in
  (run (PollEvented.register 4 0 0%nat) world_unregistered).2.

Definition reactor_of (w : World) : ReactorInner :=
  default (mkReactorInner 0 0 (mkARwLock 0 false []) 0 0) (reactors w !! 0%nat).
Definition slab_at (w : World) : slab ScheduledIo := slab_of (reactor_of w).
Definition io_at (key : Z) (w : World) : ScheduledIo :=
  default (mkScheduledIo 0 0 None None) (slab_get key (slab_at w)).
End Demo.
