(* ===== verification/ReactorSpec.v ===== *)
(** * Properties of the reactor *)
From S2P Require Import Prelude Conc Deps Toy World Reactor Background Registration.
From S2P Require Import ReactorProof RegistrationProof Demo.

Module ReactorSpec.
Import Dispatch.
Section spec.
Context `{DepsLaws}.

Lemma run_dispatch_live w rid x n s key ready i :
  reactors w !! rid = Some x -> io_dispatch x = mkARwLock n false s ->
  slab_get key s = Some i -> guard_wf (aba_guard i) -> 0 <= key < MAX_SOURCES ->
  run (Reactor.dispatch rid (Z.lor (aba_guard i) key) ready) w =
  (Done tt, set_woken (woken w ++ woken_by ready i)
     (st w rid x (mkARwLock n false (slab_set key (after_event ready i) s)))).
Proof.
  intros E El Es Hg Hk.
  assert (0 <= key < 2 ^ TOKEN_SHIFT) as Hk'. { change (2 ^ TOKEN_SHIFT) with (MAX_SOURCES + 1). lia. }
  rewrite (run_dispatch w rid x n s _ ready i); rewrite ?(token_key _ _ Hg Hk'); try done.
  by apply token_guard.
Qed.

(** C19: An event for the token of a live source reaches that source and nothing else:
    its readiness bits are added, the waiting reader is woken for every event that
    is not only writability, the waiting writer for writability and hang-up, each
    at most once and the reader first, and the rest of the world is unchanged. *)
Theorem dispatch_delivers w rid x n s key ready i :
  reactors w !! rid = Some x -> io_dispatch x = mkARwLock n false s ->
  slab_get key s = Some i -> guard_wf (aba_guard i) -> 0 <= key < MAX_SOURCES ->
  run (Reactor.dispatch rid (Z.lor (aba_guard i) key) ready) w =
  (Done tt, set_woken (woken w ++ woken_by ready i)
     (st w rid x (mkARwLock n false (slab_set key (after_event ready i) s)))).
Proof. apply run_dispatch_live. Qed.

(** An event whose slot is vacant, or holds a source with another guard. *)
Definition stale (token : Z) (s : slab ScheduledIo) : Prop :=
  match slab_get (Z.land token MAX_SOURCES) s with
  | Some i => aba_guard i <> Z.land token (unot MAX_SOURCES)
  | None => True
  end.

Lemma run_dispatch_stale w rid x n s token ready :
  reactors w !! rid = Some x -> io_dispatch x = mkARwLock n false s -> stale token s ->
  run (Reactor.dispatch rid token ready) w = (Done tt, w).
Proof.
  intros E El Hs. unfold Reactor.dispatch.
  rewrite (run_bind_done _ _ _ None (st w rid x (io_dispatch x))).
  { cbn [run]. by rewrite (st_id w rid x E). }
  rewrite El. eapply run_with_read; [done | done |]. rewrite run_io_get. unfold stale in Hs.
  destruct (slab_get _ s) as [i |]; cbn [fmap option_fmap option_map]; [| done].
  by rewrite (proj2 (Z.eqb_neq _ _)) by congruence.
Qed.

(** C20: An event that arrives after its source was dropped changes nothing: neither when
    its slot is vacant, nor when the slot is used again by the [n]-th registration
    after it, as long as [n] is below [2 ^ (usize_bits - 22)], where the guards start
    to repeat. *)
Theorem dispatch_ignores_late_events w rid x m s g key ready :
  reactors w !! rid = Some x -> io_dispatch x = mkARwLock m false s ->
  guard_wf g -> 0 <= key < MAX_SOURCES ->
  (slab_get key s = None \/
   exists i n, slab_get key s = Some i /\ aba_guard i = nth_guard g n /\
     0 < n < 2 ^ (usize_bits - TOKEN_SHIFT)) ->
  run (Reactor.dispatch rid (Z.lor g key) ready) w = (Done tt, w).
Proof.
  intros E El Hg Hk Hs. eapply run_dispatch_stale; [done | done |]. unfold stale.
  assert (0 <= key < 2 ^ TOKEN_SHIFT) as Hk'. { change (2 ^ TOKEN_SHIFT) with (MAX_SOURCES + 1). lia. }
  rewrite (token_key _ _ Hg Hk'), (token_guard _ _ Hg Hk').
  destruct Hs as [-> | (i & n & -> & -> & Hn)]; [done |].
  intros Eg. apply nth_guard_inj in Eg; [| apply Hg]. rewrite Z.mod_small in Eg; lia.
Qed.

(** ** The reactor invariant *)

(** The slab never grows beyond [MAX_SOURCES] slots, so that a slot number fits below
    the guard; guards leave that space free; readiness is a word. *)
Record reactor_wf (x : ReactorInner) : Prop := {
  rw_high : slab_high (slab_of x) <= MAX_SOURCES;
  rw_guard : guard_wf (next_aba_guard x);
  rw_io key i : slab_get key (slab_of x) = Some i -> guard_wf (aba_guard i) /\ is_usize (readiness i);
}.

Lemma reactor_wf_set x key i i' s :
  reactor_wf x -> slab_of x = s -> slab_get key s = Some i ->
  aba_guard i' = aba_guard i -> is_usize (readiness i') ->
  reactor_wf (with_slab (slab_set key i' s) x).
Proof.
  intros [Hh Hg Hi] <- Es Eg Hr. constructor; unfold slab_of in *; cbn.
  - by rewrite slab_set_high.
  - done.
  - intros k j. rewrite slab_set_get by (by eexists). case_decide as Ek; [| apply Hi].
    intros [= <-]. rewrite Eg. split; [by eapply Hi | done].
Qed.

Lemma reactor_wf_bump x : reactor_wf x -> reactor_wf (bump x).
Proof.
  intros [Hh Hg Hi]. constructor; [done | | done]. cbn.
  pose proof (nth_guard_wf _ 1 Hg) as H1. unfold nth_guard in H1. by rewrite Z.mul_1_l in H1.
Qed.

Lemma reactor_wf_insert x s g :
  reactor_wf x -> slab_of x = s -> slab_len s <> MAX_SOURCES -> guard_wf g ->
  reactor_wf (with_slab (slab_insert (fresh_io g) s).2 x).
Proof.
  intros [Hh Hg Hi] <- Hlen Hg'. constructor; unfold slab_of in *; cbn.
  - rewrite slab_insert_high. pose proof (slab_len_high (a_value (io_dispatch x))). lia.
  - done.
  - intros k j. rewrite slab_insert_get. case_decide; [| apply Hi].
    intros [= <-]. split; [done | apply is_usize_0].
Qed.

(** The slot of a new source. *)
Lemma insert_key_range x s i :
  reactor_wf x -> slab_of x = s -> slab_len s <> MAX_SOURCES ->
  0 <= (slab_insert i s).1 < MAX_SOURCES.
Proof.
  intros [Hh _ _] <- Hlen.
  assert (slab_get (slab_insert i (slab_of x)).1 (slab_insert i (slab_of x)).2 = Some i) as Hget.
  { rewrite slab_insert_get. by rewrite decide_True. }
  apply slab_get_range in Hget. rewrite slab_insert_high in Hget.
  pose proof (slab_len_high (slab_of x)). lia.
Qed.

(** C18: What [add_source] registers with the operating system is what [dispatch] decodes.
    The new source gets a slot that was vacant and a token that is not the wakeup
    token; an event with that token that arrives later sets the readiness of the
    new source, and of no other. *)
Theorem add_source_then_dispatch w rid x s source o ready :
  reactors w !! rid = Some x -> io_dispatch x = mkARwLock 0 false s -> reactor_wf x ->
  slab_len s <> MAX_SOURCES ->
  let key := (slab_insert (fresh_io (next_aba_guard x)) s).1 in
  let token := Z.lor (next_aba_guard x) key in
  Poll_register (io x) source token Ready_all PollOpt_edge (os w) = (Ok tt, o) ->
  exists w1 w2 x2,
    run (Inner.add_source rid source) w = (Done (Ok key), w1) /\
    run (Reactor.dispatch rid token ready) w1 = (Done tt, w2) /\
    slab_get key s = None /\ token <> TOKEN_WAKEUP /\ os w2 = o /\ woken w2 = woken w /\
    reactors w2 !! rid = Some x2 /\
    readiness <$> slab_get key (slab_of x2) = Some ready /\
    (forall k, k <> key -> slab_get k (slab_of x2) = slab_get k s).
Proof.
  intros E El Hwf Hlen key token Hos. set (i := fresh_io (next_aba_guard x)).
  assert (slab_of x = s) as Es by (unfold slab_of; by rewrite El).
  pose proof (insert_key_range x s i Hwf Es Hlen) as Hk. fold key in Hk.
  set (s1 := (slab_insert i s).2).
  assert (slab_get key s1 = Some i) as Hget.
  { unfold s1. rewrite slab_insert_get. by rewrite decide_True. }
  set (w1 := set_os o (st w rid (bump x) (mkARwLock 0 false s1))).
  set (x1 := with_dispatch (mkARwLock 0 false s1) (bump x)).
  assert (reactors w1 !! rid = Some x1) as E1 by apply lookup_insert_eq.
  exists w1. eexists. exists (with_dispatch (mkARwLock 0 false (slab_set key (after_event ready i) s1)) x1).
  split_and!.
  - rewrite (run_add_source w rid x s source E El), (proj2 (Z.eqb_neq _ _) Hlen).
    rewrite (surjective_pairing (slab_insert (fresh_io _) s)). cbv beta iota.
    unfold token, key in Hos. by rewrite Hos.
  - apply (run_dispatch_live w1 rid x1 0 s1 key ready i); try done. apply Hwf.
  - apply slab_insert_fresh.
  - apply token_not_wakeup; [apply Hwf | done].
  - done.
  - cbn. unfold woken_by, i. cbn. rewrite aw_new_waker. cbn.
    destruct (wants_read ready), (wants_write ready); cbn; by rewrite app_nil_r.
  - apply lookup_insert_eq.
  - unfold slab_of. cbn. rewrite slab_set_get by (by eexists). rewrite decide_True by done.
    done.
  - intros k Hne. unfold slab_of. cbn. rewrite slab_set_get by (by eexists).
    rewrite decide_False by done. unfold s1. rewrite slab_insert_get. by rewrite decide_False.
Qed.

(** ** Guards repeat *)

Lemma reactor_wf_remove x s key s' :
  reactor_wf x -> slab_of x = s -> slab_remove key s = Some s' -> reactor_wf (with_slab s' x).
Proof.
  intros [Hh Hg Hi] <- Es. destruct (slab_get key (slab_of x)) as [i |] eqn:Ei.
  2: { by rewrite slab_remove_none in Es. }
  destruct (slab_remove_get (slab_of x) key) as (s2 & Es2 & Hget & _ & Hhigh); [by eexists |]. simplify_eq.
  constructor; unfold slab_of in *; cbn; [by rewrite Hhigh | done |].
  intros k j. rewrite Hget. case_decide; [done | apply Hi].
Qed.

(** The slot that was given back last is the first to be used again: [Slab] keeps the
    vacant slots on a stack. *)
Definition last_freed_first : Prop := forall (i j : ScheduledIo) s s',
  slab_remove (slab_insert i s).1 (slab_insert i s).2 = Some s' -> (slab_insert j s').1 = (slab_insert i s).1.

(** Sources that come and go, one after the other. *)
Fixpoint churn (rid : ReactorId) (sources : list Evented) : prg unit :=
  match sources with
  | [] => Ret tt
  | source :: sources =>
      let! res := Inner.add_source rid source in
      let! _ := match res with
                | Ok key => let! _ := Inner.deregister_source rid source in Inner.drop_source rid key
                | Err _ => Ret tt
                end in
      churn rid sources
  end.

(** An operating system that accepts every source. *)
Record accepts (P : Os -> Prop) (poll : PollId) : Prop := {
  acc_register source token o : P o ->
    exists o', Poll_register poll source token Ready_all PollOpt_edge o = (Ok tt, o') /\ P o';
  acc_deregister source o : P o -> P (Poll_deregister poll source o).2;
}.

(** A reactor, with the guard and the slot of its next source. *)
Record ready_for (P : Os -> Prop) (poll : PollId) (rid : ReactorId) (guard key : Z) (w : World)
    (x : ReactorInner) (s : slab ScheduledIo) : Prop := {
  rf_reactor : reactors w !! rid = Some x;
  rf_dispatch : io_dispatch x = mkARwLock 0 false s;
  rf_wf : reactor_wf x;
  rf_room : slab_len s <> MAX_SOURCES;
  rf_poll : io x = poll;
  rf_os : P (os w);
  rf_guard : next_aba_guard x = guard;
  rf_key : (slab_insert (fresh_io guard) s).1 = key;
}.

(** The next source; afterwards the reactor is as [run_dispatch_live] wants it. *)
Lemma run_add_ready P poll rid guard key w x s source :
  accepts P poll -> ready_for P poll rid guard key w x s ->
  exists w1, run (Inner.add_source rid source) w = (Done (Ok key), w1) /\
    let s1 := (slab_insert (fresh_io guard) s).2 in
    let x1 := with_dispatch (mkARwLock 0 false s1) (bump x) in
    reactors w1 !! rid = Some x1 /\ reactor_wf x1 /\ P (os w1) /\ 0 <= key < MAX_SOURCES /\
    slab_get key s1 = Some (fresh_io guard).
Proof.
  intros Hp [E El Hwf Hlen Ei Hos <- Hkey]. assert (slab_of x = s) as Es by (unfold slab_of; by rewrite El).
  set (i := fresh_io (next_aba_guard x)) in *. rewrite (run_add_source w rid x s source E El), (proj2 (Z.eqb_neq _ _) Hlen).
  rewrite (surjective_pairing (slab_insert _ s)). fold i. rewrite Hkey. cbv beta iota.
  destruct (acc_register _ _ Hp source (Z.lor (next_aba_guard x) key) (os w) Hos) as (o & Eo & Ho).
  rewrite Ei, Eo. eexists. split; [done |]. cbv zeta. split_and!; [apply lookup_insert_eq | | done | | |].
  - pose proof (reactor_wf_bump x Hwf) as Hb. assert (slab_of (bump x) = s) as Eb by (by unfold slab_of in *).
    assert (with_dispatch (mkARwLock 0 false (slab_insert i s).2) (bump x) = with_slab (slab_insert i s).2 (bump x)) as ->.
    { unfold with_slab. cbn. by rewrite El. }
    apply reactor_wf_insert; [done | done | done | apply Hwf].
  - rewrite <- Hkey. by eapply insert_key_range.
  - rewrite <- Hkey. by eapply insert_key_range.
  - rewrite slab_insert_get. by rewrite decide_True.
Qed.

(** A source that comes and goes takes one guard. *)
Lemma run_churn P poll rid sources guard key w x s :
  last_freed_first -> accepts P poll -> ready_for P poll rid guard key w x s ->
  exists w1 x1 s1, run (churn rid sources) w = (Done tt, w1) /\
    ready_for P poll rid (nth_guard guard (Z.of_nat (length sources))) key w1 x1 s1.
Proof.
  intros Hfree Hp. revert guard w x s. induction sources as [| source sources IH]; intros guard w x s Hw.
  { exists w, x, s. split; [done |]. cbn [length Z.of_nat]. unfold nth_guard, wrapping_add.
    rewrite Z.mul_0_l, Z.add_0_r, Z.mod_small; [done |]. rewrite <- (rf_guard _ _ _ _ _ _ _ _ Hw).
    apply (rw_guard _ (rf_wf _ _ _ _ _ _ _ _ Hw)). }
  destruct (run_add_ready P poll rid guard key w x s source Hp Hw) as (wa & Ha & Ea & Hwf & Hos & _ & Hget).
  cbv zeta in Ea, Hwf. set (sa := (slab_insert (fresh_io guard) s).2) in *.
  set (xa := with_dispatch (mkARwLock 0 false sa) (bump x)) in *.
  destruct (slab_remove_get sa key) as (sb & Esb & _ & Hlen & _); [by eexists |].
  set (wb := set_os (Poll_deregister poll source (os wa)).2 wa).
  set (xb := with_dispatch (mkARwLock 0 false sb) xa). set (wc := st wb rid xa (mkARwLock 0 false sb)).
  destruct Hw as [E El _ Hroom Ei _ Hg Hkey].
  assert (ready_for P poll rid (nth_guard guard 1) key wc xb sb) as Hc.
  { constructor; [apply lookup_insert_eq | done | | | done | by apply (acc_deregister _ _ Hp) | |].
    - apply (reactor_wf_remove xa sa key sb) in Hwf; done.
    - rewrite Hlen. unfold sa. rewrite slab_insert_len. lia.
    - cbn. rewrite Hg. unfold nth_guard. by rewrite Z.mul_1_l.
    - rewrite <- Hkey. apply Hfree. by rewrite Hkey. }
  destruct (IH _ _ _ _ Hc) as (w1 & x1 & s1 & Hr & H1). exists w1, x1, s1. cbn [churn]. split.
  - rewrite (run_bind_done _ _ _ _ _ Ha), run_bind_assoc.
    erewrite run_bind_done by by apply (run_deregister_source wa rid xa). change (io xa) with (io x). rewrite Ei. fold wb.
    erewrite run_bind_done; [exact Hr |]. by apply (run_drop_source wb rid xa sa sb key).
  - cbn [length]. rewrite Nat2Z.inj_succ, <- Z.add_1_l, <- nth_guard_add. done.
Qed.

(** C39: Guards repeat after exactly [2 ^ (usize_bits - 22)] registrations.  A source is
    dropped and other sources come and go in its slot; an event for it arrives when the
    slot belongs to a new source.  The new source gets that event if the number of
    registrations since is a multiple of [2 ^ (usize_bits - 22)], and otherwise nothing
    happens. *)
Theorem late_event_after_reuse P rid w x s old others new ready :
  last_freed_first -> accepts P (io x) -> P (os w) ->
  reactors w !! rid = Some x -> io_dispatch x = mkARwLock 0 false s -> reactor_wf x -> slab_len s <> MAX_SOURCES ->
  exists key w0 w1 x1,
    run (Inner.add_source rid old) w = (Done (Ok key), w0) /\
    run (let! _ := churn rid (old :: others) in Inner.add_source rid new) w = (Done (Ok key), w1) /\
    reactors w1 !! rid = Some x1 /\ readiness <$> slab_get key (slab_of x1) = Some 0 /\
    let late := Reactor.dispatch rid (Z.lor (next_aba_guard x) key) ready in
    if Z.of_nat (S (length others)) mod 2 ^ (usize_bits - TOKEN_SHIFT) =? 0 then
      exists w2 x2, run late w1 = (Done tt, w2) /\ reactors w2 !! rid = Some x2 /\
        readiness <$> slab_get key (slab_of x2) = Some ready
    else run late w1 = (Done tt, w1).
Proof.
  intros Hfree Hp Hos E El Hwf Hroom. set (g := next_aba_guard x). set (key := (slab_insert (fresh_io g) s).1).
  assert (ready_for P (io x) rid g key w x s) as Hw.
  { by constructor. }
  destruct (run_add_ready _ _ rid g key w x s old Hp Hw) as (w0 & Hold & _).
  destruct (run_churn _ _ rid (old :: others) g key w x s Hfree Hp Hw) as (wc & xc & sc & Hc & Hrc).
  set (gn := nth_guard g (Z.of_nat (length (old :: others)))) in Hrc.
  destruct (run_add_ready _ _ rid gn key wc xc sc new Hp Hrc) as (w1 & H1 & E1 & Hwf1 & _ & Hk & Hget).
  set (s1 := (slab_insert (fresh_io gn) sc).2) in *. set (x1 := with_dispatch _ _) in E1.
  assert (guard_wf g) as Hg by apply Hwf. assert (guard_wf gn) as Hgn by by apply nth_guard_wf.
  exists key, w0, w1, x1. split_and!; [done | | done | |].
  { by rewrite (run_bind_done _ _ _ _ _ Hc). }
  { unfold slab_of. cbn. by rewrite Hget. }
  assert (gn = g <-> Z.of_nat (S (length others)) mod 2 ^ (usize_bits - TOKEN_SHIFT) = 0) as Hiff by apply nth_guard_inj, Hg.
  destruct (Z.eqb_spec (Z.of_nat (S (length others)) mod 2 ^ (usize_bits - TOKEN_SHIFT)) 0) as [Ez | Ez].
  - apply Hiff in Ez. rewrite <- Ez. eexists _, _. split; [| split].
    + apply (run_dispatch_live w1 rid x1 0 s1 key ready (fresh_io gn)); done.
    + apply lookup_insert_eq.
    + unfold slab_of. cbn. rewrite slab_set_get by by eexists. by rewrite decide_True.
  - eapply run_dispatch_stale; [exact E1 | done |]. unfold stale.
    assert (0 <= key < 2 ^ TOKEN_SHIFT) as Hk'. { change (2 ^ TOKEN_SHIFT) with (MAX_SOURCES + 1). lia. }
    rewrite (token_key _ _ Hg Hk'), (token_guard _ _ Hg Hk'), Hget. cbn. intros E'. by apply Ez, Hiff.
Qed.

(** C40: The two ways [add_source] fails.  A reactor with [MAX_SOURCES] sources refuses
    another one, whatever the operating system would say: it does not ask it, and keeps
    its sources as they are.  When the operating system refuses the source, its error is
    returned, but the slot that was taken for the source stays taken. *)
Theorem add_source_errors w rid x s source :
  reactors w !! rid = Some x -> io_dispatch x = mkARwLock 0 false s ->
  exists w1 x1, reactors w1 !! rid = Some x1 /\
    let run_add := run (Inner.add_source rid source) w in
    if slab_len s =? MAX_SOURCES then
      run_add = (Done (Err (other "reactor at max registered I/O resources")), w1) /\
      io_dispatch x1 = io_dispatch x /\ os w1 = os w
    else
      let key := (slab_insert (fresh_io (next_aba_guard x)) s).1 in
      match Poll_register (io x) source (Z.lor (next_aba_guard x) key) Ready_all PollOpt_edge (os w) with
      | (Ok _, _) => run_add.1 = Done (Ok key)
      | (Err e, o) =>
          run_add = (Done (Err e), w1) /\ os w1 = o /\ slab_len (slab_of x1) = slab_len s + 1 /\
          forall k, slab_get k (slab_of x1) = if decide (k = key) then Some (fresh_io (next_aba_guard x)) else slab_get k s
      end.
Proof.
  intros E El. rewrite (run_add_source w rid x s source E El). destruct (slab_len s =? MAX_SOURCES).
  - exists (set_reactor rid (bump x) w), (bump x). split; [apply lookup_insert_eq | done].
  - rewrite (surjective_pairing (slab_insert _ s)). cbn [fst snd]. destruct (Poll_register _ _ _ _ _ _) as [[] o].
    { exists (set_reactor rid x w), x. split; [apply lookup_insert_eq |]. done. }
    eexists _, _. split; [| split_and!; [done | done | |]]; [apply lookup_insert_eq | |]; unfold slab_of; cbn.
    + apply slab_insert_len.
    + intros k. apply slab_insert_get.
Qed.

(** ** The end of a reactor *)

(** [wake_all] empties the cells of its slots. *)
Definition emptied (i : ScheduledIo) : ScheduledIo :=
  mkScheduledIo (aba_guard i) (readiness i) (aw_take (reader i)).2 (aw_take (writer i)).2.
Definition waiting (i : ScheduledIo) : list waker := opt_list (aw_waker (writer i)) ++ opt_list (aw_waker (reader i)).

Fixpoint all_waiting (keys : list Z) (s : slab ScheduledIo) : list waker :=
  match keys with
  | [] => []
  | key :: keys => match slab_get key s with Some i => waiting i | None => [] end ++ all_waiting keys s
  end.

Lemma run_wake_all w rid x n b s keys :
  NoDup keys -> Forall (fun key => is_Some (slab_get key s)) keys ->
  exists s',
    run (Inner.wake_all rid keys) (st w rid x (mkARwLock n b s)) =
      (Done tt, set_woken (woken w ++ all_waiting keys s) (st w rid x (mkARwLock n b s'))) /\
    (forall key, slab_get key s' = if decide (key ∈ keys) then emptied <$> slab_get key s else slab_get key s).
Proof.
  intros Hnd Hall. revert w s Hall. induction Hnd as [| key keys Hkey _ IH]; intros w s Hall; cbn [Inner.wake_all all_waiting].
  - exists s. rewrite app_nil_r. split; [by destruct w |]. intros key. by rewrite decide_False by set_solver.
  - apply Forall_cons in Hall as [[i Ei] Hall]. rewrite Ei.
    erewrite run_bind_done by by apply run_io_wake. set (i1 := with_aw Write _ i).
    change (set_woken ?l (st w rid x ?a)) with (st (set_woken l w) rid x a).
    erewrite run_bind_done.
    2: { apply (run_io_wake _ _ _ _ _ (slab_set key i1 s) key Read i1). rewrite slab_set_get by by eexists.
         by rewrite decide_True. }
    rewrite slab_set_set. change (with_aw Read _ i1) with (emptied i). change (aw_of Read i1) with (reader i).
    change (aw_of Write i) with (writer i). set (s1 := slab_set key (emptied i) s).
    assert (forall k, slab_get k s1 = if decide (k = key) then Some (emptied i) else slab_get k s) as Hs1.
    { intros k. unfold s1. by rewrite slab_set_get by by eexists. }
    change (set_woken ?l (st ?w rid x ?a)) with (st (set_woken l w) rid x a).
    match goal with |- context [run _ (st ?w1 rid x _)] => destruct (IH w1 s1) as (s' & Hrun & Hget) end.
    { eapply Forall_impl; [exact Hall |]. intros k [j Hj]. rewrite Hs1. case_decide; by eexists. }
    exists s'. split.
    + rewrite Hrun. assert (all_waiting keys s1 = all_waiting keys s) as ->.
      { clear - Hs1 Hkey. induction keys as [| k keys IH]; [done |]. cbn. rewrite Hs1, decide_False by set_solver.
        by rewrite IH by set_solver. }
      unfold waiting. cbn. by rewrite <- !app_assoc.
    + intros k. rewrite Hget, Hs1. destruct (decide (k = key)) as [-> |].
      * rewrite decide_False by done. rewrite decide_True by set_solver. by rewrite Ei.
      * destruct (decide (k ∈ keys)); [rewrite decide_True by set_solver | rewrite decide_False by set_solver]; done.
Qed.

(** The last [Arc]: [Drop for Inner], and the reactor is freed. *)
Lemma run_arc_drop_last w rid x n s :
  reactors w !! rid = Some x -> strong x = 1%nat -> io_dispatch x = mkARwLock n false s ->
  run (Inner.arc_drop rid) w =
  (Done tt, set_reactors (delete rid (reactors w)) (set_woken (woken w ++ all_waiting (slab_iter s).*1 s) w)).
Proof.
  intros E Es El. set (x1 := with_strong 0 x). set (w1 := set_reactor rid x1 w).
  destruct (run_wake_all w1 rid x1 (S n) false s (slab_iter s).*1) as (s' & Hrun & _).
  { apply slab_iter_nodup. }
  { apply Forall_forall. intros key. rewrite list_elem_of_fmap. intros ([key' i] & -> & Hi).
    apply slab_iter_get in Hi. by eexists. }
  assert (run (Inner.drop rid) w1 = (Done tt, set_woken (woken w ++ all_waiting (slab_iter s).*1 s)
    (st w1 rid x1 (mkARwLock n false s')))) as Hdrop.
  { unfold Inner.drop. erewrite (run_with_read rid _ w1 x1 n s tt (set_woken (woken w ++ _) w1) x1 n false s');
      [reflexivity | apply set_reactor_lookup | done |].
    unfold Inner.io_dispatch_keys. erewrite run_on_reactor_get; [| apply st_lookup | done]. exact Hrun. }
  unfold Inner.arc_drop. erewrite run_on_reactor by done. rewrite Es. cbn [pred]. fold x1 w1.
  erewrite run_bind_done by exact Hdrop. rewrite <- (run_ret_bind (atom _)), run_atom. cbn [run fst snd].
  unfold set_reactors, set_woken, st, set_reactor, w1. cbn. by rewrite !delete_insert_eq.
Qed.

Lemma all_waiting_elem s key i k :
  slab_get key s = Some i -> aw_waker (reader i) = Some k \/ aw_waker (writer i) = Some k ->
  k ∈ all_waiting (slab_iter s).*1 s.
Proof.
  intros Hi Hk. assert (key ∈ (slab_iter s).*1) as Hin.
  { apply list_elem_of_fmap. exists (key, i). split; [done |]. by apply slab_iter_get. }
  revert Hin. generalize (slab_iter s).*1. intros keys.
  induction keys as [| k0 keys IH]; intros Hin; [by apply not_elem_of_nil in Hin |].
  cbn [all_waiting]. apply elem_of_app. apply elem_of_cons in Hin as [<- | Hin]; [left | right; by apply IH].
  rewrite Hi. unfold waiting. apply elem_of_app.
  destruct Hk as [-> | ->]; [right | left]; by apply list_elem_of_singleton.
Qed.

(** C32: When the last reference to a reactor goes, every task that waits for one of its
    sources is woken, and what the tasks then find is an error: polls, deregistrations
    and registrations fail, and nothing waits any more. *)
Theorem last_reference_dropped w rid x n s :
  reactors w !! rid = Some x -> strong x = 1%nat -> io_dispatch x = mkARwLock n false s ->
  exists w',
    run (Inner.arc_drop rid) w = (Done tt, w') /\
    (forall key i k, slab_get key s = Some i -> aw_waker (reader i) = Some k \/ aw_waker (writer i) = Some k ->
       k ∈ woken w') /\
    os w' = os w /\ reactors w' = delete rid (reactors w) /\
    (forall key cx d, key <> ERROR ->
       run (RegInner.poll_ready (mkRegInner rid key) cx d) w' = (Done (Err (other "reactor gone")), w')) /\
    (forall key io, key <> ERROR ->
       run (RegInner.deregister (mkRegInner rid key) io) w' = (Done (Err (other "reactor gone")), w')) /\
    (forall io, run (RegInner.new io rid) w' =
       (Done (mkRegInner rid ERROR, Err (other "event loop gone")), w')) /\
    (forall key, run (RegInner.drop (mkRegInner rid key)) w' = (Done tt, w')).
Proof.
  intros E Es El. set (w' := set_reactors (delete rid (reactors w)) (set_woken (woken w ++ all_waiting (slab_iter s).*1 s) w)).
  assert (reactors w' !! (rid : HandlePriv) = None) as Hgone by apply lookup_delete_eq. exists w'. split_and!.
  - by apply (run_arc_drop_last w rid x n s).
  - intros key i k Hi Hk. cbn. apply elem_of_app. right. by eapply all_waiting_elem.
  - done.
  - done.
  - intros key cx d Hkey. unfold RegInner.poll_ready. cbn [World.token World.handle].
    rewrite (proj2 (Z.eqb_neq _ _) Hkey). by rewrite run_with_inner_gone.
  - intros key io Hkey. unfold RegInner.deregister. cbn [World.token World.handle].
    rewrite (proj2 (Z.eqb_neq _ _) Hkey). by rewrite run_with_inner_gone.
  - intros io. unfold RegInner.new. rewrite run_bind, run_with_inner_gone by done. done.
  - intros key. unfold RegInner.drop. cbn [World.token World.handle]. destruct (key =? ERROR); [done |].
    by rewrite run_with_inner_gone.
Qed.
End spec.

(** ** The hypotheses hold for a reactor with one source *)
Section witnesses.
Import Toy Demo.

Definition x1 : ReactorInner := reactor_of world1.

Lemma reactor_wf_x1 : reactor_wf x1.
Proof.
  constructor; [vm_compute; done | split; [split; vm_compute; done | done] |].
  intros key i Hi. pose proof (slab_get_range _ _ _ Hi) as Hr.
  change (slab_high (slab_of x1)) with 1 in Hr. assert (key = 0) as -> by lia.
  change (Some (io_at 0 world1) = Some i) in Hi. injection Hi as <-.
  split; [apply guard_wf_0 | apply is_usize_0].
Qed.

(** The reader of slot 0 waits; its source becomes readable. *)
Definition world_waiting : World := Eval vm_compute in (run (Inner.register 0%nat 500 0 Read) world1).2.
Definition world_readable : World := Eval vm_compute in (run (Reactor.dispatch 0%nat 0 Ready_readable) world_waiting).2.

Lemma dispatch_delivers_witness :
  run (Reactor.dispatch 0%nat 0 Ready_readable) world_waiting = (Done tt, world_readable) /\
  woken world_readable = [51%nat] /\ readiness (io_at 0 world_readable) = Ready_readable.
Proof.
  split; [| vm_compute; done].
  exact (dispatch_delivers world_waiting 0%nat (reactor_of world_waiting) 0%nat (slab_at world_waiting)
    0 Ready_readable (io_at 0 world_waiting) eq_refl eq_refl eq_refl guard_wf_0 ltac:(done)).
Defined.

(** Slot 0 is dropped and used again, with the next guard. *)
Definition world_reused : World := Eval vm_compute in
  (run (Inner.add_source 0%nat 9) (run (Inner.drop_source 0%nat 0) world1).2).2.

Lemma dispatch_ignores_late_events_witness :
  readiness <$> slab_get 0 (slab_at world_reused) = Some 0 /\
  run (Reactor.dispatch 0%nat (Z.lor 0 0) Ready_readable) world_reused = (Done tt, world_reused).
Proof.
  split; [reflexivity |].
  assert (slab_get 0 (slab_at world_reused) = Some (io_at 0 world_reused) /\
    aba_guard (io_at 0 world_reused) = nth_guard 0 1 /\ 0 < 1 < 2 ^ (usize_bits - TOKEN_SHIFT)) as Hnew.
  { vm_compute. done. }
  exact (dispatch_ignores_late_events world_reused 0%nat (reactor_of world_reused) 0%nat
    (slab_at world_reused) 0 0 Ready_readable eq_refl eq_refl guard_wf_0 ltac:(done)
    (or_intror (ex_intro _ (io_at 0 world_reused) (ex_intro _ 1 Hnew)))).
Defined.

Definition os_after (e token : Z) (w : World) : toy_os :=
  (Poll_register 100 e token Ready_all PollOpt_edge (os w)).2.

Lemma add_source_then_dispatch_witness :
  exists w1 w2 x2,
    run (Inner.add_source 0%nat 9) world1 = (Done (Ok 1), w1) /\
    run (Reactor.dispatch 0%nat (2 ^ 22 + 1) Ready_readable) w1 = (Done tt, w2) /\
    slab_get 1 (slab_at world1) = None /\ 2 ^ 22 + 1 <> TOKEN_WAKEUP /\
    os w2 = os_after 9 (2 ^ 22 + 1) world1 /\ woken w2 = woken world1 /\
    reactors w2 !! 0%nat = Some x2 /\
    readiness <$> slab_get 1 (slab_of x2) = Some Ready_readable /\
    (forall k, k <> 1 -> slab_get k (slab_of x2) = slab_get k (slab_at world1)).
Proof.
  exact (add_source_then_dispatch world1 0%nat x1 (slab_at world1) 9 (os_after 9 (2 ^ 22 + 1) world1)
    Ready_readable eq_refl eq_refl reactor_wf_x1 ltac:(done) eq_refl).
Defined.

(** An operating system that refuses to register anything. *)
Definition refusing (w : World) : World := set_os {| os_next := 100; os_tokens := []; os_events := []; os_fail := true |} w.

(** A reactor in which every slot is taken. *)
Definition slots : Type := @slab (@deps_slab toy_deps) ScheduledIo.
Definition full_slab : slots := replicate (Z.to_nat MAX_SOURCES) (Some (fresh_io 0)).
Definition reactor_with (s : slots) : ReactorInner := with_dispatch (mkARwLock 0 false s) x1.
Definition world_with (s : slots) : World := set_reactor 0%nat (reactor_with s) world1.

Lemma full_slab_len : @slab_len (@deps_slab toy_deps) _ full_slab = MAX_SOURCES.
Proof.
  assert (forall n, vec_len (replicate n (Some (fresh_io 0))) = Z.of_nat n) as Hn.
  { intros n. induction n as [| n IH]; [done |]. cbn [replicate vec_len]. rewrite IH. lia. }
  unfold full_slab. etransitivity; [apply Hn |]. by apply Z2Nat.id.
Qed.

(** The full reactor refuses a source that the system would accept; the system refuses
    one in a reactor that has room. *)
Lemma add_source_errors_witness :
  (exists w1, run (Inner.add_source 0%nat 9) (world_with full_slab) =
     (Done (Err (other "reactor at max registered I/O resources")), w1) /\ os w1 = os world1) /\
  exists w1 x2,
    reactors w1 !! 0%nat = Some x2 /\
    run (Inner.add_source 0%nat 9) (refusing world1) = (Done (Err (io_error AlreadyExists "register")), w1) /\
    slab_get 1 (slab_of x2) = Some (fresh_io (2 ^ 22)) /\
    slab_len (slab_of x2) = 2 /\ os w1 = os (refusing world1).
Proof.
  split.
  - generalize full_slab_len. generalize full_slab. intros s Hs.
    destruct (add_source_errors (world_with s) 0%nat (reactor_with s) s 9 (lookup_insert_eq _ _ _) eq_refl)
      as (w1 & x2 & _ & H). rewrite Hs, Z.eqb_refl in H. destruct H as (Hr & _ & Ho). by exists w1.
  - destruct (add_source_errors (refusing world1) 0%nat x1 (slab_at world1) 9 eq_refl eq_refl) as (w1 & x2 & E & H).
    destruct H as (Hr & Ho & Hl & Hg). exists w1, x2. split; [exact E |]. split; [exact Hr |].
    split; [exact (Hg 1) |]. split; [exact Hl | exact Ho].
Defined.

Lemma last_reference_dropped_witness :
  exists w', run (Inner.arc_drop 0%nat) world_waiting = (Done tt, w') /\ 51%nat ∈ woken w' /\
    reactors w' = delete 0%nat (reactors world_waiting) /\
    run (RegInner.poll_ready (mkRegInner 0%nat 0) (Some 500) Read) w' = (Done (Err (other "reactor gone")), w').
Proof.
  destruct (last_reference_dropped world_waiting 0%nat (reactor_of world_waiting) 0 (slab_at world_waiting)
    eq_refl eq_refl eq_refl) as (w' & E1 & E2 & _ & E3 & E4 & _).
  exists w'. split; [exact E1 |]. split; [exact (E2 0 (io_at 0 world_waiting) 51%nat eq_refl (or_introl eq_refl)) |].
  split; [exact E3 |]. by apply E4.
Defined.
End witnesses.

(** On a target of 32 bits there are 1024 guards. *)
Section witness32.
#[local] Existing Instances Toy.toy_deps32 Toy.toy_deps32_laws.

Definition world32 : World := Eval vm_compute in (run Reactor.new {|
  os := Toy.toy_os_init; reactors := ∅; next_reactor := 0%nat; HANDLE_FALLBACK := Zero;
  CURRENT_REACTOR := ∅; registrations := ∅; boxes := ∅; allocations := 0; wakers := ∅;
  polled := ∅; shareds := ∅; spawned := []; woken := [];
|}).2.
Definition x32 : ReactorInner := default (mkReactorInner 0 0 (mkARwLock 0 false []) 0 0) (reactors world32 !! 0%nat).

Lemma toy_last_freed_first : last_freed_first.
Proof.
  intros i j s s'. cbn. destruct (Toy.vec_get _ _) as [k |] eqn:E; [| done]. intros [= <-]. clear E k.
  induction s as [| [b |] s IH]; [done | | done]. cbn. pose proof (Toy.vec_insert_nonneg i s) as Hn.
  unfold Toy.vec_set in *. rewrite decide_True in IH by lia. rewrite decide_True by lia.
  replace (Z.to_nat ((Toy.vec_insert i s).1 + 1)) with (S (Z.to_nat (Toy.vec_insert i s).1)) by lia. exact (f_equal (fun z => z + 1) IH).
Qed.

Lemma toy_accepts : accepts (fun o => Toy.os_fail o = false) (100 : PollId).
Proof. constructor; [| done]. intros source token o Ho. cbn. rewrite Ho. by eexists. Qed.

Lemma reactor_wf_x32 : reactor_wf x32.
Proof.
  constructor; [done | by split; [split |] |]. intros key i Hi. change (Toy.vec_get key [] = Some i) in Hi.
  by rewrite Toy.vec_get_nil in Hi.
Qed.

(** An event for the first source, after 1024 registrations and after 1023. *)
Lemma late_event_after_reuse_witness :
  (exists w1 w2 x2,
     run (let! _ := churn 0%nat (7 :: replicate 1023 8) in Inner.add_source 0%nat 9) world32 = (Done (Ok 0), w1) /\
     run (Reactor.dispatch 0%nat 0 Ready_readable) w1 = (Done tt, w2) /\
     reactors w2 !! 0%nat = Some x2 /\ readiness <$> slab_get 0 (slab_of x2) = Some Ready_readable) /\
  exists w1,
    run (let! _ := churn 0%nat (7 :: replicate 1022 8) in Inner.add_source 0%nat 9) world32 = (Done (Ok 0), w1) /\
    run (Reactor.dispatch 0%nat 0 Ready_readable) w1 = (Done tt, w1).
Proof.
  assert (forall key w, run (Inner.add_source 0%nat 7) world32 = (Done (Ok key), w) -> key = 0) as Hkey.
  { intros key w E. apply (f_equal fst) in E. vm_compute in E. congruence. }
  split.
  - destruct (late_event_after_reuse _ 0%nat world32 x32 [] 7 (replicate 1023 8) 9 Ready_readable toy_last_freed_first
      toy_accepts eq_refl eq_refl eq_refl reactor_wf_x32 ltac:(done)) as (key & w0 & w1 & x1 & H0 & H1 & _ & _ & H).
    rewrite length_replicate in H. apply Hkey in H0 as ->. destruct H as (w2 & x2 & H2 & E2 & Hr). exists w1, w2, x2.
    split; [exact H1 |]. split; [exact H2 |]. split; [exact E2 | exact Hr].
  - destruct (late_event_after_reuse _ 0%nat world32 x32 [] 7 (replicate 1022 8) 9 Ready_readable toy_last_freed_first
      toy_accepts eq_refl eq_refl eq_refl reactor_wf_x32 ltac:(done)) as (key & w0 & w1 & x1 & H0 & H1 & _ & _ & H).
    rewrite length_replicate in H. apply Hkey in H0 as ->. exists w1. split; [exact H1 | exact H].
Defined.
End witness32.
End ReactorSpec.
