(* ===== verification/RegistrationSpec.v ===== *)
(** * Properties of registrations

    The life of an I/O resource: before it is registered, its registration and the ways
    that fails, and its release; and what a poll does while another thread is
    registering. *)
From S2P Require Import Prelude Conc Deps Toy World Reactor Background Registration PollEvented.
From S2P Require Import ReactorProof RegistrationProof Resource Demo ReactorSpec.

Module RegistrationSpec.
Import Resource ResourceProof ReactorSpec.

Section spec.
Context `{DepsLaws}.

(** C23: [register] happens once.  Its first call, with the reactor that [try_current] finds,
    returns [Ok(true)] or the error of [add_source], and later calls return [Ok(false)] and
    change nothing, also after an error; then the association stays broken, and every poll
    reports that. *)
Theorem register_once fuel t t' r w h x m s source :
  registrations w !! r = Some Registration.new -> current w t = Some h ->
  reactors w !! h = Some x -> strong x = S m -> io_dispatch x = mkARwLock 0 false s ->
  let res := (add_source_result x s source (os w)).1.1 in
  exists w',
    run (Registration.register (S fuel) t r source) w = (Done (io_map (fun _ => true) res), w') /\
    run (Registration.register (S fuel) t' r source) w' = (Done (Ok false), w') /\
    (is_ok res = false -> forall cx d, run (Registration.poll_ready (S fuel) r cx d) w' =
       (Done (Err (other "failed to associate with reactor")), w')).
Proof.
  intros Er Ec E Em El res. pose proof (run_registration_register fuel t r w h x m s source Er Ec E Em El) as Hrun.
  unfold res. destruct (add_source_result x s source (os w)) as [[res' x'] o]. cbn [fst].
  eexists. split; [exact Hrun |]. set (w' := set_os o _).
  set (rg := mkRegistration (Some (mkRegInner h (token_of res'))) READY).
  assert (registrations w' !! r = Some rg) as Er' by apply lookup_insert_eq. split.
  - unfold Registration.register, Registration.register2, Registration.state_load.
    erewrite (run_on_reg r _ _ w'); [| exact Er' | done]. by rewrite (set_reg_id _ _ _ Er').
  - intros Hres cx d. unfold Registration.poll_ready, Registration.state_load.
    erewrite (run_on_reg r _ _ w'); [| exact Er' | done]. rewrite (set_reg_id _ _ _ Er').
    cbn [Registration.poll_loop state rg]. change (READY =? INIT) with false. change (READY =? READY) with true.
    cbv iota. unfold Registration.get_inner.
    erewrite (run_on_reg r _ _ w'); [| exact Er' | done]. rewrite (set_reg_id _ _ _ Er').
    unfold RegInner.poll_ready. cbn [World.token]. destruct res'; [done |]. cbn [token_of].
    by rewrite Z.eqb_refl.
Qed.

(** A resource that is not registered, or is being registered by another thread. *)
Lemma run_state_load {B} r rg (c : Z -> prg B) w :
  registrations w !! r = Some rg ->
  run (bind (Registration.state_load r) c) w = run (c (state rg)) w.
Proof.
  intros Er. unfold Registration.state_load. erewrite (run_on_reg r _ _ w); [| exact Er | done].
  by rewrite (set_reg_id _ _ _ Er).
Qed.

(** The world after a task pushed its node on the stack of a locked registration. *)
Definition pushed (r : RegId) (rg : Registration) (p cx : Z) (d : Direction) (w : World) : World :=
  set_registrations (<[r := mkRegistration (inner rg) (Z.lor p LOCKED)]> (registrations w))
    (boxed p (mkNode d cx 0) w).

Lemma run_poll_locked fuel r rg p cx d w :
  registrations w !! r = Some rg -> state rg = LOCKED -> box_alloc (allocations w) (in_use w) = Some p ->
  run (Registration.poll_ready (S fuel) r (Some cx) d) w = (Done (Ok None), pushed r rg p cx d w).
Proof.
  intros Er Es Hbox. unfold Registration.poll_ready at 1. rewrite (run_state_load r rg) by done. rewrite Es.
  assert (Z.land LOCKED (unot LIFECYCLE_MASK) = 0) as E0.
  { rewrite land_unot by by apply is_usize_small. done. }
  assert (Z.land LOCKED LIFECYCLE_MASK = LOCKED) as E1 by done.
  cbn [Registration.poll_loop]. rewrite E0, E1.
  change (LOCKED =? INIT) with false. change (LOCKED =? READY) with false. change (LOCKED =? LOCKED) with true.
  cbv iota. rewrite (run_box_new p) by done. set (w1 := boxed p _ w).
  assert (boxes w1 !! p = Some (mkNode d cx 0)) as Eb by apply lookup_insert_eq.
  unfold box_set_next. erewrite run_action_next; [| by rewrite Eb].
  set (w2 := set_boxes _ w1). unfold Registration.compare_and_swap.
  erewrite (run_on_reg r _ _ w2); [| exact Er | done]. rewrite Es, Z.eqb_refl.
  change (negb (LOCKED =? LOCKED)) with false. cbv iota. cbn [run]. f_equal.
  unfold pushed, w2, w1, boxed, set_registrations, set_boxes, set_allocations. cbn. by rewrite insert_insert_eq.
Qed.

(** No state with a node in it is one that [poll_ready] knows. *)
Lemma locked_node_state p :
  addr p ->
  Z.lor p LOCKED <> INIT /\ Z.lor p LOCKED <> READY /\ Z.lor p LOCKED <> LOCKED.
Proof.
  intros (Hpos & _ & Hal). assert (Z.land (Z.lor p LOCKED) LIFECYCLE_MASK = 1) as E3.
  { by rewrite Z.land_lor_distr_l, Hal. }
  assert (Z.ldiff (Z.lor p LOCKED) LIFECYCLE_MASK = p) as E4.
  { apply Z.bits_inj'. intros b Hb. apply (f_equal (fun z => Z.testbit z b)) in Hal.
    rewrite Z.bits_0 in Hal. rewrite Z.land_spec in Hal. rewrite Z.ldiff_spec, Z.lor_spec.
    assert (Z.testbit LOCKED b = true -> Z.testbit LIFECYCLE_MASK b = true) as Hm.
    { change LIFECYCLE_MASK with (Z.lor LOCKED 2). rewrite Z.lor_spec. by intros ->. }
    destruct (Z.testbit p b), (Z.testbit LOCKED b), (Z.testbit LIFECYCLE_MASK b); naive_solver. }
  split_and!; intros E; rewrite E in E3, E4; cbn in E3, E4; lia.
Qed.

(** C35: Polls of a resource that is not registered yet.  Before [register] they are an
    error.  While another thread registers it, a poll without a task returns nothing;
    a poll of a task pushes a node for it on the stack in the state; and once there is
    such a node, the next poll of any task panics. *)
Theorem poll_before_ready fuel r rg p cx d w :
  registrations w !! r = Some rg -> box_alloc (allocations w) (in_use w) = Some p ->
  (state rg = INIT -> exists msg, run (Registration.poll_ready (S fuel) r cx d) w = (Done (Err (other msg)), w)) /\
  (state rg = LOCKED -> run (Registration.poll_ready (S fuel) r None d) w = (Done (Ok None), w)) /\
  (state rg = LOCKED -> forall cx, exists w',
     run (Registration.poll_ready (S fuel) r (Some cx) d) w = (Done (Ok None), w') /\
     boxes w' !! p = Some (mkNode d cx 0) /\
     registrations w' !! r = Some (mkRegistration (inner rg) (Z.lor p LOCKED)) /\
     forall cx2 d2, run (Registration.poll_ready (S fuel) r cx2 d2) w' =
       (Faulted (Panicked "internal error: entered unreachable code"), w')).
Proof.
  intros Er Hbox. pose proof (box_alloc_addr _ _ _ Hbox) as Ha. split_and!.
  - intros Es. eexists. unfold Registration.poll_ready. rewrite (run_state_load r rg) by done. by rewrite Es.
  - intros Es. unfold Registration.poll_ready. rewrite (run_state_load r rg) by done. by rewrite Es.
  - intros Es cx'. exists (pushed r rg p cx' d w). split; [by apply run_poll_locked |]. split_and!.
    + apply lookup_insert_eq.
    + apply lookup_insert_eq.
    + intros cx2 d2. unfold Registration.poll_ready. rewrite (run_state_load r _ _ _ (lookup_insert_eq _ _ _)).
      cbn [Registration.poll_loop state]. destruct (locked_node_state p Ha) as (N0 & N1 & N2).
      by rewrite !(proj2 (Z.eqb_neq _ _)) by done.
Qed.

Lemma cfg_self w p e reg rid x m n s key cx k r :
  registered w p e reg rid x m n s key cx k ->
  polled w !! p = Some (mkPollEvented (Some e) reg (cache_read r) (cache_write r)) ->
  slab_get key s = Some (slot r) -> res_os r = os w -> res_woken r = woken w ->
  cfg w p e reg rid x n s key r = w.
Proof.
  intros Hw Hp Hs Ho Hk. unfold cfg. rewrite (slab_set_id _ _ _ Hs), Ho, Hk, (insert_id (polled w)) by done.
  rewrite <- (rg_dispatch _ _ _ _ _ _ _ _ _ _ _ _ Hw), with_dispatch_id, insert_id by apply Hw. by destruct w.
Qed.

Lemma run_on_pe_get {A B} p (f : PollEvented -> step_res PollEvented A) (c : A -> prg B) w x a :
  polled w !! p = Some x -> f x = Next a x -> run (bind (PollEvented.on_pe p f) c) w = run (c a) w.
Proof.
  intros E Ef. unfold PollEvented.on_pe. erewrite run_action_next; [done |]. rewrite E, Ef.
  rewrite (insert_id (polled w)) by done. by destruct w.
Qed.

Lemma key_not_ERROR key : 0 <= key < MAX_SOURCES -> key <> ERROR.
Proof.
  intros Hk. unfold ERROR. rewrite usize_MAX_eq. pose proof usize_modulus_ge.
  assert (MAX_SOURCES < 2 ^ 32 - 1) by done. lia.
Qed.

(** The first use of a resource registers it. *)
Lemma run_register_fresh fuel t w p e reg rid x m s cx k cr cw o :
  polled w !! p = Some (mkPollEvented (Some e) reg cr cw) ->
  registrations w !! reg = Some Registration.new -> current w t = Some rid ->
  reactors w !! rid = Some x -> strong x = S m -> io_dispatch x = mkARwLock 0 false s ->
  reactor_wf x -> slab_len s <> MAX_SOURCES -> wakers w !! cx = Some k ->
  let key := (slab_insert (fresh_io (next_aba_guard x)) s).1 in
  Poll_register (io x) e (Z.lor (next_aba_guard x) key) Ready_all PollOpt_edge (os w) = (Ok tt, o) ->
  exists w' x',
    run (PollEvented.register (S fuel) t p) w = (Done (Ok tt), w') /\
    slab_get key s = None /\ reactor_wf x' /\ io x' = io x /\ 0 <= key < MAX_SOURCES /\
    registered w' p e reg rid x' m 0 (slab_insert (fresh_io (next_aba_guard x)) s).2 key cx k /\
    polled w' = polled w /\ delete reg (registrations w') = delete reg (registrations w) /\
    w' = cfg w' p e reg rid x' 0 (slab_insert (fresh_io (next_aba_guard x)) s).2 key
           (mkRes (fresh_io (next_aba_guard x)) cr cw o (woken w)).
Proof.
  intros Hp Er Ec E Em El Hwf Hlen Hcx key Hos. set (s' := (slab_insert (fresh_io (next_aba_guard x)) s).2).
  assert (slab_of x = s) as Es by (unfold slab_of; by rewrite El).
  set (x' := with_dispatch (mkARwLock 0 false s') (bump x)).
  pose proof (insert_key_range x s (fresh_io (next_aba_guard x)) Hwf Es Hlen) as Hk.
  assert (slab_get key s' = Some (fresh_io (next_aba_guard x))) as Hget.
  { unfold s'. rewrite slab_insert_get. by rewrite decide_True. }
  assert (add_source_result x s e (os w) = (Ok key, x', o)) as Eadd.
  { unfold add_source_result. rewrite (proj2 (Z.eqb_neq _ _) Hlen). fold key. cbv zeta. by rewrite Hos. }
  set (w' := set_os o (set_reactor rid x' (set_reg reg (mkRegistration (Some (mkRegInner rid key)) READY) w))).
  assert (registered w' p e reg rid x' m 0 s' key cx k) as Hreg.
  { constructor; try done; [by eexists _, _ | apply lookup_insert_eq | by apply key_not_ERROR |
      apply lookup_insert_eq]. }
  exists w', x'. split_and!;
    [| apply slab_insert_fresh | | done | apply Hk | apply Hk | done | done | apply delete_insert_eq |
     symmetry; by eapply cfg_self].
  - unfold PollEvented.register, PollEvented.get_ref, PollEvented.get_registration.
    do 2 (erewrite run_on_pe_get; [| exact Hp | done]). rewrite run_bind. erewrite run_registration_register by done.
    by rewrite Eadd.
  - pose proof (reactor_wf_bump x Hwf) as Hb.
    assert (x' = with_slab s' (bump x)) as -> by (unfold with_slab; cbn; by rewrite El).
    replace s' with (slab_insert (fresh_io (next_aba_guard x)) (slab_of (bump x))).2; [| by unfold s', slab_of; cbn; rewrite El].
    apply reactor_wf_insert; [done | done | | apply Hwf]. unfold slab_of. cbn. by rewrite El.
Qed.

(** A use of a resource that is registered in [w'], which is [w] after [register]. *)
Lemma run_first_use fuel t w w' p e reg rid x m n s key cx k r :
  registered w' p e reg rid x m n s key cx k -> w' = cfg w' p e reg rid x n s key r ->
  run (PollEvented.register (S fuel) t p) w = (Done (Ok tt), w') ->
  forall {B} (c : io_result unit -> prg B),
    run (bind (PollEvented.register (S fuel) t p) c) w = run (bind (PollEvented.register (S fuel) t p) c) w'.
Proof.
  intros Hreg Hcfg Hrun B c. rewrite (run_bind_done _ _ _ _ _ Hrun), Hcfg at 1. rewrite Hcfg at 2.
  symmetry. by apply (run_register_again w' p e reg rid x m n s key cx k Hreg).
Qed.

(** C21: The first use of a resource registers it: it gets a slot that was vacant, with no
    events and no waiting tasks, and from then on the specification in Resource.v
    describes it.  An I/O operation that is the first use of a resource does what it
    does on the registered resource. *)
Theorem register_establishes fuel t w p e reg rid x m s cx k cr cw o :
  polled w !! p = Some (mkPollEvented (Some e) reg cr cw) ->
  registrations w !! reg = Some Registration.new -> current w t = Some rid ->
  reactors w !! rid = Some x -> strong x = S m -> io_dispatch x = mkARwLock 0 false s ->
  reactor_wf x -> slab_len s <> MAX_SOURCES -> wakers w !! cx = Some k ->
  let key := (slab_insert (fresh_io (next_aba_guard x)) s).1 in
  Poll_register (io x) e (Z.lor (next_aba_guard x) key) Ready_all PollOpt_edge (os w) = (Ok tt, o) ->
  exists w' x',
    run (PollEvented.register (S fuel) t p) w = (Done (Ok tt), w') /\
    slab_get key s = None /\ reactor_wf x' /\
    registered w' p e reg rid x' m 0 (slab_insert (fresh_io (next_aba_guard x)) s).2 key cx k /\
    w' = cfg w' p e reg rid x' 0 (slab_insert (fresh_io (next_aba_guard x)) s).2 key
           (mkRes (fresh_io (next_aba_guard x)) cr cw o (woken w)) /\
    (forall B read (buf : B), run (PollEvented.poll_read (S fuel) t read p cx buf) w =
       run (PollEvented.poll_read (S fuel) t read p cx buf) w') /\
    (forall write, run (PollEvented.poll_write (S fuel) t write p cx) w =
       run (PollEvented.poll_write (S fuel) t write p cx) w') /\
    (forall flush, run (PollEvented.poll_flush (S fuel) t flush p cx) w =
       run (PollEvented.poll_flush (S fuel) t flush p cx) w').
Proof.
  intros Hp Er Ec E Em El Hwf Hlen Hcx key Hos.
  destruct (run_register_fresh fuel t w p e reg rid x m s cx k cr cw o Hp Er Ec E Em El Hwf Hlen Hcx Hos)
    as (w' & x' & Hrun & Hget & Hwf' & _ & _ & Hreg & _ & _ & Hcfg).
  exists w', x'. do 5 (split; [done |]).
  pose proof (fun B => run_first_use (B := B) fuel t w w' _ _ _ _ _ _ _ _ _ _ _ _ Hreg Hcfg Hrun) as Hfirst.
  unfold PollEvented.poll_read, PollEvented.poll_write, PollEvented.poll_flush, PollEvented.when_ready,
    PollEvented.poll_read_ready, PollEvented.poll_write_ready.
  split_and!; intros; rewrite !run_bind_assoc; apply Hfirst.
Qed.

(** C22: Dropping a resource gives its slot back: the reactor is as it was except that the
    slot is vacant, the operating system is told before the resource is closed, and an
    event that is still on its way is ignored. *)
Theorem drop_releases w p e reg rid x m s key cx k r close :
  registered w p e reg rid x m 0 s key cx k ->
  exists w' (s' : slab ScheduledIo),
    run (PollEvented.drop close p) (cfg w p e reg rid x 0 s key r) = (Done tt, w') /\
    reactors w' !! rid = Some (with_dispatch (mkARwLock 0 false s') x) /\
    (forall k', slab_get k' s' = if decide (k' = key) then None else slab_get k' s) /\
    slab_len s' = slab_len s - 1 /\
    polled w' !! p = None /\ registrations w' !! reg = None /\ woken w' = res_woken r /\
    os w' = close e (Poll_deregister (io x) e (res_os r)).2 /\
    (forall g ready, guard_wf g -> 0 <= key < MAX_SOURCES ->
       run (Reactor.dispatch rid (Z.lor g key) ready) w' = (Done tt, w')).
Proof.
  intros Hw. destruct (slab_remove_get (slab_set key (slot r) s) key) as (s' & Es & Hget & Hlen & _).
  { by rewrite (slot_get w p e reg rid x m 0 s key cx k Hw). }
  eexists _, s'. split; [by apply (run_drop w p e reg rid x m 0 s key cx k Hw) |].
  assert (forall k', slab_get k' s' = if decide (k' = key) then None else slab_get k' s) as Hget'.
  { intros k'. rewrite Hget. case_decide; [done |]. rewrite slab_set_get by apply Hw. by rewrite decide_False. }
  split_and!; try done.
  - apply lookup_insert_eq.
  - rewrite Hlen. by rewrite slab_set_len.
  - apply lookup_delete_eq.
  - apply lookup_delete_eq.
  - intros g ready Hg Hk. eapply run_dispatch_stale; [apply lookup_insert_eq | done |]. unfold stale.
    rewrite (token_key g key) by (done || (change (2 ^ TOKEN_SHIFT) with (MAX_SOURCES + 1); lia)).
    by rewrite Hget', decide_True.
Qed.
End spec.

(** ** The hypotheses hold in the worlds of Demo.v *)
Section witnesses.
Import Toy Demo.

Definition x0 : ReactorInner := reactor_of world_unregistered.
Definition s0 : slab ScheduledIo := slab_at world_unregistered.
(** The same world with an operating system that refuses to register anything. *)
Definition world_refusing : World := Eval vm_compute in
  set_os {| os_next := 100; os_tokens := []; os_events := []; os_fail := true |} world_unregistered.

Lemma register_once_witness :
  exists w',
    run (Registration.register 4 0 0%nat 7) world_refusing =
      (Done (Err (io_error AlreadyExists "register")), w') /\
    run (Registration.register 4 1 0%nat 7) w' = (Done (Ok false), w') /\
    forall cx d, run (Registration.poll_ready 4 0%nat cx d) w' =
       (Done (Err (other "failed to associate with reactor")), w').
Proof.
  destruct (register_once 3 0 1 0%nat world_refusing 0%nat x0 0 s0 7 eq_refl eq_refl eq_refl eq_refl eq_refl)
    as (w' & E1 & E2 & E3).
  exists w'. split; [exact E1 | split; [exact E2 | exact (E3 eq_refl)]].
Defined.

(** Thread 1 has locked registration 0. *)
Definition world_locked : World := Eval vm_compute in
  set_reg 0%nat (mkRegistration None LOCKED) world_unregistered.

Lemma poll_before_ready_witness :
  exists w', run (Registration.poll_ready 4 0%nat (Some 500) Read) world_locked = (Done (Ok None), w') /\
    boxes w' !! 8 = Some (mkNode Read 500 0) /\
    registrations w' !! 0%nat = Some (mkRegistration None 9) /\
    forall cx2 d2, run (Registration.poll_ready 4 0%nat cx2 d2) w' =
       (Faulted (Panicked "internal error: entered unreachable code"), w').
Proof.
  destruct (poll_before_ready 3 0%nat (mkRegistration None LOCKED) 8 (Some 500) Read world_locked eq_refl
    eq_refl) as (_ & _ & E).
  exact (E eq_refl 500).
Defined.

Lemma reactor_wf_x0 : reactor_wf x0.
Proof. constructor; [done | apply guard_wf_0 |]. intros key i Hi. change (vec_get key [] = Some i) in Hi. by rewrite vec_get_nil in Hi. Qed.

Lemma register_establishes_witness :
  exists w' x',
    run (PollEvented.register 4 0 0%nat) world_unregistered = (Done (Ok tt), w') /\
    slab_get 0 s0 = None /\ reactor_wf x' /\
    registered w' 0%nat 7 0%nat 0%nat x' 0 0 [Some (fresh_io 0)] 0 500 51%nat /\
    w' = cfg w' 0%nat 7 0%nat 0%nat x' 0 [Some (fresh_io 0)] 0
           (mkRes (fresh_io 0) 0 0 (Poll_register 100 7 0 Ready_all PollOpt_edge (os world_unregistered)).2 []) /\
    run (PollEvented.poll_flush 4 0 (fun _ o => (Ok tt, o)) 0%nat 500) world_unregistered =
      run (PollEvented.poll_flush 4 0 (fun _ o => (Ok tt, o)) 0%nat 500) w'.
Proof.
  destruct (register_establishes 3 0 world_unregistered 0%nat 7 0%nat 0%nat x0 0 s0 500 51%nat 0 0 _
    eq_refl eq_refl eq_refl eq_refl eq_refl eq_refl reactor_wf_x0 ltac:(done) eq_refl eq_refl)
    as (w' & x' & E1 & E2 & E3 & E4 & E5 & _ & _ & E6).
  exists w', x'. by do 5 (split; [first [exact E1 | exact E2 | exact E3 | exact E4 | exact E5] |]).
Defined.

Lemma registered_world_pe :
  registered world_pe 0%nat 7 0%nat 0%nat (reactor_of world_pe) 0 0 (slab_at world_pe) 0 500 51%nat.
Proof. constructor; try reflexivity; [by exists 0, 0 | done | by eexists]. Qed.

Lemma drop_releases_witness :
  exists w' (s' : slab ScheduledIo),
    run (PollEvented.drop (fun _ o => o) 0%nat) (cfg world_pe 0%nat 7 0%nat 0%nat (reactor_of world_pe) 0
      (slab_at world_pe) 0 (mkRes (io_at 0 world_pe) 0 0 (os world_pe) [])) = (Done tt, w') /\
    slab_get 0 s' = None /\
    run (Reactor.dispatch 0%nat (Z.lor 0 0) Ready_readable) w' = (Done tt, w').
Proof.
  destruct (drop_releases world_pe 0%nat 7 0%nat 0%nat (reactor_of world_pe) 0 (slab_at world_pe) 0 500 51%nat
    (mkRes (io_at 0 world_pe) 0 0 (os world_pe) []) (fun _ o => o) registered_world_pe)
    as (w' & s' & E1 & _ & E2 & _ & _ & _ & _ & _ & E3).
  exists w', s'. split; [exact E1 | split; [exact (E2 0) |]]. apply (E3 0); [apply guard_wf_0 | done].
Defined.
End witnesses.
End RegistrationSpec.
