(* ===== verification/RegistrationRace.v ===== *)
(** * Threads race to register a resource

    Any number of threads call [register] while a task polls the registration, one
    action at a time.  One of them wins; the others see that, and a poll that comes while
    the winner is at work leaves a node that the winner finds.

    The winner, and later the poll, own the reactors exclusively, so that Local.v carries
    the sequential facts over.  The ghost state says how far the registration is, where the
    node of the poll is, and who owns the reactors. *)
From S2P Require Import Prelude Conc RelyGuar Deps Toy World Reactor Background Registration.
From S2P Require Import ReactorProof RegistrationProof Resource Demo ReactorSpec RegistrationSpec Local.

Module RegistrationRace.
Import ReactorSpec RegistrationSpec.

(** ** States of the registration: a word of flags and a pointer *)
Section words.
Context `{DepsLaws}.

Lemma locked_ptr : Z.land LOCKED (unot LIFECYCLE_MASK) = 0.
Proof. rewrite land_unot by by apply is_usize_small. done. Qed.

Lemma pushed_flags n : addr n -> Z.land (Z.lor n LOCKED) LIFECYCLE_MASK = LOCKED.
Proof. intros (_ & _ & E). by rewrite Z.land_lor_distr_l, E. Qed.

Lemma addr_usize n : addr n -> is_usize n.
Proof. by intros (_ & ? & _). Qed.

Lemma pushed_ptr n : addr n -> Z.land (Z.lor n LOCKED) (unot LIFECYCLE_MASK) = n.
Proof.
  intros Ha. rewrite land_unot by (apply is_usize_lor; [by apply addr_usize | by apply is_usize_small]).
  destruct Ha as (_ & _ & E). assert (Z.ldiff LOCKED LIFECYCLE_MASK = 0) as E1 by done.
  assert (Z.ldiff (Z.lor n LOCKED) LIFECYCLE_MASK = Z.lor (Z.ldiff n LIFECYCLE_MASK) (Z.ldiff LOCKED LIFECYCLE_MASK))
    as -> by zbits.
  rewrite E1, Z.lor_0_r. transitivity (Z.lor (Z.ldiff n LIFECYCLE_MASK) (Z.land n LIFECYCLE_MASK)); [| zbits].
  by rewrite E, Z.lor_0_r.
Qed.

Lemma pushed_not n v : addr n -> v = INIT \/ v = READY -> Z.lor n LOCKED <> v.
Proof. intros Ha Hv E. pose proof (pushed_flags n Ha) as Hf. rewrite E in Hf. by destruct Hv as [-> | ->]. Qed.
End words.

(** ** The pool *)
Inductive job := JReg (t : nat) | JPoll.
Inductive result := RReg (r : io_result bool) | RPoll (r : io_result (option Z)).

Section race.
Context `{DepsLaws}.
Context (r : RegId) (source : Evented) (fuel : nat) (cx : Z) (d : Direction).

Definition job_prog (j : job) : prg result :=
  match j with
  | JReg t => let! a := Registration.register (S (S fuel)) t r source in Ret (RReg a)
  | JPoll => let! a := Registration.poll_ready (S (S fuel)) r (Some cx) d in Ret (RPoll a)
  end.

(** The jobs, of which [me] is the only poll, and the world in which they start. *)
Context (js : list job) (me : nat) (w0 : World).

(** What thread [i] does when it wins, alone: with the reactor that it finds. *)
Definition handle_of (i : nat) : HandlePriv :=
  match js !! i with Some (JReg t) => default (0%nat : HandlePriv) (current w0 t) | _ => 0%nat end.
Definition alone (i : nat) : outcome (RegInner * io_result unit) * World :=
  Conc.run (RegInner.new source (handle_of i)) w0.
Definition wins (i : nat) (ri : RegInner) (res : io_result unit) (w1 : World) : Prop :=
  alone i = (Done (ri, res), w1).

Inductive stage := SInit | SLocked (i : nat) (o : option RegInner) | SReady (i : nat) (ri : RegInner).
(** The node of the poll: not there yet, in a box of its own, on the stack, or taken off it;
    or the poll came before the registration, or after it. *)
Inductive node_state := NNone | NBox (n : Z) | NPushed (n : Z) | NTaken | NGone | NOwn (o : option Z).
Record ghost := mkGhost { g_stage : stage; g_node : node_state; g_owner : option nat }.

Definition winner (g : ghost) : option nat :=
  match g_stage g with SInit => None | SLocked i _ | SReady i _ => Some i end.
Definition handled (n : node_state) : bool := match n with NPushed _ | NTaken => true | _ => false end.
Definition lock_word (n : node_state) : Z := match n with NPushed n => Z.lor n LOCKED | _ => LOCKED end.

Definition reg_inv (g : ghost) (reg : World.Registration) : Prop :=
  match g_stage g with
  | SInit => reg = Registration.new
  | SLocked _ o => reg = mkRegistration o (lock_word (g_node g))
  | SReady _ ri => reg = mkRegistration (Some ri) READY
  end.

Definition box_inv (n : node_state) (w : World) : Prop :=
  match n with
  | NNone => is_Some (box_alloc (allocations w) (in_use w))
  | NBox n | NPushed n => addr n /\ boxes w !! n = Some (mkNode d cx 0)
  | NOwn (Some n) => is_Some (boxes w !! n)
  | _ => True
  end.

Definition owner_inv (g : ghost) (w : World) : Prop :=
  match g_stage g with
  | SInit => g_owner g = None /\ view w = view w0 /\ (g_node g = NNone \/ g_node g = NGone)
  | SLocked i _ => g_owner g = Some i /\ g_node g <> NTaken /\ forall o, g_node g <> NOwn o
  | SReady i ri =>
      match g_node g with
      | NPushed _ | NTaken => g_owner g = Some i
      | NOwn _ => g_owner g = Some me
      | _ => g_owner g = None /\ exists res w1, wins i ri res w1 /\ view w = view w1
      end
  end.

Record inv (s : World * ghost) : Prop := {
  i_current : CURRENT_REACTOR s.1 = CURRENT_REACTOR w0 /\ HANDLE_FALLBACK s.1 = HANDLE_FALLBACK w0;
  i_wakers : wakers s.1 = wakers w0;
  i_reg : exists reg, registrations s.1 !! r = Some reg /\ reg_inv s.2 reg;
  i_box : box_inv (g_node s.2) s.1;
  i_owner : owner_inv s.2 s.1;
  i_winner i : winner s.2 = Some i -> exists t, js !! i = Some (JReg t);
}.

(** What a step of thread [i] leaves alone. *)
Record act (i : nat) (s s' : World * ghost) : Prop := {
  a_view : g_owner s.2 <> Some i -> view s'.1 = view s.1;
  a_owner j : j <> i -> g_owner s'.2 = Some j <-> g_owner s.2 = Some j;
  a_winner j : j <> i -> winner s'.2 = Some j <-> winner s.2 = Some j;
  a_locked j o : j <> i -> g_stage s.2 = SLocked j o -> g_stage s'.2 = SLocked j o;
  a_ready j ri : g_stage s.2 = SReady j ri -> g_stage s'.2 = SReady j ri;
  a_init : g_stage s.2 <> SInit -> g_stage s'.2 <> SInit;
  a_node : handled (g_node s.2) = false -> i <> me -> g_node s'.2 = g_node s.2;
  a_handled : handled (g_node s.2) = true ->
    handled (g_node s'.2) = true /\ (winner s.2 <> Some i -> g_node s'.2 = g_node s.2);
}.
Definition blk (i : nat) (b : bool) (s : World * ghost) : Prop := False.
#[local] Abbreviation WP := (wp inv act blk).

(** What a thread knows: which stage it has reached and, when it is the owner, the view. *)
Definition idle (i : nat) (s : World * ghost) : Prop := winner s.2 <> Some i /\ g_owner s.2 <> Some i.
Definition late (i : nat) (s : World * ghost) : Prop := idle i s /\ g_stage s.2 <> SInit.
Definition locked (i : nat) (o : option RegInner) (v : View) (s : World * ghost) : Prop :=
  g_stage s.2 = SLocked i o /\ g_owner s.2 = Some i /\ view s.1 = v.
Definition serving (i : nat) (ri : RegInner) (n : node_state) (v : View) (s : World * ghost) : Prop :=
  g_stage s.2 = SReady i ri /\ g_owner s.2 = Some i /\ g_node s.2 = n /\ handled n = true /\ view s.1 = v.
Definition ready (i : nat) (ri : RegInner) (s : World * ghost) : Prop :=
  g_stage s.2 = SReady i ri /\ g_owner s.2 <> Some i.
Definition before (n : node_state) (s : World * ghost) : Prop :=
  g_node s.2 = n /\ handled n = false /\ g_owner s.2 <> Some me.
Definition polling (i : nat) (ri : RegInner) (o : option Z) (v : View) (s : World * ghost) : Prop :=
  g_stage s.2 = SReady i ri /\ g_owner s.2 = Some me /\ g_node s.2 = NOwn o /\ view s.1 = v.
Definition pushed (s : World * ghost) : Prop := handled (g_node s.2) = true /\ g_owner s.2 <> Some me.

(** A step of another thread, and what it leaves of the knowledge. *)
Ltac stability i :=
  intros ? ? Hk _ (j & Hj & [Hview Howner Hwinner Hlocked Hready Hinit Hnode Hhandled]);
  assert (i <> j) as Hij by congruence; specialize (Howner i Hij); specialize (Hwinner i Hij);
  unfold late, idle, locked, serving, ready, before, polling, pushed in *.

Lemma idle_stable i : stable inv act i (idle i).
Proof. stability i. tauto. Qed.
Lemma late_stable i : stable inv act i (late i).
Proof. stability i. tauto. Qed.
Lemma locked_stable i o v : stable inv act i (locked i o v).
Proof.
  stability i. destruct Hk as (E1 & E2 & E3). split_and!; [by apply Hlocked | by apply Howner |].
  rewrite Hview; congruence.
Qed.
Lemma serving_stable i ri n v : stable inv act i (serving i ri n v).
Proof.
  stability i. destruct Hk as (E1 & E2 & <- & E4 & E5). split_and!; [by apply Hready | by apply Howner | | done |].
  - apply Hhandled; [done |]. unfold winner. rewrite E1. congruence.
  - rewrite Hview; congruence.
Qed.
Lemma ready_stable i ri : stable inv act i (ready i ri).
Proof. stability i. specialize (Hready i ri). tauto. Qed.
Lemma before_stable n : stable inv act me (before n).
Proof. stability me. destruct Hk as (<- & E2 & E3). split_and!; [by apply Hnode | done | tauto]. Qed.
Lemma polling_stable i ri o v : stable inv act me (polling i ri o v).
Proof.
  stability me. destruct Hk as (E1 & E2 & E3 & E4). split_and!; [by apply Hready | by apply Howner | |].
  - rewrite Hnode; [done | by rewrite E3 | done].
  - rewrite Hview; congruence.
Qed.
Lemma pushed_stable : stable inv act me pushed.
Proof. stability me. tauto. Qed.

(** An access to the registration. *)
Lemma wp_on_reg {A B} i (f : World.Registration -> step_res World.Registration A) (c : A -> prg B) Q P s :
  stable inv act i P -> P s ->
  (forall reg w g, P (w, g) -> inv (w, g) -> reg_inv g reg ->
     exists a reg' g', f reg = Next a reg' /\ reg_inv g' reg' /\ box_inv (g_node g') w /\ owner_inv g' w /\
       (winner g' = winner g \/ exists t, js !! i = Some (JReg t)) /\ act i (w, g) (w, g') /\ forall w', view w' = view w -> WP i (c a) Q (w', g')) ->
  WP i (bind (Registration.on_reg r f) c) Q s.
Proof.
  intros HP H0' Hf. unfold Registration.on_reg. eapply wp_action; [exact HP | exact H0' |].
  intros w g Hpre Hi. pose proof Hi as [I1 I2 (reg & Er & Hreg) I4 I5 I6']. cbn in Er, Hreg.
  destruct (Hf reg w g Hpre Hi Hreg) as (a & reg' & g' & Ef & R & B' & O & Hwin & Ha & Hc).
  rewrite Er, Ef. exists g'. split_and!; [| by destruct Ha | by apply Hc].
  constructor; cbn; [done | done | | done | done |].
  - exists reg'. split; [apply lookup_insert_eq | done].
  - intros j Hj. destruct (decide (j = i)) as [-> | Hne].
    + destruct Hwin as [E | Ht]; [| done]. apply I6'. cbn in *. congruence.
    + apply I6'. by apply (a_winner _ _ _ Ha).
Qed.

(** An access that only looks. *)
Lemma wp_look {A B} i (f : World.Registration -> step_res World.Registration A) (c : A -> prg B) Q P s :
  stable inv act i P -> P s ->
  (forall reg w g, P (w, g) -> inv (w, g) -> reg_inv g reg ->
     exists a, f reg = Next a reg /\ forall w', view w' = view w -> WP i (c a) Q (w', g)) ->
  WP i (bind (Registration.on_reg r f) c) Q s.
Proof.
  intros HP H0' Hf. eapply wp_on_reg; [exact HP | exact H0' |]. intros reg w g Hp Hi Hr.
  destruct (Hf reg w g Hp Hi Hr) as (a & Ef & Hc). exists a, reg, g.
  split_and!; [done | done | apply Hi | apply Hi | by left | by constructor | exact Hc].
Qed.

(** ** Registering *)

(** Every registration would succeed or fail alone, and so would what comes after it. *)
Context (Hreg : forall i t, js !! i = Some (JReg t) -> i <> me /\
  (exists h, current w0 t = Some h) /\ exists ri res w1, wins i ri res w1).
Context (Hserve : forall i t ri res w1, js !! i = Some (JReg t) -> wins i ri res w1 ->
  exists w2, Conc.run (RegInner.register ri cx d) w1 = (Done tt, w2)).
Context (Hpoll : forall i t ri res w1, js !! i = Some (JReg t) -> wins i ri res w1 ->
  exists a w2, Conc.run (RegInner.poll_ready ri (Some cx) d) w1 = (Done a, w2)).

Lemma wins_wakers i ri res w1 : wins i ri res w1 -> wakers w1 = wakers w0.
Proof. intros E. pose proof (local_wakers (RegInner.new source (handle_of i)) w0 ltac:(auto with local)) as Hw.
  unfold wins, alone in E. by rewrite E in Hw.
Qed.

Lemma locked_put i o v w g : locked i o v (w, g) -> inv (w, g) -> view w = v /\ wakers w = wakers w0 /\
  forall v', inv (put v' w, g) /\ act i (w, g) (put v' w, g) /\ locked i o v' (put v' w, g).
Proof.
  intros (E1 & E2 & E3) [I1 I2 I3 I4 I5 I6']. cbn in *. split_and!; [done | done |]. intros v'. split_and!.
  - constructor; cbn; [done | done | done | by destruct (g_node g) as [| | | | | []] | | done].
    unfold owner_inv in *. by rewrite E1 in *.
  - constructor; cbn; done.
  - split_and!; [done | done | apply view_put].
Qed.

Lemma serving_put i ri n v w g : serving i ri n v (w, g) -> inv (w, g) -> view w = v /\ wakers w = wakers w0 /\
  forall v', inv (put v' w, g) /\ act i (w, g) (put v' w, g) /\ serving i ri n v' (put v' w, g).
Proof.
  intros (E1 & E2 & E3 & E4 & E5) [I1 I2 I3 I4 I5 I6']. cbn in *. split_and!; [done | done |]. intros v'. split_and!.
  - constructor; cbn; [done | done | done | by destruct (g_node g) as [| | | | | []] | | done].
    unfold owner_inv in *. rewrite E1, E3 in *. by destruct n.
  - constructor; cbn; done.
  - split_and!; [done .. | apply view_put].
Qed.

Definition reg_post (i : nat) (a : io_result bool) (s : World * ghost) : Prop :=
  (a = Ok false /\ late i s) \/
  exists ri res w1, wins i ri res w1 /\ a = io_map (fun _ => true) res /\
    (ready i ri s \/
     exists w2, Conc.run (RegInner.register ri cx d) w1 = (Done tt, w2) /\ serving i ri NTaken (view w2) s).

(** What the state says about the stage. *)
Lemma reg_inv_state w g reg : inv (w, g) -> reg_inv g reg ->
  (state reg = INIT <-> g_stage g = SInit) /\
  (state reg = READY <-> exists i ri, g_stage g = SReady i ri) /\
  (handled (g_node g) = false -> state reg = LOCKED <-> exists i o, g_stage g = SLocked i o).
Proof.
  intros [_ _ _ I4 _ _] Hr. cbn in I4. unfold reg_inv in Hr.
  destruct (g_stage g) as [| i o | i ri]; subst reg; cbn; [naive_solver | | naive_solver].
  split_and!; [| | intros Hh; destruct (g_node g); try done; naive_solver].
  - split; [| done]. destruct (g_node g); try done. intros E. exfalso. by eapply pushed_not; [apply I4 | | exact E]; left.
  - split; [| naive_solver]. destruct (g_node g); try done. intros E. exfalso. by eapply pushed_not; [apply I4 | | exact E]; right.
Qed.

(** The winner serves the node that it found. *)
Lemma wp_consume i ri res w1 n s :
  wins i ri res w1 -> n <> 0 -> serving i ri (NPushed n) (view w1) s ->
  WP i (Registration.consume (S (S fuel)) ri n false false)
    (fun _ s' => exists w2, Conc.run (RegInner.register ri cx d) w1 = (Done tt, w2) /\ serving i ri NTaken (view w2) s') s.
Proof.
  intros Hw Hn Ho. cbn [Registration.consume]. rewrite (proj2 (Z.eqb_neq _ _) Hn). unfold box_take.
  eapply wp_action; [apply serving_stable | exact Ho |]. intros w g (E1 & E2 & E3 & _ & E5) [I1 I2 I3 I4 I5 I6'].
  cbn in *. rewrite E3 in I4. destruct I4 as [_ ->]. cbn [direction node_waker next].
  exists (mkGhost (g_stage g) NTaken (g_owner g)). split_and!.
  - constructor; cbn; [done | done | | done | | done].
    + destruct I3 as (reg & Er & Hr). exists reg. split; [done |]. unfold reg_inv in *. cbn. by rewrite E1 in *.
    + unfold owner_inv. cbn. by rewrite E1.
  - constructor; cbn; try done; [by rewrite E3 |]. intros _. split; [done |]. unfold winner. by rewrite E1.
  - destruct (I6' i) as [t Ht]; [by unfold winner; rewrite E1 |].
    destruct (Hserve i t ri res w1 Ht Hw) as [w2 Hrun].
    assert (forall b1 b2, WP i (let! _ := RegInner.register ri cx d in Registration.consume (S fuel) ri 0 b1 b2)
      (fun _ s' => exists w2, Conc.run (RegInner.register ri cx d) w1 = (Done tt, w2) /\ serving i ri NTaken (view w2) s')
      (set_boxes (delete n (boxes w)) w, mkGhost (g_stage g) NTaken (g_owner g))) as Hwp;
      [| destruct d; [apply (Hwp true false) | apply (Hwp false true)]].
    intros b1 b2. apply wp_bind.
    eapply (wp_local inv act blk i (wakers w0) (serving i ri NTaken));
      [apply serving_stable | apply serving_put | apply local_register | exact Hrun | by eapply wins_wakers | |].
    + by split_and!.
    + intros s' Ho' _. cbn [Registration.consume Z.eqb]. eapply wp_ret; [apply serving_stable | exact Ho' |]. intros s2 Ho2 _. by exists w2.
Qed.

(** The winner looks at the association that it has made. *)
Lemma wp_get_inner {B} i ri (c : RegInner -> prg B) P Q s :
  stable inv act i P -> P s -> (forall s', P s' -> exists j, g_stage s'.2 = SReady j ri) ->
  (forall w w' g, P (w, g) -> inv (w, g) -> view w' = view w -> WP i (c ri) Q (w', g)) ->
  WP i (bind (Registration.get_inner r) c) Q s.
Proof.
  intros HP H0' Hs Hc. eapply wp_look; [exact HP | exact H0' |]. intros reg w g Hp Hi Hr.
  destruct (Hs _ Hp) as [j E]. cbn in E. unfold reg_inv in Hr. rewrite E in Hr. subst reg. exists ri.
  split; [done |]. intros w' Ev. by eapply Hc.
Qed.

(** The winner opens the state: the node of a poll, if there is one, is now its own. *)
Lemma wp_swap {B} i ri res w1 (c : Z -> prg B) Q s :
  wins i ri res w1 -> locked i (Some ri) (view w1) s ->
  (forall n s', addr n -> serving i ri (NPushed n) (view w1) s' -> WP i (c (Z.lor n LOCKED)) Q s') ->
  (forall s', ready i ri s' -> WP i (c LOCKED) Q s') ->
  WP i (bind (Registration.state_swap r READY) c) Q s.
Proof.
  intros Hw Ho Hpushed Hfree. unfold Registration.state_swap.
  eapply wp_on_reg; [apply locked_stable | exact Ho |]. intros reg w g (E1 & E2 & E3) [_ _ _ I4 I5 _] Hr. cbn in *.
  unfold reg_inv, owner_inv in *. rewrite E1 in *. subst reg. destruct I5 as (_ & I6 & I7).
  assert (forall o, o = None \/ o = Some i -> act i (w, g) (w, mkGhost (SReady i ri) (g_node g) o)) as Hact.
  { intros o Hown. constructor; cbn; try done; unfold winner; rewrite ?E1, ?E2; cbn; [| naive_solver ..].
    destruct Hown as [-> | ->]; naive_solver. }
  destruct (handled (g_node g)) eqn:Eh.
  - destruct (g_node g) as [| | n | | |] eqn:En; try done.
    eexists _, _, (mkGhost (SReady i ri) (NPushed n) (Some i)). split_and!; cbn; [done | done | done | done | left; unfold winner; cbn; by rewrite E1 | by apply Hact; auto |].
    intros w' Ev. apply Hpushed; [apply I4 |]. split_and!; cbn; [done .. | congruence].
  - eexists _, _, (mkGhost (SReady i ri) (g_node g) None). split_and!; cbn; [done | done | done | | left; unfold winner; cbn; by rewrite E1 | by apply Hact; left |].
    { destruct (g_node g) as [| | | | | o]; try done; [| | | by destruct (I7 o)]; (split; [done |]); by exists res, w1. }
    intros w' Ev. cbn. replace (lock_word (g_node g)) with LOCKED by by destruct (g_node g).
    apply Hfree. by split.
Qed.

(** The winner, from the moment that it has locked the state. *)
Lemma wp_register_locked i ri res w1 s :
  wins i ri res w1 -> locked i None (view w0) s ->
  WP i (Registration.register_locked (S (S fuel)) r source (handle_of i)) (reg_post i) s.
Proof.
  intros Hw Ho. unfold Registration.register_locked. apply wp_bind.
  eapply (wp_local inv act blk i (wakers w0) (locked i None));
    [apply locked_stable | apply locked_put | apply local_new | exact Hw | done | exact Ho |].
  clear s Ho. intros s Ho _. cbn [fst snd]. unfold Registration.set_inner.
  eapply wp_on_reg; [apply locked_stable | exact Ho |]. intros reg w g (E1 & E2 & E3) [_ _ _ I4 I5 _] Hr. cbn in *.
  unfold reg_inv, owner_inv in *. rewrite E1 in *. subst reg.
  eexists tt, _, (mkGhost (SLocked i (Some ri)) (g_node g) (g_owner g)).
  split_and!; cbn; [done | done | done | done | left; unfold winner; cbn; by rewrite E1 | |].
  { constructor; cbn; try done; unfold winner; rewrite E1; cbn; naive_solver. }
  intros w' Ev. eapply wp_swap; [exact Hw | split_and!; cbn; congruence | |].
  - clear - Hw Hserve Hpoll Hreg. intros n s Ha Ho. eapply wp_get_inner; [apply serving_stable | exact Ho | |].
    { intros s' (E & _). by exists i. }
    intros w w' g Ho' Hi Ev. rewrite pushed_ptr by done. apply wp_bind.
    eapply wp_conseq; [| eapply (wp_consume i ri res w1 n); [exact Hw | destruct Ha; lia |]].
    2: { destruct Ho' as (?&?&?&?&?). by split_and!; cbn in *; try congruence. }
    intros [] s' _ (w2 & Hrun & Ho2). eapply wp_ret; [apply serving_stable | exact Ho2 |].
    intros s2 Ho3 _. right. exists ri, res, w1. split_and!; [done | by destruct res |]. right. by exists w2.
  - clear - Hw Hserve Hpoll Hreg. intros s Ho. eapply wp_get_inner; [apply ready_stable | exact Ho | |].
    { intros s' (E & _). by exists i. }
    intros w w' g Ho' Hi Ev. rewrite locked_ptr. cbn [Registration.consume Z.eqb bind].
    eapply wp_ret; [apply ready_stable | exact Ho' |].
    intros s2 Ho3 _. right. exists ri, res, w1. split_and!; [done | by destruct res |]. by left.
Qed.

Lemma reg_post_stable i a : stable inv act i (reg_post i a).
Proof.
  apply stable_or; [apply stable_and; [apply stable_pure | apply late_stable] |].
  do 3 (apply stable_exists; intros ?). do 2 (apply stable_and; [apply stable_pure |]).
  apply stable_or; [apply ready_stable |]. apply stable_exists. intros ?.
  apply stable_and; [apply stable_pure | apply serving_stable].
Qed.

Lemma wp_late i a s : a = Ok false -> late i s -> WP i (Ret a) (reg_post i) s.
Proof. intros -> Ho. eapply wp_ret; [apply late_stable | exact Ho |]. intros s' Ho' _. by left. Qed.

(** A look for the reactor: nobody changes which one it is. *)
Lemma wp_try_current {B} i t h (c : io_result HandlePriv -> prg B) Q s :
  idle i s -> current w0 t = Some h -> (forall s', idle i s' -> WP i (c (Ok h)) Q s') ->
  WP i (bind (Fallback.try_current t) c) Q s.
Proof.
  intros Ho Hh Hc. unfold Fallback.try_current. wp_assoc.
  eapply wp_atom; [apply idle_stable | exact Ho |]. clear s Ho. intros w g Ho Hi. exists g.
  split_and!; [done | by constructor |]. cbn [fst snd]. unfold current in Hh.
  destruct (i_current _ Hi) as [Ecur _]. cbn in Ecur. rewrite Ecur. destruct (CURRENT_REACTOR w0 !! t) as [h' |]; cbn [bind].
  - injection Hh as ->. by apply Hc.
  - unfold Fallback.fallback, HandlePriv.load_fallback. wp_assoc.
    eapply wp_atom; [apply idle_stable | exact Ho |]. clear w g Ho Hi Ecur. intros w g Ho Hi. exists g.
    split_and!; [done | by constructor |]. cbn [fst snd].
    destruct (i_current _ Hi) as [_ Efb]. cbn in Efb. rewrite Efb.
    destruct (HANDLE_FALLBACK w0) as [| h']; [done |]. injection Hh as ->. by apply Hc.
Qed.

(** A thread that registers: it wins, or it is late. *)
Lemma wp_register_any i t s :
  js !! i = Some (JReg t) -> idle i s ->
  WP i (Registration.register (S (S fuel)) t r source) (reg_post i) s.
Proof.
  intros Hi Ho. destruct (Hreg i t Hi) as (Hme & (h & Hh) & ri & res & w1 & Hw).
  assert (handle_of i = h) as Eh by (unfold handle_of; by rewrite Hi, Hh).
  unfold Registration.register, Registration.register2, Registration.state_load.
  eapply wp_look; [apply idle_stable | exact Ho |]. intros reg w g Hid Hinv Hr.
  destruct (reg_inv_state w g reg Hinv Hr) as (HI & _ & _). exists (state reg). split; [done |]. intros w' Ev.
  cbn [Registration.register_loop]. destruct (Z.eqb_spec (state reg) INIT) as [E0 | Hne].
  2: { apply wp_late; [done |]. split; [done |]. cbn. tauto. }
  rewrite E0. eapply wp_try_current; [exact Hid | by rewrite Hh |]. clear -Hw Hi Hh Eh Hme Hpoll Hserve Hreg. intros s Ho.
  unfold Registration.compare_and_swap. eapply wp_on_reg; [apply idle_stable | exact Ho |].
  clear -Hw Hi Eh Hme Hpoll Hserve Hreg. intros reg w g Ho Hinv Hr. pose proof (reg_inv_state w g reg Hinv Hr) as (HI & _ & _).
  destruct (Z.eqb_spec (state reg) INIT) as [E0 | Hne]; cbn [negb].
  - apply HI in E0. destruct Hinv as [_ _ _ I4 I5 _]. cbn in *. unfold reg_inv, owner_inv in *. rewrite E0 in *. subst reg.
    destruct I5 as (I6 & I7 & I8).
    eexists _, _, (mkGhost (SLocked i None) (g_node g) (Some i)).
    split_and!; cbn; [done | | done | | right; by exists t | |].
    + by destruct I8 as [-> | ->].
    + split_and!; [done | by destruct I8 as [-> | ->] ..].
    + constructor; cbn; try done; unfold winner; rewrite ?E0; cbn; try done; naive_solver.
    + intros w' Ev. rewrite <- Eh. eapply wp_register_locked; [exact Hw |]. split_and!; cbn; congruence.
  - eexists _, _, g. split_and!; [done | done | apply Hinv | apply Hinv | by left | by constructor |]. intros w' Ev.
    cbn [Registration.register_loop]. rewrite (proj2 (Z.eqb_neq _ _) Hne). apply wp_late; [done |].
    split; [done |]. cbn. tauto.
Qed.

(** ** Polling *)

Definition trying (n : node_state) (s : World * ghost) : Prop := before n s /\ g_stage s.2 <> SInit.

Lemma trying_stable n : stable inv act me (trying n).
Proof.
  intros s s' [Hb Hs] Hi (j & Hj & Ha). split; [| by apply (a_init _ _ _ Ha)].
  eapply before_stable; [exact Hb | exact Hi | by exists j].
Qed.

Lemma polling_put i ri o v w g : polling i ri o v (w, g) -> inv (w, g) -> view w = v /\ wakers w = wakers w0 /\
  forall v', inv (put v' w, g) /\ act me (w, g) (put v' w, g) /\ polling i ri o v' (put v' w, g).
Proof.
  intros (E1 & E2 & E3 & E4) [I1 I2 I3 I4 I5 I6']. cbn in *. split_and!; [done | done |]. intros v'. split_and!.
  - constructor; cbn; [done | done | done | by rewrite E3 in *; destruct o | | done].
    unfold owner_inv in *. by rewrite E1, E3 in *.
  - constructor; cbn; done.
  - split_and!; [done .. | apply view_put].
Qed.

(** The poll came before the registration, or during it, or after it. *)
Definition poll_post (a : io_result (option Z)) (s : World * ghost) : Prop :=
  ((exists msg, a = Err (other msg)) /\ before NGone s) \/
  (a = Ok None /\ pushed s) \/
  exists i ri res w1 w2, wins i ri res w1 /\
    Conc.run (RegInner.poll_ready ri (Some cx) d) w1 = (Done a, w2) /\ polling i ri None (view w2) s.

Lemma poll_post_stable a : stable inv act me (poll_post a).
Proof.
  apply stable_or; [apply stable_and; [apply stable_pure | apply before_stable] |].
  apply stable_or; [apply stable_and; [apply stable_pure | apply pushed_stable] |].
  do 5 (apply stable_exists; intros ?). do 2 (apply stable_and; [apply stable_pure |]). apply polling_stable.
Qed.

Lemma wp_box_drop i ri o v {B} (c : unit -> prg B) Q s :
  polling i ri o v s -> (forall s', polling i ri None v s' -> WP me (c tt) Q s') ->
  WP me (bind (box_drop o) c) Q s.
Proof.
  intros Ho Hc. destruct o as [n |]; cbn [box_drop bind]; [| by apply Hc]. wp_assoc. unfold box_take.
  eapply wp_action; [apply polling_stable | exact Ho |]. intros w g (E1 & E2 & E3 & E4) [I1 I2 I3 I4 I5 I6'].
  cbn in *. rewrite E3 in I4. destruct I4 as [nd ->].
  exists (mkGhost (g_stage g) (NOwn None) (g_owner g)). split_and!.
  - constructor; cbn; [done | done | | done | | done].
    + destruct I3 as (reg & Er & Hr). exists reg. split; [done |]. unfold reg_inv in *. cbn. by rewrite E1 in *.
    + unfold owner_inv. cbn. by rewrite E1.
  - constructor; cbn; try done. by rewrite E3.
  - cbn [bind]. apply Hc. by split_and!.
Qed.

(** A poll that finds the state open owns the reactors. *)
Lemma wp_poll_open i ri res w1 o s :
  wins i ri res w1 -> polling i ri o (view w1) s ->
  WP me (let! inner := Registration.get_inner r in
         let! res := RegInner.poll_ready inner (Some cx) d in
         let! _ := box_drop o in Ret res) poll_post s.
Proof.
  intros Hw Ho. eapply wp_get_inner; [apply polling_stable | exact Ho | |].
  { intros s' (E & _). by exists i. }
  clear s Ho. intros w w' g (E1 & E2 & E3 & E4) Hi Ev. cbn in *. apply wp_bind.
  destruct (i_winner _ Hi i) as [t Ht]; [by unfold winner; cbn; rewrite E1 |].
  destruct (Hpoll i t ri res w1 Ht Hw) as (a & w2 & Hrun).
  eapply (wp_local inv act blk me (wakers w0) (polling i ri o));
    [apply polling_stable | apply polling_put | apply local_poll_ready | exact Hrun | by eapply wins_wakers | |].
  { split_and!; cbn; congruence. }
  intros s Ho _. eapply wp_box_drop; [exact Ho |]. intros s' Ho'.
  eapply wp_ret; [apply polling_stable | exact Ho' |]. intros s2 Ho2 _.
  right. right. by exists i, ri, res, w1, w2.
Qed.

(** A look at the state by a poll that finds it open. *)
Lemma open_step w g reg n o :
  inv (w, g) -> reg_inv g reg -> before n (w, g) -> state reg = READY ->
  n = NNone /\ o = None \/ (exists p, n = NBox p /\ o = Some p) ->
  exists i ri res w1, wins i ri res w1 /\ view w = view w1 /\
    let g' := mkGhost (SReady i ri) (NOwn o) (Some me) in
    reg_inv g' reg /\ box_inv (NOwn o) w /\ owner_inv g' w /\
    (winner g' = winner g \/ exists t, js !! me = Some (JReg t)) /\ act me (w, g) (w, g').
Proof.
  intros Hi Hr (E1 & E2 & E3) Hs Hn. pose proof (reg_inv_state w g reg Hi Hr) as (_ & HR & _).
  apply HR in Hs as (i & ri & Es). destruct Hi as [_ _ _ I4 I5 _]. cbn in *. subst n.
  unfold owner_inv in I5. rewrite Es in I5.
  assert (g_owner g = None /\ exists res w1, wins i ri res w1 /\ view w = view w1) as (Eo & res & w1 & Hw & Ev).
  { destruct Hn as [[E _] | (p & E & _)]; by rewrite E in I5. }
  exists i, ri, res, w1. cbn zeta. split_and!; [done | done | | | done | left; unfold winner; by rewrite Es |].
  - unfold reg_inv in *. by rewrite Es in Hr.
  - destruct Hn as [[_ ->] | (p & E & ->)]; [done |]. rewrite E in I4. cbn. by destruct I4 as [_ ->].
  - constructor; cbn; unfold winner; rewrite ?Es, ?Eo; cbn; try done.
    + intros j Hj. split; intros [= E]. congruence.
    + by rewrite E2.
Qed.

(** The poll has a node in its box and finds the state locked, or open in the meantime. *)
Lemma wp_push n s :
  trying (NBox n) s ->
  WP me (let! actual := Registration.compare_and_swap r LOCKED (Z.lor n LOCKED) in
         if negb (actual =? LOCKED) then Registration.poll_loop (S fuel) r (Some cx) d (Some n) actual
         else Ret (Ok None)) poll_post s.
Proof.
  intros Ho. unfold Registration.compare_and_swap. eapply wp_on_reg; [apply trying_stable | exact Ho |].
  clear s Ho. intros reg w g [Hb Hs] Hi Hr. pose proof (reg_inv_state w g reg Hi Hr) as (HI & HR & HL).
  pose proof Hb as (E1 & _ & E3). cbn in E1, E3, Hs.
  destruct (Z.eqb_spec (state reg) LOCKED) as [E | Hne]; cbn [negb].
  - destruct HL as [HL _]; [by rewrite E1 |]. destruct (HL E) as (i & o & Es). destruct Hi as [_ _ _ I4 I5 _].
    cbn in *. unfold reg_inv, owner_inv in *. rewrite E1 in I4. rewrite Es in *. subst reg. destruct I5 as (I6 & _ & _).
    eexists _, _, (mkGhost (SLocked i o) (NPushed n) (Some i)).
    split_and!; cbn; [done | done | done | split_and!; done | left; unfold winner; by rewrite Es | |].
    + constructor; cbn; unfold winner; rewrite ?Es, ?I6, ?E1; cbn; done.
    + intros w' Ev. rewrite E1. change (negb (lock_word (NBox n) =? LOCKED)) with false. cbv iota.
      eapply wp_ret; [apply pushed_stable | by split; cbn; congruence |].
      intros s' Ho' _. right. by left.
  - assert (state reg = READY) as ER.
    { apply HR. destruct (g_stage g) as [| i o | i ri] eqn:Es; [done | | by exists i, ri].
      exfalso. apply Hne, (HL ltac:(by rewrite E1)). by exists i, o. }
    destruct (open_step w g reg (NBox n) (Some n) Hi Hr Hb ER) as (i & ri & res & w1 & Hw & Ev & R & B & O & W & A).
    { right. by exists n. }
    eexists _, reg, _. split_and!; [done | exact R | exact B | exact O | exact W | exact A |]. intros w' Ev'.
    cbn [Registration.poll_loop]. rewrite ER. change (READY =? INIT) with false. change (READY =? READY) with true.
    cbv iota. eapply wp_poll_open; [exact Hw |]. split_and!; cbn; congruence.
Qed.

(** The poll of a locked state makes a node. *)
Lemma wp_poll_locked s :
  trying NNone s -> WP me (Registration.poll_loop (S (S fuel)) r (Some cx) d None LOCKED) poll_post s.
Proof.
  intros Ho. cbn [Registration.poll_loop]. change (LOCKED =? INIT) with false. change (LOCKED =? READY) with false.
  change (LOCKED =? LOCKED) with true. cbv iota. rewrite locked_ptr.
  change (Z.land LOCKED LIFECYCLE_MASK) with LOCKED. unfold box_new.
  eapply wp_action; [apply trying_stable | exact Ho |]. clear s Ho.
  intros w g [(E1 & _ & E3) Hs] [I1 I2 I3 I4 I5 I6']. cbn in *. rewrite E1 in I4. destruct I4 as [n Hn].
  rewrite Hn. pose proof (box_alloc_addr _ _ _ Hn) as Ha.
  exists (mkGhost (g_stage g) (NBox n) (g_owner g)). split_and!.
  { constructor; cbn; [done | done | | | | done].
    - destruct I3 as (reg & Er & Hr). exists reg. split; [done |]. unfold reg_inv in *. cbn. by rewrite E1 in Hr.
    - split; [done |]. apply lookup_insert_eq.
    - unfold owner_inv in *. cbn. rewrite E1 in I5. by destruct (g_stage g) as [| i o | i ri]; [| split_and!; [apply I5 | done ..] |]. }
  { constructor; cbn; try done. by rewrite E1. }
  unfold box_set_next.
  eapply (wp_action _ _ _ me _ _ _ (trying (NBox n))); [apply trying_stable | by split_and! |].
  clear w g E1 E3 Hs I1 I2 I3 I5 I6' Hn Ha. intros w g Ho [I1 I2 I3 I4 I5 I6']. pose proof Ho as [(E1 & _ & E3) Hs]. cbn in *. rewrite E1 in I4. destruct I4 as [Ha Hb].
  rewrite Hb. exists g. split_and!.
  - constructor; cbn; [done | done | done | | done | done]. rewrite E1. split; [done |]. apply lookup_insert_eq.
  - by constructor.
  - apply (wp_push n). exact Ho.
Qed.

(** A poll of a task, from the beginning. *)
Lemma wp_poll s :
  before NNone s -> WP me (Registration.poll_ready (S (S fuel)) r (Some cx) d) poll_post s.
Proof.
  intros Ho. unfold Registration.poll_ready, Registration.state_load.
  eapply wp_on_reg; [apply before_stable | exact Ho |]. clear s Ho. intros reg w g Hb Hi Hr.
  pose proof (reg_inv_state w g reg Hi Hr) as (HI & HR & HL). pose proof Hb as (E1 & _ & E3). cbn in E1, E3.
  destruct (g_stage g) as [| i o | i ri] eqn:Es.
  - destruct Hi as [_ _ _ I4 I5 _]. unfold owner_inv in I5. cbn in *. rewrite Es in I5. destruct I5 as (I6 & I7 & _).
    eexists _, reg, (mkGhost SInit NGone None). split_and!; [done | | done | by split_and!; [.. | right] | left; unfold winner; by rewrite Es | |].
    { unfold reg_inv in *. by rewrite Es in Hr. }
    { constructor; cbn; unfold winner; rewrite ?Es, ?I6, ?E1; cbn; done. }
    intros w' Ev. rewrite (proj2 HI eq_refl). cbn [Registration.poll_loop]. change (INIT =? INIT) with true.
    cbv iota. cbn [box_drop bind]. eapply wp_ret; [apply (before_stable NGone) | by split_and! |].
    intros s Ho _. left. split; [by eexists | done].
  - assert (state reg = LOCKED) as El by (apply (HL ltac:(by rewrite E1)); by exists i, o).
    eexists _, reg, g. split_and!; [done | done | apply Hi | apply Hi | by left | by constructor |]. intros w' Ev. rewrite El.
    apply wp_poll_locked. split; [done |]. cbn. congruence.
  - assert (state reg = READY) as ER by (apply HR; by exists i, ri).
    destruct (open_step w g reg NNone None Hi Hr Hb ER) as (i' & ri' & res & w1 & Hw & Ev & R & B & O & W & A); [by left |].
    eexists _, reg, _. split_and!; [done | exact R | exact B | exact O | exact W | exact A |]. intros w' Ev'. rewrite ER.
    cbn [Registration.poll_loop]. change (READY =? INIT) with false. change (READY =? READY) with true.
    cbv iota. eapply wp_poll_open; [exact Hw |]. split_and!; cbn; congruence.
Qed.
End race.

(** ** What the winner leaves, and what the poll finds *)
Section after.
Context `{DepsLaws}.

(** A task whose poll found nothing has been woken, or is stored in the source, without
    events. *)
Definition notified (h : HandlePriv) (res : io_result Z) (d : Direction) (k : waker) (before : list waker) (w : World) : Prop :=
  match res with
  | Ok key => exists x i, reactors w !! h = Some x /\ slab_get key (slab_of x) = Some i /\
      aw_waker (aw_of d i) = Some k /\ bits d i = 0
  | Err _ => woken w = before ++ [k]
  end.

Lemma notified_view h res d k before w w' : view w = view w' -> notified h res d k before w -> notified h res d k before w'.
Proof. unfold view, notified. intros [= E1 _ E3]. by rewrite E1, E3. Qed.

(** The world when [add_source] has returned. *)
Definition added (w : World) (h : HandlePriv) (x1 : ReactorInner) (o : Os) : World := set_os o (set_reactor h x1 w).

Lemma added_slot x m s source o0 res x1 o :
  reactor_wf x -> strong x = S m -> io_dispatch x = mkARwLock 0 false s ->
  add_source_result x s source o0 = (res, x1, o) ->
  match res with
  | Ok key => key <> ERROR /\ strong x1 = S m /\ exists s1, io_dispatch x1 = mkARwLock 0 false s1 /\
      slab_get key s1 = Some (fresh_io (next_aba_guard x))
  | Err _ => True
  end.
Proof.
  intros Hwf Em El. unfold add_source_result. destruct (slab_len s =? MAX_SOURCES) eqn:Ef; [by intros [= <- _ _] |].
  destruct (Poll_register _ _ _ _ _ _) as [[] o']; cbn; intros [= <- <- _]; [| done].
  apply Z.eqb_neq in Ef. split_and!; [| done |].
  - eapply key_not_ERROR, insert_key_range; [exact Hwf | by unfold slab_of; rewrite El | done].
  - eexists. split; [done |]. rewrite slab_insert_get. by rewrite decide_True.
Qed.

Lemma register_after w h x m s source res x1 o cx k d :
  reactor_wf x -> strong x = S m -> io_dispatch x = mkARwLock 0 false s ->
  add_source_result x s source (os w) = (res, x1, o) -> wakers w !! cx = Some k ->
  exists w2, Conc.run (RegInner.register (mkRegInner h (token_of res)) cx d) (added w h x1 o) = (Done tt, w2) /\
    os w2 = o /\ notified h res d k (woken w) w2.
Proof.
  intros Hwf Em El Eadd Hk. pose proof (added_slot x m s source (os w) res x1 o Hwf Em El Eadd) as Hs.
  destruct res as [key | e]; cbn [token_of].
  - destruct Hs as (Hkey & Em1 & s1 & El1 & Hget). eexists. split_and!.
    + eapply run_reginner_register; [done | apply lookup_insert_eq | done..].
    + done.
    + eexists _, _. split_and!; [apply lookup_insert_eq | | |].
      * unfold slab_of. cbn. rewrite slab_set_get by by eexists. by rewrite decide_True.
      * unfold after_register. cbn [readiness fresh_io]. rewrite Z.land_0_l. cbn [Z.eqb].
        by rewrite aw_of_with_aw, aw_register_waker.
      * unfold after_register, bits. cbn [readiness fresh_io]. rewrite Z.land_0_l. cbn [Z.eqb].
        rewrite with_aw_readiness. apply Z.land_0_r.
  - eexists. split_and!; [by eapply run_reginner_register_error | done | done].
Qed.

Lemma poll_after w h x m s source res x1 o cx k d :
  reactor_wf x -> strong x = S m -> io_dispatch x = mkARwLock 0 false s ->
  add_source_result x s source (os w) = (res, x1, o) -> wakers w !! cx = Some k ->
  exists a w2, Conc.run (RegInner.poll_ready (mkRegInner h (token_of res)) (Some cx) d) (added w h x1 o) = (Done a, w2) /\
    os w2 = o /\
    (a = Err (other "failed to associate with reactor") \/ a = Ok None /\ notified h res d k (woken w) w2).
Proof.
  intros Hwf Em El Eadd Hk. pose proof (added_slot x m s source (os w) res x1 o Hwf Em El Eadd) as Hs.
  destruct res as [key | e]; cbn [token_of].
  - destruct Hs as (Hkey & Em1 & s1 & El1 & Hget). set (i := fresh_io (next_aba_guard x)).
    assert (bits d i = 0) as Eb by apply Z.land_0_r.
    eexists _, _. split_and!.
    + eapply (run_poll_ready_inner _ h key x1 m 0 s1 (Some cx) (Some k) d i); try done; [apply lookup_insert_eq | apply is_usize_0].
    + done.
    + right. split; [by unfold polled_bits; rewrite Eb |]. unfold after_poll. rewrite Eb. cbn [Z.eqb].
      eexists _, _. split_and!; [apply lookup_insert_eq | | |].
      * unfold slab_of. cbn. rewrite slab_set_get by by eexists. by rewrite decide_True.
      * by rewrite aw_of_with_aw, aw_register_waker.
      * unfold bits. rewrite with_aw_readiness. apply consume_bits_empty; [apply is_usize_0 | done].
  - eexists _, _. split_and!; [unfold RegInner.poll_ready; cbn [World.token]; by rewrite Z.eqb_refl | done | by left].
Qed.

(** What a pool may be: threads that call [register], each finding a live reactor, and the poll. *)
Definition job_ok (w : World) (me i : nat) (j : job) : Prop :=
  match j with
  | JReg t => i <> me /\ exists h x m s, current w t = Some h /\ reactors w !! h = Some x /\
      strong x = S m /\ io_dispatch x = mkARwLock 0 false s /\ reactor_wf x
  | JPoll => i = me
  end.

Lemma job_wins source js me w i t :
  js !! i = Some (JReg t) -> job_ok w me i (JReg t) ->
  exists h x m s, current w t = Some h /\ reactors w !! h = Some x /\ strong x = S m /\
    io_dispatch x = mkARwLock 0 false s /\ reactor_wf x /\
    forall res x1 o, add_source_result x s source (os w) = (res, x1, o) ->
      wins source js w i (mkRegInner h (token_of res)) (io_map (fun _ => tt) res) (added w h x1 o).
Proof.
  intros Hj (_ & h & x & m & s & Hc & E & Em & El & Hwf). exists h, x, m, s. split_and!; try done.
  intros res x1 o Eadd. unfold wins, alone, handle_of. rewrite Hj. cbv iota. rewrite Hc. cbn [default from_option id].
  rewrite (run_reginner_new w h x m s source) by done. by rewrite Eadd.
Qed.

Definition race_post source cx d js me w (i : nat) (a : result) (s : World * ghost) : Prop :=
  forall j, js !! i = Some j ->
  match j with
  | JReg _ => exists b, a = RReg b /\ reg_post source cx d js w i b s
  | JPoll => exists b, a = RPoll b /\ poll_post source cx d js me w b s
  end.

Lemma pool_race r source fuel cx d js me w k :
  registrations w !! r = Some Registration.new -> is_Some (box_alloc (allocations w) (in_use w)) -> wakers w !! cx = Some k ->
  (forall i j, js !! i = Some j -> job_ok w me i j) ->
  pool_ok (inv r source cx d js me w) (act me) blk (race_post source cx d js me w)
    (job_prog r source fuel cx d <$> js) (w, mkGhost SInit NNone None).
Proof.
  intros Er Ha Hk Hjs.
  assert (forall i t, js !! i = Some (JReg t) -> i <> me /\ (exists h, current w t = Some h) /\
    exists ri res w1, wins source js w i ri res w1 /\
      (exists w2, Conc.run (RegInner.register ri cx d) w1 = (Done tt, w2)) /\
      (exists a w2, Conc.run (RegInner.poll_ready ri (Some cx) d) w1 = (Done a, w2))) as Hall.
  { intros i t Hj. pose proof (Hjs _ _ Hj) as Hok.
    destruct (job_wins source js me w i t Hj Hok) as (h & x & m & s & Hc & E & Em & El & Hwf & Hw).
    destruct (add_source_result x s source (os w)) as [[res x1] o] eqn:Eadd.
    split_and!; [apply Hok | by exists h |]. eexists _, _, _. split; [by apply Hw |].
    destruct (register_after w h x m s source res x1 o cx k d Hwf Em El Eadd Hk) as (w2 & Hr & _).
    destruct (poll_after w h x m s source res x1 o cx k d Hwf Em El Eadd Hk) as (a & w3 & Hp & _).
    split; [by exists w2 | by exists a, w3]. }
  split.
  { constructor; cbn; try done; [by eexists | by split_and!; [.. | left]]. }
  intros i p Hp. apply list_lookup_fmap_Some in Hp as (j & -> & Hj).
  assert (forall i t ri res w1, js !! i = Some (JReg t) -> wins source js w i ri res w1 ->
    (exists w2, Conc.run (RegInner.register ri cx d) w1 = (Done tt, w2)) /\
    (exists a w2, Conc.run (RegInner.poll_ready ri (Some cx) d) w1 = (Done a, w2))) as Hnext.
  { intros i' t ri res w1 Ht Hw. destruct (Hall i' t Ht) as (_ & _ & ri' & res' & w1' & Hw' & Hn).
    unfold wins in *. rewrite Hw in Hw'. by injection Hw' as <- <- <-. }
  assert (forall i t, js !! i = Some (JReg t) -> i <> me /\ (exists h, current w t = Some h) /\
    exists ri res w1, wins source js w i ri res w1) as Hreg.
  { intros i' t Ht. destruct (Hall i' t Ht) as (? & ? & ri & res & w1 & ? & _). split_and!; [done | done |]. by exists ri, res, w1. }
  destruct j as [t |]; cbn [job_prog]; apply wp_bind.
  - eapply wp_conseq; [| eapply (wp_register_any r source fuel cx d js me w); [done | | | exact Hj | by split]].
    2, 3: intros; by eapply Hnext.
    intros b s _ Hpost. eapply wp_ret; [by apply reg_post_stable | exact Hpost |].
    intros s' Hpost' _ j Hj'. simplify_eq. by exists b.
  - assert (i = me) as -> by exact (Hjs _ _ Hj).
    eapply wp_conseq; [| eapply (wp_poll r source fuel cx d js me w); [exact Hreg | | by split_and!]].
    2: intros; by eapply Hnext.
    intros b s _ Hpost. eapply wp_ret; [by apply poll_post_stable | exact Hpost |].
    intros s' Hpost' _ j Hj'. simplify_eq. by exists b.
Qed.

(** When all threads have finished, there is a winner, and the others were late. *)
Lemma race_winner r source cx d js me w w' g i0 t0 :
  js !! i0 = Some (JReg t0) -> inv r source cx d js me w (w', g) ->
  (forall j t, js !! j = Some (JReg t) -> exists b, reg_post source cx d js w j b (w', g)) ->
  exists i t ri, js !! i = Some (JReg t) /\ g_stage g = SReady i ri /\
    (forall j b, reg_post source cx d js w j b (w', g) -> j <> i -> b = Ok false) /\
    forall b, reg_post source cx d js w i b (w', g) ->
      exists res w1, wins source js w i ri res w1 /\ b = io_map (fun _ => true) res /\
        (g_owner g <> Some i \/
         exists w2, Conc.run (RegInner.register ri cx d) w1 = (Done tt, w2) /\ g_node g = NTaken /\ view w' = view w2).
Proof.
  intros Hi0 Hinv Hposts.
  assert (forall j b, reg_post source cx d js w j b (w', g) ->
    g_stage g <> SInit /\ (winner g = Some j -> exists ri, g_stage g = SReady j ri)) as Hstage.
  { intros j b [[_ [[Hw _] Hs]] | (ri & res & w1 & _ & _ & [[E _] | (w2 & _ & E & _)])]; cbn in *; [done | |];
      (split; [congruence | by exists ri]). }
  destruct (Hposts i0 t0 Hi0) as [b0 H1]. destruct (Hstage i0 b0 H1) as [Hs _].
  assert (exists i ri, g_stage g = SReady i ri) as (i & ri & Es).
  { destruct (g_stage g) as [| i o | i ri] eqn:Es; [done | | by exists i, ri]. exfalso.
    destruct (i_winner _ _ _ _ _ _ _ _ Hinv i) as [t Ht]; [by unfold winner; cbn; rewrite Es |].
    destruct (Hposts i t Ht) as [b Hb]. destruct (Hstage i b Hb) as [_ Hw].
    destruct Hw as [ri E]; [by unfold winner; rewrite Es | done]. }
  destruct (i_winner _ _ _ _ _ _ _ _ Hinv i) as [t Ht]; [by unfold winner; cbn; rewrite Es |].
  exists i, t, ri. split_and!; [done | done | |].
  - intros j b [[-> _] | (ri' & res & w1 & _ & _ & [[E _] | (w2 & _ & E & _)])] Hne; [done | |]; cbn in E; congruence.
  - intros b [[_ [[Hw _] _]] | (ri' & res & w1 & Hwins & -> & Hcase)].
    { exfalso. apply Hw. unfold winner. cbn. by rewrite Es. }
    assert (ri' = ri) as -> by (destruct Hcase as [[E _] | (w2 & _ & E & _)]; cbn in E; congruence).
    exists res, w1. split_and!; [done | done |]. destruct Hcase as [[_ E] | (w2 & Hr & _ & _ & E & _ & Ev)]; [by left |].
    right. by exists w2.
Qed.

(** And the world is the one that the winner leaves alone, and the poll before or after it. *)
Lemma race_view r source cx d js me w w' g i h x m s res x1 o (k : waker) a :
  inv r source cx d js me w (w', g) -> g_stage g = SReady i (mkRegInner h (token_of res)) ->
  reactor_wf x -> strong x = S m -> io_dispatch x = mkARwLock 0 false s -> wakers w !! cx = Some k ->
  add_source_result x s source (os w) = (res, x1, o) ->
  wins source js w i (mkRegInner h (token_of res)) (io_map (fun _ => tt) res) (added w h x1 o) ->
  (g_owner g <> Some i \/ exists w2, Conc.run (RegInner.register (mkRegInner h (token_of res)) cx d) (added w h x1 o) = (Done tt, w2) /\
     g_node g = NTaken /\ view w' = view w2) ->
  poll_post source cx d js me w a (w', g) ->
  os w' = o /\ ((exists msg, a = Err (other msg)) \/ a = Ok None /\ notified h res d k (woken w) w').
Proof.
  intros Hinv Es Hwf Em El Hk Eadd Hw Hown Hpost. pose proof (i_owner _ _ _ _ _ _ _ _ Hinv) as Ho.
  unfold owner_inv in Ho. cbn in Ho. rewrite Es in Ho.
  assert (forall w2, view w' = view w2 -> os w' = os w2) as Hos by (unfold view; by intros w2 [= _ ? _]).
  destruct Hpost as [[Herr (En & _)] | [[-> [Hp _]] | (i' & ri & res2 & w1 & w2 & Hw2 & Hrun & Es2 & _ & En & Ev)]]; cbn in *.
  - rewrite En in Ho. destruct Ho as (_ & res2 & w1 & Hw2 & Ev). unfold wins in *. rewrite Hw in Hw2.
    injection Hw2 as <- <-. split; [by rewrite (Hos _ Ev) | by left].
  - destruct Hown as [Hne | (w2 & Hrun & _ & Ev)]; [exfalso; by destruct (g_node g) |].
    destruct (register_after w h x m s source res x1 o cx k d Hwf Em El Eadd Hk) as (w3 & Hrun' & Eo & Hn).
    rewrite Hrun in Hrun'. injection Hrun' as <-. rewrite (Hos _ Ev). split; [done | right].
    split; [done |]. by eapply notified_view.
  - rewrite Es in Es2. injection Es2 as <- <-. unfold wins in *. rewrite Hw in Hw2. injection Hw2 as <- <-.
    destruct (poll_after w h x m s source res x1 o cx k d Hwf Em El Eadd Hk) as (a' & w3 & Hrun' & Eo & Hn).
    rewrite Hrun in Hrun'. injection Hrun' as <- <-. rewrite (Hos _ Ev). split; [done |].
    destruct Hn as [-> | [-> Hn]]; [left; by eexists | right]. split; [done |]. by eapply notified_view.
Qed.

(** C8: Registration is safe under races.  Any number of threads call [register] on one
    registration, each with the reactor that [try_current] finds (the fallback, in this
    crate), while one task polls it; one action at a time, in any order.  Then nobody panics, blocks, or touches memory that is gone;
    exactly one thread registers the source, with the result that [add_source] alone has,
    and all others return [Ok(false)], even if that result is an error; and the poll either fails, or finds nothing and then
    its task has been woken or is stored in the source: the node that it left while the
    state was locked has been served. *)
Theorem registration_race r source fuel cx d js me w (k : waker) w' ts :
  registrations w !! r = Some Registration.new -> is_Some (box_alloc (allocations w) (in_use w)) -> wakers w !! cx = Some k ->
  (forall i j, js !! i = Some j -> job_ok w me i j) -> (exists i t, js !! i = Some (JReg t)) ->
  js !! me = Some JPoll ->
  rtc cstep (w, job_prog r source fuel cx d <$> js) (w', ts) -> (forall c, ~ cstep (w', ts) c) ->
  length ts = length js /\ Forall (fun p => exists a, p = Ret a) ts /\
  exists i t h x res x1 o,
    js !! i = Some (JReg t) /\ current w t = Some h /\ reactors w !! h = Some x /\
    add_source_result x (slab_of x) source (os w) = (res, x1, o) /\
    registrations w' !! r = Some (mkRegistration (Some (mkRegInner h (token_of res))) READY) /\ os w' = o /\
    (forall j t', js !! j = Some (JReg t') ->
       ts !! j = Some (Ret (RReg (if decide (j = i) then io_map (fun _ => true) res else Ok false)))) /\
    exists a, ts !! me = Some (Ret (RPoll a)) /\
      ((exists msg, a = Err (other msg)) \/ a = Ok None /\ notified h res d k (woken w) w').
Proof.
  intros Er Ha Hk Hjs (i0 & t0 & Hi0) Hme Hr Hst.
  pose proof (pool_race r source fuel cx d js me w k Er Ha Hk Hjs) as Hok.
  destruct (pool_ok_steps _ _ _ _ _ _ _ Hr Hok) as [g Hok']. cbn [fst snd] in Hok'.
  assert (length ts = length js) as Hlen.
  { apply rtc_cstep_length in Hr. cbn in Hr. by rewrite length_fmap in Hr. }
  assert (forall i j, js !! i = Some j -> exists a, ts !! i = Some (Ret a) /\
    race_post source cx d js me w i a (w', g)) as Hdone.
  { intros i j Hj. destruct (lookup_lt_is_Some_2 ts i) as [p Hp].
    { rewrite Hlen. by eapply lookup_lt_Some. }
    destruct (pool_ok_stuck _ _ _ _ _ _ _ Hok' Hst i p Hp) as [(a & -> & Hpost) | (? & _ & [])]. by exists a. }
  split_and!; [done | |].
  { apply Forall_lookup. intros i p Hp. assert (i < length js)%nat as Hi by (rewrite <- Hlen; by eapply lookup_lt_Some).
    apply lookup_lt_is_Some_2 in Hi as [j Hj]. destruct (Hdone i j Hj) as (a & Ht & _). exists a. congruence. }
  destruct Hok' as [Hinv _].
  assert (forall j t, js !! j = Some (JReg t) -> exists b, ts !! j = Some (Ret (RReg b)) /\
    reg_post source cx d js w j b (w', g)) as Hregs.
  { intros j t Hj. destruct (Hdone j _ Hj) as (a & Ht & Hpost). destruct (Hpost _ Hj) as (b & -> & Hb). by exists b. }
  destruct (race_winner r source cx d js me w w' g i0 t0 Hi0 Hinv) as (i & t & ri & Es & Hi & Hlate & Hwin).
  { intros j t Hj. destruct (Hregs j t Hj) as (b & _ & Hb). by exists b. }
  destruct (Hregs i t Es) as (b & Hts & Hb). destruct (Hwin b Hb) as (res' & w1 & Hw & -> & Hown).
  destruct (job_wins source js me w i t Es (Hjs _ _ Es)) as (h & x & m & s & Hc & E & Em & El & Hwf & Hwins).
  destruct (add_source_result x s source (os w)) as [[res x1] o] eqn:Eadd.
  specialize (Hwins _ _ _ eq_refl). unfold wins in Hw, Hwins. rewrite Hwins in Hw. injection Hw as <- <- <-.
  destruct (Hdone me _ Hme) as (a & Hta & Hpost). destruct (Hpost _ Hme) as (b & -> & Hb').
  destruct (race_view r source cx d js me w w' g i h x m s res x1 o k b Hinv Hi Hwf Em El Hk Eadd Hwins Hown Hb') as [Eo Hpoll].
  exists i, t, h, x, res, x1, o. split_and!; try done.
  - by unfold slab_of; rewrite El.
  - destruct (i_reg _ _ _ _ _ _ _ _ Hinv) as (reg & E1 & E2). unfold reg_inv in E2. cbn in *. rewrite Hi in E2. by rewrite E1, E2.
  - intros j t' Hj. case_decide as Hd; [subst j; rewrite Hts; by destruct res |].
    destruct (Hregs j t' Hj) as (b' & -> & Hb2). by rewrite (Hlate j b' Hb2 Hd).
  - by exists b.
Qed.
End after.

(** ** A run: the poll comes while thread 0 registers, thread 1 comes late *)
Section witness.
Import Toy Demo.

Definition world_race : World := world_unregistered.

Definition race_jobs : list job := [JReg 0; JReg 1; JPoll].
Definition race_schedule : list nat := ([0; 0; 0; 0; 2; 2; 2; 2; 1] ++ replicate 21 0)%nat.
Definition race_pool : list (prg result) := job_prog 0%nat (7 : Evented) 0 500 Read <$> race_jobs.

Lemma race_jobs_ok i j : race_jobs !! i = Some j -> job_ok world_race 2 i j.
Proof.
  intros Hj. assert (reactor_wf (reactor_of world_race)) as Hwf by exact reactor_wf_x0.
  destruct i as [| [| [| i]]]; cbn in Hj; simplify_eq; cbn [job_ok]; [| | done];
    (split; [done |]); exists 0%nat, (reactor_of world_race), 0%nat, (slab_at world_race); by split_and!.
Qed.

Lemma registration_race_witness :
  exists w' ts, exec race_schedule (world_race, race_pool) = Some (w', ts) /\
    ts = [Ret (RReg (Ok true)); Ret (RReg (Ok false)); Ret (RPoll (Ok None))] /\
    exists i t h x res x1 o,
      race_jobs !! i = Some (JReg t) /\
      add_source_result x (slab_of x) (7 : Evented) (os world_race) = (res, x1, o) /\ os w' = o /\
      exists a, ts !! 2%nat = Some (Ret (RPoll a)) /\
        ((exists msg, a = Err (other msg)) \/ a = Ok None /\ notified h res Read 51%nat (woken world_race) w').
Proof.
  destruct (exec race_schedule (world_race, race_pool)) as [[w' ts] |] eqn:E; [| vm_compute in E; discriminate].
  exists w', ts. split; [reflexivity |].
  assert (ts = [Ret (RReg (Ok true)); Ret (RReg (Ok false)); Ret (RPoll (Ok None))]) as Ets.
  { vm_compute in E. by injection E as <- <-. }
  split; [exact Ets |].
  destruct (@registration_race toy_deps toy_deps_laws 0%nat 7 0 500 Read race_jobs 2 world_race 51%nat w' ts)
    as (_ & _ & i & t & h & x & res & x1 & o & H1 & _ & _ & H2 & _ & H3 & _ & H4).
  - reflexivity.
  - by exists 8.
  - reflexivity.
  - exact race_jobs_ok.
  - exists 0%nat, 0%nat. reflexivity.
  - reflexivity.
  - exact (exec_sound _ _ _ E).
  - rewrite Ets. apply finished_stuck. repeat constructor; by eexists.
  - exists i, t, h, x, res, x1, o. split; [exact H1 |]. split; [exact H2 |]. split; [exact H3 |]. exact H4.
Defined.
End witness.
End RegistrationRace.
