(* ===== verification/BackgroundSpec.v ===== *)
(** * The background thread: shutdown, and the fallback reactor

    [shutdown_now] and the thread's [run] bring the reactor to an end, and the waker
    protocol between [Shutdown::poll] and the end of [run] loses no wakeup; [fallback]
    gives every thread the same reactor, also when threads race to create it. *)
From S2P Require Import Prelude Conc RelyGuar Deps Toy World Reactor Background Registration PollEvented.
From S2P Require Import ReactorProof RegistrationProof Demo ReactorSpec.

Module BackgroundSpec.
Import Background ReactorSpec.
#[local] Abbreviation run := Conc.run.

Section shutdown.
Context `{DepsLaws}.

Lemma run_on_shared {A B} sid (f : Shared -> A * Shared) (c : A -> prg B) w sh :
  shareds w !! sid = Some sh ->
  run (bind (on_shared sid f) c) w =
  run (c (f sh).1) (set_shareds (<[sid := (f sh).2]> (shareds w)) w).
Proof.
  intros E. unfold on_shared. rewrite run_action, E. by destruct (f sh).
Qed.

Lemma run_on_shared_get {A B} sid (f : Shared -> A * Shared) (c : A -> prg B) w sh :
  shareds w !! sid = Some sh -> (f sh).2 = sh ->
  run (bind (on_shared sid f) c) w = run (c (f sh).1) w.
Proof.
  intros E Ef. rewrite (run_on_shared _ _ _ _ _ E), Ef. destruct w. unfold set_shareds. cbn in *.
  by rewrite insert_id.
Qed.

(** [Handle::wakeup] of a live reactor. *)
Lemma run_wakeup w rid x m :
  reactors w !! rid = Some x -> strong x = S m ->
  (set_readiness (wakeup x) Ready_readable (os w)).1 = Ok tt ->
  run (Handle.wakeup (Some rid)) w = (Done tt, set_os (set_readiness (wakeup x) Ready_readable (os w)).2 w).
Proof.
  intros E Em Eos. cbn [Handle.wakeup Handle.as_priv]. unfold HandlePriv.wakeup_handle.
  erewrite (run_with_inner rid _ _ w x m tt); [| done | done | | |].
  2: { unfold Inner.get_wakeup. erewrite run_on_reactor_get; [| apply set_reactor_lookup | done].
       erewrite run_os_call by apply surjective_pairing. change (os (set_reactor rid _ w)) with (os w).
       change (wakeup (with_strong _ x)) with (wakeup x). rewrite Eos. reflexivity. }
  2: { apply lookup_insert_eq. }
  2: { done. }
  f_equal. rewrite with_strong_twice, <- Em, with_strong_id. destruct w.
  unfold set_reactor, set_reactors, set_os. cbn in *. rewrite insert_insert_eq. by rewrite insert_id.
Qed.

Lemma run_announce w sid sh :
  shareds w !! sid = Some sh ->
  run (announce sid) w =
  (Done tt, set_woken (woken w ++ opt_list (aw_waker (shutdown_task sh)))
     (set_shareds (<[sid := mkShared SHUTDOWN (aw_take (shutdown_task sh)).2]> (shareds w)) w)).
Proof.
  intros E. unfold announce, shutdown_store, shutdown_task_wake.
  rewrite (run_on_shared _ _ _ w sh E). cbn [fst snd]. erewrite run_on_shared by apply lookup_insert_eq.
  cbn [shutdown shutdown_task]. rewrite (surjective_pairing (aw_take _)). cbn [fst snd].
  rewrite <- (run_ret_bind (wake_opt _)), run_wake_opt. cbn [run]. f_equal.
  unfold set_woken, set_shareds. cbn. by rewrite insert_insert_eq.
Qed.

(** Shutting a background reactor down.  The first [shutdown_now] requests it and
    interrupts the event loop, later ones do nothing.  At the top of its loop the
    thread then drops the reactor, which wakes every task that waits for I/O, reports
    the end and wakes the task that waits for it; after that [Shutdown] is ready. *)
Theorem shutdown_stops_reactor fuel n w rid x r s sid sh :
  reactors w !! rid = Some x -> strong x = 1%nat -> io_dispatch x = mkARwLock r false s ->
  shareds w !! sid = Some sh -> shutdown sh < SHUTDOWN_NOW ->
  (set_readiness (wakeup x) Ready_readable (os w)).1 = Ok tt ->
  let bg := mkBgInner (Reactor.handle rid) sid in
  exists w1 w2,
    run (shutdown_now (S fuel) bg) w = (Done tt, w1) /\
    os w1 = (set_readiness (wakeup x) Ready_readable (os w)).2 /\
    run (shutdown_now (S fuel) bg) w1 = (Done tt, w1) /\
    run (Background.run (S n) rid sid) w1 = (Done tt, w2) /\
    reactors w2 = delete rid (reactors w) /\
    (forall key i k, slab_get key s = Some i -> aw_waker (reader i) = Some k \/ aw_waker (writer i) = Some k ->
       k ∈ woken w2) /\
    (forall k, aw_waker (shutdown_task sh) = Some k -> k ∈ woken w2) /\
    (forall cx k, wakers w2 !! cx = Some k ->
       (run (shutdown_poll bg cx) w2).1 = Done (Ready (inl tt))).
Proof.
  intros E Es El Esh Hst Eos bg. set (sh1 := mkShared SHUTDOWN_NOW (shutdown_task sh)).
  set (wn := set_shareds (<[sid := sh1]> (shareds w)) w).
  set (w1 := set_os (set_readiness (wakeup x) Ready_readable (os w)).2 wn).
  assert (shareds w1 !! sid = Some sh1) as Esh1 by apply lookup_insert_eq.
  set (w1' := set_reactors (delete rid (reactors w1)) (set_woken (woken w1 ++ all_waiting (slab_iter s).*1 s) w1)).
  eexists w1, _. split_and!.
  - unfold shutdown_now, shutdown_load. rewrite (run_on_shared_get _ _ _ w sh) by done. cbn [fst shutdown_now_loop].
    rewrite (proj2 (Z.leb_gt _ _)) by done. unfold shutdown_compare_and_swap.
    rewrite (run_on_shared _ _ _ w sh) by done. cbn [fst snd bg_shared bg]. rewrite Z.eqb_refl.
    by apply (run_wakeup wn rid x 0).
  - done.
  - unfold shutdown_now, shutdown_load. rewrite (run_on_shared_get _ _ _ w1 sh1) by done. by cbn.
  - cbn [Background.run]. unfold shutdown_load. rewrite (run_on_shared_get _ _ _ w1 sh1) by done.
    cbn [fst]. change (shutdown sh1 =? SHUTDOWN_NOW) with true. cbv iota. unfold run_exit.
    erewrite run_bind_done by by apply (run_arc_drop_last w1 rid x r s). by apply (run_announce w1' sid sh1).
  - done.
  - intros key i k Hi Hk. cbn. apply elem_of_app. left. apply elem_of_app. right. by eapply all_waiting_elem.
  - intros k Hk. cbn. apply elem_of_app. right. change (shutdown_task sh1) with (shutdown_task sh). rewrite Hk.
    by apply list_elem_of_singleton.
  - intros cx k Hk. unfold shutdown_poll. erewrite run_deref_waker by exact Hk. unfold shutdown_task_register.
    erewrite run_on_shared by apply lookup_insert_eq. cbn [fst snd]. unfold is_shutdown.
    rewrite run_bind_assoc. unfold shutdown_load.
    erewrite run_on_shared_get; [| apply lookup_insert_eq | done]. done.
Qed.
End shutdown.

(** ** The fallback reactor, when threads race for it

    The ghost state says which thread owns a reactor that it has just created. *)
Section fallback.
Context `{DepsLaws}.
Context (reactors0 : gmap ReactorId ReactorInner) (N : nat).

Abbreviation ghost := (gmap ReactorId nat).

Record fb_inv (s : World * ghost) : Prop := {
  fi_fresh rid j : s.2 !! rid = Some j -> (rid < next_reactor s.1)%nat /\ (j < N)%nat;
  fi_known rid : is_Some (reactors s.1 !! rid) ->
    is_Some (reactors0 !! rid) \/ is_Some (s.2 !! rid) \/ HANDLE_FALLBACK s.1 = HandlePriv.into_usize rid;
}.

Record fb_act (i : nat) (s s' : World * ghost) : Prop := {
  fa_own j rid : j <> i -> s'.2 !! rid = Some j <-> s.2 !! rid = Some j;
  fa_reactor j rid : j <> i -> s.2 !! rid = Some j -> reactors s'.1 !! rid = reactors s.1 !! rid;
  fa_fallback : HANDLE_FALLBACK s.1 <> Zero -> HANDLE_FALLBACK s'.1 = HANDLE_FALLBACK s.1;
}.

Definition fb_blk (i : nat) (b : bool) (s : World * ghost) : Prop := False.

(** What thread [i] owns: nothing, or one reactor in a known state; and what it knows of
    the fallback: nothing, or that it is set, or its value. *)
Inductive known := Unknown | Set_ | Is (h : HandlePriv).
Definition knows (c : known) (v : FallbackWord) : Prop :=
  match c with Unknown => True | Set_ => v <> Zero | Is h => v = Bits h end.

Definition owned (i : nat) (o : option (ReactorId * ReactorInner)) (c : known) (s : World * ghost) : Prop :=
  (forall rid, s.2 !! rid = Some i <-> exists x, o = Some (rid, x)) /\
  (forall rid x, o = Some (rid, x) -> reactors s.1 !! rid = Some x) /\
  knows c (HANDLE_FALLBACK s.1).

Lemma owned_stable i o c : stable fb_inv fb_act i (owned i o c).
Proof.
  intros s s' (O1 & O2 & O3) _ (j & Hj & Ha). split_and!.
  - intros rid. rewrite <- O1. by apply (fa_own _ _ _ Ha).
  - intros rid x Ho. rewrite (fa_reactor _ _ _ Ha i rid); [by apply O2 | done |]. apply O1. by exists x.
  - destruct c as [| | v]; cbn in *; [done | |]; rewrite (fa_fallback _ _ _ Ha); try done. by rewrite O3.
Qed.

#[local] Abbreviation WP := (wp fb_inv fb_act fb_blk).

(** An action that touches neither the reactors nor the fallback. *)
Lemma fb_frame {A B} i (f : World -> A * World) (k : A -> prg B) Q o c s :
  owned i o c s ->
  (forall w, reactors (f w).2 = reactors w /\ next_reactor (f w).2 = next_reactor w /\
     HANDLE_FALLBACK (f w).2 = HANDLE_FALLBACK w) ->
  (forall a s', owned i o c s' -> WP i (k a) Q s') ->
  WP i (bind (atom f) k) Q s.
Proof.
  intros Ho Hf Hk. eapply wp_atom; [apply owned_stable | exact Ho |]. intros w g Ho1 Hi.
  destruct (Hf w) as (E1 & E2 & E3). exists g. split_and!.
  - destruct Hi as [I1 I3]. constructor; cbn in *; rewrite ?E1, ?E2, ?E3; done.
  - constructor; cbn; [done | by rewrite E1 | by rewrite E3].
  - apply Hk. destruct Ho1 as (O1 & O2 & O3). split_and!; cbn in *; rewrite ?E1, ?E3; done.
Qed.

Lemma fb_os_call {A B} i (f : Os -> A * Os) (k : A -> prg B) Q o c s :
  owned i o c s -> (forall a s', owned i o c s' -> WP i (k a) Q s') -> WP i (bind (os_call f) k) Q s.
Proof.
  intros Ho Hk. unfold os_call. eapply fb_frame; [exact Ho | | done]. intros w. by destruct (f (os w)).
Qed.

(** An access of a thread to the reactor that it owns. *)
Lemma fb_on_reactor {A B} i rid x (f : ReactorInner -> step_res ReactorInner A) (k : A -> prg B) Q c s a x' :
  owned i (Some (rid, x)) c s -> f x = Next a x' ->
  (forall s', owned i (Some (rid, x')) c s' -> WP i (k a) Q s') ->
  WP i (bind (on_reactor rid f) k) Q s.
Proof.
  intros Ho Ef Hk. unfold on_reactor. eapply wp_action; [apply owned_stable | exact Ho |].
  intros w g (O1 & O2 & O3) [I1 I3]. cbn in *. pose proof (O2 rid x eq_refl) as Ex. rewrite Ex, Ef.
  assert (g !! rid = Some i) as Eg by (apply O1; by exists x).
  exists g. split_and!; [constructor; cbn; try done | constructor; cbn; try done | apply Hk; split_and!; cbn; try done].
  - intros rid'. rewrite lookup_insert_is_Some'. intros [<- | Hr]; [right; left; by eexists | by apply I3].
  - intros j rid' Hj Hg. rewrite lookup_insert_ne; [done |]. intros ->. congruence.
  - intros rid'. rewrite O1. naive_solver.
  - intros rid' y [= <- <-]. apply lookup_insert_eq.
Qed.

(** The state of a reactor that nobody has used yet. *)
Definition pristine (x : ReactorInner) : Prop :=
  strong x = 1%nat /\ io_dispatch x = mkARwLock 0 false (slab_with_capacity 1).

Lemma slab_iter_new : slab_iter (slab_with_capacity 1 : slab ScheduledIo) = [].
Proof.
  destruct (slab_iter _) as [| [key i] l] eqn:E; [done |].
  assert ((key, i) ∈ slab_iter (slab_with_capacity 1)) as Hin by (rewrite E; by left).
  apply slab_iter_get in Hin. by rewrite slab_new_get in Hin.
Qed.

(** Dropping the reactor again. *)
Lemma fb_arc_drop {B} i rid x (k : unit -> prg B) Q c s :
  owned i (Some (rid, x)) c s -> pristine x ->
  (forall s', owned i None c s' -> WP i (k tt) Q s') ->
  WP i (bind (Inner.arc_drop rid) k) Q s.
Proof.
  intros Ho [Es El] Hk. unfold Inner.arc_drop. wp_assoc.
  eapply fb_on_reactor; [exact Ho | done |]. intros s1 Ho1. rewrite Es. cbn [pred].
  unfold Inner.drop, Inner.with_read, io_dispatch_read, io_dispatch_drop_read, Inner.io_dispatch_keys.
  wp_assoc. eapply fb_on_reactor; [exact Ho1 | cbn; by rewrite El |]. intros s2 Ho2.
  wp_assoc. eapply fb_on_reactor; [exact Ho2 | done |]. intros s3 Ho3.
  unfold slab_of. cbn [a_value io_dispatch with_dispatch]. rewrite slab_iter_new. cbn [fmap list_fmap Inner.wake_all bind].
  wp_assoc. eapply fb_on_reactor; [exact Ho3 | done |]. intros s4 Ho4. cbn [bind].
  eapply wp_atom; [apply owned_stable | exact Ho4 |]. intros w g (O1 & O2 & O3) [I1 I3]. cbn in *.
  assert (g !! rid = Some i) as Eg by (apply O1; by eexists).
  exists (delete rid g). split_and!; [constructor; cbn; try done | constructor; cbn; try done | apply Hk; split_and!; cbn; try done].
  - intros rid' j Hj. apply lookup_delete_Some in Hj as [_ Hj]. by eapply I1.
  - intros rid' [y Hy]. apply lookup_delete_Some in Hy as [Hne Hy]. rewrite lookup_delete_ne by done.
    apply I3. by exists y.
  - intros j rid' Hj. rewrite lookup_delete_Some. split; [by intros [_ ?] |]. intros Hg. split; [congruence | done].
  - intros j rid' Hj Hg. apply lookup_delete_ne. congruence.
  - intros rid'. rewrite lookup_delete_Some, O1. naive_solver.
Qed.

Lemma fb_load {B} i (k : FallbackWord -> prg B) Q o c s :
  owned i o c s ->
  (forall s', c <> Set_ -> owned i o c s' -> WP i (k Zero) Q s') ->
  (forall h s', owned i o (Is h) s' -> WP i (k (Bits h)) Q s') ->
  WP i (bind HandlePriv.load_fallback k) Q s.
Proof.
  intros Ho H0' H1. unfold HandlePriv.load_fallback. eapply wp_atom; [apply owned_stable | exact Ho |].
  intros w g Ho1 Hi. exists g. split_and!; [done | by constructor |]. cbn [fst snd].
  destruct Ho1 as (O1 & O2 & O3). cbn in O1, O2, O3. destruct (HANDLE_FALLBACK w) as [| h] eqn:E.
  - apply H0'; [by intros -> |]. split_and!; cbn; [done | done | by rewrite E].
  - apply H1. by split_and!.
Qed.

(** A new reactor, owned by the thread that made it. *)
Lemma fb_new {B} i (k : io_result ReactorId -> prg B) Q c s :
  owned i None c s -> (i < N)%nat ->
  (forall e s', owned i None c s' -> WP i (k (Err e)) Q s') ->
  (forall rid x s', pristine x -> owned i (Some (rid, x)) c s' -> WP i (k (Ok rid)) Q s') ->
  WP i (bind Reactor.new k) Q s.
Proof.
  intros Ho Hi HE HO. unfold Reactor.new. wp_assoc. eapply fb_os_call; [exact Ho |]. intros [io | e] s1 Ho1; [| by apply HE].
  wp_assoc. eapply fb_os_call; [exact Ho1 |]. intros pair s2 Ho2.
  wp_assoc. eapply fb_os_call; [exact Ho2 |]. intros [[] | e] s3 Ho3; [| by apply HE].
  wp_assoc. unfold Reactor.alloc_inner. eapply wp_atom; [apply owned_stable | exact Ho3 |].
  intros w g (O1 & O2 & O3) [I1 I3]. cbn [fst snd] in *. set (rid := next_reactor w).
  set (x := mkReactorInner io 0 (mkARwLock 0 false (slab_with_capacity 1)) pair.2 1).
  assert (g !! rid = None) as Hnew.
  { destruct (g !! rid) as [j |] eqn:E; [| done]. destruct (I1 rid j E) as [Hlt _]. unfold rid in Hlt. lia. }
  exists (<[rid := i]> g). split_and!.
  - constructor; cbn.
    + intros rid' j [[<- <-] | [_ Hj]]%lookup_insert_Some; [unfold rid; lia |]. apply I1 in Hj. lia.
    + intros rid'. rewrite !lookup_insert_is_Some'. intros [-> | Hr]; [by right; left; left |].
      destruct (I3 _ Hr) as [|[|]]; auto.
  - constructor; cbn; [| | done].
    + intros j rid' Hj. rewrite lookup_insert_Some. split; [by intros [[_ ?] | [_ ?]] |]. intros Hg. right. split; [congruence | done].
    + intros j rid' Hj Hg. apply lookup_insert_ne. congruence.
  - cbn [bind]. apply (HO rid x); [done |]. split_and!; cbn; [| | done].
    + intros rid'. rewrite lookup_insert_Some, O1. naive_solver.
    + intros rid' y [= <- <-]. apply lookup_insert_eq.
Qed.

Lemma fb_set_fallback {B} i rid x (k : unit + unit -> prg B) Q s :
  owned i (Some (rid, x)) Unknown s ->
  (forall s', owned i (Some (rid, x)) (Is rid) s' -> WP i (k (inl tt)) Q s') ->
  (forall s', owned i (Some (rid, x)) Set_ s' -> WP i (k (inr tt)) Q s') ->
  WP i (bind (HandlePriv.set_fallback rid) k) Q s.
Proof.
  intros Ho HL HR. unfold HandlePriv.set_fallback. eapply wp_atom; [apply owned_stable | exact Ho |].
  intros w g (O1 & O2 & O3) [I1 I3]. cbn in I1, I3, O1, O2. exists g.
  destruct (HANDLE_FALLBACK w) as [| h] eqn:E; cbn [is_zero fst snd].
  - split_and!.
    + constructor; cbn; [done |]. intros rid' Hr. destruct (I3 _ Hr) as [|[|]]; [by left | by right; left | discriminate].
    + constructor; cbn; [done | done | by rewrite E].
    + apply HL. by split_and!.
  - split_and!; [constructor; cbn; [done |]; by rewrite E | by constructor |]. apply HR. split_and!; cbn; [done | done | by rewrite E].
Qed.

(** The reactor thread takes the reactor over, or the reactor is dropped. *)
Lemma fb_background {B} i rid x (k : io_result Background -> prg B) Q s :
  owned i (Some (rid, x)) (Is rid) s -> pristine x ->
  (forall r s', owned i None (Is rid) s' -> WP i (k r) Q s') ->
  WP i (bind (Background.new rid) k) Q s.
Proof.
  intros Ho Hx Hk. unfold Background.new, alloc_shared. cbv zeta. wp_assoc.
  eapply fb_frame; [exact Ho | done |]. intros sid s1 Ho1. unfold spawn. wp_assoc.
  eapply fb_os_call; [exact Ho1 |]. intros [[] | e] s2 Ho2; wp_assoc.
  - eapply wp_atom; [apply owned_stable | exact Ho2 |]. intros w g (O1 & O2 & O3) [I1 I3].
    cbn in I1, I3, O1, O2, O3. assert (g !! rid = Some i) as Eg by (apply O1; by eexists).
    exists (delete rid g). cbn [fst snd bind]. split_and!.
    + constructor; cbn; [|].
      * intros rid' j Hj. apply lookup_delete_Some in Hj as [_ Hj]. by eapply I1.
      * intros rid' Hr. destruct (decide (rid' = rid)) as [-> | Hne]; [right; right; apply O3 |].
        rewrite lookup_delete_ne by done. by apply I3.
    + constructor; cbn; [| done | done]. intros j rid' Hj. rewrite lookup_delete_Some.
      split; [by intros [_ ?] |]. intros Hg. split; [congruence | done].
    + apply Hk. split_and!; cbn; [| done | done ..]. intros rid'. rewrite lookup_delete_Some, O1. naive_solver.
  - eapply fb_arc_drop; [exact Ho2 | done |]. intros s3 Ho3. cbn [bind]. by apply Hk.
Qed.

Definition fb_post (i : nat) (r : io_result HandlePriv) (s : World * ghost) : Prop :=
  owned i None Unknown s /\ forall h, r = Ok h -> HANDLE_FALLBACK s.1 = HandlePriv.into_usize h.

Lemma fb_ret i h s : owned i None (Is h) s -> WP i (Ret (Ok h)) (fb_post i) s.
Proof.
  intros Ho. eapply wp_ret; [apply owned_stable | exact Ho |]. intros s' (O1 & O2 & O3) _.
  split; [by split_and! |]. intros h' [= <-]. apply O3.
Qed.

Lemma fb_fallback i s : owned i None Unknown s -> (i < N)%nat -> WP i Fallback.fallback (fb_post i) s.
Proof.
  intros Ho Hi. unfold Fallback.fallback. eapply fb_load; [exact Ho | |].
  2: { intros h s1 Ho1. by apply fb_ret. }
  intros s1 _ Ho1. cbn [is_zero]. eapply fb_new; [exact Ho1 | done | |].
  - intros e s2 Ho2. eapply wp_ret; [apply owned_stable | exact Ho2 |]. intros s' Ho' _. by split.
  - intros rid x s2 Hx Ho2. eapply fb_set_fallback; [exact Ho2 | |].
    + intros s3 Ho3. eapply fb_background; [exact Ho3 | done |]. intros r s4 Ho4.
      destruct r; cbn [bind]; [unfold forget; cbn [bind] |]; by apply fb_ret.
    + intros s3 Ho3. eapply fb_load; [exact Ho3 | done |]. intros h s4 Ho4.
      eapply fb_arc_drop; [exact Ho4 | done |]. intros s5 Ho5. by apply fb_ret.
Qed.
End fallback.

Section fallback_theorem.
Context `{DepsLaws}.

(** C7: All threads get the same fallback reactor, also when they race to create it: no
    interleaving panics or blocks, all handles that are returned are equal and are the
    one in the global, and every other reactor that was created on the way is gone. *)
Theorem fallback_agrees n w w' ts :
  rtc cstep (w, replicate n Fallback.fallback) (w', ts) -> (forall c, ~ cstep (w', ts) c) ->
  length ts = n /\ Forall (fun p => exists r, p = Ret r) ts /\
  (forall i h, ts !! i = Some (Ret (Ok h)) -> HANDLE_FALLBACK w' = HandlePriv.into_usize h) /\
  (forall i j h h', ts !! i = Some (Ret (Ok h)) -> ts !! j = Some (Ret (Ok h')) -> h = h') /\
  (forall rid, is_Some (reactors w' !! rid) ->
     is_Some (reactors w !! rid) \/ HANDLE_FALLBACK w' = HandlePriv.into_usize rid).
Proof.
  intros Hr Hst.
  assert (pool_ok (fb_inv (reactors w) n) fb_act fb_blk fb_post (replicate n Fallback.fallback) (w, ∅)) as Hok.
  { split.
    - constructor; cbn; [intros rid j Hj; by rewrite lookup_empty in Hj | by left].
    - intros i p Hp. apply lookup_replicate in Hp as [-> Hi]. apply fb_fallback; [| done].
      split_and!; [| done | done]. intros rid. cbn. rewrite lookup_empty. naive_solver. }
  destruct (pool_ok_steps _ _ _ _ _ _ _ Hr Hok) as [g Hok']. cbn [fst snd] in Hok'.
  assert (length ts = n) as Hlen.
  { apply rtc_cstep_length in Hr. cbn in Hr. by rewrite length_replicate in Hr. }
  assert (forall i p, ts !! i = Some p -> exists r, p = Ret r /\ fb_post i r (w', g)) as Hdone.
  { intros i p Hp. by destruct (pool_ok_stuck _ _ _ _ _ _ _ Hok' Hst i p Hp) as [? | (? & _ & [])]. }
  assert (forall i h, ts !! i = Some (Ret (Ok h)) -> HANDLE_FALLBACK w' = HandlePriv.into_usize h) as Hval.
  { intros i h Hi. destruct (Hdone i _ Hi) as (r & [= <-] & _ & Hv). by apply Hv. }
  split_and!; [done | | done | |].
  - apply Forall_lookup. intros i p Hp. destruct (Hdone i p Hp) as (r & -> & _). by exists r.
  - intros i j h h' Hi Hj. pose proof (Hval i h Hi) as Ev. rewrite (Hval j h' Hj) in Ev. by injection Ev.
  - intros rid Hrid. destruct Hok' as [Hi _].
    destruct (fi_known _ _ _ Hi rid Hrid) as [| [[i Hg] |]]; [by left | | by right]. exfalso. cbn in Hg.
    destruct (fi_fresh _ _ _ Hi rid i Hg) as [_ Hlt]. rewrite <- Hlen in Hlt.
    apply lookup_lt_is_Some_2 in Hlt as [p Hp]. destruct (Hdone i p Hp) as (r & _ & (O1 & _) & _).
    apply O1 in Hg as [x Hx]. done.
Qed.
End fallback_theorem.

(** ** Witnesses *)
Section witnesses.
Import Toy Demo.

(** A reactor thread that shares record 0 with its handle; task 61 waits for its end, task
    51 for I/O. *)
Definition world_bg : World := Eval vm_compute in
  set_shareds {[0%nat := mkShared 0 (aw_register 61%nat aw_new)]} world_waiting.

Lemma shutdown_stops_reactor_witness :
  exists w1 w2,
    run (shutdown_now 1 (mkBgInner (Reactor.handle 0%nat) 0%nat)) world_bg = (Done tt, w1) /\
    run (Background.run 1 0%nat 0%nat) w1 = (Done tt, w2) /\
    reactors w2 = delete 0%nat (reactors world_bg) /\ 51%nat ∈ woken w2 /\ 61%nat ∈ woken w2.
Proof.
  destruct (shutdown_stops_reactor 0 0 world_bg 0%nat (reactor_of world_bg) 0 (slab_at world_bg) 0%nat
    (mkShared 0 (aw_register 61%nat aw_new)) eq_refl eq_refl eq_refl eq_refl ltac:(done) eq_refl)
    as (w1 & w2 & E1 & _ & _ & E2 & E3 & E4 & E5 & _).
  exists w1, w2. split; [exact E1 |]. split; [exact E2 |]. split; [exact E3 |].
  split; [exact (E4 0 (io_at 0 world_bg) 51%nat eq_refl (or_introl eq_refl)) | exact (E5 61%nat eq_refl)].
Defined.

(** Two threads see no fallback and create a reactor each; thread 0 is faster. *)
Definition race : list nat := [0; 1; 0; 0; 0; 0; 1; 1; 1; 1; 0; 1; 0; 0; 0; 1; 1; 1; 1; 1; 1]%nat.

Lemma fallback_agrees_witness :
  exists w' ts, exec race (empty_world, replicate 2 Fallback.fallback) = Some (w', ts) /\
    ts = [Ret (Ok 0%nat); Ret (Ok 0%nat)] /\ HANDLE_FALLBACK w' = HandlePriv.into_usize 0%nat /\
    forall rid, is_Some (reactors w' !! rid) ->
      is_Some (reactors empty_world !! rid) \/ HANDLE_FALLBACK w' = HandlePriv.into_usize rid.
Proof.
  destruct (exec race (empty_world, replicate 2 Fallback.fallback)) as [[w' ts] |] eqn:E;
    [| vm_compute in E; discriminate].
  exists w', ts. split; [reflexivity |].
  assert (ts = [Ret (Ok 0%nat); Ret (Ok 0%nat)] /\ HANDLE_FALLBACK w' = HandlePriv.into_usize 0%nat) as [Ets Ef].
  { vm_compute in E. injection E as <- <-. done. }
  split; [exact Ets |]. split; [exact Ef |].
  destruct (fallback_agrees 2 empty_world w' ts (exec_sound _ _ _ E)) as (_ & _ & _ & _ & H1).
  - rewrite Ets. apply finished_stuck. repeat constructor; by eexists.
  - exact H1.
Defined.
End witnesses.
End BackgroundSpec.
