(* ===== verification/FirstUse.v ===== *)
(** * The first use of a resource in a program

    Nothing in the crate sets [CURRENT_REACTOR], so that the first resource that is used
    finds no reactor: [try_current] makes one, starts its thread and keeps its handle as the
    fallback.  After that every thread is where the theorems of RegistrationSpec.v,
    RegistrationRace.v and Lifecycle.v start. *)
From S2P Require Import Prelude Conc Deps Toy World Reactor Background Registration PollEvented.
From S2P Require Import ReactorProof RegistrationProof Resource Demo ReactorSpec RegistrationSpec BackgroundSpec.

Module FirstUse.
Import ReactorSpec RegistrationSpec BackgroundSpec.

Section spec.
Context `{DepsLaws}.

(** The calls of [Reactor::new]: the queue and the wakeup handle. *)
Definition make_reactor (o : Os) : io_result (PollId * SetReadiness) * Os :=
  match Poll_new o with
  | (Err e, o1) => (Err e, o1)
  | (Ok io, o1) =>
      let '((source, wakeup), o2) := Registration_new2 o1 in
      let '(r, o3) := Poll_register io source TOKEN_WAKEUP Ready_readable PollOpt_level o2 in
      (io_map (fun _ => (io, wakeup)) r, o3)
  end.

Definition new_inner (io : PollId) (wakeup : SetReadiness) : ReactorInner :=
  mkReactorInner io 0 (mkARwLock 0 false (slab_with_capacity 1)) wakeup 1.

Definition with_new (io : PollId) (wakeup : SetReadiness) (w : World) : World :=
  set_next_reactor (S (next_reactor w)) (set_reactor (next_reactor w) (new_inner io wakeup) w).

Lemma run_reactor_new {B} (c : io_result ReactorId -> prg B) w :
  run (bind Reactor.new c) w =
  match make_reactor (os w) with
  | (Err e, o) => run (c (Err e)) (set_os o w)
  | (Ok (io, wakeup), o) => run (c (Ok (next_reactor w))) (with_new io wakeup (set_os o w))
  end.
Proof.
  unfold Reactor.new, make_reactor. rewrite run_bind_assoc.
  destruct (Poll_new (os w)) as [[io | e] o1] eqn:E1; erewrite run_os_call by exact E1; [cbv beta iota | done].
  rewrite run_bind_assoc. destruct (Registration_new2 o1) as [[source wakeup] o2] eqn:E2.
  erewrite run_os_call by exact E2. cbv beta iota. rewrite run_bind_assoc.
  destruct (Poll_register io source TOKEN_WAKEUP Ready_readable PollOpt_level o2) as [r o3] eqn:E3.
  erewrite run_os_call by exact E3. destruct r as [[] | e]; cbn [io_map]; [cbv beta iota | done].
  rewrite run_bind_assoc. unfold Reactor.alloc_inner. by rewrite run_atom.
Qed.

Lemma reactor_wf_new io wakeup : reactor_wf (new_inner io wakeup).
Proof.
  constructor; unfold slab_of; cbn.
  - by rewrite slab_new_high.
  - apply guard_wf_0.
  - intros key i Hi. by rewrite slab_new_get in Hi.
Qed.

(** The world after [fallback] has made a reactor, and started its thread or not. *)
Definition sid_of (w : World) : SharedId := fresh (dom (shareds w)).
Definition fallback_started (io : PollId) (wakeup : SetReadiness) (o : Os) (w : World) : World :=
  set_spawned (spawned w ++ [(next_reactor w, sid_of w)]) (set_os o
    (set_shareds (<[sid_of w := mkShared 0 aw_new]> (shareds w))
      (set_fallback_handle (Bits (next_reactor w)) (with_new io wakeup w)))).
Definition fallback_dead (io : PollId) (wakeup : SetReadiness) (o : Os) (w : World) : World :=
  set_reactors (delete (next_reactor w) (reactors w)) (set_os o
    (set_shareds (<[sid_of w := mkShared 0 aw_new]> (shareds w))
      (set_fallback_handle (Bits (next_reactor w)) (with_new io wakeup w)))).

Lemma run_try_current_first t w :
  CURRENT_REACTOR w !! t = None -> HANDLE_FALLBACK w = Zero ->
  run (Fallback.try_current t) w =
  match make_reactor (os w) with
  | (Err e, o) => (Done (Err (other "failed to create reactor")), set_os o w)
  | (Ok (io, wakeup), o) =>
      match thread_spawn o with
      | (Ok _, o2) => (Done (Ok (next_reactor w)), fallback_started io wakeup o2 w)
      | (Err _, o2) => (Done (Ok (next_reactor w)), fallback_dead io wakeup o2 w)
      end
  end.
Proof.
  intros Ec Ef. unfold Fallback.try_current. rewrite run_atom. cbn [fst snd]. rewrite Ec.
  unfold Fallback.fallback, HandlePriv.load_fallback. rewrite run_atom. cbn [fst snd]. rewrite Ef. cbn [is_zero].
  rewrite run_reactor_new. destruct (make_reactor (os w)) as [[[io wakeup] | e] o]; [| done].
  unfold HandlePriv.set_fallback. rewrite run_atom. cbn [HANDLE_FALLBACK with_new set_os set_next_reactor set_reactor set_reactors].
  rewrite Ef. cbn [is_zero fst snd]. unfold Fallback.background, Background.new, Background.alloc_shared. cbv zeta.
  rewrite !run_bind_assoc, run_atom. cbn [fst snd]. unfold Background.spawn. rewrite !run_bind_assoc.
  destruct (thread_spawn o) as [[[] | e] o2] eqn:Es; erewrite run_os_call by exact Es; cbn [fst snd].
  - rewrite run_atom. reflexivity.
  - cbv beta iota. rewrite ?run_bind_assoc. erewrite run_bind_done.
    2: { apply (run_arc_drop_last _ _ (new_inner io wakeup) 0 (slab_with_capacity 1)); [apply lookup_insert_eq | done..]. }
    cbn [bind run]. f_equal. rewrite slab_iter_new. apply world_ext; try reflexivity; [exact (delete_insert_eq _ _ _) | apply app_nil_r].
Qed.

(** *** What the first use leaves *)

(** Who looks for a reactor then does what it would do after the fallback was made. *)
Lemma run_register_made fuel t r source w w1 h :
  registrations w !! r = Some Registration.new -> run (Fallback.try_current t) w = (Done (Ok h), w1) ->
  registrations w1 = registrations w -> current w1 t = Some h ->
  run (Registration.register (S fuel) t r source) w = run (Registration.register (S fuel) t r source) w1.
Proof.
  intros Er Hc E1 Hcur. unfold Registration.register, Registration.register2.
  rewrite (run_state_load r Registration.new _ w) by done. rewrite (run_state_load r Registration.new _ w1) by by rewrite E1.
  cbn [Registration.register_loop state Registration.new]. change (INIT =? INIT) with true. cbv iota. rewrite (run_bind_done _ _ _ _ _ Hc).
  by rewrite (run_try_current t h).
Qed.

(** So does an I/O operation of a resource. *)
Lemma run_pe_register_made {B} fuel t p e r cr cw w w1 h (c : io_result unit -> prg B) :
  polled w !! p = Some (mkPollEvented (Some e) r cr cw) -> polled w1 = polled w ->
  registrations w !! r = Some Registration.new -> run (Fallback.try_current t) w = (Done (Ok h), w1) ->
  registrations w1 = registrations w -> current w1 t = Some h ->
  run (bind (PollEvented.register (S fuel) t p) c) w = run (bind (PollEvented.register (S fuel) t p) c) w1.
Proof.
  intros Hp Ep Er Hc E1 Hcur. rewrite !(run_bind (PollEvented.register _ _ _)).
  assert (run (PollEvented.register (S fuel) t p) w = run (PollEvented.register (S fuel) t p) w1) as ->; [| done].
  unfold PollEvented.register, PollEvented.get_ref, PollEvented.get_registration.
  assert (polled w1 !! p = Some (mkPollEvented (Some e) r cr cw)) as Hp1 by by rewrite Ep.
  do 2 (erewrite (run_on_pe_get p _ _ w); [| exact Hp | done]).
  do 2 (erewrite (run_on_pe_get p _ _ w1); [| exact Hp1 | done]).
  cbn [registration]. rewrite !run_bind. by rewrite (run_register_made fuel t r e w w1 h).
Qed.

(** [w1] is [w] when the next reactor has become the fallback. *)
Record fallback_made (w w1 : World) (o : Os) : Prop := {
  fm_current t : CURRENT_REACTOR w !! t = None -> current w1 t = Some (next_reactor w);
  fm_os : os w1 = o;
  fm_registrations : registrations w1 = registrations w;
  fm_polled : polled w1 = polled w;
  fm_wakers : wakers w1 = wakers w;
  fm_woken : woken w1 = woken w;
}.

Definition no_fallback (w : World) (t : nat) (r : RegId) : Prop :=
  registrations w !! r = Some Registration.new /\ CURRENT_REACTOR w !! t = None /\
  HANDLE_FALLBACK w = Zero /\ reactors w !! next_reactor w = None.

(** C30: The first use of a resource makes the fallback.  If no reactor can be made, the
    registration fails and is as before, so that it can be tried again.  Otherwise
    [register], and an I/O operation that begins with it, does what it does when the new
    reactor is the fallback already; every thread finds that reactor from then on.  When its thread has been started, it is empty and
    well-formed, with the one reference that the thread holds, and nobody has asked the
    thread to stop; the registration returns what the operating system says.  When the
    thread could not be started, the reactor is gone again, and this registration and all
    later ones fail. *)
Theorem first_use_makes_fallback fuel t r source w :
  no_fallback w t r ->
  let register := run (Registration.register (S fuel) t r source) in
  match make_reactor (os w) with
  | (Err _, o1) => register w = (Done (Err (other "failed to create reactor")), set_os o1 w)
  | (Ok (io, wakeup), o1) =>
      let '(started, o2) := thread_spawn o1 in
      exists w1 sid, fallback_made w w1 o2 /\ register w = register w1 /\
        (forall p cr cw B (c : io_result unit -> prg B),
           polled w !! p = Some (mkPollEvented (Some source) r cr cw) ->
           run (bind (PollEvented.register (S fuel) t p) c) w = run (bind (PollEvented.register (S fuel) t p) c) w1) /\
        shareds w !! sid = None /\ shareds w1 = <[sid := mkShared 0 aw_new]> (shareds w) /\
        if is_ok started then
          let x := new_inner io wakeup in
          reactors w1 = <[next_reactor w := x]> (reactors w) /\ reactor_wf x /\
          spawned w1 = spawned w ++ [(next_reactor w, sid)] /\
          (register w).1 = Done (io_map (fun _ => true) (add_source_result x (slab_with_capacity 1) source o2).1.1)
        else
          reactors w1 = reactors w /\ spawned w1 = spawned w /\
          forall t' r' source', CURRENT_REACTOR w !! t' = None -> registrations w !! r' = Some Registration.new ->
            run (Registration.register (S fuel) t' r' source') w1 =
              (Done (Err (other "event loop gone")),
               set_reg r' (mkRegistration (Some (mkRegInner (next_reactor w) ERROR)) READY) w1)
  end.
Proof.
  intros (Er & Ec & Ef & En) register. pose proof (run_try_current_first t w Ec Ef) as Hc.
  destruct (make_reactor (os w)) as [[[io wakeup] | e] o1]; [| by eapply run_register_err].
  destruct (thread_spawn o1) as [[[] | e] o2] eqn:Es; cbn [is_ok].
  - assert (fallback_made w (fallback_started io wakeup o2 w) o2) as Hm.
    { constructor; try done. intros t' Ht'. unfold current. cbn. by rewrite Ht'. }
    assert (register w = register (fallback_started io wakeup o2 w)) as Hreg.
    { eapply run_register_made; [done | exact Hc | apply Hm | by apply Hm]. }
    exists (fallback_started io wakeup o2 w), (sid_of w). split_and!; try done.
    + intros. eapply run_pe_register_made; [done | apply Hm | done | exact Hc | apply Hm | by apply Hm].
    + apply lookup_fresh.
    + apply reactor_wf_new.
    + rewrite Hreg. unfold register.
      rewrite (run_registration_register fuel t r _ (next_reactor w) (new_inner io wakeup) 0 (slab_with_capacity 1) source);
        [| done | by apply Hm | apply lookup_insert_eq | done | done].
      cbn [os fallback_started set_os set_spawned]. by destruct (add_source_result _ _ _ _) as [[] ?].
  - assert (fallback_made w (fallback_dead io wakeup o2 w) o2) as Hm.
    { constructor; try done. intros t' Ht'. unfold current. cbn. by rewrite Ht'. }
    assert (reactors (fallback_dead io wakeup o2 w) = reactors w) as Hgone by by apply delete_id.
    exists (fallback_dead io wakeup o2 w), (sid_of w). split_and!; try done.
    + eapply run_register_made; [done | exact Hc | apply Hm | by apply Hm].
    + intros. eapply run_pe_register_made; [done | apply Hm | done | exact Hc | apply Hm | by apply Hm].
    + apply lookup_fresh.
    + intros t' r' source' Ht' Er'. apply run_register_gone; [done | by apply Hm | by rewrite Hgone].
Qed.
End spec.

(** ** Witnesses: a world with a registration and no reactor *)
Section witnesses.
Import Toy Demo.

Definition world_first : World := Eval vm_compute in (run (PollEvented.new 7) (with_wakers empty_world)).2.

Lemma first_use_makes_fallback_witness :
  (exists w1 sid,
     run (Registration.register 4 0 0%nat 7) world_first = run (Registration.register 4 0 0%nat 7) w1 /\
     (run (Registration.register 4 0 0%nat 7) world_first).1 = Done (Ok true) /\
     current w1 1 = Some 0%nat /\ spawned w1 = [(0%nat, sid)]) /\
  exists w', run (Registration.register 4 0 0%nat 7) (refusing world_first) =
    (Done (Err (other "failed to create reactor")), w') /\ registrations w' = registrations world_first.
Proof.
  split.
  - destruct (@first_use_makes_fallback toy_deps toy_deps_laws 3 0 0%nat 7 world_first) as (w1 & sid & Hm & Hr & _ & _ & _ & _ & _ & Hs & Hres);
      [by split_and! |].
    exists w1, sid. split; [exact Hr |]. split; [exact Hres |]. split; [exact (fm_current _ _ _ Hm 1%nat eq_refl) | exact Hs].
  - eexists. split; [| shelve].
    exact (@first_use_makes_fallback toy_deps toy_deps_laws 3 0 0%nat 7 (refusing world_first) ltac:(by split_and!)).
    Unshelve. reflexivity.
Defined.
End witnesses.
End FirstUse.
