(* ===== verification/ShutdownSpec.v ===== *)
(** * The end of the reactor thread, as the task that waits for it sees it

    [Shutdown::poll] stores the waker and then reads the state, the thread stores the
    state and then takes the waker: whatever the order, the task learns of the end.  And
    what happens when the event loop fails. *)
From S2P Require Import Prelude Conc RelyGuar Deps Toy World Reactor Background Registration PollEvented.
From S2P Require Import ReactorProof RegistrationProof Demo ReactorSpec BackgroundSpec.

Module ShutdownSpec.
Import Background ReactorSpec BackgroundSpec.
#[local] Abbreviation run := Conc.run.

(** ** A failing event loop *)
Section failure.
Context `{DepsLaws}.

Lemma run_shutdown_poll w sid sh h cx k :
  shareds w !! sid = Some sh -> wakers w !! cx = Some k ->
  run (shutdown_poll (mkBgInner h sid) cx) w =
  (Done (if shutdown sh =? SHUTDOWN then Ready (inl tt) else Pending),
   set_shareds (<[sid := mkShared (shutdown sh) (aw_register k (shutdown_task sh))]> (shareds w)) w).
Proof.
  intros E Hk. unfold shutdown_poll. erewrite run_deref_waker by exact Hk. unfold shutdown_task_register.
  rewrite (run_on_shared _ _ _ w sh) by done. cbn [fst snd]. unfold is_shutdown.
  rewrite run_bind_assoc. unfold shutdown_load.
  erewrite run_on_shared_get; [| apply lookup_insert_eq | done]. cbn [fst shutdown bind].
  by destruct (shutdown sh =? SHUTDOWN).
Qed.

(** C38: When [turn] fails, the reactor thread panics without reporting its end and
    without waking anybody.  The panic drops the reactor, so that [shutdown_now] finds
    nobody to interrupt; the state never becomes [SHUTDOWN], and every poll of [Shutdown] is
    pending: the drop of a [Background] waits for ever. *)
Theorem failed_turn_strands_shutdown fuel n w rid x sid sh e o :
  reactors w !! rid = Some x -> shareds w !! sid = Some sh -> shutdown sh = 0 ->
  Poll_poll (io x) None (os w) = Some (Err e, o) ->
  run (Background.run (S n) rid sid) w =
    (Faulted (Panicked "called `Result::unwrap()` on an `Err` value"), set_os o w) /\
  forall w1, shareds w1 = shareds w -> reactors w1 !! rid = None ->
    let bg := mkBgInner (Reactor.handle rid) sid in
    exists w2,
      run (shutdown_now (S fuel) bg) w1 = (Done tt, w2) /\ os w2 = os w1 /\
      forall cx k, wakers w1 !! cx = Some k ->
        exists w3, run (shutdown_poll bg cx) w2 = (Done Pending, w3) /\ woken w3 = woken w1.
Proof.
  intros E Esh Est Eos. split.
  - cbn [Background.run]. unfold shutdown_load. rewrite (run_on_shared_get _ _ _ w sh) by done.
    cbn [fst]. rewrite Est. unfold SHUTDOWN_NOW, SHUTDOWN_IDLE. cbn [Z.eqb bind].
    unfold Reactor.turn, Reactor.poll, Inner.get_io. rewrite !run_bind_assoc.
    rewrite (run_on_reactor_get rid _ _ w x (io x)) by done. rewrite !run_bind_assoc. unfold os_wait.
    rewrite run_action, Eos. done.
  - intros w1 Ew Er. cbv zeta. rewrite <- Ew in Esh.
    set (w2 := set_shareds (<[sid := mkShared SHUTDOWN_NOW (shutdown_task sh)]> (shareds w1)) w1).
    exists w2. split_and!; [| done |].
    + unfold shutdown_now, shutdown_load. rewrite (run_on_shared_get _ _ _ w1 sh) by done. cbn [fst shutdown_now_loop].
      rewrite Est, (proj2 (Z.leb_gt _ _)) by done. unfold shutdown_compare_and_swap.
      rewrite (run_on_shared _ _ _ w1 sh) by done. cbn [fst snd bg_shared]. rewrite Est, Z.eqb_refl.
      change (run (HandlePriv.wakeup_handle rid) w2 = (Done tt, w2)). unfold HandlePriv.wakeup_handle.
      by rewrite run_with_inner_gone.
    + intros cx k Hk. eexists.
      rewrite (run_shutdown_poll w2 sid (mkShared SHUTDOWN_NOW (shutdown_task sh)) (Reactor.handle rid) cx k);
        [done | apply lookup_insert_eq | done].
Qed.
End failure.

(** ** The announcement races with the poll

    Thread 0 polls, thread 1 announces; the ghost state says how far each of them is. *)
Section race.
Context `{DepsLaws}.
Context (sid : SharedId) (h : Handle.Handle) (cx : Z) (k : waker) (woken0 : list waker).

Inductive poller := PStart | PStored | PPending | PReady.
Inductive announcer := AStart | AStored | ATook (o : option waker) | AWoke.
Record ghost := mkGhost { g_poll : poller; g_ann : announcer }.

(** The waker is where the announcement will find it, or has been found. *)
Definition armed (a : aw) (new : list waker) (g : ghost) : Prop :=
  match g_ann g with
  | AStart | AStored => aw_waker a = Some k
  | ATook o => o = Some k
  | AWoke => k ∈ new
  end.

Record rinv (sh : Shared) (new : list waker) (g : ghost) : Prop := {
  ri_state : shutdown sh = SHUTDOWN <-> g_ann g <> AStart;
  ri_armed : g_poll g = PPending \/ (g_poll g = PStored /\ g_ann g = AStart) -> armed (shutdown_task sh) new g;
}.

Definition inv (s : World * ghost) : Prop :=
  exists sh new, shareds s.1 !! sid = Some sh /\ woken s.1 = woken0 ++ new /\ wakers s.1 !! cx = Some k /\
    rinv sh new s.2.

(** Thread [i] changes its own part of the ghost state. *)
Definition act (i : nat) (s s' : World * ghost) : Prop :=
  (i <> 0%nat -> g_poll s'.2 = g_poll s.2) /\ (i <> 1%nat -> g_ann s'.2 = g_ann s.2).
Definition blk (i : nat) (b : bool) (s : World * ghost) : Prop := False.
#[local] Abbreviation WP := (wp inv act blk).

Lemma poll_stable p : stable inv act 0 (fun s => g_poll s.2 = p).
Proof. intros s s' E _ (j & Hj & Ha & _). by rewrite Ha. Qed.

Lemma ann_stable a : stable inv act 1 (fun s => g_ann s.2 = a).
Proof. intros s s' E _ (j & Hj & _ & Ha). by rewrite Ha. Qed.

(** An access to the shared record. *)
Lemma wp_on_shared {A B} i (f : Shared -> A * Shared) (c : A -> prg B) Q P s :
  stable inv act i P -> P s ->
  (forall sh new w g, P (w, g) -> rinv sh new g ->
     exists g', rinv (f sh).2 new g' /\ act i (w, g) (w, g') /\ forall w', WP i (c (f sh).1) Q (w', g')) ->
  WP i (bind (on_shared sid f) c) Q s.
Proof.
  intros HP H0' Hf. unfold on_shared. eapply wp_action; [exact HP | exact H0' |].
  intros w g Hpre (sh & new & E & Ew & Ek & Hi). cbn [fst snd] in *. rewrite E.
  destruct (Hf sh new w g Hpre Hi) as (g' & Hi' & Ha & Hc). destruct (f sh) as [a sh']. cbn [fst snd] in *.
  exists g'. split_and!; [| by split; apply Ha | apply Hc].
  exists sh', new. split_and!; [apply lookup_insert_eq | done ..].
Qed.

Definition poll_result (p : Poll (unit + unit)) : poller := match p with Pending => PPending | Ready _ => PReady end.

Lemma wp_shutdown_poll s :
  g_poll s.2 = PStart -> WP 0 (shutdown_poll (mkBgInner h sid) cx) (fun r s' => g_poll s'.2 = poll_result r) s.
Proof.
  intros Hp. unfold shutdown_poll, deref_waker. eapply wp_action; [apply poll_stable | exact Hp |].
  intros w g Hp1 Hi. pose proof Hi as (sh & new & E & Ew & Ek & Hr). cbn [fst snd] in *. rewrite Ek.
  exists g. split_and!; [done | done |]. unfold shutdown_task_register.
  eapply wp_on_shared; [apply (poll_stable PStart) | done |]. clear -H0. intros sh new w g Hp [Hs Ha]. cbn [fst snd] in *.
  exists (mkGhost PStored (g_ann g)). split_and!.
  { constructor; cbn; [done |]. intros [? | [_ ->]]; [done |]. apply aw_register_waker. }
  { by split. }
  intros w'. unfold is_shutdown. wp_assoc. unfold shutdown_load.
  eapply wp_on_shared; [apply (poll_stable PStored) | done |]. clear -H0. intros sh new w g Hp [Hs Ha]. cbn [fst snd] in *.
  exists (mkGhost (if shutdown sh =? SHUTDOWN then PReady else PPending) (g_ann g)). cbn [bind].
  split_and!.
  - constructor; cbn; [done |]. destruct (Z.eqb_spec (shutdown sh) SHUTDOWN) as [Hd | Hd]; [by intros [|[]] |].
    intros _. unfold armed in *. cbn. destruct (g_ann g); [by apply Ha; right | exfalso; by apply Hd, Hs ..].
  - by split.
  - intros w2. destruct (shutdown sh =? SHUTDOWN); cbn [negb];
      (eapply wp_ret; [apply poll_stable | done | by intros s' ?]).
Qed.

Lemma wp_announce {B} (c : unit -> prg B) Q s :
  g_ann s.2 = AStart -> (forall s', g_ann s'.2 = AWoke -> WP 1 (c tt) Q s') ->
  WP 1 (bind (announce sid) c) Q s.
Proof.
  intros Hp Hc. unfold announce, shutdown_store, shutdown_task_wake. wp_assoc.
  eapply wp_on_shared; [apply (ann_stable AStart) | done |]. intros sh new w g Hg [Hs Ha]. cbn [fst snd] in *.
  exists (mkGhost (g_poll g) AStored). split_and!; [| by split |].
  { constructor; cbn; [done |]. intros [Hp' | [_ ?]]; [| done]. specialize (Ha (or_introl Hp')).
    unfold armed in *. by rewrite Hg in Ha. }
  intros w1. wp_assoc.
  eapply wp_on_shared; [apply (ann_stable AStored) | done |]. clear -Hc H0. intros sh new w g Hg [Hs Ha]. cbn [fst snd] in *.
  destruct (aw_take (shutdown_task sh)) as [o a] eqn:Et. cbn [fst snd].
  exists (mkGhost (g_poll g) (match o with Some _ => ATook o | None => AWoke end)). split_and!; [| by split |].
  { constructor; cbn; [rewrite Hs, Hg; by destruct o |]. intros [Hp' | [_ ?]]; [| by destruct o].
    specialize (Ha (or_introl Hp')). unfold armed, aw_waker in *. rewrite Hg, Et in Ha. cbn in Ha. by subst o. }
  intros w2. destruct o as [k' |]; cbn [wake_opt bind]; [| by apply Hc].
  unfold wake. eapply wp_atom; [apply (ann_stable (ATook (Some k'))) | done |]. clear -Hc.
  intros w g Hg (sh & new & E & Ew & Ek & [Hs Ha]). cbn [fst snd] in *.
  exists (mkGhost (g_poll g) AWoke). split_and!; [| by split | by apply Hc].
  exists sh, (new ++ [k']). cbn. rewrite Ew, app_assoc. split_and!; [done .. |].
  constructor; cbn; [rewrite Hs, Hg; done |]. intros [Hp' | [_ ?]]; [| done].
  specialize (Ha (or_introl Hp')). unfold armed in *. rewrite Hg in Ha. injection Ha as ->.
  apply elem_of_app. right. by apply list_elem_of_singleton.
Qed.
End race.

Section theorem.
Context `{DepsLaws}.

Definition waiter (h : Handle.Handle) (sid : SharedId) (cx : Z) : prg (option (Poll (unit + unit))) :=
  let! r := shutdown_poll (mkBgInner h sid) cx in Ret (Some r).
Definition ending (sid : SharedId) : prg (option (Poll (unit + unit))) :=
  let! _ := announce sid in Ret None.

(** C33: The end of the reactor thread is not missed.  A task polls [Shutdown] while the
    thread announces its end, in any interleaving: nobody panics or blocks, the state is
    [SHUTDOWN] afterwards, and a task that was told [Pending] has been woken. *)
Theorem shutdown_not_missed h sid cx (k : waker) w sh w' ts :
  shareds w !! sid = Some sh -> shutdown sh <> SHUTDOWN -> wakers w !! cx = Some k ->
  rtc cstep (w, [waiter h sid cx; ending sid]) (w', ts) -> (forall c, ~ cstep (w', ts) c) ->
  exists r, ts = [Ret (Some r); Ret None] /\
    (exists sh', shareds w' !! sid = Some sh' /\ shutdown sh' = SHUTDOWN) /\
    exists new, woken w' = woken w ++ new /\ (r = Pending -> k ∈ new).
Proof.
  intros E Hsh Hk Hr Hst.
  set (Q := fun (i : nat) r (s : World * ghost) => match i with
    | O => exists r', r = Some r' /\ g_poll s.2 = poll_result r'
    | _ => r = None /\ g_ann s.2 = AWoke end).
  assert (pool_ok (inv sid cx k (woken w)) act blk Q [waiter h sid cx; ending sid] (w, mkGhost PStart AStart)) as Hok.
  { split.
    - exists sh, []. cbn. rewrite app_nil_r. split_and!; [done .. |]. constructor; cbn; [by split |].
      by intros [? | [? _]].
    - intros [| [| i]] p Hp; cbn in Hp; simplify_eq.
      + apply wp_bind. eapply wp_conseq; [| by apply wp_shutdown_poll]. intros r s _ Hg.
        eapply wp_ret; [apply (poll_stable sid cx k (woken w) (poll_result r)) | done |]. intros s' Hg' _. by exists r.
      + apply wp_announce; [done |]. intros s Hg.
        eapply wp_ret; [apply (ann_stable sid cx k (woken w) AWoke) | done |]. by intros s' Hg' _. }
  destruct (pool_ok_steps _ _ _ _ _ _ _ Hr Hok) as [g Hok']. cbn [fst snd] in Hok'.
  apply rtc_cstep_length in Hr. destruct ts as [| p0 [| p1 [| ? ?]]]; try discriminate Hr.
  destruct (pool_ok_stuck _ _ _ _ _ _ _ Hok' Hst 0 p0 eq_refl) as [(? & -> & r & -> & Hp) | (? & _ & [])].
  destruct (pool_ok_stuck _ _ _ _ _ _ _ Hok' Hst 1 p1 eq_refl) as [(? & -> & -> & Ha) | (? & _ & [])].
  destruct Hok' as [(sh' & new & E' & Ew & _ & [Hs Harm]) _]. cbn [fst snd] in *.
  exists r. split_and!; [done | exists sh'; split; [done | by apply Hs; rewrite Ha] |].
  exists new. split; [done |]. intros ->. specialize (Harm (or_introl Hp)). unfold armed in Harm. by rewrite Ha in Harm.
Qed.
End theorem.

(** ** Witnesses *)
Section witnesses.
Import Toy Demo.

(** The shared record 0, of a thread that still runs. *)
Definition world_running : World := Eval vm_compute in
  set_shareds {[0%nat := mkShared SHUTDOWN_NOW aw_new]} world_waiting.

(** The same thread, before anybody asked it to stop, and a system that fails to poll. *)
Definition world_failing : World := Eval vm_compute in
  set_shareds {[0%nat := mkShared 0 aw_new]}
    (set_os {| os_next := 100; os_tokens := []; os_events := []; os_fail := true |} world_waiting).

Definition world_unwound : World := set_reactors ∅ world_failing.

Lemma failed_turn_strands_shutdown_witness :
  (run (Background.run 1 0%nat 0%nat) world_failing).1 =
    Faulted (Panicked "called `Result::unwrap()` on an `Err` value") /\
  exists w2,
    run (shutdown_now 1 (mkBgInner (Reactor.handle 0%nat) 0%nat)) world_unwound = (Done tt, w2) /\
    exists w3, run (shutdown_poll (mkBgInner (Reactor.handle 0%nat) 0%nat) 600) w2 = (Done Pending, w3) /\
      woken w3 = woken world_failing.
Proof.
  destruct (failed_turn_strands_shutdown 0 0 world_failing 0%nat (reactor_of world_failing) 0%nat
    (mkShared 0 aw_new) (io_error Other "poll") (os world_failing) eq_refl eq_refl eq_refl eq_refl) as [E1 H1].
  split; [by rewrite E1 |]. destruct (H1 world_unwound eq_refl eq_refl) as (w2 & E2 & _ & H2).
  exists w2. split; [exact E2 |]. exact (H2 600 61%nat eq_refl).
Defined.

(** The state is read before it is stored, and the waker is stored before it is taken. *)
Lemma shutdown_not_missed_witness :
  exists w' ts, exec [0; 0; 0; 1; 1; 1]%nat (world_running, [waiter (Some 0%nat) 0%nat 600; ending 0%nat]) = Some (w', ts) /\
    ts = [Ret (Some Pending); Ret None] /\
    exists new, woken w' = woken world_running ++ new /\ 61%nat ∈ new.
Proof.
  destruct (exec [0; 0; 0; 1; 1; 1]%nat (world_running, [waiter (Some 0%nat) 0%nat 600; ending 0%nat]))
    as [[w' ts] |] eqn:E; [| vm_compute in E; discriminate].
  exists w', ts. split; [reflexivity |].
  assert (ts = [Ret (Some Pending); Ret None]) as Ets by (vm_compute in E; by injection E as <- <-).
  split; [exact Ets |].
  destruct (shutdown_not_missed (Some 0%nat) 0%nat 600 61%nat world_running (mkShared SHUTDOWN_NOW aw_new) w' ts
    eq_refl ltac:(done) eq_refl (exec_sound _ _ _ E)) as (r & Er & _ & new & Ew & Hin).
  - rewrite Ets. apply finished_stuck. repeat constructor; by eexists.
  - exists new. split; [exact Ew |]. apply Hin. rewrite Ets in Er. by injection Er.
Defined.
End witnesses.
End ShutdownSpec.
