(* ===== verification/EventLoop.v ===== *)
(** * The event loop

    What a turn of a reactor and the loop of the background thread do, as functions on
    what the loop can see: the sources, the outside world and the tasks that were woken;
    and that [Reactor::turn] and [run] implement these functions. *)
From S2P Require Import Prelude Conc Deps Toy World Reactor Background Registration PollEvented.
From S2P Require Import ReactorProof RegistrationProof Demo ReactorSpec BackgroundSpec.

Module EventLoop.
Import Dispatch ReactorSpec BackgroundSpec.
#[local] Abbreviation run := Conc.run.

(** ** The specification *)
Section spec.
Context `{Deps}.

Record Loop := mkLoop { l_slab : slab ScheduledIo; l_os : Os; l_woken : list waker }.

(** The two fields of the reactor that the loop uses and never changes. *)
Context (queue : PollId) (wakeup : SetReadiness).

(** An event is for the source in its slot if that has the guard of the token; other
    events are late, and lost. *)
Definition deliver (token ready : Z) (l : Loop) : Loop :=
  let key := Z.land token MAX_SOURCES in
  match slab_get key (l_slab l) with
  | Some i =>
      if aba_guard i =? Z.land token (unot MAX_SOURCES)
      then mkLoop (slab_set key (after_event ready i) (l_slab l)) (l_os l) (l_woken l ++ woken_by ready i)
      else l
  | None => l
  end.

(** The events of a turn, in order; the wakeup event is acknowledged. *)
Fixpoint deliver_all (events : list (Z * Z)) (l : Loop) : outcome unit * Loop :=
  match events with
  | [] => (Done tt, l)
  | (token, ready) :: events =>
      if token =? TOKEN_WAKEUP then
        let '(res, o) := set_readiness wakeup Ready_empty (l_os l) in
        let l := mkLoop (l_slab l) o (l_woken l) in
        match res with
        | Ok _ => deliver_all events l
        | Err _ => (Faulted (Panicked "called `Result::unwrap()` on an `Err` value"), l)
        end
      else deliver_all events (deliver token ready l)
  end.

(** [turn]: wait once, then deliver what came. *)
Definition turn (max_wait : option Z) (l : Loop) : outcome (io_result unit) * Loop :=
  match Poll_poll queue max_wait (l_os l) with
  | None => (Blocked, l)
  | Some (Err e, o) => (Done (Err e), mkLoop (l_slab l) o (l_woken l))
  | Some (Ok events, o) =>
      match deliver_all events (mkLoop (l_slab l) o (l_woken l)) with
      | (Done _, l) => (Done (Ok tt), l)
      | (Faulted e, l) => (Faulted e, l)
      | (Blocked, l) => (Blocked, l)
      end
  end.

(** The loop ends when it is told to, or when it is told to end once it is idle. *)
Definition asked_to_stop (state : Z) (l : Loop) : bool :=
  (state =? SHUTDOWN_NOW) || ((state =? SHUTDOWN_IDLE) && (slab_len (l_slab l) =? 0)).

(** [n] turns of the loop of a thread whose shutdown state is [state]: what becomes of the
    thread, whether it left the loop, and the state then. *)
Fixpoint serve (n : nat) (state : Z) (l : Loop) : outcome bool * Loop :=
  match n with
  | O => (Blocked, l)
  | S n =>
      if asked_to_stop state l then (Done true, l)
      else match turn None l with
           | (Done (Ok _), l) => serve n state l
           | (Done (Err _), l) => (Faulted (Panicked "called `Result::unwrap()` on an `Err` value"), l)
           | (Faulted e, l) => (Faulted e, l)
           | (Blocked, l) => (Blocked, l)
           end
  end.
End spec.

(** ** The code implements it *)
Section refinement.
Context `{DepsLaws}.
Context (w : World) (rid : ReactorId) (x : ReactorInner) (r : nat).

(** The world in which the loop sees [l], with [r] readers at its sources. *)
Definition seen (l : Loop) : World :=
  set_woken (l_woken l) (set_os (l_os l) (st w rid x (mkARwLock r false (l_slab l)))).

Lemma seen_reactor l : reactors (seen l) !! rid = Some (with_dispatch (mkARwLock r false (l_slab l)) x).
Proof. apply lookup_insert_eq. Qed.

Lemma seen_os o l : set_os o (seen l) = seen (mkLoop (l_slab l) o (l_woken l)).
Proof. done. Qed.

Lemma run_deliver token ready l :
  run (Reactor.dispatch rid token ready) (seen l) = (Done tt, seen (deliver token ready l)).
Proof.
  unfold deliver. destruct (slab_get _ (l_slab l)) as [i |] eqn:Es.
  2: { eapply run_dispatch_stale; [apply seen_reactor | done |]. unfold stale. by rewrite Es. }
  destruct (Z.eqb_spec (aba_guard i) (Z.land token (unot MAX_SOURCES))) as [Eg | Hne].
  - erewrite run_dispatch; [| apply seen_reactor | done | exact Es | done]. f_equal.
    unfold seen, st, set_reactor, set_reactors, set_woken, set_os. cbn. by rewrite insert_insert_eq.
  - eapply run_dispatch_stale; [apply seen_reactor | done |]. unfold stale. by rewrite Es.
Qed.

Lemma run_process events l :
  run (Reactor.process rid events) (seen l) =
  ((deliver_all (wakeup x) events l).1, seen (deliver_all (wakeup x) events l).2).
Proof.
  revert l. induction events as [| [token ready] events IH]; intros l; [done |].
  cbn [Reactor.process deliver_all]. destruct (token =? TOKEN_WAKEUP).
  - rewrite run_bind_assoc. unfold Inner.get_wakeup.
    erewrite run_on_reactor_get; [| apply seen_reactor | done]. rewrite run_bind_assoc. cbn [World.wakeup with_dispatch].
    change (os (seen l)) with (l_os l). destruct (set_readiness (wakeup x) Ready_empty (l_os l)) as [[] o] eqn:Eo;
      erewrite run_os_call by exact Eo; rewrite seen_os; [by apply IH | done].
  - erewrite run_bind_done by apply run_deliver. by apply IH.
Qed.

Lemma run_turn max_wait l :
  run (Reactor.turn rid max_wait) (seen l) =
  ((turn (io x) (wakeup x) max_wait l).1, seen (turn (io x) (wakeup x) max_wait l).2).
Proof.
  unfold Reactor.turn, Reactor.poll, Inner.get_io, turn. rewrite !run_bind_assoc.
  erewrite run_on_reactor_get; [| apply seen_reactor | done]. rewrite !run_bind_assoc. unfold os_wait.
  rewrite run_action. change (os (seen l)) with (l_os l). cbn [io with_dispatch].
  destruct (Poll_poll (io x) max_wait (l_os l)) as [[[events | e] o] |]; [| done | done].
  rewrite !run_bind_assoc, seen_os, run_bind, run_process.
  by destruct (deliver_all (wakeup x) events _) as [[] l'].
Qed.

Context (sid : SharedId) (sh : Shared).

(** The world after the thread left the loop: the reactor is gone, every task that waited
    for one of its sources is woken, and then the one that waits for the end. *)
Definition left_loop (l : Loop) : World :=
  set_woken (l_woken l ++ all_waiting (slab_iter (l_slab l)).*1 (l_slab l) ++ opt_list (aw_waker (shutdown_task sh)))
    (set_shareds (<[sid := mkShared SHUTDOWN (aw_take (shutdown_task sh)).2]> (shareds w))
      (set_reactors (delete rid (reactors w)) (set_os (l_os l) w))).

Lemma run_run_exit l :
  strong x = 1%nat -> shareds w !! sid = Some sh ->
  run (Background.run_exit rid sid) (seen l) = (Done tt, left_loop l).
Proof.
  intros Ex Esh. unfold Background.run_exit.
  erewrite run_bind_done by by apply (run_arc_drop_last _ _ _ r (l_slab l) (seen_reactor l)).
  rewrite (run_announce _ sid sh) by exact Esh. f_equal. apply world_ext; try reflexivity.
  - apply delete_insert_eq.
  - symmetry. apply app_assoc.
Qed.

Lemma run_is_idle l :
  run (Reactor.is_idle rid) (seen l) = (Done (slab_len (l_slab l) =? 0), seen l).
Proof.
  unfold Reactor.is_idle. erewrite (run_with_read rid _ (seen l) _ r (l_slab l) _ (seen l));
    [| apply seen_reactor | done |].
  - f_equal. unfold seen, st, set_reactor, set_reactors, set_woken, set_os. cbn. by rewrite insert_insert_eq.
  - unfold Inner.io_dispatch_len. erewrite run_on_reactor_get; [| apply st_lookup | done]. done.
Qed.

Lemma run_serve n l :
  strong x = 1%nat -> shareds w !! sid = Some sh ->
  run (Background.run n rid sid) (seen l) =
  match serve (io x) (wakeup x) n (shutdown sh) l with
  | (Done _, l) => (Done tt, left_loop l)
  | (Faulted e, l) => (Faulted e, seen l)
  | (Blocked, l) => (Blocked, seen l)
  end.
Proof.
  intros Ex Esh. revert l. induction n as [| n IH]; intros l; [done |]. cbn [Background.run serve].
  unfold Background.shutdown_load. rewrite (run_on_shared_get _ _ _ (seen l) sh) by done. cbn [fst].
  unfold asked_to_stop. destruct (shutdown sh =? SHUTDOWN_NOW); [by apply run_run_exit |].
  assert (forall b, run (if b : bool then Background.run_exit rid sid else
      let! res := Reactor.turn rid None in
      match res with
      | Ok _ => Background.run n rid sid
      | Err _ => Fault (Panicked "called `Result::unwrap()` on an `Err` value")
      end) (seen l) = match (if b then (Done true, l) else match turn (io x) (wakeup x) None l with
           | (Done (Ok _), l) => serve (io x) (wakeup x) n (shutdown sh) l
           | (Done (Err _), l) => (Faulted (Panicked "called `Result::unwrap()` on an `Err` value"), l)
           | (Faulted e, l) => (Faulted e, l)
           | (Blocked, l) => (Blocked, l)
           end) with
      | (Done _, l) => (Done tt, left_loop l)
      | (Faulted e, l) => (Faulted e, seen l)
      | (Blocked, l) => (Blocked, seen l)
      end) as Hstep.
  { intros [|]; [by apply run_run_exit |]. rewrite run_bind, run_turn.
    destruct (turn (io x) (wakeup x) None l) as [[[] | e |] l']; [apply IH | done | done | done]. }
  destruct (shutdown sh =? SHUTDOWN_IDLE); cbn [orb andb].
  - erewrite run_bind_done by apply run_is_idle. apply Hstep.
  - apply (Hstep false).
Qed.
End refinement.

Section theorem.
Context `{DepsLaws}.

(** C16: The event loop does what its specification says.  A turn waits once, then delivers
    every event in the order in which they came, each to the source whose slot and guard it
    names, and acknowledges wakeups.  The background thread looks at the shutdown state
    before each turn; it goes on until it is told to stop, or to stop when no source is
    left, and then drops the reactor and reports the end.  An error of the queue or of an
    acknowledgement is a panic. *)
Theorem event_loop_refines w rid x r s :
  reactors w !! rid = Some x -> io_dispatch x = mkARwLock r false s ->
  let l := mkLoop s (os w) (woken w) in
  (forall max_wait, run (Reactor.turn rid max_wait) w =
     ((turn (io x) (wakeup x) max_wait l).1, seen w rid x r (turn (io x) (wakeup x) max_wait l).2)) /\
  (forall n sid sh, strong x = 1%nat -> shareds w !! sid = Some sh ->
     run (Background.run n rid sid) w =
     match serve (io x) (wakeup x) n (shutdown sh) l with
     | (Done _, l) => (Done tt, left_loop w rid sid sh l)
     | (Faulted e, l) => (Faulted e, seen w rid x r l)
     | (Blocked, l) => (Blocked, seen w rid x r l)
     end).
Proof.
  intros E El l. assert (w = seen w rid x r l) as Ew.
  { unfold seen, l. cbn. rewrite <- El, st_id by done. by destruct w. }
  split.
  - intros max_wait. rewrite Ew at 1. apply run_turn.
  - intros n sid sh Ex Esh. rewrite Ew at 1. by apply run_serve.
Qed.
End theorem.

(** ** Witness: task 51 waits for slot 0, task 61 for the end *)
Section witnesses.
Import Toy Demo.

(** The wakeup event, an event for slot 0, and a late one for slot 5. *)
Definition with_events (w : World) : World :=
  set_os {| os_next := os_next (os w); os_tokens := os_tokens (os w);
    os_events := [(TOKEN_WAKEUP, 1); (0, Ready_readable); (5, Ready_readable)]; os_fail := false |} w.
Definition world_events : World := with_events world_bg.

Lemma event_loop_refines_witness :
  exists w1 w2,
    run (Reactor.turn 0%nat None) world_events = (Done (Ok tt), w1) /\ woken w1 = [51%nat] /\
    run (Background.run 3 0%nat 0%nat) world_events = (Blocked, w2) /\ woken w2 = [51%nat] /\
    readiness (io_at 0 w2) = Ready_readable.
Proof.
  destruct (event_loop_refines world_events 0%nat (reactor_of world_events) 0 (slab_at world_events) eq_refl eq_refl)
    as [E1 E2].
  eexists _, _. split; [exact (E1 None) |]. split; [reflexivity |].
  split; [exact (E2 3%nat 0%nat (mkShared 0 (aw_register 61%nat aw_new)) eq_refl eq_refl) |]. split; reflexivity.
Defined.
End witnesses.
End EventLoop.
