(* ===== verification/ShutdownInv.v ===== *)
(** * The end of an event loop among other threads: invariant and rules

    A background reactor's thread goes round its loop, delivers events or sleeps in the
    queue, while other threads ask it to stop and wait until it has.  Here are the ghost
    state, the invariant, a rule per operation, and what the invariant says of a pool that
    cannot move; ShutdownRace.v has the theorems. *)
From S2P Require Import Prelude Conc RelyGuar Deps World Reactor Background Registration PollEvented.
From S2P Require Import ReactorProof RegistrationProof ReactorSpec BackgroundSpec EventLoop.

Module ShutdownInv.
Import Dispatch Background ReactorSpec BackgroundSpec EventLoop.
#[local] Abbreviation run := Conc.run.

(** What the crate relies on: as long as the operating system works, a wakeup handle that
    was set readable keeps the queue from blocking, and neither of the two fails. *)
Record wakeup_works `{Deps} (queue : PollId) (wk : SetReadiness) (alive : Os -> Prop) : Prop := {
  ww_set ready o : alive o -> (set_readiness wk ready o).1 = Ok tt /\ alive (set_readiness wk ready o).2;
  ww_ready o : alive o -> Poll_poll queue None (set_readiness wk Ready_readable o).2 <> None;
  ww_poll o res o' : alive o -> Poll_poll queue None o = Some (res, o') -> is_ok res = true /\ alive o';
}.

(** ** The ghost state: what each thread is doing *)

(** The loop, thread 0: at its top or delivering events; having read that nobody asked it
    to stop; having announced its end; having taken the waker of [Shutdown].  The others:
    at the start; having set the state, before the wakeup; knowing that it is set.  One
    that then waits for the end: having stored its waker; told that the end is not there
    yet; woken; having seen the end. *)
Inductive phase := LTop | LStale | LEnd | LTook | SIdle | SWon | SFin | DStored | DPending | DWoken | DDone.

#[export] Instance phase_eq_dec : EqDecision phase.
Proof. solve_decision. Defined.

Definition has_asked (ph : phase) : bool :=
  match ph with LTop | LStale | LEnd | LTook | SIdle => false | _ => true end.
Definition registered (ph : phase) : bool :=
  match ph with DStored | DPending | DWoken | DDone => true | _ => false end.
Definition wait_phase (ph : phase) : option phase := if registered ph then Some ph else None.

Lemma wait_phase_registered ph ph' : wait_phase ph = wait_phase ph' -> registered ph = registered ph'.
Proof. unfold wait_phase. by destruct (registered ph), (registered ph'). Qed.
Lemma wait_phase_eq ph ph' : wait_phase ph = wait_phase ph' -> registered ph = true -> ph' = ph.
Proof. unfold wait_phase. by destruct (registered ph), (registered ph'); intros [=]. Qed.

(** The references of a thread, whether it is dropping the reactor, and the wakers that it
    has taken and not woken yet. *)
Record part := mkPart { p_phase : phase; p_hold : bool; p_drop : bool; p_fly : list waker }.

Definition set_phase (ph : phase) (p : part) : part := mkPart ph (p_hold p) (p_drop p) (p_fly p).
Definition set_hold (b : bool) (p : part) : part := mkPart (p_phase p) b (p_drop p) (p_fly p).
Definition set_drop (b : bool) (p : part) : part := mkPart (p_phase p) (p_hold p) b (p_fly p).
Definition set_fly (fl : list waker) (p : part) : part := mkPart (p_phase p) (p_hold p) (p_drop p) fl.
Definition is_won (p : part) : bool := bool_decide (p_phase p = SWon).

(** ** What is relied on of [futures::executor::block_on]

    It runs a future to completion on the calling thread: it polls the future with a
    context of its own, and after [Pending] it sleeps until the waker of that context was
    called, and polls again.  [fuel] bounds the polls; two are enough here, because the
    waker is called only when the end is there. *)
Section executor.
Context `{Deps}.

Definition park (k : waker) : prg unit :=
  action (fun w => if bool_decide (k ∈ woken w) then Next tt w else Wait).

Fixpoint poll_until_ready {A} (fuel : nat) (cx : Z) (k : waker) (poll : Z -> prg (Poll A)) : prg A :=
  match fuel with
  | O => Fault OutOfFuel
  | S fuel =>
      let! r := poll cx in
      match r with
      | Ready a => Ret a
      | Pending => let! _ := park k in poll_until_ready fuel cx k poll
      end
  end.

Definition executes {A} (cx : Z) (k : waker) (block_on : (Z -> prg (Poll A)) -> prg A) : Prop :=
  exists fuel, forall poll, block_on poll = poll_until_ready (S (S fuel)) cx k poll.
End executor.

Section race.
Context `{DepsLaws}.
Context (rid : ReactorId) (sid : SharedId) (queue : PollId) (wk : SetReadiness) (alive : Os -> Prop).
Context (s0 : slab ScheduledIo) (sh0 : Shared).
(** The task that waits for the end in the pool, if there is one, and its context. *)
Context (kd : option waker) (cxd : Z).
Hypothesis Hww : wakeup_works queue wk alive.

Abbreviation ghost := (list part).

(** Task [k] has been woken, or is about to be. *)
Definition announced (k : waker) (s : World * ghost) : Prop :=
  k ∈ woken s.1 \/ exists i p, s.2 !! i = Some p /\ k ∈ p_fly p.

Definition asked (w : World) : Prop := exists sh, shareds w !! sid = Some sh /\ SHUTDOWN_NOW <= shutdown sh.

Definition ended (p : part) : Prop := p_phase p = LEnd \/ p_phase p = LTook.

(** What a step of the loop does not change. *)
Definition same_end (p p' : part) : Prop :=
  (ended p' <-> ended p) /\ (p_phase p' = LTook -> p_phase p = LTook) /\
  (ended p' -> p_hold p' = p_hold p /\ p_drop p' = p_drop p).

Lemma same_end_not p p' : ~ ended p -> ~ ended p' -> same_end p p'.
Proof. unfold same_end, ended. intros Hp Hp'. split_and!; [by split | intros ?; by destruct Hp'; right | by intros ?]. Qed.

Lemma not_ended p : p_phase p = LTop \/ p_phase p = LStale -> ~ ended p.
Proof. unfold ended. by intros [-> | ->] [|]. Qed.

(** The end of the loop will reach task [k], or has. *)
Definition held (sh : Shared) (k : waker) (s : World * ghost) : Prop :=
  announced k s \/ (aw_waker (shutdown_task sh) = Some k /\ forall p, s.2 !! 0%nat = Some p -> p_phase p <> LTook).

Definition waits (sh : Shared) (p : part) : Prop :=
  p_phase p = DPending \/ (p_phase p = DStored /\ shutdown sh <> SHUTDOWN).

Record shared_ok (sh : Shared) (s : World * ghost) : Prop := {
  so_values : shutdown sh = 0 \/ shutdown sh = SHUTDOWN_NOW \/ shutdown sh = SHUTDOWN;
  so_end p : s.2 !! 0%nat = Some p -> shutdown sh = SHUTDOWN <-> ended p;
  so_left p : s.2 !! 0%nat = Some p -> ended p -> p_hold p = false /\ p_drop p = false;
  so_asked i p : s.2 !! i = Some p -> has_asked (p_phase p) = true -> shutdown sh <> 0;
  so_task k : aw_waker (shutdown_task sh0) = Some k ->
    (forall i p, s.2 !! i = Some p -> registered (p_phase p) = false) -> held sh k s;
  so_wait i p : s.2 !! i = Some p -> waits sh p -> exists k, kd = Some k /\ held sh k s;
  so_key k : kd = Some k -> announced k s -> shutdown sh = SHUTDOWN;
  so_back i p : s.2 !! i = Some p -> p_phase p = DWoken \/ p_phase p = DDone -> shutdown sh = SHUTDOWN;
}.

Record reactor_ok (x : ReactorInner) (g : ghost) : Prop := {
  ro_io : io x = queue;
  ro_wakeup : wakeup x = wk;
  ro_strong : strong x = count p_hold g;
  ro_lock : a_writer (io_dispatch x) = false;
  ro_drop : count p_drop g = if decide (strong x = 0%nat) then 1%nat else 0%nat;
}.

(** Each task that waited for a source still does, or is woken. *)
Definition tasks_ok (s : World * ghost) : Prop := forall key i d k,
  slab_get key s0 = Some i -> aw_waker (aw_of d i) = Some k ->
  announced k s \/ exists x i', reactors s.1 !! rid = Some x /\ slab_get key (slab_of x) = Some i' /\
    aw_waker (aw_of d i') = Some k.

(** The loop may wait in the queue only if nobody has asked, or the wakeup is on its way or
    has come. *)
Definition awake (s : World * ghost) : Prop := forall p, s.2 !! 0%nat = Some p -> p_phase p = LStale ->
  p_hold p = true /\ (asked s.1 -> (forall i q, s.2 !! i = Some q -> p_phase q <> SWon) ->
    Poll_poll queue None (os s.1) <> None).

(** The task that waits for the end waits for nothing else. *)
Definition waker_in (v : slab ScheduledIo) (k : waker) : Prop := exists key i d,
  slab_get key v = Some i /\ aw_waker (aw_of d i) = Some k.
Definition fresh_ok (w : World) : Prop := forall k x, kd = Some k -> reactors w !! rid = Some x -> ~ waker_in (slab_of x) k.

Record inv (s : World * ghost) : Prop := {
  iv_shared : exists sh, shareds s.1 !! sid = Some sh /\ shared_ok sh s;
  iv_won : (count is_won s.2 <= 1)%nat;
  iv_reactor : match reactors s.1 !! rid with
               | Some x => reactor_ok x s.2
               | None => count p_hold s.2 = 0%nat /\ count p_drop s.2 = 0%nat
               end;
  iv_tasks : tasks_ok s;
  iv_os : alive (os s.1);
  iv_awake : awake s;
  iv_fresh : fresh_ok s.1;
  iv_waker k : kd = Some k -> wakers s.1 !! cxd = Some k;
}.

(** The loop while it has its reference, and a thread that drops the reactor, have the
    sources to themselves. *)
Definition ctrl (i : nat) (p : part) : Prop := p_drop p = true \/ (i = 0%nat /\ p_hold p = true).

Record act (i : nat) (s s' : World * ghost) : Prop := {
  ac_part j : j <> i -> s'.2 !! j = s.2 !! j;
  ac_ctrl j p : j <> i -> s.2 !! j = Some p -> ctrl j p ->
    io_dispatch <$> reactors s'.1 !! rid = io_dispatch <$> reactors s.1 !! rid;
  ac_length : length s'.2 = length s.2;
}.

Definition mine (i : nat) (p : part) (s : World * ghost) : Prop := s.2 !! i = Some p.
Definition ctl (i : nat) (p : part) (l : ARwLock (slab ScheduledIo)) (s : World * ghost) : Prop :=
  mine i p s /\ ctrl i p /\ io_dispatch <$> reactors s.1 !! rid = Some l.

(** The loop waits for events, or has used up its turns and is suspended; another thread
    waits to be woken. *)
Definition loop_blk (b : bool) (s : World * ghost) : Prop :=
  (mine 0 (mkPart LStale true false []) s /\ Poll_poll queue None (os s.1) = None) \/
  b = true /\ exists r v, ctl 0 (mkPart LTop true false []) (mkARwLock r false v) s.
Definition wait_blk (i : nat) (s : World * ghost) : Prop :=
  mine i (mkPart DPending false false []) s /\ exists k, kd = Some k /\ k ∉ woken s.1.
Definition blk (i : nat) (b : bool) (s : World * ghost) : Prop :=
  i = 0%nat /\ loop_blk b s \/ i <> 0%nat /\ wait_blk i s.

#[local] Abbreviation WP := (wp inv act blk).

Lemma mine_stable i p : stable inv act i (mine i p).
Proof. intros s s' E _ (j & Hj & Ha). unfold mine. by rewrite (ac_part _ _ _ Ha i ltac:(done)). Qed.

Lemma ctl_stable i p l : stable inv act i (ctl i p l).
Proof.
  intros s s' (E & Hc & El) Hi Hj. pose proof (mine_stable i p s s' E Hi Hj) as E'. destruct Hj as (j & Hj & Ha).
  split_and!; [done | done |]. by rewrite (ac_ctrl _ _ _ Ha i p).
Qed.

(** *** Counting *)
Lemma announced_upd k w w' g i p p' :
  g !! i = Some p -> woken w ⊆ woken w' -> (forall k, k ∈ p_fly p -> k ∈ p_fly p' \/ k ∈ woken w') ->
  announced k (w, g) -> announced k (w', <[i := p']> g).
Proof.
  intros E Hw Hf [Hk | (j & q & Ej & Hk)]; cbn in *; [left; by apply Hw |].
  destruct (decide (j = i)) as [-> | Hne].
  - simplify_eq. destruct (Hf k Hk) as [Hk' | Hk']; [right | by left]. exists i, p'. cbn.
    split; [by rewrite list_lookup_insert_eq by by eapply lookup_lt_Some | done].
  - right. exists j, q. cbn. by rewrite list_lookup_insert_ne by done.
Qed.

Lemma announced_inv k w w' g i p p' :
  g !! i = Some p -> announced k (w', <[i := p']> g) ->
  announced k (w, g) \/ (k ∈ woken w' /\ k ∉ woken w) \/ k ∈ p_fly p'.
Proof.
  intros E [Hk | (j & q & Ej & Hk)]; cbn in *.
  - destruct (decide (k ∈ woken w)) as [Hw | Hw]; [by left; left | by right; left].
  - destruct (decide (j = i)) as [-> | Hne].
    + rewrite list_lookup_insert_eq in Ej by by eapply lookup_lt_Some. injection Ej as <-. by right; right.
    + rewrite list_lookup_insert_ne in Ej by done. left. right. by exists j, q.
Qed.

Lemma announced_same k w w' g i p p' :
  g !! i = Some p -> woken w' = woken w -> p_fly p' = p_fly p ->
  announced k (w', <[i := p']> g) <-> announced k (w, g).
Proof.
  intros E Ew Ef. split.
  - intros [Ha | [[Hk Hn] | Hk]]%(announced_inv k w w' g i p p'); [done | by rewrite Ew in Hk | | done].
    right. exists i, p. by rewrite <- Ef.
  - apply (announced_upd k w w' g i p p'); [done | by rewrite Ew | intros ? ?; rewrite Ef; by left].
Qed.

Lemma ctrl_unique w g i j p q :
  inv (w, g) -> g !! i = Some p -> g !! j = Some q -> ctrl i p -> ctrl j q -> i = j.
Proof.
  intros Hi Ei Ej Hp Hq. destruct (decide (i = j)) as [| Hne]; [done | exfalso].
  pose proof (iv_reactor _ Hi) as Hr. cbn in Hr. destruct (reactors w !! rid) as [x |].
  - destruct Hr as [_ _ Hs _ Hd]. destruct Hp as [Hp | [-> Hp]], Hq as [Hq | [-> Hq]].
    + pose proof (count_two p_drop g i j p q Ei Ej Hne Hp Hq). case_decide; lia.
    + pose proof (count_pos p_drop g i p Ei Hp). pose proof (count_pos p_hold g _ q Ej Hq).
      rewrite decide_False in Hd by lia. lia.
    + pose proof (count_pos p_drop g j q Ej Hq). pose proof (count_pos p_hold g _ p Ei Hp).
      rewrite decide_False in Hd by lia. lia.
    + done.
  - destruct Hr as [Hh Hd]. destruct Hp as [Hp | [-> Hp]].
    + pose proof (count_pos p_drop g i p Ei Hp). lia.
    + pose proof (count_pos p_hold g _ p Ei Hp). lia.
Qed.

(** Replacing a part by one with the same flag. *)
Lemma count_same (f : part -> bool) g i p p' : g !! i = Some p -> f p' = f p -> count f (<[i := p']> g) = count f g.
Proof. intros E Ef. pose proof (count_insert f g i p p' E) as C. rewrite Ef in C. lia. Qed.

Lemma lookup_upd (g : ghost) i p p' j q :
  g !! i = Some p -> <[i := p']> g !! j = Some q -> (j = i /\ q = p') \/ (j <> i /\ g !! j = Some q).
Proof.
  intros E. destruct (decide (j = i)) as [-> | Hne].
  - rewrite list_lookup_insert_eq by by eapply lookup_lt_Some. intros [= <-]. by left.
  - rewrite list_lookup_insert_ne by done. by right.
Qed.

Lemma act_upd i w w' g p p' :
  g !! i = Some p ->
  (ctrl i p /\ inv (w, g) \/ io_dispatch <$> reactors w' !! rid = io_dispatch <$> reactors w !! rid) ->
  act i (w, g) (w', <[i := p']> g).
Proof.
  intros E Hc. constructor; cbn.
  - intros j Hj. by rewrite list_lookup_insert_ne.
  - intros j q Hj Ej Hq. destruct Hc as [[Hc Hi] | Hc]; [| done]. exfalso. apply Hj. symmetry.
    by eapply ctrl_unique.
  - by rewrite length_insert.
Qed.

(** *** Steps that change neither a phase nor a reference *)

(** Each waiting task still waits, or its waker is in [fl]; and no other task is in either. *)
Record moved (v v' : slab ScheduledIo) (fl0 fl : list waker) : Prop := {
  mv_keep key i d k : slab_get key v = Some i -> aw_waker (aw_of d i) = Some k ->
    k ∈ fl \/ exists i', slab_get key v' = Some i' /\ aw_waker (aw_of d i') = Some k;
  mv_new k : waker_in v' k -> waker_in v k;
  mv_fly k : k ∈ fl -> k ∈ fl0 \/ waker_in v k;
}.

Lemma moved_refl v fl : moved v v fl fl.
Proof. constructor; [| done | by left]. intros key i d k E Ek. right. by exists i. Qed.

Lemma awake_quiet w w' g i p fl :
  awake (w, g) -> g !! i = Some p -> shareds w' = shareds w -> os w' = os w -> awake (w', <[i := set_fly fl p]> g).
Proof.
  intros H6 E Es Eo q Hq Hph. cbn in *.
  assert (exists q', g !! 0%nat = Some q' /\ p_phase q = p_phase q' /\ p_hold q = p_hold q') as (q' & Hq' & Eq & Eh).
  { destruct (lookup_upd g i p _ _ _ E Hq) as [[<- ->] | [_ Hj]]; [by exists p | by exists q]. }
  destruct (H6 q' Hq') as [Hh Haw]; [congruence |].
  split; [congruence |]. cbn. rewrite Eo. intros (sh' & Esh' & Hsh') Hno. apply Haw.
  - exists sh'. cbn in Esh'. by rewrite Es in Esh'.
  - intros j q1 Hj Hph1. destruct (decide (j = i)) as [-> | Hne].
    + cbn in Hj. rewrite E in Hj. injection Hj as <-. apply (Hno i (set_fly fl p)); [| done].
      by rewrite list_lookup_insert_eq by by eapply lookup_lt_Some.
    + apply (Hno j q1); [by rewrite list_lookup_insert_ne | done].
Qed.

(** What a change of the wakers in flight and of the sources leaves of the shared state. *)
Lemma shared_quiet sh w w' g i p fl :
  shared_ok sh (w, g) -> g !! i = Some p ->
  (forall k, announced k (w, g) -> announced k (w', <[i := set_fly fl p]> g)) ->
  (forall k, kd = Some k -> announced k (w', <[i := set_fly fl p]> g) -> announced k (w, g)) ->
  shared_ok sh (w', <[i := set_fly fl p]> g).
Proof.
  intros [V1 V2 V8 V3 V4 V5 V6 V7] E Hann Hback. cbn in *.
  assert (forall j q, <[i := set_fly fl p]> g !! j = Some q -> exists q', g !! j = Some q' /\ p_phase q = p_phase q') as Hq.
  { intros j q [[-> ->] | [_ Hj]]%(lookup_upd g i p); [| | done]; [by exists p | by exists q]. }
  assert (forall k, held sh k (w, g) -> held sh k (w', <[i := set_fly fl p]> g)) as Hheld.
  { intros k [Ha | [Ha Hp]]; [left; by apply Hann | right; split; [done |]].
    intros q (q' & Hq' & Eq)%Hq. rewrite Eq. by apply Hp. }
  constructor; cbn; [done | | | | | | |].
  - intros q [[<- ->] | [_ Hj]]%(lookup_upd g i p); [by apply (V2 p) | by apply V2 | done].
  - intros q [[<- ->] | [_ Hj]]%(lookup_upd g i p); [by apply (V8 p) | by apply V8 | done].
  - intros j q (q' & Hq' & Eq)%Hq. rewrite Eq. by apply (V3 j).
  - intros k Hk Hno. apply Hheld, V4; [done |]. intros j q Hj.
    destruct (decide (j = i)) as [-> | Hne].
    + rewrite E in Hj. injection Hj as <-. apply (Hno i (set_fly fl p)).
      by rewrite list_lookup_insert_eq by by eapply lookup_lt_Some.
    + apply (Hno j). by rewrite list_lookup_insert_ne.
  - intros j q (q' & Hq' & Eq)%Hq Hwait. unfold waits in Hwait. rewrite Eq in Hwait.
    destruct (V5 j q' Hq' Hwait) as (k & Hk & Hh). exists k. split; [done | by apply Hheld].
  - intros k Hk Ha. apply (V6 k Hk). by apply Hback.
  - intros j q (q' & Hq' & Eq)%Hq. rewrite Eq. by apply (V7 j).
Qed.

Lemma inv_quiet w w' g i p fl :
  inv (w, g) -> g !! i = Some p -> shareds w' = shareds w -> os w' = os w -> wakers w' = wakers w ->
  woken w ⊆ woken w' -> (forall k, k ∈ woken w' -> k ∈ woken w \/ k ∈ p_fly p) ->
  (forall k, k ∈ p_fly p -> k ∈ fl \/ k ∈ woken w') ->
  (reactors w' !! rid = reactors w !! rid /\ fl ⊆ p_fly p \/
   exists x l, reactors w !! rid = Some x /\ reactors w' !! rid = Some (with_dispatch l x) /\
     a_writer l = false /\ moved (slab_of x) (a_value l) (p_fly p) fl) ->
  inv (w', <[i := set_fly fl p]> g).
Proof.
  intros [(sh & Esh & Hso) H2 H3 H4 H5 H6 H7 H8] E Es Eo Ek0 Hw Hw' Hf Hr. cbn in *.
  assert (forall k, announced k (w, g) -> announced k (w', <[i := set_fly fl p]> g)) as Hann.
  { intros k. by apply announced_upd with (p := p). }
  assert (forall k, kd = Some k -> announced k (w', <[i := set_fly fl p]> g) -> announced k (w, g)) as Hback.
  { intros k Hk [Ha | [[Hk' Hn] | Hk']]%(announced_inv k w w' g i p); [done | | | done].
    - destruct (Hw' k Hk') as [? | Hp]; [done | right; by exists i, p].
    - cbn in Hk'. assert (k ∈ p_fly p) as Hp; [| right; by exists i, p].
      destruct Hr as [[_ Hs] | (x & l & Ex & _ & _ & Hm)]; [by apply Hs |].
      destruct (mv_fly _ _ _ _ Hm k Hk') as [? | Hin]; [done |]. by destruct (H7 k x Hk Ex). }
  constructor; cbn.
  - exists sh. rewrite Es. split; [done |]. by apply (shared_quiet sh w).
  - by rewrite (count_same _ _ _ p).
  - assert (count p_hold (<[i := set_fly fl p]> g) = count p_hold g) as C1 by by apply (count_same _ _ _ p).
    assert (count p_drop (<[i := set_fly fl p]> g) = count p_drop g) as C2 by by apply (count_same _ _ _ p).
    destruct Hr as [[-> _] | (x & l & Ex & -> & Hl & _)].
    + destruct (reactors w !! rid); [| by rewrite C1, C2]. destruct H3. constructor; by rewrite ?C1, ?C2.
    + rewrite Ex in H3. destruct H3. constructor; cbn; by rewrite ?C1, ?C2.
  - intros key io d k Eg Ek. destruct (H4 key io d k Eg Ek) as [Ha | (x & i' & Ex & Ei & Ek')]; [left; by apply Hann |].
    cbn in Ex. destruct Hr as [[Er _] | (x1 & l & Ex1 & Er & _ & Hm)].
    + right. exists x, i'. cbn. by rewrite Er.
    + rewrite Ex1 in Ex. injection Ex as ->. destruct (mv_keep _ _ _ _ Hm key i' d k Ei Ek') as [Hin | (i2 & E2 & Ek2)].
      * left. right. exists i, (set_fly fl p). cbn. split; [by rewrite list_lookup_insert_eq by by eapply lookup_lt_Some | done].
      * right. by eexists _, i2.
  - by rewrite Eo.
  - by apply (awake_quiet w w' g i p).
  - intros k x Hk Ex Hin. destruct Hr as [[Er _] | (x1 & l & Ex1 & Er & _ & Hm)]; rewrite Er in Ex; [by apply (H7 k x) |].
    injection Ex as <-. apply (H7 k x1 Hk Ex1). by apply (mv_new _ _ _ _ Hm).
  - intros k Hk. rewrite Ek0. by apply H8.
Qed.

(** An access of the thread that has the sources to itself. *)
Lemma wp_ctl {A B} i p l fl l' a (f : ReactorInner -> step_res ReactorInner A) (c : A -> prg B) Q s :
  ctl i p l s -> (forall x, io_dispatch x = l -> f x = Next a (with_dispatch l' x)) ->
  a_writer l' = false -> moved (a_value l) (a_value l') (p_fly p) fl -> p_fly p ⊆ fl ->
  (forall s', ctl i (set_fly fl p) l' s' -> WP i (c a) Q s') ->
  WP i (bind (on_reactor rid f) c) Q s.
Proof.
  intros Hp Hf Hl Hm Hfl Hc. unfold on_reactor. eapply wp_action; [apply ctl_stable | exact Hp |].
  intros w g (E & Hct & El) Hi. cbn in *. destruct (reactors w !! rid) as [x |] eqn:Ex; [| done].
  injection El as El. rewrite (Hf x El). exists (<[i := set_fly fl p]> g).
  assert (reactors (set_reactor rid (with_dispatch l' x) w) !! rid = Some (with_dispatch l' x)) as Ex' by apply lookup_insert_eq.
  split_and!.
  - apply (inv_quiet w _ g i p fl); try done; [by left | by intros k Hk; left; apply Hfl |]. right. exists x, l'.
    split_and!; [done | done | done |]. unfold slab_of. by rewrite El.
  - apply act_upd with (p := p); [done | by left].
  - apply Hc. split_and!; [by apply list_lookup_insert_eq, (lookup_lt_Some _ _ _ E) | by destruct Hct as [|[]]; [left | right] |].
    cbn [fst]. by rewrite Ex'.
Qed.

Lemma set_fly_id p : set_fly (p_fly p) p = p.
Proof. by destruct p. Qed.

Lemma set_fly_same p fl : p_fly p = fl -> set_fly fl p = p.
Proof. intros <-. apply set_fly_id. Qed.

(** ... that only looks at the reactor. *)
Lemma wp_ctl_get {A B} i p l a (f : ReactorInner -> step_res ReactorInner A) (c : A -> prg B) Q s :
  ctl i p l s -> (forall x, io_dispatch x = l -> f x = Next a x) -> a_writer l = false ->
  (forall s', ctl i p l s' -> WP i (c a) Q s') ->
  WP i (bind (on_reactor rid f) c) Q s.
Proof.
  intros Hp Hf Hl Hc. eapply (wp_ctl i p l (p_fly p) l); [exact Hp | | done | apply moved_refl | done |].
  - intros x El. rewrite (Hf x El). by rewrite <- El, with_dispatch_id.
  - by rewrite set_fly_id.
Qed.

(** ... to one source. *)
Record cells_moved (io io' : ScheduledIo) (fl0 fl : list waker) : Prop := {
  cm_keep d k : aw_waker (aw_of d io) = Some k -> k ∈ fl \/ aw_waker (aw_of d io') = Some k;
  cm_new d k : aw_waker (aw_of d io') = Some k -> aw_waker (aw_of d io) = Some k;
  cm_fly k : k ∈ fl -> k ∈ fl0 \/ exists d, aw_waker (aw_of d io) = Some k;
}.

Lemma cells_moved_same io io' fl : (forall d, aw_of d io' = aw_of d io) -> cells_moved io io' fl fl.
Proof. intros Hs. constructor; [intros d k; rewrite Hs; by right | intros d k; by rewrite Hs | by left]. Qed.

(** Taking the waker of one direction. *)
Lemma cells_moved_take d io fl :
  cells_moved io (with_aw d (aw_take (aw_of d io)).2 io) fl (opt_list (aw_waker (aw_of d io)) ++ fl).
Proof.
  constructor.
  - intros d' k Ek. destruct (decide (d' = d)) as [-> | Hne].
    + left. rewrite Ek. set_solver.
    + right. by destruct d, d'.
  - intros d' k Ek. destruct (decide (d' = d)) as [-> | Hne]; [| by destruct d, d'].
    assert (aw_waker (aw_of d (with_aw d (aw_take (aw_of d io)).2 io)) = None) as E0 by (destruct d; apply aw_take_waker).
    by rewrite E0 in Ek.
  - intros k [Hk | Hk]%elem_of_app; [right; exists d | by left].
    destruct (aw_waker (aw_of d io)); cbn in Hk; [| by apply not_elem_of_nil in Hk].
    by apply list_elem_of_singleton in Hk as ->.
Qed.

Lemma moved_set v key io io' fl0 fl :
  slab_get key v = Some io -> cells_moved io io' fl0 fl -> moved v (slab_set key io' v) fl0 fl.
Proof.
  intros Ei [K N L]. constructor.
  - intros key' j d k Ej Ek. rewrite slab_set_get by by eexists. case_decide as Hk.
    + subst key'. simplify_eq. destruct (K d k Ek) as [? | ?]; [by left | right; by eexists].
    + right. by exists j.
  - intros k (key' & j & d & Ej & Ek). rewrite slab_set_get in Ej by by eexists. case_decide as Hk.
    + injection Ej as <-. exists key, io, d. split; [done | by apply N].
    + by exists key', j, d.
  - intros k Hk. destruct (L k Hk) as [? | (d & Ek)]; [by left | right; by exists key, io, d].
Qed.

Lemma wp_ctl_io {A B} i p r v key io a io' fl (f : ScheduledIo -> A * ScheduledIo) (c : A -> prg B) Q s :
  ctl i p (mkARwLock r false v) s -> slab_get key v = Some io -> f io = (a, io') -> p_fly p ⊆ fl ->
  cells_moved io io' (p_fly p) fl ->
  (forall s', ctl i (set_fly fl p) (mkARwLock r false (slab_set key io' v)) s' -> WP i (c a) Q s') ->
  WP i (bind (on_io rid key f) c) Q s.
Proof.
  intros Hp Ei Ef Hfl Hm Hc. unfold on_io.
  eapply (wp_ctl i p _ fl (mkARwLock r false (slab_set key io' v))); [exact Hp | | done | | done | done].
  - intros x El. unfold slab_of. rewrite El. cbn. rewrite Ei, Ef. unfold with_slab. by rewrite El.
  - by eapply moved_set.
Qed.

(** Waking a task whose waker the thread has taken. *)
Lemma inv_wake w g i p k fl :
  inv (w, g) -> g !! i = Some p -> p_fly p = k :: fl ->
  inv (set_woken (woken w ++ [k]) w, <[i := set_fly fl p]> g).
Proof.
  intros Hi E Hfl. apply (inv_quiet w _ g i p fl); try done; cbn.
  - set_solver.
  - intros k'. rewrite elem_of_app, list_elem_of_singleton, Hfl. set_solver.
  - intros k'. rewrite elem_of_app, list_elem_of_singleton, Hfl. set_solver.
  - left. split; [done |]. rewrite Hfl. set_solver.
Qed.

Lemma wp_mine_wake {B} i p k fl (c : unit -> prg B) Q s :
  mine i p s -> p_fly p = k :: fl -> (forall s', mine i (set_fly fl p) s' -> WP i (c tt) Q s') ->
  WP i (bind (wake k) c) Q s.
Proof.
  intros Hp Hfl Hc. unfold wake. eapply wp_atom; [apply mine_stable | exact Hp |]. intros w g E Hi. cbn in *.
  exists (<[i := set_fly fl p]> g). split_and!; [| by apply act_upd with (p := p); [done | right] |].
  - by apply inv_wake.
  - apply Hc. by apply list_lookup_insert_eq, (lookup_lt_Some _ _ _ E).
Qed.

Lemma wp_ctl_wake_opt {B} i p l o fl (c : unit -> prg B) Q s :
  ctl i p l s -> p_fly p = opt_list o ++ fl ->
  (forall s', ctl i (set_fly fl p) l s' -> WP i (c tt) Q s') ->
  WP i (bind (wake_opt o) c) Q s.
Proof.
  intros Hp Hfl Hc. destruct o as [k |]; cbn [wake_opt opt_list app] in *.
  2: { cbn. apply Hc. by rewrite <- Hfl, set_fly_id. }
  unfold wake. eapply wp_atom; [apply ctl_stable | exact Hp |]. intros w g (E & Hct & El) Hi. cbn in *.
  exists (<[i := set_fly fl p]> g). split_and!; [| by apply act_upd with (p := p); [done | right] |].
  - by apply inv_wake.
  - apply Hc. split_and!; [by apply list_lookup_insert_eq, (lookup_lt_Some _ _ _ E) | | done].
    by destruct Hct as [|[]]; [left | right].
Qed.

(** *** Delivering an event *)
Lemma set_fly_twice fl fl' p : set_fly fl (set_fly fl' p) = set_fly fl p.
Proof. done. Qed.

(** Taking the waker of one direction, if the event concerns it. *)
Lemma wp_take_if {B} i p r v key io d (b : bool) (c : option waker -> prg B) Q s :
  ctl i p (mkARwLock r false v) s -> slab_get key v = Some io ->
  (forall o v' io' s', ctl i (set_fly (opt_list o ++ p_fly p) p) (mkARwLock r false v') s' ->
     slab_get key v' = Some io' -> WP i (c o) Q s') ->
  WP i (bind (if b then io_take rid key d else Ret None) c) Q s.
Proof.
  intros Hp Ei Hc. destruct b; cbn [bind].
  2: { apply (Hc None v io); [cbn; by rewrite set_fly_id | done]. }
  unfold io_take. set (o := aw_waker (aw_of d io)).
  eapply (wp_ctl_io i p r v key io o (with_aw d (aw_take (aw_of d io)).2 io) (opt_list o ++ p_fly p));
    [exact Hp | done | by rewrite (surjective_pairing (aw_take _)) | set_solver | apply cells_moved_take |].
  intros s' Hs'. eapply Hc; [exact Hs' |]. rewrite slab_set_get by by eexists. by rewrite decide_True.
Qed.

Lemma wp_dispatch_body {B} i p r v token ready (c : option (option waker * option waker) -> prg B) Q s :
  ctl i p (mkARwLock r false v) s -> p_fly p = [] ->
  (forall s' v', ctl i p (mkARwLock r false v') s' -> WP i (c None) Q s') ->
  (forall rd wr s' v', ctl i (set_fly (opt_list rd ++ opt_list wr) p) (mkARwLock r false v') s' ->
     WP i (c (Some (rd, wr))) Q s') ->
  WP i (bind (let! io := Inner.io_dispatch_get rid (Z.land token MAX_SOURCES) in
     match io with
     | None => Ret None
     | Some io_aba_guard =>
         if negb (Z.land token (unot MAX_SOURCES) =? io_aba_guard) then Ret None
         else
           let! _ := readiness_fetch_or rid (Z.land token MAX_SOURCES) ready in
           let! wr := if Ready_contains ready Ready_writable || platform.is_hup ready
                      then io_take rid (Z.land token MAX_SOURCES) Write else Ret None in
           let! rd := if negb (Ready_is_empty (Z.land ready (unot Ready_writable)))
                      then io_take rid (Z.land token MAX_SOURCES) Read else Ret None in
           Ret (Some (rd, wr))
     end) c) Q s.
Proof.
  intros Hp Hfl HN HS. set (key := Z.land token MAX_SOURCES). wp_assoc. unfold Inner.io_dispatch_get.
  eapply wp_ctl_get; [exact Hp | intros x El; unfold slab_of; by rewrite El | done |]. intros s1 H1. cbn [a_value].
  destruct (slab_get key v) as [io |] eqn:Ei; cbn [fmap option_fmap option_map bind]; [| by eapply HN].
  destruct (negb _); cbn [bind]; [by eapply HN |]. wp_assoc. unfold readiness_fetch_or.
  eapply (wp_ctl_io i p r v key io); [exact H1 | exact Ei | done | done | by apply cells_moved_same; intros [] |].
  intros s2 H2. rewrite set_fly_id in H2. wp_assoc.
  eapply wp_take_if; [exact H2 | by rewrite slab_set_get, decide_True by (done || by eexists) |].
  intros wr v2 io2 s3 H3 Ei2. wp_assoc. eapply wp_take_if; [exact H3 | exact Ei2 |].
  intros rd v3 io3 s4 H4 _. cbn [bind]. eapply HS. rewrite set_fly_twice in H4. cbn in H4.
  rewrite Hfl, app_nil_r in H4. exact H4.
Qed.

Lemma wp_dispatch_race {B} i p r v token ready (c : unit -> prg B) Q s :
  ctl i p (mkARwLock r false v) s -> p_fly p = [] ->
  (forall s' v', ctl i p (mkARwLock r false v') s' -> WP i (c tt) Q s') ->
  WP i (bind (Reactor.dispatch rid token ready) c) Q s.
Proof.
  intros Hp Hfl Hc. unfold Reactor.dispatch, Inner.with_read, io_dispatch_read, io_dispatch_drop_read. wp_assoc.
  eapply (wp_ctl i p _ (p_fly p) (mkARwLock (S r) false v)); [exact Hp | by intros x -> | done | apply moved_refl | done |].
  rewrite set_fly_id. intros s1 H1. cbv beta.
  apply wp_bind_assoc. eapply wp_dispatch_body; [exact H1 | done | |].
  - intros s2 v2 H2. wp_assoc.
    eapply (wp_ctl i p _ (p_fly p) (mkARwLock r false v2)); [exact H2 | by intros x -> | done | apply moved_refl | done |].
    rewrite set_fly_id. intros s3 H3. cbn [bind]. by eapply Hc.
  - intros rd wr s2 v2 H2. wp_assoc. set (p2 := set_fly _ p) in *.
    eapply (wp_ctl i p2 _ (p_fly p2) (mkARwLock r false v2)); [exact H2 | by intros x -> | done | apply moved_refl | done |].
    rewrite set_fly_id. intros s3 H3. cbn [bind]. wp_assoc.
    eapply (wp_ctl_wake_opt i p2 _ rd (opt_list wr)); [exact H3 | done |]. intros s4 H4.
    eapply (wp_ctl_wake_opt _ _ _ wr []); [exact H4 | cbn; by rewrite app_nil_r |]. intros s5 H5.
    eapply Hc. change (set_fly [] _) with (set_fly [] p) in H5. rewrite set_fly_same in H5 by done. exact H5.
Qed.

(** *** Steps that change a phase or a reference *)
Lemma shared_upd sh w w' g i p p' :
  shared_ok sh (w, g) -> g !! i = Some p -> woken w' = woken w -> p_fly p' = p_fly p ->
  (i = 0%nat -> same_end p p') ->
  (has_asked (p_phase p') = true -> shutdown sh <> 0) -> wait_phase (p_phase p') = wait_phase (p_phase p) ->
  shared_ok sh (w', <[i := p']> g).
Proof.
  intros [V1 V2 V8 V3 V4 V5 V6 V7] E Ew Ef H0' Ha Hph.
  assert (forall k, held sh k (w, g) -> held sh k (w', <[i := p']> g)) as Hheld.
  { intros k [Ht | [Ht Hp]]; [left; by apply (announced_same k w w' g i p p') |].
    right. split; [done |]. intros q [[<- ->] | [_ Hq]]%(lookup_upd g i p); [| by apply Hp | done].
    intros Hq. by apply (Hp p), (H0' eq_refl). }
  constructor; cbn; [done | | | | | | |].
  - intros q [[<- ->] | [_ Hq]]%(lookup_upd g i p); [| by apply V2 | done].
    rewrite (proj1 (H0' eq_refl)). by apply V2.
  - intros q [[<- ->] | [_ Hq]]%(lookup_upd g i p) He; [| by apply V8 | done].
    destruct (H0' eq_refl) as (Hend & _ & Hsame). destruct (Hsame He) as [-> ->]. by apply (V8 p E), Hend.
  - intros j q [[-> ->] | [_ Hq]]%(lookup_upd g i p); [done | by apply (V3 j) | done].
  - intros k Hk Hno. apply Hheld, V4; [done |]. intros j q Hj. destruct (decide (j = i)) as [-> | Hne].
    + cbn in Hj. rewrite E in Hj. injection Hj as <-. rewrite <- (wait_phase_registered _ _ Hph).
      apply (Hno i). by rewrite list_lookup_insert_eq by by eapply lookup_lt_Some.
    + apply (Hno j). by rewrite list_lookup_insert_ne.
  - intros j q Hj Hwait. assert (exists q', g !! j = Some q' /\ waits sh q') as (q' & Hq' & Hwait').
    { destruct (lookup_upd g i p _ _ _ E Hj) as [[-> ->] | [_ Hq]]; [| by exists q]. exists p. split; [done |].
      unfold waits in *. by rewrite (wait_phase_eq _ _ Hph) by by destruct Hwait as [-> | [-> _]]. }
    destruct (V5 j q' Hq' Hwait') as (k & Hk & Hh). exists k. split; [done | by apply Hheld].
  - intros k Hk Hann. apply (V6 k Hk). by apply (announced_same k w w' g i p p').
  - intros j q [[-> ->] | [_ Hq]]%(lookup_upd g i p); [| by apply (V7 j) | done]. intros Hd.
    apply (V7 i p E). by rewrite (wait_phase_eq _ _ Hph) by by destruct Hd as [-> | ->].
Qed.

(** A step that leaves the sources and the contexts alone. *)
Lemma fresh_upd (w w' : World) :
  fresh_ok w -> (forall x', reactors w' !! rid = Some x' -> exists x, reactors w !! rid = Some x /\ slab_of x' = slab_of x) ->
  fresh_ok w'.
Proof. intros Hf Hr k x' Hk Ex' Hin. destruct (Hr x' Ex') as (x & Ex & Es). apply (Hf k x Hk Ex). by rewrite <- Es. Qed.

Lemma fresh_same (w w' : World) : fresh_ok w -> reactors w' = reactors w -> fresh_ok w'.
Proof. intros Hf Er. apply (fresh_upd w); [done |]. intros x Hx. exists x. by rewrite <- Er. Qed.

Lemma tasks_upd w w' g i p p' :
  tasks_ok (w, g) -> g !! i = Some p -> woken w' = woken w -> p_fly p' = p_fly p ->
  (forall x, reactors w !! rid = Some x -> exists x', reactors w' !! rid = Some x' /\ slab_of x' = slab_of x) ->
  tasks_ok (w', <[i := p']> g).
Proof.
  intros Ht E Ew Ef Hr key io d k Eg Ek. destruct (Ht key io d k Eg Ek) as [Ha | (x & i' & Ex & Ei & Ek')].
  - left. apply (announced_upd k w w' g i p p'); [done | by rewrite Ew | intros ? ?; rewrite Ef; by left | done].
  - right. destruct (Hr x Ex) as (x' & Ex' & Es). exists x', i'. by rewrite Es.
Qed.

(** The loop can still wait, and the wakeup is still on its way. *)
Lemma awake_upd w w' g i p p' :
  awake (w, g) -> g !! i = Some p -> i <> 0%nat -> (asked w' -> asked w) -> os w' = os w ->
  (p_phase p = SWon -> p_phase p' = SWon) -> awake (w', <[i := p']> g).
Proof.
  intros Haw E Hi Ha Eo Hp q Hq Hph. cbn in *. rewrite list_lookup_insert_ne in Hq by done.
  destruct (Haw q Hq Hph) as [Hh Hpoll]. split; [done |]. cbn. rewrite Eo. intros Hask Hno.
  apply Hpoll; [by apply Ha |]. intros j q' Hj Hw. cbn in Hj. destruct (decide (j = i)) as [-> | Hne].
  - rewrite E in Hj. injection Hj as <-. apply (Hno i p'); [| by apply Hp].
    by rewrite list_lookup_insert_eq by by eapply lookup_lt_Some.
  - apply (Hno j q'); [by rewrite list_lookup_insert_ne | done].
Qed.

(** The loop does not wait, or has its reference. *)
Lemma awake_loop w g p p' : g !! 0%nat = Some p -> p_phase p' <> LStale -> awake (w, <[0%nat := p']> g).
Proof. intros E Hp q [[_ ->] | [? _]]%(lookup_upd g 0 p) Hq; done. Qed.

Lemma won_upd g i p p' : g !! i = Some p -> (count is_won g <= 1)%nat -> p_phase p' <> SWon ->
  (count is_won (<[i := p']> g) <= 1)%nat.
Proof.
  intros E Hc Hp. pose proof (count_insert is_won g i p p' E) as C. unfold is_won at 4 in C.
  rewrite bool_decide_eq_false_2 in C by done. cbn in C. lia.
Qed.

Lemma mine_upd (w : World) g i p p' : g !! i = Some p -> mine i p' (w, <[i := p']> g).
Proof. intros E. by apply list_lookup_insert_eq, (lookup_lt_Some _ _ _ E). Qed.

(** [Arc::drop], up to the test whether it was the last one. *)
Lemma wp_dec {B} i p (c : nat -> prg B) Q s :
  mine i p s -> p_hold p = true -> p_drop p = false -> (i = 0%nat -> p_phase p = LTop) ->
  (forall n s', mine i (set_hold false p) s' -> WP i (c (S n)) Q s') ->
  (forall r v s', ctl i (set_drop true (set_hold false p)) (mkARwLock r false v) s' -> WP i (c 0%nat) Q s') ->
  WP i (bind (on_reactor rid (fun x => Next (pred (strong x)) (with_strong (pred (strong x)) x))) c) Q s.
Proof.
  intros Hp Hh Hd Hph HS HO. unfold on_reactor. eapply wp_action; [apply mine_stable | exact Hp |].
  intros w g E Hi. pose proof Hi as [(sh & Esh & Hso) H2 H3 H4 H5 H6 H7 H8]. unfold mine in E. cbn in *.
  pose proof (count_pos p_hold g i p E Hh) as Hpos.
  destruct (reactors w !! rid) as [x |] eqn:Ex; [| lia]. destruct H3 as [R1 R2 R3 R4 R5].
  set (x' := with_strong (pred (strong x)) x). set (w' := set_reactor rid x' w).
  assert (reactors w' !! rid = Some x') as Ex' by apply lookup_insert_eq.
  set (p' := mkPart (p_phase p) false (bool_decide (pred (strong x) = 0%nat)) (p_fly p)).
  pose proof (count_insert p_hold g i p p' E) as Ch. pose proof (count_insert p_drop g i p p' E) as Cd.
  rewrite Hh in Ch. rewrite Hd in Cd. cbn in Ch, Cd. rewrite decide_False in R5 by lia.
  exists (<[i := p']> g). split_and!.
  - constructor; cbn [fst snd].
    + exists sh. split; [done |]. apply (shared_upd sh w w' g i p p'); try done;
      [intros Hi0; apply same_end_not; apply not_ended; left; by apply Hph |]. intros Ha. by apply (so_asked _ _ Hso i p).
    + rewrite (count_same is_won g i p p') by done. done.
    + rewrite Ex'. constructor; cbn; [done | done | lia | done |]. unfold x' in *. cbn.
      repeat case_decide; cbn in *; try lia; rewrite ?bool_decide_eq_true_2, ?bool_decide_eq_false_2 in * by done; cbn in *; lia.
    + apply (tasks_upd w w' g i p p'); try done. intros y Ey. rewrite Ex in Ey. injection Ey as <-. by exists x'.
    + done.
    + destruct (decide (i = 0%nat)) as [-> | Hne]; [eapply awake_loop; [done | by cbn; rewrite Hph] |].
      by apply (awake_upd w w' g i p p').
    + apply (fresh_upd w); [done |]. intros y Ey.
      pose proof (eq_trans (eq_sym Ex') Ey) as [= <-]. by exists x.
    + done.
  - apply act_upd with (p := p); [done |]. right. rewrite Ex', Ex. done.
  - destruct (pred (strong x)) as [| m] eqn:Es; cbn in p'.
    + eapply (HO (a_readers (io_dispatch x)) (a_value (io_dispatch x))).
      split_and!; [by eapply mine_upd | by left |]. cbn [fst]. rewrite Ex'. cbn. rewrite <- R4. by destruct (io_dispatch x).
    + apply HS. assert (set_hold false p = p') as -> by (unfold p', set_hold; by rewrite Hd). by eapply mine_upd.
Qed.

(** *** Dropping the reactor *)
Definition empty_cells (v : slab ScheduledIo) (but : list Z) : Prop := forall key io d,
  slab_get key v = Some io -> key ∉ but -> aw_waker (aw_of d io) = None.

(** [AtomicWaker::wake] on one cell of a source. *)
Lemma wp_io_wake_race {B} i p r v key io d (c : unit -> prg B) Q s :
  ctl i p (mkARwLock r false v) s -> p_fly p = [] -> slab_get key v = Some io ->
  (forall s', ctl i p (mkARwLock r false (slab_set key (with_aw d (aw_take (aw_of d io)).2 io) v)) s' -> WP i (c tt) Q s') ->
  WP i (bind (io_wake rid key d) c) Q s.
Proof.
  intros Hp Hfl Ei Hc. unfold io_wake, io_take. wp_assoc. set (o := aw_waker (aw_of d io)).
  eapply (wp_ctl_io i p r v key io o (with_aw d (aw_take (aw_of d io)).2 io) (opt_list o ++ p_fly p));
    [exact Hp | done | by rewrite (surjective_pairing (aw_take _)) | set_solver | apply cells_moved_take |].
  intros s1 H1. rewrite Hfl, app_nil_r in H1.
  eapply (wp_ctl_wake_opt _ _ _ o []); [exact H1 | cbn; by rewrite app_nil_r |].
  intros s2 H2. apply Hc. change (set_fly [] _) with (set_fly [] p) in H2. by rewrite set_fly_same in H2.
Qed.

Lemma wp_wake_all {B} i p r keys (c : unit -> prg B) Q : p_fly p = [] -> forall v s,
  ctl i p (mkARwLock r false v) s -> Forall (fun key => is_Some (slab_get key v)) keys -> empty_cells v keys ->
  (forall s' v', ctl i p (mkARwLock r false v') s' -> empty_cells v' [] -> WP i (c tt) Q s') ->
  WP i (bind (Inner.wake_all rid keys) c) Q s.
Proof.
  intros Hfl. induction keys as [| key keys IH]; intros v s Hp Hall He Hc; cbn [Inner.wake_all bind]; [by eapply Hc |].
  apply Forall_cons in Hall as [[io Ei] Hall]. wp_assoc.
  eapply wp_io_wake_race; [exact Hp | done | exact Ei |]. intros s1 H1. wp_assoc. set (io1 := with_aw Write _ io) in *.
  eapply (wp_io_wake_race _ _ _ _ _ io1); [exact H1 | done | by rewrite slab_set_get, decide_True by (done || by eexists) |].
  intros s2 H2. rewrite slab_set_set in H2. set (io2 := with_aw Read _ io1) in *.
  assert (forall k, slab_get k (slab_set key io2 v) = if decide (k = key) then Some io2 else slab_get k v) as Hg.
  { intros k. by rewrite slab_set_get by by eexists. }
  apply (IH (slab_set key io2 v)); [done | | | done].
  - eapply Forall_impl; [exact Hall |]. intros k [j Hj]. rewrite Hg. case_decide; by eexists.
  - intros k j d. rewrite Hg. case_decide as Hk; [| intros Ej Hn; apply (He k j d Ej); set_solver].
    intros [= <-] _. unfold io2, io1. destruct d; cbn; apply aw_take_waker.
Qed.

(** The dropped reactor is freed: no task waits there any more. *)
Lemma wp_free {B} i p l (c : unit -> prg B) Q s :
  ctl i p l s -> p_drop p = true -> p_hold p = false -> empty_cells (a_value l) [] ->
  (i = 0%nat -> p_phase p = LTop) ->
  (forall s', mine i (set_drop false p) s' -> WP i (c tt) Q s') ->
  WP i (bind (atom (fun w => (tt, set_reactors (delete rid (reactors w)) w))) c) Q s.
Proof.
  intros Hp Hd Hh He Hph Hc. eapply wp_atom; [apply ctl_stable | exact Hp |].
  intros w g (E & Hct & El) Hi. pose proof Hi as [(sh & Esh & Hso) H2 H3 H4 H5 H6 H7 H8]. unfold mine in E. cbn in *.
  set (w' := set_reactors (delete rid (reactors w)) w).
  assert (reactors w' !! rid = None) as Ex' by apply lookup_delete_eq.
  destruct (reactors w !! rid) as [x |] eqn:Ex; [| done]. injection El as El. destruct H3 as [R1 R2 R3 R4 R5].
  pose proof (count_insert p_drop g i p (set_drop false p) E) as Cd. rewrite Hd in Cd. cbn in Cd.
  case_decide as Hs; [| lia]. exists (<[i := set_drop false p]> g). split_and!.
  - constructor; cbn [fst snd].
    + exists sh. split; [done |]. apply (shared_upd sh w w' g i p); try done;
      [intros Hi0; apply same_end_not; apply not_ended; left; by apply Hph |]. intros Ha. by apply (so_asked _ _ Hso i p).
    + by rewrite (count_same is_won g i p).
    + rewrite Ex', (count_same p_hold g i p) by done. split; lia.
    + intros key io d k Eg Ek. left. apply (announced_upd k w w' g i p); [done | done | by left |].
      destruct (H4 key io d k Eg Ek) as [Ha | (y & i' & Ey & Ei & Ek')]; [done | exfalso]. cbn in Ey.
      rewrite Ex in Ey. injection Ey as <-. unfold slab_of in Ei. rewrite El in Ei.
      rewrite (He key i' d Ei) in Ek' by set_solver. done.
    + done.
    + destruct (decide (i = 0%nat)) as [-> | Hne]; [eapply awake_loop; [done | by cbn; rewrite Hph] |].
      by apply (awake_upd w w' g i p).
    + intros k y _ Ey. by pose proof (eq_trans (eq_sym Ex') Ey).
    + done.
  - apply act_upd with (p := p); [done |]. by left.
  - apply Hc. by eapply mine_upd.
Qed.

Lemma wp_arc_drop_race {B} i p (c : unit -> prg B) Q s :
  mine i p s -> p_hold p = true -> p_drop p = false -> p_fly p = [] -> (i = 0%nat -> p_phase p = LTop) ->
  (forall s', mine i (set_hold false p) s' -> WP i (c tt) Q s') ->
  WP i (bind (Inner.arc_drop rid) c) Q s.
Proof.
  intros Hp Hh Hd Hfl Hph Hc. unfold Inner.arc_drop. wp_assoc. eapply wp_dec; [exact Hp | done | done | done | done |].
  set (p' := set_drop true (set_hold false p)). intros r v s1 H1. cbv beta iota.
  unfold Inner.drop, Inner.with_read, io_dispatch_read, io_dispatch_drop_read. wp_assoc.
  eapply (wp_ctl i p' _ (p_fly p') (mkARwLock (S r) false v)); [exact H1 | by intros x -> | done | apply moved_refl | done |].
  rewrite set_fly_id. intros s2 H2. cbv beta. apply wp_bind_assoc. apply wp_bind_assoc. unfold Inner.io_dispatch_keys.
  eapply wp_ctl_get; [exact H2 | intros x El; unfold slab_of; by rewrite El | done |]. intros s3 H3. cbn [a_value].
  eapply (wp_wake_all i p'); [done | exact H3 | | |].
  { apply Forall_forall. intros key. rewrite list_elem_of_fmap. intros ([key' io] & -> & Hin).
    apply slab_iter_get in Hin. by eexists. }
  { intros key io d Ei Hn. exfalso. apply Hn. apply list_elem_of_fmap. exists (key, io). split; [done |].
    by apply slab_iter_get. }
  intros s4 v4 H4 He. wp_assoc.
  eapply (wp_ctl i p' _ (p_fly p') (mkARwLock r false v4)); [exact H4 | by intros x -> | done | apply moved_refl | done |].
  rewrite set_fly_id. intros s5 H5. cbn [bind].
  eapply wp_free; [exact H5 | done | done | exact He | done |]. intros s6 H6. apply Hc.
  unfold p' in H6. destruct p; cbn in *. by subst.
Qed.

(** *** Asking the loop to stop *)

(** [Weak::upgrade]: there is a reference to get, or the loop has let go of its own. *)
Lemma wp_upgrade_race {B} i p (c : option ReactorId -> prg B) Q s :
  mine i p s -> i <> 0%nat -> p_phase p = SWon -> p_hold p = false ->
  (forall s', mine i (set_hold true p) s' -> WP i (c (Some rid)) Q s') ->
  (forall s', mine i (set_phase SFin p) s' -> WP i (c None) Q s') ->
  WP i (bind (upgrade rid) c) Q s.
Proof.
  intros Hp Hi0 Hph Hh HS HN. unfold upgrade. eapply wp_atom; [apply mine_stable | exact Hp |].
  intros w g E Hi. pose proof Hi as [(sh & Esh & Hso) H2 H3 H4 H5 H6 H7 H8]. unfold mine in E. cbn in *.
  assert (count p_hold g = 0%nat -> exists g', inv (w, g') /\ act i (w, g) (w, g') /\ WP i (c None) Q (w, g')) as Hgone.
  { intros C0. exists (<[i := set_phase SFin p]> g). split_and!; [| by apply act_upd with (p := p); [done | right] |].
    2: { apply HN. by eapply mine_upd. }
    constructor; cbn [fst snd].
    + exists sh. split; [done |]. apply (shared_upd sh w w g i p); try done; [| cbn; by rewrite Hph].
      intros _. apply (so_asked _ _ Hso i p); [done | by rewrite Hph].
    + by apply (won_upd g i p).
    + destruct (reactors w !! rid); [destruct H3; constructor |];
        by rewrite ?(count_same p_hold g i p), ?(count_same p_drop g i p).
    + apply (tasks_upd w w g i p); try done. intros x Hx. by exists x.
    + done.
    + intros q Hq Hst. cbn in Hq. rewrite list_lookup_insert_ne in Hq by done. destruct (H6 q Hq Hst) as [Hhq _].
      pose proof (count_pos p_hold g _ q Hq Hhq). lia.
    + done.
    + done. }
  assert (reactors w !! (rid : HandlePriv) = reactors w !! (rid : ReactorId)) as -> by done.
  destruct (reactors w !! (rid : ReactorId)) as [x |] eqn:Ex; [| by apply Hgone, H3]. pose proof H3 as [R1 R2 R3 R4 R5].
  destruct (strong x) as [| m] eqn:Es; [by apply Hgone |]. cbn [fst snd].
  set (x' := with_strong (S (S m)) x). set (w' := set_reactor rid x' w).
  assert (reactors w' !! rid = Some x') as Ex' by apply lookup_insert_eq.
  pose proof (count_insert p_hold g i p (set_hold true p) E) as Ch. rewrite Hh in Ch. cbn in Ch.
  exists (<[i := set_hold true p]> g). split_and!.
  - constructor; cbn [fst snd].
    + exists sh. split; [done |]. apply (shared_upd sh w w' g i p); try done. intros Ha. by apply (so_asked _ _ Hso i p).
    + by rewrite (count_same is_won g i p).
    + rewrite Ex'. constructor; cbn; [done | done | lia | done |]. by rewrite (count_same p_drop g i p).
    + apply (tasks_upd w w' g i p); try done. intros y Ey. rewrite Ex in Ey. injection Ey as <-. by exists x'.
    + done.
    + by apply (awake_upd w w' g i p).
    + apply (fresh_upd w); [done |]. intros y Ey.
      pose proof (eq_trans (eq_sym Ex') Ey) as [= <-]. by exists x.
    + done.
  - apply act_upd with (p := p); [done |]. right. by rewrite Ex', Ex.
  - apply HS. by eapply mine_upd.
Qed.

(** The field [wakeup], through a reference. *)
Lemma wp_get_wakeup {B} i p (c : SetReadiness -> prg B) Q s :
  mine i p s -> p_hold p = true -> (forall s', mine i p s' -> WP i (c wk) Q s') ->
  WP i (bind (Inner.get_wakeup rid) c) Q s.
Proof.
  intros Hp Hh Hc. unfold Inner.get_wakeup, on_reactor. eapply wp_action; [apply mine_stable | exact Hp |].
  intros w g E Hi. unfold mine in E. cbn in E. pose proof (iv_reactor _ Hi) as H3. cbn in *.
  pose proof (count_pos p_hold g i p E Hh) as Hpos. destruct (reactors w !! rid) as [x |] eqn:Ex; [| lia].
  assert (set_reactor rid x w = w) as -> by by apply set_reactor_id.
  exists g. rewrite (ro_wakeup _ _ H3). split_and!; [done | done | by apply Hc].
Qed.

(** The wakeup reaches the queue. *)
Lemma wp_set_readable {B} i p (c : io_result unit -> prg B) Q s :
  mine i p s -> i <> 0%nat -> p_phase p = SWon ->
  (forall s', mine i (set_phase SFin p) s' -> WP i (c (Ok tt)) Q s') ->
  WP i (bind (os_call (set_readiness wk Ready_readable)) c) Q s.
Proof.
  intros Hp Hi0 Hph Hc. unfold os_call. eapply wp_atom; [apply mine_stable | exact Hp |].
  intros w g E Hi. pose proof Hi as [(sh & Esh & Hso) H2 H3 H4 H5 H6 H7 H8]. unfold mine in E. cbn in *.
  pose proof (ww_set _ _ _ Hww Ready_readable _ H5) as [Eok Hal]. pose proof (ww_ready _ _ _ Hww _ H5) as Hready.
  destruct (set_readiness wk Ready_readable (os w)) as [res o] eqn:Eo. cbn in *. subst res.
  exists (<[i := set_phase SFin p]> g). split_and!; [| by apply act_upd with (p := p); [done | right] |].
  - constructor; cbn [fst snd].
    + exists sh. split; [done |]. apply (shared_upd sh w _ g i p); try done; [| cbn; by rewrite Hph].
      intros _. apply (so_asked _ _ Hso i p); [done | by rewrite Hph].
    + by apply (won_upd g i p).
    + cbn. destruct (reactors w !! rid); [destruct H3; constructor |];
        by rewrite ?(count_same p_hold g i p), ?(count_same p_drop g i p).
    + apply (tasks_upd w _ g i p); try done. intros x Hx. by exists x.
    + done.
    + intros q Hq Hst. cbn in Hq. rewrite list_lookup_insert_ne in Hq by done. destruct (H6 q Hq Hst) as [Hhq _].
      split; [done |]. by intros _ _.
    + by apply (fresh_same w).
    + done.
  - apply Hc. by eapply mine_upd.
Qed.

Lemma wp_wakeup {B} i p (c : unit -> prg B) Q s :
  mine i p s -> i <> 0%nat -> p = mkPart SWon false false [] ->
  (forall s', mine i (mkPart SFin false false []) s' -> WP i (c tt) Q s') ->
  WP i (bind (Handle.wakeup (Reactor.handle rid)) c) Q s.
Proof.
  intros Hp Hi0 -> Hc. cbn [Handle.wakeup Handle.as_priv Reactor.handle]. unfold HandlePriv.wakeup_handle, Inner.with_inner.
  wp_assoc. eapply wp_upgrade_race; [exact Hp | done | done | done | |]; [| by intros s1 H1; cbn [bind]; apply Hc].
  intros s1 H1. cbv beta iota. wp_assoc. eapply wp_get_wakeup; [exact H1 | done |]. intros s2 H2. wp_assoc.
  eapply wp_set_readable; [exact H2 | done | done |]. intros s3 H3. cbn [bind]. wp_assoc.
  eapply wp_arc_drop_race; [exact H3 | done | done | done | done |]. intros s4 H4. cbn [bind]. by apply Hc.
Qed.

(** *** The shared state *)

Lemma set_shareds_id (w : World) sh : shareds w !! sid = Some sh -> set_shareds (<[sid := sh]> (shareds w)) w = w.
Proof. intros E. destruct w. unfold set_shareds. cbn in *. by rewrite insert_id. Qed.

(** A thread that has seen that the loop was told. *)
Lemma inv_known w g i p sh :
  inv (w, g) -> g !! i = Some p -> i <> 0%nat -> p_phase p = SIdle -> shareds w !! sid = Some sh -> shutdown sh <> 0 ->
  inv (w, <[i := set_phase SFin p]> g).
Proof.
  intros [(sh' & Esh & Hso) H2 H3 H4 H5 H6 H7 H8] E Hi0 Hph Es Hne. cbn in *. rewrite Es in Esh. injection Esh as <-.
  constructor; cbn [fst snd].
  - exists sh. split; [done |]. apply (shared_upd sh w w g i p); try done. cbn. by rewrite Hph.
  - by apply (won_upd g i p).
  - destruct (reactors w !! rid); [destruct H3; constructor |];
      by rewrite ?(count_same p_hold g i p), ?(count_same p_drop g i p).
  - apply (tasks_upd w w g i p); try done. intros x Hx. by exists x.
  - done.
  - apply (awake_upd w w g i p); try done. by rewrite Hph.
  - done.
  - done.
Qed.

Lemma shutdown_told sh s : shared_ok sh s -> shutdown sh <> 0 -> SHUTDOWN_NOW <= shutdown sh.
Proof. intros [[V | [V | V]] _ _ _ _ _ _ _] Hn; [done | by rewrite V | by rewrite V]. Qed.

Lemma wp_load {B} i p (c : Z -> prg B) Q s :
  mine i p s -> i <> 0%nat -> p_phase p = SIdle ->
  (forall s', mine i p s' -> WP i (c 0) Q s') ->
  (forall v s', SHUTDOWN_NOW <= v -> mine i (set_phase SFin p) s' -> WP i (c v) Q s') ->
  WP i (bind (shutdown_load sid) c) Q s.
Proof.
  intros Hp Hi0 Hph H0' HN. unfold shutdown_load, on_shared. eapply wp_action; [apply mine_stable | exact Hp |].
  intros w g E Hi. unfold mine in E. cbn in E. destruct (iv_shared _ Hi) as (sh & Esh & Hso). cbn in *.
  rewrite Esh, set_shareds_id by done. destruct (decide (shutdown sh = 0)) as [E0 | Hne].
  - exists g. rewrite E0. split_and!; [done | done | by apply H0'].
  - exists (<[i := set_phase SFin p]> g). split_and!; [by eapply inv_known | by apply act_upd with (p := p); [done | right] |].
    apply HN; [by eapply shutdown_told | by eapply mine_upd].
Qed.

Lemma wp_cas {B} i p (c : Z -> prg B) Q s :
  mine i p s -> i <> 0%nat -> p_phase p = SIdle ->
  (forall s', mine i (set_phase SWon p) s' -> WP i (c 0) Q s') ->
  (forall v s', SHUTDOWN_NOW <= v -> mine i (set_phase SFin p) s' -> WP i (c v) Q s') ->
  WP i (bind (shutdown_compare_and_swap sid 0 SHUTDOWN_NOW) c) Q s.
Proof.
  intros Hp Hi0 Hph H0' HN. unfold shutdown_compare_and_swap, on_shared. eapply wp_action; [apply mine_stable | exact Hp |].
  intros w g E Hi. unfold mine in E. cbn in E. pose proof Hi as [(sh & Esh & Hso) H2 H3 H4 H5 H6 H7 H8]. cbn in *. rewrite Esh.
  destruct (Z.eqb_spec (shutdown sh) 0) as [E0 | Hne].
  2: { rewrite set_shareds_id by done. exists (<[i := set_phase SFin p]> g).
       split_and!; [by eapply inv_known | by apply act_upd with (p := p); [done | right] |].
       apply HN; [by eapply shutdown_told | by eapply mine_upd]. }
  set (sh' := mkShared SHUTDOWN_NOW (shutdown_task sh)). rewrite E0.
  set (w' := set_shareds (<[sid := sh']> (shareds w)) w). exists (<[i := set_phase SWon p]> g).
  assert (count is_won g = 0%nat) as C0.
  { destruct (count is_won g) eqn:C; [done | exfalso]. destruct (count_pos_inv is_won g) as (j & q & Hj & Hq); [lia |].
    apply bool_decide_eq_true in Hq. by apply (so_asked _ _ Hso j q); [done | rewrite Hq |]. }
  split_and!; [| by apply act_upd with (p := p); [done | right] | by apply H0'; eapply mine_upd].
  constructor; cbn [fst snd].
  - exists sh'. split; [apply lookup_insert_eq |].
    assert (shared_ok sh' (w, g)) as Hso'.
    { destruct Hso as [V1 V2 V8 V3 V4 V5 V6 V7]. constructor; [by right; left | | done | done | done | | |].
      - intros q Hq. rewrite <- (V2 q Hq), E0. done.
      - intros j q Hj Hwait. exfalso. apply (V3 j q Hj); [| done]. by destruct Hwait as [-> | [-> _]].
      - intros k Hk Ha. by rewrite (V6 k Hk Ha) in E0.
      - intros j q Hj Hd. by rewrite (V7 j q Hj Hd) in E0. }
    apply (shared_upd sh' w w' g i p); try done. cbn. by rewrite Hph.
  - pose proof (count_insert is_won g i p (set_phase SWon p) E) as C. rewrite C0 in C.
    destruct (is_won p), (is_won (set_phase SWon p)); cbn in C; lia.
  - cbn. destruct (reactors w !! rid); [destruct H3; constructor |];
      by rewrite ?(count_same p_hold g i p), ?(count_same p_drop g i p).
  - apply (tasks_upd w w' g i p); try done. intros x Hx. by exists x.
  - done.
  - intros q Hq Hst. cbn in Hq. rewrite list_lookup_insert_ne in Hq by done. destruct (H6 q Hq Hst) as [Hhq _].
    split; [done |]. intros _ Hno. exfalso. apply (Hno i (set_phase SWon p)); [| done]. by eapply mine_upd.
  - by apply (fresh_same w).
  - done.
Qed.

(** A thread that calls [shutdown_now]: one of them wins and wakes the loop up. *)
Lemma wp_shutdown_now {B} i fuel (c : unit -> prg B) Q s :
  mine i (mkPart SIdle false false []) s -> i <> 0%nat ->
  (forall s', mine i (mkPart SFin false false []) s' -> WP i (c tt) Q s') ->
  WP i (bind (shutdown_now (S (S fuel)) (mkBgInner (Reactor.handle rid) sid)) c) Q s.
Proof.
  intros Hp Hi0 Hc. unfold shutdown_now. wp_assoc. eapply wp_load; [exact Hp | done | done | |].
  2: { intros v s1 Hv H1. cbn [shutdown_now_loop]. rewrite (proj2 (Z.leb_le _ _) Hv). cbn [bind]. by apply Hc. }
  intros s1 H1. cbn [shutdown_now_loop]. rewrite (proj2 (Z.leb_gt _ _)) by done. wp_assoc.
  eapply wp_cas; [exact H1 | done | done | |].
  - intros s2 H2. rewrite Z.eqb_refl. by eapply wp_wakeup.
  - intros v s2 Hv H2. rewrite (proj2 (Z.eqb_neq _ _)) by (intros ->; by apply Hv).
    rewrite (proj2 (Z.leb_le _ _) Hv). cbn [bind]. by apply Hc.
Qed.

(** *** The loop *)

(** A step of thread 0 that does not wait and keeps its references and the sources. *)
Lemma inv_loop w w' g p ph sh' :
  inv (w, g) -> g !! 0%nat = Some p -> ph <> LStale -> ph <> SWon -> ph <> SFin ->
  shareds w' !! sid = Some sh' -> shared_ok sh' (w', <[0%nat := set_phase ph p]> g) ->
  reactors w' = reactors w -> woken w' = woken w -> wakers w' = wakers w -> alive (os w') ->
  inv (w', <[0%nat := set_phase ph p]> g).
Proof.
  intros [_ H2 H3 H4 H5 H6 H7 H8] E Hs Hw Hf Esh Hso Er Ew Ek Ho. cbn in *. constructor; cbn [fst snd].
  - by exists sh'.
  - by apply (won_upd g 0 p).
  - rewrite Er. destruct (reactors w !! rid); [destruct H3; constructor |];
      by rewrite ?(count_same p_hold g 0 p), ?(count_same p_drop g 0 p).
  - apply (tasks_upd w w' g 0 p); try done. intros x Hx. exists x. by rewrite Er.
  - done.
  - by eapply awake_loop.
  - by apply (fresh_same w).
  - intros k Hk. cbn. rewrite Ek. by apply H8.
Qed.

Lemma ctl_upd w w' g p p' l :
  ctl 0 p l (w, g) -> reactors w' = reactors w -> p_hold p' = p_hold p -> p_drop p' = p_drop p ->
  ctl 0 p' l (w', <[0%nat := p']> g).
Proof.
  intros (E & Hc & El) Er Hh Hd. split_and!; [by eapply mine_upd | | cbn; by rewrite Er].
  unfold ctrl in *. by rewrite Hh, Hd.
Qed.

Abbreviation at_top := (mkPart LTop true false []).
Abbreviation stale := (mkPart LStale true false []).

(** The state is read at the top of the loop. *)
Lemma wp_loop_load {B} l (c : Z -> prg B) Q s :
  ctl 0 at_top l s ->
  (forall s', ctl 0 stale l s' -> WP 0 (c 0) Q s') -> (forall s', ctl 0 at_top l s' -> WP 0 (c SHUTDOWN_NOW) Q s') ->
  WP 0 (bind (shutdown_load sid) c) Q s.
Proof.
  intros Hp H0' HN. unfold shutdown_load, on_shared. eapply wp_action; [apply ctl_stable | exact Hp |].
  intros w g Hct Hi. pose proof Hct as (E & _ & _). unfold mine in E. pose proof Hi as [(sh & Esh & Hso) H2 H3 H4 H5 H6 H7 H8].
  cbn in *. rewrite Esh, set_shareds_id by done. pose proof Hso as [V1 V2 V8 V3 V4 V5 V6 V7].
  destruct V1 as [V | [V | V]]; rewrite V.
  - exists (<[0%nat := stale]> g). split_and!; [| by apply act_upd with (p := at_top); [done | right] | by apply H0'; eapply ctl_upd].
    constructor; cbn [fst snd].
    + exists sh. split; [done |]. apply (shared_upd sh w w g 0 at_top); try done.
      intros _. apply same_end_not; apply not_ended; [by left | by right].
    + by apply (won_upd g 0 at_top).
    + destruct (reactors w !! rid); [destruct H3; constructor |];
        by rewrite ?(count_same p_hold g 0 at_top), ?(count_same p_drop g 0 at_top).
    + apply (tasks_upd w w g 0 at_top); try done. intros x Hx. by exists x.
    + done.
    + intros q [[_ ->] | [? _]]%(lookup_upd g 0 at_top) _; [| done | done]. split; [done |].
      intros (sh' & Esh' & Ha). cbn in Esh'. rewrite Esh in Esh'. injection Esh' as <-. by rewrite V in Ha.
    + done.
    + done.
  - exists g. split_and!; [done | done | by apply HN].
  - by destruct (proj1 (V2 at_top E) V).
Qed.

(** Waiting for events: it ends when the wakeup has come. *)
Lemma wp_poll_race {B} l (c : io_result (list (Z * Z)) -> prg B) Q s :
  ctl 0 stale l s -> (forall evs s', ctl 0 at_top l s' -> WP 0 (c (Ok evs)) Q s') ->
  WP 0 (bind (os_wait (Poll_poll queue None)) c) Q s.
Proof.
  intros Hp Hc. unfold os_wait. eapply wp_action; [apply ctl_stable | exact Hp |].
  intros w g Hct Hi. pose proof Hct as (E & _ & _). unfold mine in E. pose proof Hi as [(sh & Esh & Hso) H2 H3 H4 H5 H6 H7 H8].
  cbn in *. destruct (Poll_poll queue None (os w)) as [[res o] |] eqn:Eo.
  2: { left. split; [done |]. by left. }
  destruct (ww_poll _ _ _ Hww _ _ _ H5 Eo) as [Hok Hal]. destruct res as [evs | err]; [| done].
  exists (<[0%nat := at_top]> g). split_and!; [| by apply act_upd with (p := stale); [done | right] | by apply Hc; eapply ctl_upd].
  apply (inv_loop w (set_os o w) g stale LTop sh); try done. apply (shared_upd sh w _ g 0 stale); try done.
  intros _. apply same_end_not; apply not_ended; [by right | by left].
Qed.

(** The wakeup is acknowledged. *)
Lemma wp_acknowledge {B} l (c : io_result unit -> prg B) Q s :
  ctl 0 at_top l s -> (forall s', ctl 0 at_top l s' -> WP 0 (c (Ok tt)) Q s') ->
  WP 0 (bind (os_call (set_readiness wk Ready_empty)) c) Q s.
Proof.
  intros Hp Hc. unfold os_call. eapply wp_atom; [apply ctl_stable | exact Hp |].
  intros w g Hct Hi. pose proof Hct as (E & _ & _). unfold mine in E. pose proof Hi as [(sh & Esh & Hso) H2 H3 H4 H5 H6 H7 H8].
  cbn in *. pose proof (ww_set _ _ _ Hww Ready_empty _ H5) as [Eok Hal].
  destruct (set_readiness wk Ready_empty (os w)) as [res o]. cbn in *. subst res.
  exists (<[0%nat := at_top]> g). split_and!; [| by apply act_upd with (p := at_top); [done | right] | by apply Hc; eapply ctl_upd].
  apply (inv_loop w (set_os o w) g at_top LTop sh); try done. by apply (shared_upd sh w _ g 0 at_top).
Qed.

(** The wakeup handle, while the loop has its reference. *)
Lemma wp_loop_wakeup {B} l (c : SetReadiness -> prg B) Q s :
  ctl 0 at_top l s -> (forall s', ctl 0 at_top l s' -> WP 0 (c wk) Q s') -> WP 0 (bind (Inner.get_wakeup rid) c) Q s.
Proof.
  intros Hp Hc. unfold Inner.get_wakeup, on_reactor. eapply wp_action; [apply ctl_stable | exact Hp |].
  intros w g Hct Hi. pose proof (iv_reactor _ Hi) as H3. pose proof Hct as (_ & _ & El). cbn in *.
  destruct (reactors w !! rid) as [x |] eqn:Ex; [| done].
  assert (set_reactor rid x w = w) as -> by by apply set_reactor_id.
  exists g. rewrite (ro_wakeup _ _ H3). split_and!; [done | done | by apply Hc].
Qed.

Lemma wp_loop_io {B} l (c : PollId -> prg B) Q s :
  ctl 0 stale l s -> (forall s', ctl 0 stale l s' -> WP 0 (c queue) Q s') -> WP 0 (bind (Inner.get_io rid) c) Q s.
Proof.
  intros Hp Hc. unfold Inner.get_io, on_reactor. eapply wp_action; [apply ctl_stable | exact Hp |].
  intros w g Hct Hi. pose proof (iv_reactor _ Hi) as H3. pose proof Hct as (_ & _ & El). cbn in *.
  destruct (reactors w !! rid) as [x |] eqn:Ex; [| done].
  assert (set_reactor rid x w = w) as -> by by apply set_reactor_id.
  exists g. rewrite (ro_io _ _ H3). split_and!; [done | done | by apply Hc].
Qed.

Lemma wp_process_race {B} evs r (c : unit -> prg B) Q : forall v s,
  ctl 0 at_top (mkARwLock r false v) s ->
  (forall s' v', ctl 0 at_top (mkARwLock r false v') s' -> WP 0 (c tt) Q s') ->
  WP 0 (bind (Reactor.process rid evs) c) Q s.
Proof.
  induction evs as [| [token ready] evs IH]; intros v s Hp Hc; cbn [Reactor.process bind]; [by eapply Hc |].
  destruct (token =? TOKEN_WAKEUP).
  - wp_assoc. eapply wp_loop_wakeup; [exact Hp |]. intros s1 H1. wp_assoc.
    eapply wp_acknowledge; [exact H1 |]. intros s2 H2. cbn [bind]. by eapply IH.
  - wp_assoc. eapply wp_dispatch_race; [exact Hp | done |]. intros s1 v1 H1. by eapply IH.
Qed.

(** The end of the thread. *)
Lemma wp_store {B} (c : unit -> prg B) Q s :
  mine 0 (mkPart LTop false false []) s -> (forall s', mine 0 (mkPart LEnd false false []) s' -> WP 0 (c tt) Q s') ->
  WP 0 (bind (shutdown_store sid SHUTDOWN) c) Q s.
Proof.
  intros Hp Hc. unfold shutdown_store, on_shared. set (p := mkPart LTop false false []) in *.
  eapply wp_action; [apply mine_stable | exact Hp |]. intros w g E Hi. unfold mine in E.
  pose proof Hi as [(sh & Esh & [V1 V2 V8 V3 V4 V5 V6 V7]) H2 H3 H4 H5 H6 H7 H8]. cbn in *. rewrite Esh.
  set (w1 := set_shareds _ w). exists (<[0%nat := set_phase LEnd p]> g).
  split_and!; [| by apply act_upd with (p := p); [done | right] | by apply Hc; eapply mine_upd].
  eapply inv_loop; [done | done | done | done | done | apply lookup_insert_eq | | done | done | done | done].
  assert (forall k, held sh k (w, g) -> held (mkShared SHUTDOWN (shutdown_task sh)) k (w1, <[0%nat := set_phase LEnd p]> g)) as Hheld.
  { intros k [Ha | [Ha _]]; [left | right; split; [done |]].
    + apply (announced_upd k w w1 g 0 p); [done | done | by left | done].
    + by intros q [[_ ->] | [? _]]%(lookup_upd g 0 p). }
  constructor; cbn; [by right; right | | | done | | | done | done].
  - intros q [[_ ->] | [? _]]%(lookup_upd g 0 p); [| done | done]. by split; [left |].
  - by intros q [[_ ->] | [? _]]%(lookup_upd g 0 p).
  - intros k Hk Hno. apply Hheld, V4; [done |]. intros [| i] q Hq; [by rewrite E in Hq; injection Hq as <- |].
    apply (Hno (S i)). by rewrite list_lookup_insert_ne.
  - intros i q [[-> ->] | [_ Hq]]%(lookup_upd g 0 p) [Hw | [_ ?]]; try done.
    destruct (V5 i q Hq (or_introl Hw)) as (k & Hk & Hh). exists k. split; [done | by apply Hheld].
Qed.

Lemma wp_task_wake {B} (c : unit -> prg B) Q s :
  mine 0 (mkPart LEnd false false []) s -> (forall s', mine 0 (mkPart LTook false false []) s' -> WP 0 (c tt) Q s') ->
  WP 0 (bind (shutdown_task_wake sid) c) Q s.
Proof.
  intros Hp Hc. unfold shutdown_task_wake, on_shared. wp_assoc. set (p := mkPart LEnd false false []) in *.
  eapply wp_action; [apply mine_stable | exact Hp |]. intros w g E Hi. unfold mine in E.
  pose proof Hi as [(sh & Esh & [V1 V2 V8 V3 V4 V5 V6 V7]) H2 H3 H4 H5 H6 H7 H8]. cbn in *. rewrite Esh.
  destruct (aw_take (shutdown_task sh)) as [o a] eqn:Et.
  set (w1 := set_shareds _ w). set (p' := mkPart LTook false false (opt_list o)).
  assert (forall k, announced k (w, g) -> announced k (w1, <[0%nat := p']> g)) as Hann.
  { intros k. apply (announced_upd k w w1 g 0 p); [done | done |]. intros k' Hk'. by apply not_elem_of_nil in Hk'. }
  exists (<[0%nat := p']> g). split_and!; [| by apply act_upd with (p := p); [done | right] |].
  - constructor; cbn [fst snd].
    + exists (mkShared (shutdown sh) a). split; [apply lookup_insert_eq |].
      assert (forall k, held sh k (w, g) -> held (mkShared (shutdown sh) a) k (w1, <[0%nat := p']> g)) as Hheld.
      { intros k [Ha | [Ha _]]; [left; by apply Hann |]. left. right. exists 0%nat, p'.
        unfold aw_waker in Ha. rewrite Et in Ha. cbn in Ha. subst o. split; [by eapply (mine_upd w1) | by left]. }
      assert (shutdown sh = SHUTDOWN) as Hend by (apply (V2 p E); by left).
      constructor; cbn; [done | | | | | | done | done].
      * intros q [[_ ->] | [? _]]%(lookup_upd g 0 p); [| done | done]. split; intros _; [by right | done].
      * by intros q [[_ ->] | [? _]]%(lookup_upd g 0 p).
      * intros j q [[-> ->] | [_ Hq]]%(lookup_upd g 0 p); [done | by apply (V3 j) | done].
      * intros k Hk Hno. apply Hheld, V4; [done |]. intros [| j] q Hq; [by rewrite E in Hq; injection Hq as <- |].
        apply (Hno (S j)). by rewrite list_lookup_insert_ne.
      * intros j q [[-> ->] | [_ Hq]]%(lookup_upd g 0 p) Hw; [by destruct Hw as [|[]] | | done].
        destruct (V5 j q Hq Hw) as (k & Hk & Hh). exists k. split; [done | by apply Hheld].
    + by apply (won_upd g 0 p).
    + cbn. destruct (reactors w !! rid); [destruct H3; constructor |];
        by rewrite ?(count_same p_hold g 0 p), ?(count_same p_drop g 0 p).
    + intros key io d k Eg Ek. destruct (H4 key io d k Eg Ek) as [Ha | Hs]; [left; by apply Hann | by right].
    + done.
    + by eapply awake_loop.
    + by apply (fresh_same w).
    + done.
  - destruct o as [k |]; cbn [wake_opt bind]; [| by apply Hc; eapply mine_upd].
    eapply wp_mine_wake; [by eapply mine_upd | done | done].
Qed.

Lemma wp_announce_race {B} (c : unit -> prg B) Q s :
  mine 0 (mkPart LTop false false []) s -> (forall s', mine 0 (mkPart LTook false false []) s' -> WP 0 (c tt) Q s') ->
  WP 0 (bind (announce sid) c) Q s.
Proof.
  intros Hp Hc. unfold announce. wp_assoc. eapply wp_store; [exact Hp |]. intros s1 H1. by eapply wp_task_wake.
Qed.

Lemma wp_run n r Q : forall v s,
  ctl 0 at_top (mkARwLock r false v) s -> (forall s', mine 0 (mkPart LTook false false []) s' -> Q tt s') ->
  WP 0 (Background.run n rid sid) Q s.
Proof.
  induction n as [| n IH]; intros v s Hp HQ; cbn [Background.run].
  - eapply wp_wait; [apply ctl_stable | exact Hp |]. intros w g Hct _.
    left. split; [done |]. right. split; [done |]. by exists r, v.
  - eapply wp_loop_load; [exact Hp | |]; intros s1 H1; cbv beta.
    + change (0 =? SHUTDOWN_NOW) with false. change (0 =? SHUTDOWN_IDLE) with false. cbv iota. cbn [bind].
      unfold Reactor.turn, Reactor.poll. wp_assoc. eapply wp_loop_io; [exact H1 |]. intros s2 H2. wp_assoc.
      eapply wp_poll_race; [exact H2 |]. intros evs s3 H3. wp_assoc.
      eapply wp_process_race; [exact H3 |]. intros s4 v4 H4. cbn [bind]. by eapply IH.
    + change (SHUTDOWN_NOW =? SHUTDOWN_NOW) with true. cbv iota. unfold run_exit.
      eapply wp_arc_drop_race; [apply H1 | done | done | done | done |]. intros s2 H2. apply wp_tail.
      eapply wp_announce_race; [exact H2 |]. intros s3 H3. eapply wp_ret; [apply mine_stable | exact H3 |]. intros s4 H4 _. by apply HQ.
Qed.

(** *** Waiting for the end *)

(** A step of a waiting thread that changes its phase, and the waker of the end. *)
Lemma inv_wait w w' g i p ph sh sh' :
  inv (w, g) -> g !! i = Some p -> i <> 0%nat -> p_phase p <> SWon -> ph <> SWon ->
  shareds w !! sid = Some sh -> shareds w' !! sid = Some sh' -> shutdown sh' = shutdown sh ->
  shared_ok sh' (w', <[i := set_phase ph p]> g) ->
  reactors w' = reactors w -> os w' = os w -> woken w' = woken w -> wakers w' = wakers w ->
  inv (w', <[i := set_phase ph p]> g).
Proof.
  intros [_ H2 H3 H4 H5 H6 H7 H8] E Hi0 Hp Hph Esh Esh' Es Hso Er Eo Ew Ek. cbn in *. constructor; cbn [fst snd].
  - by exists sh'.
  - by apply (won_upd g i p).
  - rewrite Er. destruct (reactors w !! rid); [destruct H3; constructor |];
      by rewrite ?(count_same p_hold g i p), ?(count_same p_drop g i p).
  - apply (tasks_upd w w' g i p); try done. intros x Hx. exists x. by rewrite Er.
  - by rewrite Eo.
  - apply (awake_upd w w' g i p); try done. intros (sh1 & E1 & Ha). rewrite Esh' in E1. injection E1 as <-.
    exists sh. by rewrite <- Es.
  - by apply (fresh_same w).
  - intros k Hk. cbn. rewrite Ek. by apply H8.
Qed.

Lemma wp_task_deref {B} i p k (c : waker -> prg B) Q s :
  mine i p s -> kd = Some k -> (forall s', mine i p s' -> WP i (c k) Q s') -> WP i (bind (deref_waker cxd) c) Q s.
Proof.
  intros Hp Hk Hc. unfold deref_waker. eapply wp_action; [apply mine_stable | exact Hp |]. intros w g E Hi.
  pose proof (iv_waker _ Hi k Hk) as Ek. cbn in Ek. rewrite Ek. exists g. split_and!; [done | done | by apply Hc].
Qed.

(** The waker is stored. *)
Lemma wp_store_task {B} i p ph k (c : unit -> prg B) Q s :
  mine i p s -> i <> 0%nat -> kd = Some k -> (p_phase p = SFin /\ ph = DStored \/ p_phase p = DWoken /\ ph = DWoken) ->
  (forall s', mine i (set_phase ph p) s' -> WP i (c tt) Q s') ->
  WP i (bind (shutdown_task_register sid k) c) Q s.
Proof.
  intros Hp Hi0 Hk Hph Hc. unfold shutdown_task_register, on_shared. eapply wp_action; [apply mine_stable | exact Hp |].
  intros w g E Hi. unfold mine in E. cbn in E. destruct (iv_shared _ Hi) as (sh & Esh & Hso). cbn in *. rewrite Esh.
  set (sh' := mkShared (shutdown sh) (aw_register k (shutdown_task sh))). set (w' := set_shareds _ w).
  exists (<[i := set_phase ph p]> g). split_and!; [| by apply act_upd with (p := p); [done | right] | by apply Hc; eapply mine_upd].
  pose proof Hso as [V1 V2 V8 V3 V4 V5 V6 V7].
  assert (forall q, <[i := set_phase ph p]> g !! 0%nat = Some q -> g !! 0%nat = Some q) as H0'.
  { intros q. by rewrite list_lookup_insert_ne. }
  assert (held sh k (w, g) \/ shutdown sh <> SHUTDOWN -> held sh' k (w', <[i := set_phase ph p]> g)) as Hheld.
  { intros [[Ha | [_ Hl]] | Hne].
    - left. by apply (announced_same k w w' g i p).
    - right. split; [apply aw_register_waker |]. intros q Hq. by apply Hl, H0'.
    - right. split; [apply aw_register_waker |]. intros q Hq Hl. apply Hne, (V2 q); [by apply H0' | by right]. }
  apply (inv_wait w w' g i p ph sh sh'); try done; [by destruct Hph as [[-> _] | [-> _]] | by destruct Hph as [[_ ->] | [_ ->]] |
    apply lookup_insert_eq |].
  constructor; cbn; [done | | | | | | |].
  - intros q Hq. by apply V2, H0'.
  - intros q Hq. by apply V8, H0'.
  - intros j q [[-> ->] | [_ Hq]]%(lookup_upd g i p); [| by apply (V3 j) | done].
    intros _. apply (V3 i p E). by destruct Hph as [[-> _] | [-> _]].
  - intros k' _ Hno. specialize (Hno i (set_phase ph p)). rewrite list_lookup_insert_eq in Hno by by eapply lookup_lt_Some.
    specialize (Hno eq_refl). by destruct Hph as [[_ ->] | [_ ->]].
  - intros j q Hj Hwait. exists k. split; [done |]. apply Hheld.
    destruct (lookup_upd g i p _ _ _ E Hj) as [[-> ->] | [_ Hq]].
    + right. by destruct Hwait as [Hw | [_ Hne]]; [destruct Hph as [[_ ->] | [_ ->]] |].
    + destruct (V5 j q Hq Hwait) as (k' & Hk' & Hh). rewrite Hk in Hk'. injection Hk' as <-. by left.
  - intros k' Hk' Ha. apply (V6 k' Hk'). by apply (announced_same k' w w' g i p (set_phase ph p)).
  - intros j q [[-> ->] | [_ Hq]]%(lookup_upd g i p); [| by apply (V7 j) | done].
    intros Hd. apply (V7 i p E). destruct Hph as [[_ ->] | [-> _]]; [by destruct Hd | by left].
Qed.

(** A change of phase alone. *)
Lemma shared_phase sh w g i p ph :
  shared_ok sh (w, g) -> g !! i = Some p -> i <> 0%nat -> has_asked (p_phase p) = true ->
  registered (p_phase p) = true -> registered ph = true ->
  (waits sh (set_phase ph p) -> exists k, kd = Some k /\ held sh k (w, g)) ->
  (ph = DWoken \/ ph = DDone -> shutdown sh = SHUTDOWN) ->
  shared_ok sh (w, <[i := set_phase ph p]> g).
Proof.
  intros [V1 V2 V8 V3 V4 V5 V6 V7] E Hi0 Hask Hreg Hph Hwait Hback.
  assert (forall q, <[i := set_phase ph p]> g !! 0%nat = Some q -> g !! 0%nat = Some q) as H0'.
  { intros q. by rewrite list_lookup_insert_ne. }
  assert (forall k, held sh k (w, g) -> held sh k (w, <[i := set_phase ph p]> g)) as Hheld.
  { intros k [Ha | [Ha Hl]]; [left; by apply (announced_same k w w g i p) |].
    right. split; [done |]. intros q Hq. by apply Hl, H0'. }
  constructor; cbn; [done | | | | | | |].
  - intros q Hq. by apply V2, H0'.
  - intros q Hq. by apply V8, H0'.
  - intros j q [[-> ->] | [_ Hq]]%(lookup_upd g i p); [| by apply (V3 j) | done]. intros _. by apply (V3 i p).
  - intros k _ Hno. specialize (Hno i (set_phase ph p)).
    rewrite list_lookup_insert_eq in Hno by by eapply lookup_lt_Some. specialize (Hno eq_refl). cbn in Hno. by rewrite Hph in Hno.
  - intros j q Hj Hw. assert (exists k, kd = Some k /\ held sh k (w, g)) as (k & Hk & Hh).
    { destruct (lookup_upd g i p _ _ _ E Hj) as [[-> ->] | [_ Hq]]; [by apply Hwait | by apply (V5 j q)]. }
    exists k. split; [done | by apply Hheld].
  - intros k Hk Ha. apply (V6 k Hk). by apply (announced_same k w w g i p (set_phase ph p)).
  - intros j q [[-> ->] | [_ Hq]]%(lookup_upd g i p); [done | by apply (V7 j) | done].
Qed.

(** The state is read after the waker was stored. *)
Lemma wp_see_end {B} i p (c : Z -> prg B) Q s :
  mine i p s -> i <> 0%nat -> p_phase p = DStored \/ p_phase p = DWoken ->
  (forall s', mine i (set_phase DDone p) s' -> WP i (c SHUTDOWN) Q s') ->
  (forall v s', v <> SHUTDOWN -> p_phase p = DStored -> mine i (set_phase DPending p) s' -> WP i (c v) Q s') ->
  WP i (bind (shutdown_load sid) c) Q s.
Proof.
  intros Hp Hi0 Hph HD HP. unfold shutdown_load, on_shared. eapply wp_action; [apply mine_stable | exact Hp |].
  intros w g E Hi. unfold mine in E. cbn in E. destruct (iv_shared _ Hi) as (sh & Esh & Hso). cbn in *.
  rewrite Esh, set_shareds_id by done. set (ph := if decide (shutdown sh = SHUTDOWN) then DDone else DPending).
  assert (shutdown sh <> SHUTDOWN -> p_phase p = DStored) as Hst.
  { intros Hne. destruct Hph as [? | Hw]; [done |]. exfalso. apply Hne, (so_back _ _ Hso i p E). by left. }
  exists (<[i := set_phase ph p]> g). split_and!; [| by apply act_upd with (p := p); [done | right] |].
  - apply (inv_wait w w g i p ph sh sh); try done; [by destruct Hph as [-> | ->] | by unfold ph; case_decide |].
    apply (shared_phase sh w g i p ph); try done; [by destruct Hph as [-> | ->] .. | by unfold ph; case_decide | |].
    + unfold waits, ph. cbn. case_decide as Hd; [by intros [? | [? _]] |]. intros _.
      apply (so_wait _ _ Hso i p E). right. by split; [apply Hst |].
    + unfold ph. case_decide; [done | by intros []].
  - unfold ph. case_decide as Hd; [rewrite Hd; apply HD | apply HP; [done | by apply Hst |]]; by eapply mine_upd.
Qed.

Lemma wp_park {B} i p k (c : unit -> prg B) Q s :
  mine i p s -> i <> 0%nat -> kd = Some k -> p = mkPart DPending false false [] ->
  (forall s', mine i (set_phase DWoken p) s' -> WP i (c tt) Q s') ->
  WP i (bind (park k) c) Q s.
Proof.
  intros Hp Hi0 Hk Epart Hc. unfold park. eapply wp_action; [apply mine_stable | exact Hp |].
  intros w g E Hi. unfold mine in E. cbn in E. destruct (iv_shared _ Hi) as (sh & Esh & Hso). cbn [fst snd] in *.
  case_bool_decide as Hwok.
  2: { right. split; [done |]. split; [by rewrite <- Epart | by exists k]. }
  exists (<[i := set_phase DWoken p]> g). split_and!; [| by apply act_upd with (p := p); [done | right] | by apply Hc; eapply mine_upd].
  assert (shutdown sh = SHUTDOWN) as Hend by (apply (so_key _ _ Hso k Hk); by left).
  apply (inv_wait w w g i p DWoken sh sh); try done; [by rewrite Epart |].
  apply (shared_phase sh w g i p DWoken); try done; [by rewrite Epart .. |]. by intros [? | [? _]].
Qed.

(** The two polls: the second one, after the task was woken, finds the end. *)
Lemma wp_shutdown_poll_race {B} i ph k h (c : Poll (unit + unit) -> prg B) Q s :
  mine i (mkPart ph false false []) s -> i <> 0%nat -> kd = Some k -> ph = SFin \/ ph = DWoken ->
  (forall s', mine i (mkPart DDone false false []) s' -> WP i (c (Ready (inl tt))) Q s') ->
  (forall s', ph = SFin -> mine i (mkPart DPending false false []) s' -> WP i (c Pending) Q s') ->
  WP i (bind (shutdown_poll (mkBgInner h sid) cxd) c) Q s.
Proof.
  intros Hp Hi0 Hk Hph HD HP. unfold shutdown_poll. wp_assoc. eapply wp_task_deref; [exact Hp | exact Hk |].
  intros s1 H1. wp_assoc. set (ph' := if decide (ph = SFin) then DStored else DWoken).
  eapply (wp_store_task i _ ph'); [exact H1 | done | done | |].
  { unfold ph'. cbn. destruct Hph as [-> | ->]; [by left | by right]. }
  intros s2 H2. unfold is_shutdown. wp_assoc. eapply (wp_see_end i _); [exact H2 | done | | |].
  - unfold ph'. cbn. case_decide; [by left | by right].
  - intros s3 H3. cbn. by apply HD.
  - intros v s3 Hv Hst H3. cbn [bind]. rewrite (proj2 (Z.eqb_neq _ _)) by done. cbn. apply HP; [| exact H3].
    unfold ph' in Hst. cbn in Hst. by case_decide.
Qed.

Lemma wp_poll_until_ready {B} i k h fuel (c : unit + unit -> prg B) Q s :
  mine i (mkPart SFin false false []) s -> i <> 0%nat -> kd = Some k ->
  (forall v s', mine i (mkPart DDone false false []) s' -> WP i (c v) Q s') ->
  WP i (bind (poll_until_ready (S (S fuel)) cxd k (shutdown_poll (mkBgInner h sid))) c) Q s.
Proof.
  intros Hp Hi0 Hk Hc. cbn [poll_until_ready]. wp_assoc.
  eapply wp_shutdown_poll_race; [exact Hp | done | done | by left | by intros s1 H1; apply Hc |].
  intros s1 _ H1. wp_assoc. eapply wp_park; [exact H1 | done | done | done |]. intros s2 H2. wp_assoc.
  eapply wp_shutdown_poll_race; [exact H2 | done | done | by right | by intros s3 H3; apply Hc | done].
Qed.

Lemma wp_background_drop {B} i k block_on fuel (c : unit -> prg B) Q s :
  mine i (mkPart SIdle false false []) s -> i <> 0%nat -> kd = Some k -> executes cxd k block_on ->
  (forall s', mine i (mkPart DDone false false []) s' -> WP i (c tt) Q s') ->
  WP i (bind (Background.drop block_on (S (S fuel)) (Some (mkBgInner (Reactor.handle rid) sid))) c) Q s.
Proof.
  intros Hp Hi0 Hk [n Hbo] Hc. unfold Background.drop. rewrite Hbo. wp_assoc. eapply wp_shutdown_now; [exact Hp | done |].
  intros s1 H1. wp_assoc. eapply wp_poll_until_ready; [exact H1 | done | done |]. intros v s2 H2. cbn [bind]. by apply Hc.
Qed.

(** *** The pool at its end *)
Abbreviation loop_done := (mkPart LTook false false []).
Abbreviation asker_done := (mkPart SFin false false []).

(** A thread that has asked, and holds nothing. *)
Definition resting (p : part) : Prop :=
  has_asked (p_phase p) = true /\ p_phase p <> SWon /\ p_hold p = false /\ p_drop p = false /\ p_fly p = [].

Lemma resting_count (f : part -> bool) g : Forall (fun p => f p = false) g -> count f g = 0%nat.
Proof. induction 1 as [| p g Hp _ IH]; cbn; [done | by rewrite Hp, IH]. Qed.

Lemma resting_hold g : Forall resting g -> count p_hold g = 0%nat.
Proof. intros Hg. apply resting_count. eapply Forall_impl; [exact Hg |]. by intros p (_ & _ & ? & _). Qed.

Lemma resting_drop g : Forall resting g -> count p_drop g = 0%nat.
Proof. intros Hg. apply resting_count. eapply Forall_impl; [exact Hg |]. by intros p (_ & _ & _ & ? & _). Qed.

Lemma resting_announced k w p g : p_fly p = [] -> Forall resting g -> announced k (w, p :: g) -> k ∈ woken w.
Proof.
  intros Hp Hg [Hk | ([| i] & q & Hq & Hk)]; [done | |]; cbn in Hq, Hk.
  - injection Hq as <-. rewrite Hp in Hk. by apply not_elem_of_nil in Hk.
  - destruct (Forall_lookup_1 _ _ _ _ Hg Hq) as (_ & _ & _ & _ & Hf). rewrite Hf in Hk. by apply not_elem_of_nil in Hk.
Qed.

Lemma trace_length k s s' :
  rtc (fun s s' => exists i, (i < k)%nat /\ act i s s') s s' -> length s'.2 = length s.2.
Proof. induction 1 as [| s1 s2 s3 (i & _ & Ha) _ IH]; [done |]. rewrite IH. apply Ha. Qed.

(** The reactor has been shut down: it is gone, the end is announced, and every task that
    waited for a source is woken. *)
Definition stopped (w : World) : Prop :=
  reactors w !! rid = None /\ exists sh, shareds w !! sid = Some sh /\ shutdown sh = SHUTDOWN.
Definition sources_woken (w : World) : Prop :=
  forall key i d k, slab_get key s0 = Some i -> aw_waker (aw_of d i) = Some k -> k ∈ woken w.
(** The tasks that wait for the end. *)
Definition wait_end (g : ghost) (k : waker) : Prop :=
  (aw_waker (shutdown_task sh0) = Some k /\ Forall (fun p => registered (p_phase p) = false) g) \/
  (kd = Some k /\ exists p, p ∈ g /\ p_phase p = DPending).

Lemma wait_end_held sh w p g k :
  shared_ok sh (w, p :: g) -> registered (p_phase p) = false -> wait_end g k -> held sh k (w, p :: g).
Proof.
  intros Hso Hp [[Hk Hno] | (Hk & q & Hq & Hph)].
  - apply (so_task _ _ Hso k Hk). intros [| i] q Hq; cbn in Hq; [by injection Hq as <- |].
    exact (Forall_lookup_1 _ _ _ _ Hno Hq).
  - apply list_elem_of_lookup_1 in Hq as [i Hq]. destruct (so_wait _ _ Hso (S i) q Hq) as (k' & Hk' & Hh); [by left |].
    rewrite Hk in Hk'. by injection Hk' as <-.
Qed.

(** A thread that has seen the end, or the loop at its end, and nobody holds a reference. *)
Lemma end_stopped w g :
  inv (w, g) -> (exists i p, g !! i = Some p /\ (ended p /\ i = 0%nat \/ p_phase p = DDone)) ->
  count p_hold g = 0%nat -> count p_drop g = 0%nat -> stopped w.
Proof.
  intros [(sh & Esh & Hso) H2 H3 H4 H5 H6 H7 H8] (i & p & Hp & Hph) Hh Hd. cbn in *. split.
  - destruct (reactors w !! rid) as [x |]; [| done]. destruct H3 as [_ _ R3 _ R5]. rewrite Hh in R3. rewrite Hd in R5.
    by rewrite decide_True in R5.
  - exists sh. split; [done |]. destruct Hph as [[He ->] | Hph]; [by apply (so_end _ _ Hso p Hp) |].
    apply (so_back _ _ Hso i p Hp). by right.
Qed.

Lemma end_done w g : inv (w, loop_done :: g) -> Forall resting g ->
  stopped w /\ sources_woken w /\ forall k, wait_end g k -> k ∈ woken w.
Proof.
  intros Hi Hg. assert (stopped w) as Hst.
  { apply (end_stopped w _ Hi); [| cbn; by apply resting_hold | cbn; by apply resting_drop].
    exists 0%nat, loop_done. split; [done |]. left. by split; [right |]. }
  split; [done |]. destruct Hi as [(sh & Esh & Hso) H2 H3 H4 H5 H6 H7 H8]. cbn in *. split.
  - intros key i d k Ei Ek. destruct (H4 key i d k Ei Ek) as [Ha | (x & _ & Ex & _)]; [by apply (resting_announced k w loop_done g) |].
    cbn in Ex. by rewrite (proj1 Hst) in Ex.
  - intros k Hk. destruct (wait_end_held sh w _ g k Hso eq_refl Hk) as [Ha | [_ Hn]]; [by apply (resting_announced k w loop_done g) |].
    by destruct (Hn loop_done eq_refl).
Qed.

(** A loop that has used up its turns needs one more. *)
Lemma end_at_top w q g r v :
  inv (w, at_top :: q :: g) -> Forall resting (q :: g) -> io_dispatch <$> reactors w !! rid = Some (mkARwLock r false v) ->
  exists w2, run (Background.run 1 rid sid) w = (Done tt, w2) /\
    stopped w2 /\ sources_woken w2 /\ forall k, wait_end (q :: g) k -> k ∈ woken w2.
Proof.
  intros [(sh & Esh & Hso) H2 H3 H4 H5 H6 H7 H8] Hg El. cbn [fst snd] in *. pose proof Hso as [V1 V2 _ V3 _ _ _ _].
  destruct (reactors w !! rid) as [x |] eqn:Ex; [| done]. injection El as El. destruct H3 as [R1 R2 R3 R4 R5].
  change (count p_hold (at_top :: q :: g)) with (1 + count p_hold (q :: g))%nat in R3. rewrite resting_hold in R3 by done.
  assert (shutdown sh = SHUTDOWN_NOW) as Es.
  { destruct V1 as [V | [V | V]]; [| done |].
    - destruct (V3 1%nat q eq_refl); [| done]. inversion_clear Hg as [| ? ? Hq _]. apply Hq.
    - by destruct (proj1 (V2 at_top eq_refl) V). }
  set (l := mkLoop v (os w) (woken w)). assert (w = seen w rid x r l) as Ew.
  { unfold seen, l. cbn. rewrite <- El, st_id by done. by destruct w. }
  exists (left_loop w rid sid sh l). split.
  { assert (strong x = 1%nat) as Ex1 by lia. pose proof (run_serve w rid x r sid sh 1 l Ex1 Esh) as Hrun.
    rewrite <- Ew in Hrun. rewrite Hrun. cbn [serve]. unfold asked_to_stop. by rewrite Es. }
  split_and!.
  - split; [apply lookup_delete_eq |]. eexists. split; [apply lookup_insert_eq | done].
  - intros key i d k Ei Ek. cbn. apply elem_of_app. destruct (H4 key i d k Ei Ek) as [Ha | (y & i' & Ey & Ei' & Ek')].
    + left. by apply (resting_announced k w at_top (q :: g)).
    + right. apply elem_of_app. left. cbn in Ey. rewrite Ex in Ey. injection Ey as <-. unfold slab_of in Ei'. rewrite El in Ei'.
      apply (all_waiting_elem v key i' k Ei'). destruct d; [by left | by right].
  - intros k Hk. cbn. apply elem_of_app. destruct (wait_end_held sh w _ _ k Hso eq_refl Hk) as [Ha | [Ha _]].
    + left. by apply (resting_announced k w at_top (q :: g)).
    + right. apply elem_of_app. right. rewrite Ha. by apply list_elem_of_singleton.
Qed.

(** It does not wait for events. *)
Lemma end_not_stale w q g : inv (w, stale :: q :: g) -> Forall resting (q :: g) -> Poll_poll queue None (os w) <> None.
Proof.
  intros [(sh & Esh & Hso) H2 H3 H4 H5 H6 H7 H8] Hg. apply (H6 stale eq_refl eq_refl).
  - exists sh. split; [done |]. eapply shutdown_told; [done |]. apply (so_asked _ _ Hso 1%nat q eq_refl).
    inversion_clear Hg as [| ? ? Hq _]. apply Hq.
  - intros [| i] q' Hq; cbn in Hq; [by injection Hq as <- |].
    by destruct (Forall_lookup_1 _ _ _ _ Hg Hq) as (_ & ? & _).
Qed.

(** Who has seen the end finds the reactor gone. *)
Lemma end_seen w p0 g :
  inv (w, p0 :: g) -> Forall resting g -> (exists p, p ∈ g /\ p_phase p = DDone) -> stopped w.
Proof.
  intros Hi Hg (p & Hp & Hph). pose proof Hi as [(sh & Esh & Hso) _ _ _ _ _ _ _]. cbn in Esh.
  apply list_elem_of_lookup_1 in Hp as [i Hp]. pose proof (so_back _ _ Hso (S i) p Hp (or_intror Hph)) as Hend.
  destruct (so_left _ _ Hso p0 eq_refl) as [Hh Hd]; [by apply (so_end _ _ Hso p0 eq_refl) |].
  apply (end_stopped w (p0 :: g) Hi); cbn; [| by rewrite Hh, resting_hold | by rewrite Hd, resting_drop].
  exists (S i), p. split; [done | by right].
Qed.

(** What a pool that cannot move looks like, seen from the loop. *)
Lemma end_loop w p0 q g (p : prg unit) :
  inv (w, p0 :: q :: g) -> Forall resting (q :: g) ->
  ((p = Ret tt /\ mine 0 loop_done (w, p0 :: q :: g)) \/
   exists b, (b = true -> suspended p) /\ blk 0 b (w, p0 :: q :: g)) ->
  exists w2, (p = Ret tt /\ w2 = w \/ suspended p /\ run (Background.run 1 rid sid) w = (Done tt, w2) /\
      p0 = at_top /\ exists x r v, reactors w !! rid = Some x /\ io_dispatch x = mkARwLock r false v) /\
    stopped w2 /\ sources_woken w2 /\ forall k, wait_end (q :: g) k -> k ∈ woken w2.
Proof.
  intros Hi Hg [[-> [= ->]] | (b & Hb & [[_ [([= ->] & Hpoll) | (-> & r & v & [= ->] & _ & El)]] | [? _]])]; [| | | done].
  - exists w. split; [by left |]. by apply end_done.
  - exfalso. by apply (end_not_stale _ _ _ Hi Hg).
  - destruct (end_at_top w q g r v Hi Hg El) as (w2 & Hrun & Hs). exists w2. split; [right | done].
    split_and!; [by apply Hb | done | done |]. cbn in El. destruct (reactors w !! rid) as [x |]; [| done]. injection El as El. by exists x, r, v.
Qed.

(** *** The pool at its start *)
Definition idle_part : part := mkPart SIdle false false [].
Definition start_parts (m : nat) : ghost := mkPart LTop true false [] :: replicate (S m) idle_part.

Lemma start_count (f : part -> bool) m :
  f idle_part = false -> count f (start_parts m) = Nat.b2n (f (mkPart LTop true false [])).
Proof.
  intros Hf. unfold start_parts. change (?a :: replicate ?n ?a) with (replicate (S n) a).
  cbn [count]. rewrite count_replicate by done. destruct (f _); cbn; lia.
Qed.

Lemma start_lookup m i p : start_parts m !! i = Some p ->
  (i = 0%nat /\ p = mkPart LTop true false []) \/ (i <> 0%nat /\ p = idle_part).
Proof.
  destruct i as [| i]; cbn; [intros [= <-]; by left |].
  change (idle_part :: replicate m idle_part) with (replicate (S m) idle_part).
  intros [-> _]%lookup_replicate. by right.
Qed.

Lemma start_announced k w m : announced k (w, start_parts m) -> k ∈ woken w.
Proof.
  intros [Hk | (i & p & [[_ ->] | [_ ->]]%start_lookup & Hk)]; [done | |]; by apply not_elem_of_nil in Hk.
Qed.

Lemma start_inv m w x r :
  reactors w !! rid = Some x -> io x = queue -> wakeup x = wk -> strong x = 1%nat ->
  io_dispatch x = mkARwLock r false s0 -> shareds w !! sid = Some sh0 -> shutdown sh0 = 0 -> alive (os w) ->
  (forall k, kd = Some k -> (k ∉ woken w) /\ wakers w !! cxd = Some k /\ ~ waker_in s0 k) ->
  inv (w, start_parts m).
Proof.
  intros E Eq Ew Es El Esh Est Hal Hkd. constructor; cbn [fst snd].
  - exists sh0. split; [done |]. constructor; [by left | | | | | | |]; cbn [fst snd].
    + intros p [[_ ->] | [? _]]%start_lookup; [| done]. rewrite Est. split; [done |]. by intros [].
    + by intros p [[_ ->] | [_ ->]]%start_lookup [].
    + by intros i p [[_ ->] | [_ ->]]%start_lookup.
    + intros k Hk _. right. split; [done |]. by intros p [[_ ->] | [_ ->]]%start_lookup.
    + intros i p [[_ ->] | [_ ->]]%start_lookup; by intros [| []].
    + intros k Hk Ha%start_announced. by destruct (proj1 (Hkd k Hk)).
    + intros i p [[_ ->] | [_ ->]]%start_lookup; by intros [].
  - by rewrite start_count; [apply Nat.le_0_l |].
  - rewrite E. constructor; rewrite ?El, ?start_count by done; cbn; rewrite ?Es; done.
  - intros key i d k Ei Ek. right. exists x, i. split_and!; [done | | done]. unfold slab_of. by rewrite El.
  - done.
  - by intros p [[_ ->] | [_ ->]]%start_lookup.
  - intros k x' Hk Ex'. rewrite E in Ex'. injection Ex' as <-. unfold slab_of. rewrite El. by apply Hkd.
  - intros k Hk. by apply Hkd.
Qed.

(** The loop from the state at its top. *)
Lemma loop_wp n w g x r v :
  reactors w !! rid = Some x -> io_dispatch x = mkARwLock r false v -> g !! 0%nat = Some at_top ->
  WP 0 (Background.run n rid sid) (fun _ => mine 0 loop_done) (w, g).
Proof.
  intros E El Eg. apply (wp_run n r _ v); [| done]. split_and!; [done | by right | cbn; by rewrite E, <- El].
Qed.

End race.
End ShutdownInv.
