(* ===== verification/ShutdownRace.v ===== *)
(** * Shutting down while the event loop runs

    Any number of threads ask a background reactor to stop while its thread goes round its
    loop, delivers events or sleeps in the queue.  The wakeup reaches the thread, whoever
    holds the last reference drops the reactor, and every task that waited is woken.  Who
    drops a [Background] waits for that, and not longer. *)
From S2P Require Import Prelude Conc RelyGuar Deps Toy World Reactor Background Registration PollEvented.
From S2P Require Import ReactorProof RegistrationProof Demo ReactorSpec BackgroundSpec EventLoop ShutdownInv.

Module ShutdownRace.
Import Dispatch Background ReactorSpec BackgroundSpec EventLoop ShutdownInv.
#[local] Abbreviation run := Conc.run.

Section theorem.
Context `{DepsLaws}.

(** The thread of a background reactor, and threads that shut it down. *)
Definition shutdown_pool (n m fuel : nat) (rid : ReactorId) (sid : SharedId) : list (prg unit) :=
  Background.run n rid sid :: replicate (S m) (shutdown_now (S (S fuel)) (mkBgInner (Reactor.handle rid) sid)).

(** The same thread, and one that drops the [Background]. *)
Definition drop_pool (n fuel : nat) block_on (rid : ReactorId) (sid : SharedId) : list (prg unit) :=
  [Background.run n rid sid;
   Background.drop block_on (S (S fuel)) (Some (mkBgInner (Reactor.handle rid) sid))].

(** Where the threads end: the loop is left, the others have asked, and seen the end if
    they waited for it. *)
Definition ends (ph : phase) (i : nat) (_ : unit) (st : World * list part) : Prop :=
  mine i (if decide (i = 0%nat) then mkPart LTook false false [] else mkPart ph false false []) st.

(** What is true of a world in which the reactor has been shut down. *)
Definition shut_down (rid : ReactorId) (sid : SharedId) (s : slab ScheduledIo) (w : World) : Prop :=
  reactors w !! rid = None /\ (exists sh, shareds w !! sid = Some sh /\ shutdown sh = SHUTDOWN) /\
  forall key i d k, slab_get key s = Some i -> aw_waker (aw_of d i) = Some k -> k ∈ woken w.

Lemma shut_down_of rid sid s w : stopped rid sid w -> sources_woken s w -> shut_down rid sid s w.
Proof. by intros [? ?] ?. Qed.

Lemma replicate_of {A} (l : list A) n a :
  length l = n -> (forall i, (i < n)%nat -> l !! i = Some a) -> l = replicate n a.
Proof.
  intros Hlen Hl. symmetry. apply replicate_as_elem_of. split; [done |].
  intros b (i & Hi)%list_elem_of_lookup_1. pose proof (lookup_lt_Some _ _ _ Hi).
  rewrite Hl in Hi by lia. by injection Hi.
Qed.

(** A thread that waits for events can be woken, so that it is not suspended: of a thread
    that is, it is known that it does not wait for events. *)
Lemma waiting_not_suspended queue wk alive w {B} (c : io_result (list (Z * Z)) -> prg B) :
  wakeup_works queue wk alive -> alive (os w) -> ~ suspended (bind (os_wait (Poll_poll queue None)) c).
Proof.
  intros Hww Hal Hs. specialize (Hs (set_os (set_readiness wk Ready_readable (os w)).2 w)). cbn in Hs.
  pose proof (ww_ready _ _ _ Hww _ Hal) as Hp. by destruct (Poll_poll queue None _) as [[] |].
Qed.

(** C13: A shutdown reaches the event loop, whatever the loop is doing: any number of threads
    ask for it, while the reactor thread delivers events or waits for them, one action at a
    time, in any order.  Nobody panics or stays blocked: the wakeup of one of them ends the
    wait, and at the latest at the next look at the state the thread leaves its loop.  Then
    the reactor is gone, whoever had the last reference to it, every task that waited for one
    of its sources is woken, and so is the one that waits for the end.  [n] bounds the turns
    of the model of the loop: a loop that has used them up is suspended, which one that
    waits for events is not ([waiting_not_suspended]), and its next turn ends it. *)
Theorem shutdown_completes n m fuel w rid x r s sid sh alive w' ts :
  reactors w !! rid = Some x -> strong x = 1%nat -> io_dispatch x = mkARwLock r false s ->
  shareds w !! sid = Some sh -> shutdown sh = 0 -> wakeup_works (io x) (wakeup x) alive -> alive (os w) ->
  rtc cstep (w, shutdown_pool n m fuel rid sid) (w', ts) -> (forall c, ~ cstep (w', ts) c) ->
  exists p w2, ts = p :: replicate (S m) (Ret tt) /\
    (p = Ret tt /\ w2 = w' \/ suspended p /\ run (Background.run 1 rid sid) w' = (Done tt, w2)) /\
    shut_down rid sid s w2 /\ forall k, aw_waker (shutdown_task sh) = Some k -> k ∈ woken w2.
Proof.
  intros E Es El Esh Est Hww Hal Hr Hst. set (fin := mkPart SFin false false []).
  assert (pool_ok (inv rid sid (io x) (wakeup x) alive s sh None 0) (act rid) (blk rid (io x) None) (ends SFin)
    (shutdown_pool n m fuel rid sid) (w, start_parts m)) as Hok.
  { split; [by eapply start_inv |]. intros [| i] p Hp; cbn in Hp; [injection Hp as <-; by eapply loop_wp |].
    change (?a :: replicate m ?a) with (replicate (S m) a) in Hp. apply lookup_replicate in Hp as [-> Hi].
    apply wp_tail. eapply wp_shutdown_now; [exact Hww | | done |].
    - unfold mine. cbn. change (?a :: replicate m ?a) with (replicate (S m) a). by apply lookup_replicate_2.
    - intros s' Hs'. eapply wp_ret; [apply mine_stable | exact Hs' |]. by intros s2 Hs2 _. }
  destruct (pool_ok_trace _ _ _ _ _ _ _ Hr Hok) as (g & Hok' & Htr). cbn [fst snd] in Hok'.
  apply trace_length in Htr. apply rtc_cstep_length in Hr. cbn in Htr, Hr. rewrite length_replicate in Htr. rewrite length_replicate in Hr.
  assert (forall i, (i < S m)%nat -> ts !! S i = Some (Ret tt) /\ g !! S i = Some fin) as Hask.
  { intros i Hi. destruct (lookup_lt_is_Some_2 ts (S i)) as [p Hp]; [lia |].
    destruct (pool_ok_stuck _ _ _ _ _ _ _ Hok' Hst _ _ Hp) as [([] & -> & Hq) | (? & _ & [[? _] | (_ & _ & k & ? & _)])]; by split. }
  destruct ts as [| p ts]; [done |]. destruct g as [| q g]; [done |]. cbn in Hr, Htr.
  assert (ts = replicate (S m) (Ret tt)) as -> by (apply replicate_of; [lia | apply Hask]).
  assert (g = replicate (S m) fin) as -> by (apply replicate_of; [lia | apply Hask]).
  destruct (end_loop _ _ _ _ _ _ _ _ _ w' q fin (replicate m fin) p (proj1 Hok')) as (w2 & Hw2 & Hs & Ht & Hk).
  - change (Forall resting (replicate (S m) fin)). by apply Forall_replicate.
  - destruct (pool_ok_stuck _ _ _ _ _ _ _ Hok' Hst 0%nat p eq_refl) as [([] & -> & Hq) | Hb]; [by left | by right].
  - exists p, w2. split; [done |].
    split; [destruct Hw2 as [? | (? & Hw2 & _)]; [by left | by right] |]. split; [by apply shut_down_of |].
    intros k Ek. apply Hk. left. split; [done |].
    change (Forall (fun p => registered (p_phase p) = false) (replicate (S m) fin)). by apply Forall_replicate.
Qed.

(** ** Waiting for the end

    A background reactor with the one reference that its thread holds, which nobody has
    asked to stop yet, and a thread that drops the [Background]: [cx] is the context of its
    executor and [k] the waker there, which was not called yet and which no source stores. *)
Section drop.
Context (n fuel : nat) (w : World) (rid : ReactorId) (x : ReactorInner) (r : nat) (s : slab ScheduledIo).
Context (sid : SharedId) (sh : Shared) (alive : Os -> Prop) (cx : Z) (k : waker).
Context (block_on : (Z -> prg (Poll (unit + unit))) -> prg (unit + unit)).
Hypothesis E : reactors w !! rid = Some x.
Hypothesis Es : strong x = 1%nat.
Hypothesis El : io_dispatch x = mkARwLock r false s.
Hypothesis Esh : shareds w !! sid = Some sh.
Hypothesis Est : shutdown sh = 0.
Hypothesis Hww : wakeup_works (io x) (wakeup x) alive.
Hypothesis Hal : alive (os w).
Hypothesis Hbo : executes cx k block_on.
Hypothesis Hcx : wakers w !! cx = Some k.
Hypothesis Hfresh : k ∉ woken w.
Hypothesis Hk : ~ waker_in s k.

Abbreviation drop_ok := (pool_ok (inv rid sid (io x) (wakeup x) alive s sh (Some k) cx) (act rid)
  (blk rid (io x) (Some k)) (ends DDone)).

Lemma drop_starts : drop_ok (drop_pool n fuel block_on rid sid) (w, start_parts 0).
Proof.
  split; [eapply start_inv; try done; by intros ? [= <-] |].
  intros [| [| i]] p Hp; cbn in Hp; [injection Hp as <-; by eapply loop_wp | | done].
  injection Hp as <-. apply wp_tail. eapply wp_background_drop; [exact Hww | by unfold mine | done | done | done |].
  intros s' Hs'. eapply wp_ret; [apply mine_stable | exact Hs' |]. by intros s2 Hs2 _.
Qed.

(** A pool that cannot move: the thread has seen the end or sleeps, and the loop has ended
    or has used up its turns. *)
Lemma drop_stuck w' g p0 p1 :
  drop_ok [p0; p1] (w', g) -> length g = 2%nat -> (forall c, ~ cstep (w', [p0; p1]) c) ->
  exists w2, (p1 = Ret tt \/ (k ∉ woken w') /\ k ∈ woken w2) /\ shut_down rid sid s w2 /\
    (p0 = Ret tt /\ w2 = w' \/
     suspended p0 /\ run (Background.run 1 rid sid) w' = (Done tt, w2) /\ drop_ok [Background.run 1 rid sid; p1] (w', g)).
Proof.
  intros Hok Hlen Hst. destruct g as [| q0 [| q1 [|]]]; [done .. | | done].
  assert (resting q1 /\ (p1 = Ret tt \/ (k ∉ woken w') /\ wait_end sh (Some k) [q1] k)) as [Hq1 Hp1].
  { destruct (pool_ok_stuck _ _ _ _ _ _ _ Hok Hst 1%nat p1 eq_refl)
      as [([] & -> & [= ->]) | (? & _ & [[? _] | (_ & [= ->] & k' & [= <-] & Hnw)])]; [by split; [| left] | done |].
    split; [done |]. right. split; [done |]. right. split; [done |]. eexists. by split; [left |]. }
  destruct (end_loop rid sid (io x) (wakeup x) alive s sh (Some k) cx w' q0 q1 [] p0 (proj1 Hok))
    as (w2 & Hw2 & Hs & Ht & Hwk); [by constructor | |].
  - destruct (pool_ok_stuck _ _ _ _ _ _ _ Hok Hst 0%nat p0 eq_refl) as [([] & -> & Hq) | Hb]; [by left | by right].
  - exists w2. split_and!; [| by apply shut_down_of |].
    + destruct Hp1 as [-> | [Hnw Hp1]]; [by left | right; by split; [| apply Hwk]].
    + destruct Hw2 as [? | (Hsus & Hrun & -> & x' & r' & v & Ex & El')]; [by left | right].
      do 2 (split; [done |]). split; [apply Hok |].
      intros [| i] p Hp; [| exact (proj2 Hok (S i) p Hp)].
      change (Some (Background.run 1 rid sid) = Some p) in Hp. apply (inj Some) in Hp as <-. by eapply loop_wp.
Qed.

Lemma drop_trace w1 ts w' ts' g :
  rtc cstep (w1, ts) (w', ts') -> drop_ok ts (w1, g) -> exists g', drop_ok ts' (w', g') /\ length g' = length g.
Proof.
  intros Hr Hok. destruct (pool_ok_trace _ _ _ _ _ _ _ Hr Hok) as (g' & Hok' & Htr). exists g'. split; [done |].
  by apply trace_length in Htr.
Qed.

(** Once the loop has ended, nothing stops the thread that waited for it. *)
Lemma drop_resumes w1 g p1 :
  drop_ok [Ret tt; p1] (w1, g) -> length g = 2%nat -> exists w2, run p1 w1 = (Done tt, w2) /\ shut_down rid sid s w2.
Proof.
  intros Hok Hlen. destruct (run p1 w1) as [o w2] eqn:Hr. exists w2.
  destruct (run_cstep 1 p1 w1 [Ret tt; p1] o w2 eq_refl Hr) as (p' & Htr & Ho). cbn in Htr.
  destruct (drop_trace _ _ _ _ _ Htr Hok) as (g' & Hok' & Hlen'). rewrite Hlen in Hlen'.
  assert (o = Done tt \/ o = Blocked) as Ho'.
  { destruct o as [[] | e |]; [by left | subst p' | by right].
    by destruct (proj1 (proj2 (pool_ok_adequate _ _ _ _ _ _ Hok')) 1%nat e). }
  destruct (drop_stuck w2 g' (Ret tt) p' Hok' Hlen') as (w3 & Hp' & Hs & [[_ ->] | [[] _]]).
  - intros c Hc. inversion Hc as [[| [| i]] f v v' q ts Hi Hf]; simplify_eq; try done.
    destruct Ho' as [-> | ->]; [by subst p' |]. destruct Ho as (f' & Ef & Hf'). cbn in *. congruence.
  - destruct Ho' as [-> | ->]; [done |]. destruct Ho as (f & -> & _). by destruct Hp' as [? | [? ?]].
Qed.

(** C14: Who drops a [Background] asks its reactor to stop, waits until it has stopped, and
    always comes back, in every interleaving with the event loop.  Nobody panics.  When the
    drop has returned, the reactor is gone and the end announced.  And whenever nobody can
    move, both are done; or the loop has used up the [n] turns of its model and is
    suspended, so that it does not wait for events: then its next turn ends it and wakes
    the thread, which returns.  The thread
    drives the future with any executor that does what the documentation of
    [futures::executor::block_on] says; its waker is its own. *)
Theorem background_drop_returns w' ts :
  rtc cstep (w, drop_pool n fuel block_on rid sid) (w', ts) ->
  (forall i e, ts !! i <> Some (Fault e)) /\
  (ts !! 1%nat = Some (Ret tt) ->
     reactors w' !! rid = None /\ exists sh', shareds w' !! sid = Some sh' /\ shutdown sh' = SHUTDOWN) /\
  ((forall c, ~ cstep (w', ts) c) ->
     (ts = [Ret tt; Ret tt] /\ shut_down rid sid s w') \/
     exists p0 p1 w2 w3, ts = [p0; p1] /\ suspended p0 /\
       run (Background.run 1 rid sid) w' = (Done tt, w2) /\ run p1 w2 = (Done tt, w3) /\ shut_down rid sid s w3).
Proof.
  intros Hr. destruct (drop_trace _ _ _ _ _ Hr drop_starts) as (g & Hok & Hlen).
  apply rtc_cstep_length in Hr. destruct ts as [| p0 [| p1 [|]]]; [done .. | | done].
  pose proof (pool_ok_adequate _ _ _ _ _ _ Hok) as (Hinv & Hfault & Hret). split_and!; [done | |].
  - intros [= ->]. specialize (Hret 1%nat tt eq_refl). destruct g as [| q0 [| q1 [|]]]; [done .. | | done].
    injection Hret as ->. eapply end_seen; [exact Hinv | by constructor |]. eexists. by split; [left |].
  - intros Hst. destruct (drop_stuck w' g p0 p1 Hok Hlen Hst) as (w2 & Hp1 & Hs & [[-> ->] | (Hsus & Hrun & Hok2)]).
    + left. split; [| done]. destruct Hp1 as [-> | [? ?]]; done.
    + right. destruct (run_cstep 0 _ w' [Background.run 1 rid sid; p1] _ w2 eq_refl Hrun) as (p' & Htr & ->).
      destruct (drop_trace _ _ _ _ _ Htr Hok2) as (g2 & Hok3 & Hlen3). rewrite Hlen in Hlen3.
      destruct (drop_resumes w2 g2 p1 Hok3 Hlen3) as (w3 & Hrun3 & Hs3). by exists p0, p1, w2, w3.
Qed.
End drop.
End theorem.

(** ** Witness: the world of BackgroundSpec.v *)
Section witnesses.
Import Toy Demo.

(** The wakeup handle is registered, and the system does not fail. *)
Definition toy_alive (o : toy_os) : Prop := toy_token 101 o = Some TOKEN_WAKEUP /\ os_fail o = false.

Lemma toy_wakeup_works : wakeup_works 100 101 toy_alive.
Proof.
  constructor.
  - intros ready o [Ht Hf]. split; [done |]. cbn [set_readiness toy_mio deps_mio toy_deps snd]. rewrite Ht.
    by destruct (ready =? 0).
  - intros o [Ht Hf]. cbn [set_readiness Poll_poll toy_mio deps_mio toy_deps snd]. rewrite Ht.
    cbn [os_fail os_events Z.eqb Ready_readable toy_ready deps_ready toy_deps]. rewrite Hf. by destruct (os_events o).
  - intros o res o' [Ht Hf]. cbn [Poll_poll toy_mio deps_mio toy_deps]. rewrite Hf.
    destruct (os_events o); intros [= <- <-]. by split.
Qed.

(** Both threads have returned. *)
Definition both_done (c : config (W := World) (R := unit)) : bool :=
  match c.2 with [Ret tt; Ret tt] => true | _ => false end.

Lemma exec_done sched c : option_map both_done (exec sched c) = Some true ->
  exists w' ts, exec sched c = Some (w', ts) /\ ts = [Ret tt; Ret tt] /\ rtc cstep c (w', ts) /\
    (forall c', ~ cstep (w', ts) c').
Proof.
  destruct (exec sched c) as [[w' ts] |] eqn:E; [| done]. intros [= Hb]. exists w', ts.
  unfold both_done in Hb. cbn [fst snd] in *.
  assert (ts = [Ret tt; Ret tt]) as -> by by destruct ts as [| [[] | |] [| [[] | |] [|]]].
  split_and!; [done | done | by apply exec_sound in E |].
  apply finished_stuck. repeat constructor; by eexists.
Qed.

(** The thread waits for events; another one asks it to stop, gets a reference and wakes it
    up; the thread ends while that reference is still there, so that the last one is
    dropped by the other thread. *)
Definition shutdown_schedule : list nat :=
  [0; 0; 1; 1; 1; 1; 1; 0; 0; 0; 0; 0; 0; 0; 0; 1; 1; 1; 1; 1; 1; 1; 1]%nat.

Lemma shutdown_completes_witness :
  exists w' ts, exec shutdown_schedule (world_bg, shutdown_pool 2 0 0 0%nat 0%nat) = Some (w', ts) /\
    ts = [Ret tt; Ret tt] /\ reactors w' !! 0%nat = None /\ 51%nat ∈ woken w' /\ 61%nat ∈ woken w'.
Proof.
  destruct (exec_done shutdown_schedule (world_bg, shutdown_pool 2 0 0 0%nat 0%nat)) as (w' & ts & E & Ets & Hr & Hst);
    [vm_compute; reflexivity |].
  exists w', ts. split; [exact E |]. split; [exact Ets |].
  destruct (shutdown_completes 2 0 0 world_bg 0%nat (reactor_of world_bg) 0 (slab_at world_bg) 0%nat
    (mkShared 0 (aw_register 61%nat aw_new)) toy_alive w' ts eq_refl eq_refl eq_refl eq_refl eq_refl toy_wakeup_works
    (conj eq_refl eq_refl) Hr Hst) as (p & w2 & Ep & [[_ ->] | [Hsus _]] & (Hgone & _ & Ht) & Hs);
    [| rewrite Ets in Ep; injection Ep as <-; by destruct Hsus].
  split; [exact Hgone |]. split; [exact (Ht 0 (io_at 0 world_bg) Read 51%nat eq_refl eq_refl) | exact (Hs 61%nat eq_refl)].
Defined.

(** The thread waits for events; another one drops the [Background], asks it to stop, polls
    [Shutdown] and sleeps; the loop ends, which wakes the other one. *)
Definition drop_schedule : list nat := ([0; 0] ++ replicate 9 1 ++ replicate 15 0 ++ replicate 4 1)%nat.

Lemma other_task : ~ waker_in (slab_at world_bg) 61.
Proof.
  intros (key & i & d & Hi%slab_iter_get & Hk).
  change ((key, i) ∈ [(0, io_at 0 world_bg)]) in Hi. apply list_elem_of_singleton in Hi as [= -> ->]. by destruct d.
Qed.

Lemma background_drop_returns_witness :
  exists w' ts, exec drop_schedule (world_bg, drop_pool 2 0 (poll_until_ready 2 600 61%nat) 0%nat 0%nat) = Some (w', ts) /\
    ts = [Ret tt; Ret tt] /\ reactors w' !! 0%nat = None /\ 51%nat ∈ woken w'.
Proof.
  destruct (exec_done drop_schedule (world_bg, drop_pool 2 0 (poll_until_ready 2 600 61%nat) 0%nat 0%nat))
    as (w' & ts & E & Ets & Hr & Hst); [vm_compute; reflexivity |].
  exists w', ts. split; [exact E |]. split; [exact Ets |].
  destruct (background_drop_returns 2 0 world_bg 0%nat (reactor_of world_bg) 0 (slab_at world_bg) 0%nat
    (mkShared 0 (aw_register 61%nat aw_new)) toy_alive 600 61%nat (poll_until_ready 2 600 61%nat) eq_refl eq_refl eq_refl
    eq_refl eq_refl toy_wakeup_works (conj eq_refl eq_refl) (ex_intro _ 0%nat (fun _ => eq_refl)) eq_refl
    (not_elem_of_nil _) other_task w' ts Hr) as (_ & Hend & Hstuck).
  split; [apply Hend; by rewrite Ets |].
  destruct (Hstuck Hst) as [(_ & _ & _ & Ht) | (p0 & p1 & w2 & w3 & Ep & Hsus & _)];
    [| rewrite Ets in Ep; injection Ep as <- <-; by destruct Hsus].
  exact (Ht 0 (io_at 0 world_bg) Read 51%nat eq_refl eq_refl).
Defined.
End witnesses.
End ShutdownRace.
