(* ===== verification/ResourceSpec.v ===== *)
(** * Properties of registered I/O resources

    What raw/poll_evented.rs promises to the sockets: the operations implement the
    specification in Resource.v, a [Pending] always leaves a way to be woken, readiness
    lasts until it is cleared, HUP for ever, and the two directions do not disturb each
    other. *)
From S2P Require Import Prelude Conc Deps Toy World Reactor Background Registration PollEvented.
From S2P Require Import ReactorProof RegistrationProof Resource Demo.

Module ResourceSpec.
Import Resource ResourceProof.

(** ** Laws of the specification *)
Section laws.
Context `{DepsLaws}.

Lemma take_events_bits d k r : bits d (slot (take_events d (Some k) r).2) = bits d (consume_bits d (slot r)).
Proof. cbn. unfold after_poll. case_match; [| done]. unfold bits. by rewrite with_aw_readiness. Qed.

Lemma take_events_armed d k r :
  res_wf r -> bits d (slot r) = 0 -> armed d k (take_events d (Some k) r).2.
Proof.
  intros Hr Eb. right. rewrite take_events_bits. split; [| by apply consume_bits_empty].
  cbn. unfold after_poll. rewrite (proj2 (Z.eqb_eq _ _) Eb), aw_of_with_aw. apply aw_register_waker.
Qed.

Lemma poll_ready_armed d k r r' : res_wf r -> poll_ready d k r = (None, r') -> armed d k r'.
Proof.
  intros Hr. rewrite poll_ready_eq. case_match; [| done]. cbv zeta.
  destruct (bits d (slot r) =? 0) eqn:Eb.
  { intros [= <-]. apply take_events_armed; [done | by apply Z.eqb_eq]. }
  case_match eqn:Er; [| done]. intros [= <-]. apply take_events_armed.
  - apply res_wf_set_cache. by apply (res_wf_take d (Some k) r).
  - assert (bits d (slot (take_events d (Some k) r).2) = 0) as E.
    { apply second_look; [done | by apply Z.eqb_eq]. }
    by destruct d.
Qed.

Lemma clear_ready_armed d k r : res_wf r -> armed d k (clear_ready d k r).
Proof.
  intros Hr. unfold clear_ready. set (r1 := set_cache d _ r).
  assert (res_wf r1) as Hr1 by by apply res_wf_set_cache.
  destruct (poll_ready d k r1) as [[v |] r2] eqn:E; [| by apply (poll_ready_armed d k r1)].
  left. cbn. apply elem_of_app. right. by apply list_elem_of_singleton.
Qed.

Lemma io_op_armed {A} d k (call : Os -> io_result A * Os) r r' :
  res_wf r -> io_op d k call r = (Pending, r') -> armed d k r'.
Proof.
  intros Hr. pose proof (res_wf_poll_ready k d r Hr) as Hr1. unfold io_op.
  destruct (poll_ready d k r) as [[v |] r1] eqn:E; [| intros [= <-]; by apply (poll_ready_armed d k r)].
  destruct (call (res_os r1)) as [res o]. case_match; intros [=]. subst.
  by apply clear_ready_armed.
Qed.

Lemma io_op_buf_armed {A B} d k (call : B -> Os -> (io_result A * B) * Os) b r b' r' :
  res_wf r -> io_op_buf d k call b r = ((Pending, b'), r') -> armed d k r'.
Proof.
  intros Hr. pose proof (res_wf_poll_ready k d r Hr) as Hr1. unfold io_op_buf.
  destruct (poll_ready d k r) as [[v |] r1] eqn:E; [| intros [= _ <-]; by apply (poll_ready_armed d k r)].
  destruct (call b (res_os r1)) as [[res b1] o]. case_match; intros [=]. subst.
  by apply clear_ready_armed.
Qed.

(** *** Flags *)
Definition other_dir (d : Direction) : Direction := match d with Read => Write | Write => Read end.

Lemma hup_mask d : Z.land platform.hup (mask d) = platform.hup.
Proof.
  unfold platform.hup, mask, Ready_sub, platform.hup, Ready_empty. pose proof UnixReady_hup_all as Ha.
  pose proof UnixReady_hup_writable as Hw. destruct d, cfg_unix; try done.
  - apply Z.bits_inj'. intros b Hb. apply (f_equal (fun z => Z.testbit z b)) in Ha, Hw.
    rewrite Z.bits_0 in *. rewrite ?Z.land_spec, ?Z.ldiff_spec in *. rewrite ?Z.land_spec in *.
    by destruct (Z.testbit UnixReady_hup b), (Z.testbit Ready_all b), (Z.testbit Ready_writable b).
  - zbits.
Qed.

(** The masks of the two directions have HUP in common and nothing else. *)
Lemma masks_disjoint d : Z.land (mask (other_dir d)) (mask_no_hup d) = 0.
Proof.
  unfold mask_no_hup, mask, Ready_sub. apply Z.bits_inj'. intros b Hb.
  destruct d; cbn [other_dir]; rewrite ?Z.bits_0, ?Z.land_spec, ?Z.ldiff_spec, ?Z.lor_spec, ?Z.ldiff_spec, ?Z.lor_spec;
    by destruct (Z.testbit Ready_writable b), (Z.testbit Ready_all b), (Z.testbit platform.hup b).
Qed.

Lemma consume_other d i : is_usize (readiness i) -> bits (other_dir d) (consume_bits d i) = bits (other_dir d) i.
Proof.
  intros Hr. unfold bits, consume_bits. cbn [readiness]. rewrite land_unot by done.
  pose proof (masks_disjoint d) as E. apply Z.bits_inj'. intros b Hb.
  apply (f_equal (fun z => Z.testbit z b)) in E. rewrite Z.bits_0 in E.
  rewrite ?Z.land_spec, ?Z.ldiff_spec in *.
  by destruct (Z.testbit (mask (other_dir d)) b), (Z.testbit (mask_no_hup d) b), (Z.testbit (readiness i) b).
Qed.

(** *** HUP *)
Definition has_hup (r : Res) : Prop :=
  platform.hup <> 0 /\ Z.land (readiness (slot r)) platform.hup = platform.hup.

Lemma hup_bits d r : has_hup r -> Z.land (bits d (slot r)) platform.hup = platform.hup.
Proof.
  intros [_ E]. unfold bits. rewrite <- Z.land_assoc, E, Z.land_comm. apply hup_mask.
Qed.

Lemma has_hup_take d k r : res_wf r -> has_hup r -> has_hup (take_events d k r).2.
Proof.
  intros Hr [Hn E]. split; [done |]. cbn.
  assert (readiness (after_poll d k (slot r)) = readiness (consume_bits d (slot r))) as ->.
  { unfold after_poll. destruct k; [case_match |]; try done. by rewrite with_aw_readiness. }
  unfold consume_bits. cbn [readiness]. rewrite land_unot by done. unfold mask_no_hup, Ready_sub.
  apply Z.bits_inj'. intros b Hb. apply (f_equal (fun z => Z.testbit z b)) in E.
  rewrite ?Z.land_spec, ?Z.ldiff_spec in *. rewrite ?Z.ldiff_spec.
  by destruct (Z.testbit (readiness (slot r)) b), (Z.testbit platform.hup b), (Z.testbit (mask d) b).
Qed.

Lemma hup_cases a : Z.land a platform.hup = 0 \/ (platform.hup <> 0 /\ Z.land a platform.hup = platform.hup).
Proof.
  unfold platform.hup, Ready_empty. destruct cfg_unix; [| left; apply Z.land_0_r].
  pose proof (is_flag_pos _ UnixReady_hup_flag).
  destruct (flag_land a _ UnixReady_hup_flag) as [-> | ->]; [by left | right; split; [lia | done]].
Qed.

Lemma poll_ready_cached d k r : Z.land (cache d r) (ready_bit d) <> 0 -> is_Some (poll_ready d k r).1.
Proof. intros E. rewrite poll_ready_eq, (proj2 (Z.eqb_neq _ _) E). by eexists. Qed.

Lemma has_hup_set_cache d c r : has_hup r -> has_hup (set_cache d c r).
Proof. by destruct d. Qed.

Lemma hup_poll_ready d k r :
  res_wf r -> has_hup r -> is_Some (poll_ready d k r).1 /\ has_hup (poll_ready d k r).2.
Proof.
  intros Hr Hh. rewrite poll_ready_eq. cbv zeta.
  pose proof (has_hup_take d (Some k) r Hr Hh) as H1. pose proof (has_hup_take d None r Hr Hh) as H2.
  case_match eqn:Ec; cbn [fst snd].
  2: { split; [by eexists |]. case_match; [done | by apply has_hup_set_cache]. }
  pose proof (hup_bits d r Hh) as Eb. destruct Hh as [Hn _].
  destruct (bits d (slot r) =? 0) eqn:E0.
  { apply Z.eqb_eq in E0. rewrite E0 in Eb. by rewrite Z.land_0_l in Eb. }
  destruct (Z.land (bits d (slot r)) _ =? 0) eqn:E1.
  { apply Z.eqb_eq in E1. rewrite Z.land_lor_distr_r, Eb in E1. apply Z.lor_eq_0_iff in E1. by destruct E1. }
  cbn [fst snd]. split; [by eexists | by apply has_hup_set_cache].
Qed.

Lemma hup_clear_ready d k r :
  res_wf r -> has_hup r -> has_hup (clear_ready d k r) /\ k ∈ res_woken (clear_ready d k r).
Proof.
  intros Hr Hh. unfold clear_ready. set (r1 := set_cache d _ r).
  assert (res_wf r1) as Hr1 by by apply res_wf_set_cache.
  destruct (hup_poll_ready d k r1 Hr1 (has_hup_set_cache _ _ _ Hh)) as [[v Hv] H2].
  destruct (poll_ready d k r1) as [v' r2]. cbn in *. subst v'. split; [done |]. cbn.
  apply elem_of_app. right. by apply list_elem_of_singleton.
Qed.

(** *** Events *)
Lemma ready_mask d : Z.land (Z.lor (ready_bit d) platform.hup) (mask d) = Z.lor (ready_bit d) platform.hup.
Proof.
  rewrite Z.land_lor_distr_l, hup_mask. f_equal. destruct d; cbn [ready_bit mask].
  - pose proof Ready_readable_all as Ha. pose proof Ready_readable_writable as Hw. unfold Ready_sub.
    apply Z.bits_inj'. intros b Hb. apply (f_equal (fun z => Z.testbit z b)) in Ha, Hw.
    rewrite Z.bits_0 in *. rewrite ?Z.land_spec, ?Z.ldiff_spec in *. rewrite ?Z.land_spec in *.
    by destruct (Z.testbit Ready_readable b), (Z.testbit Ready_all b), (Z.testbit Ready_writable b).
  - zbits.
Qed.

(** An event that makes a resource ready is one that [dispatch] wakes the task for. *)
Lemma wants_event d ready : is_usize ready -> Z.land ready (Z.lor (ready_bit d) platform.hup) <> 0 ->
  match d with Read => Dispatch.wants_read ready | Write => Dispatch.wants_write ready end = true.
Proof.
  intros Hu Hr. destruct d; cbn [ready_bit] in Hr.
  - unfold Dispatch.wants_read, Ready_is_empty. rewrite land_unot by done. apply negb_true_iff, Z.eqb_neq.
    intros E. apply Hr. pose proof Ready_readable_writable as H1. pose proof (hup_mask Read) as H2.
    cbn [mask] in H2. unfold Ready_sub in H2.
    apply Z.bits_inj'. intros b Hb. apply (f_equal (fun z => Z.testbit z b)) in E, H1, H2.
    rewrite Z.bits_0 in *. rewrite ?Z.land_spec, ?Z.ldiff_spec, ?Z.lor_spec in *. rewrite ?Z.ldiff_spec in *.
    by destruct (Z.testbit ready b), (Z.testbit Ready_readable b), (Z.testbit Ready_all b),
      (Z.testbit Ready_writable b), (Z.testbit platform.hup b).
  - unfold Dispatch.wants_write, Ready_contains, platform.is_hup, Ready_contains.
    rewrite Z.land_lor_distr_r in Hr. apply orb_true_iff.
    destruct (flag_land ready _ Ready_writable_flag) as [E | E]; [| left; by apply Z.eqb_eq]. right.
    rewrite E, Z.lor_0_l in Hr. destruct (hup_cases ready) as [Eh | [_ Eh]]; [done |].
    unfold platform.hup in *. destruct cfg_unix; [by apply Z.eqb_eq | by rewrite Z.land_0_r in Hr].
Qed.

Lemma event_ready d k ready r r' :
  slot r' = Dispatch.after_event ready (slot r) -> Z.land ready (Z.lor (ready_bit d) platform.hup) <> 0 ->
  is_Some (poll_ready d k r').1.
Proof.
  intros Es Hr. rewrite poll_ready_eq. cbv zeta. case_match; [| by eexists].
  assert (Z.land (bits d (slot r')) (Z.lor (ready_bit d) platform.hup) <> 0) as Hb.
  { unfold bits. rewrite Es. cbn [readiness Dispatch.after_event]. intros E. apply Hr.
    pose proof (ready_mask d) as Hm. revert E Hm. generalize (Z.lor (ready_bit d) platform.hup). intros c E Hm.
    apply Z.bits_inj'. intros b Hb. apply (f_equal (fun z => Z.testbit z b)) in E, Hm.
    rewrite Z.bits_0 in *. rewrite ?Z.land_spec, ?Z.lor_spec in *. rewrite ?Z.lor_spec in *.
    by destruct (Z.testbit c b), (Z.testbit (mask d) b), (Z.testbit ready b), (Z.testbit (readiness (slot r)) b). }
  destruct (bits d (slot r') =? 0) eqn:E0.
  { apply Z.eqb_eq in E0. by rewrite E0 in Hb. }
  rewrite (proj2 (Z.eqb_neq _ _) Hb). by eexists.
Qed.
End laws.

(** ** The properties, of the code *)
Section props.
Context `{DepsLaws}.
Context (w : World) (p : PeId) (e : Evented) (reg : RegId) (rid : ReactorId) (x : ReactorInner).
Context (m n : nat) (s : slab ScheduledIo) (key cx : Z) (k : waker).
Context (fuel t : nat).

#[local] Abbreviation W := (cfg w p e reg rid x n s key).
#[local] Abbreviation F := (S (S fuel)).

(** The two families of operations, by direction. *)
Definition poll_dir (d : Direction) : prg (Poll (io_result Z)) :=
  match d with
  | Read => PollEvented.poll_read_ready F t p cx
  | Write => PollEvented.poll_write_ready F t p cx
  end.
Definition clear_dir (d : Direction) : prg (io_result unit) :=
  match d with
  | Read => PollEvented.clear_read_ready F t p cx
  | Write => PollEvented.clear_write_ready F t p cx
  end.

Lemma run_poll_dir d r : registered w p e reg rid x m n s key cx k -> res_wf r ->
  run (poll_dir d) (W r) = (Done (poll_result (poll_ready d k r).1), W (poll_ready d k r).2).
Proof.
  intros Hw Hr. destruct d; [by apply (run_poll_read_ready w p e reg rid x m) |
    by apply (run_poll_write_ready w p e reg rid x m)].
Qed.

Lemma run_clear_dir d r : registered w p e reg rid x m n s key cx k -> res_wf r ->
  run (clear_dir d) (W r) = (Done (Ok tt), W (clear_ready d k r)).
Proof.
  intros Hw Hr. destruct d; [by apply (run_clear_read_ready w p e reg rid x m) |
    by apply (run_clear_write_ready w p e reg rid x m)].
Qed.

(** C10: Every operation of [PollEvented] on a registered resource runs to completion, with
    the bound 2 for its loops, and does what the specification says. *)
Theorem poll_evented_refines {B} r read write flush (buf : B) :
  registered w p e reg rid x m n s key cx k -> res_wf r ->
  (forall d, run (poll_dir d) (W r) = (Done (poll_result (poll_ready d k r).1), W (poll_ready d k r).2) /\
     run (clear_dir d) (W r) = (Done (Ok tt), W (clear_ready d k r))) /\
  run (PollEvented.poll_read F t read p cx buf) (W r) =
    (Done (io_op_buf Read k (read e) buf r).1, W (io_op_buf Read k (read e) buf r).2) /\
  run (PollEvented.poll_write F t write p cx) (W r) =
    (Done (io_op Write k (write e) r).1, W (io_op Write k (write e) r).2) /\
  run (PollEvented.poll_flush F t flush p cx) (W r) =
    (Done (io_op Write k (flush e) r).1, W (io_op Write k (flush e) r).2).
Proof.
  intros Hw Hr. split_and!.
  - intros d. split; [by apply run_poll_dir | by apply run_clear_dir].
  - by apply (run_poll_read w p e reg rid x m).
  - by apply (run_poll_write w p e reg rid x m).
  - by apply (run_poll_flush w p e reg rid x m).
Qed.

(** C11: Whenever one of the I/O operations returns [Pending], the task is woken already, or
    its waker is stored in the slot of the resource and no event of the direction is
    there: the next one will wake it. *)
Theorem pending_is_armed {B} r read write flush :
  registered w p e reg rid x m n s key cx k -> res_wf r ->
  (forall (buf buf' : B) w', run (PollEvented.poll_read F t read p cx buf) (W r) = (Done (Pending, buf'), w') ->
     exists r', w' = W r' /\ armed Read k r') /\
  (forall w', run (PollEvented.poll_write F t write p cx) (W r) = (Done Pending, w') ->
     exists r', w' = W r' /\ armed Write k r') /\
  (forall w', run (PollEvented.poll_flush F t flush p cx) (W r) = (Done Pending, w') ->
     exists r', w' = W r' /\ armed Write k r').
Proof.
  intros Hw Hr. split_and!.
  - intros buf buf' w'. rewrite (run_poll_read w p e reg rid x m n s key cx k Hw) by done.
    destruct (io_op_buf Read k (read e) buf r) as [[v b] r'] eqn:E. intros [= -> -> <-].
    exists r'. split; [done |]. by eapply io_op_buf_armed.
  - intros w'. rewrite (run_poll_write w p e reg rid x m n s key cx k Hw) by done.
    destruct (io_op Write k (write e) r) as [v r'] eqn:E. intros [= -> <-].
    exists r'. split; [done |]. by eapply io_op_armed.
  - intros w'. rewrite (run_poll_flush w p e reg rid x m n s key cx k Hw) by done.
    destruct (io_op Write k (flush e) r) as [v r'] eqn:E. intros [= -> <-].
    exists r'. split; [done |]. by eapply io_op_armed.
Qed.

Lemma clear_keeps_slot_quiet d r :
  res_wf r -> bits d (slot r) = 0 ->
  let r1 := clear_ready d k r in
  res_wf r1 /\ bits d (slot r1) = 0 /\ Z.land (cache d r1) (ready_bit d) = 0.
Proof.
  intros Hr Eb. cbv zeta. split; [by apply res_wf_clear_ready |].
  unfold clear_ready. rewrite poll_ready_eq. rewrite cache_set_cache. set (c := Z.land (cache d r) _).
  assert (Z.land c (ready_bit d) = 0) as Ec.
  { unfold c, unot. zbits. }
  rewrite Ec. cbn [Z.eqb]. cbv zeta.
  assert (slot (set_cache d c r) = slot r) as Es by by destruct d. rewrite Es, Eb. cbn [Z.eqb].
  rewrite take_events_bits, Es. split; [by apply consume_bits_empty |].
  destruct d; cbn; done.
Qed.

(** After the readiness was cleared, the resource is not ready again before the next
    event, and a task that polls it waits. *)
Lemma clear_then_pending d r :
  registered w p e reg rid x m n s key cx k -> res_wf r -> bits d (slot r) = 0 ->
  exists r', run (let! _ := clear_dir d in poll_dir d) (W r) = (Done Pending, W r') /\ armed d k r'.
Proof.
  intros Hw Hr Eb. destruct (clear_keeps_slot_quiet d r Hr Eb) as (Hr1 & Eb1 & Ec1).
  erewrite run_bind_done by by apply run_clear_dir. rewrite run_poll_dir by done.
  destruct (poll_ready d k (clear_ready d k r)) as [v r2] eqn:E. exists r2.
  rewrite poll_ready_eq, Ec1, Eb1 in E. injection E as <- E2. split; [done |].
  rewrite <- E2. by apply take_events_armed.
Qed.

Lemma poll_ready_sticky d k' v r r1 :
  res_wf r -> poll_ready d k r = (Some v, r1) -> is_Some (poll_ready d k' r1).1.
Proof.
  intros Hr. rewrite poll_ready_eq. cbv zeta. destruct (Z.land (cache d r) (ready_bit d) =? 0) eqn:Ec.
  - destruct (bits d (slot r) =? 0); [done |]. case_match eqn:Er; [done |]. intros [= <- <-].
    set (r1' := set_cache d _ _). apply Z.eqb_neq in Er.
    destruct (hup_cases (bits d (slot r))) as [Eh | Eh].
    + apply poll_ready_cached. unfold r1'. rewrite cache_set_cache. intros E. apply Er.
      rewrite Z.land_lor_distr_l in E. apply Z.lor_eq_0_iff in E as [_ E].
      by rewrite Z.land_lor_distr_r, E, Eh.
    + apply hup_poll_ready; [by apply res_wf_set_cache; apply (res_wf_take d (Some k) r) |].
      apply has_hup_set_cache, (has_hup_take d (Some k)); [done |]. split; [apply Eh |].
      destruct (hup_cases (readiness (slot r))) as [E | E]; [| apply E]. destruct Eh as [Eh1 Eh2].
      unfold bits in Eh2. by rewrite <- Z.land_assoc, E, Z.land_0_r in Eh2.
  - intros [= <- <-]. apply Z.eqb_neq in Ec. apply poll_ready_cached.
    case_match; [by destruct d | rewrite cache_set_cache]. intros E. apply Ec.
    rewrite Z.land_lor_distr_l in E. by apply Z.lor_eq_0_iff in E as [E _].
Qed.

(** C26: Readiness lasts until it is cleared, and not longer: once a poll found the resource
    ready, the next one does too; and when the readiness was cleared and there was no
    event since, a task that polls the resource waits, armed for the next event. *)
Theorem ready_until_cleared d r :
  registered w p e reg rid x m n s key cx k -> res_wf r ->
  (forall v w1, run (poll_dir d) (W r) = (Done (Ready (Ok v)), w1) ->
     exists v' r', run (poll_dir d) w1 = (Done (Ready (Ok v')), W r')) /\
  (bits d (slot r) = 0 ->
     exists r', run (let! _ := clear_dir d in poll_dir d) (W r) = (Done Pending, W r') /\ armed d k r').
Proof.
  intros Hw Hr. split; [| by apply clear_then_pending]. intros v w1.
  rewrite run_poll_dir by done. destruct (poll_ready d k r) as [[v1 |] r1] eqn:E; [| done].
  intros [= _ <-]. pose proof (res_wf_poll_ready k d r Hr) as Hr1. rewrite E in Hr1.
  destruct (poll_ready_sticky d k v1 r r1 Hr E) as [v' Ev]. rewrite run_poll_dir by done.
  rewrite Ev. by eexists v', _.
Qed.

(** Any sequence of polls and clears, of both directions. *)
Inductive op := Poll_op (d : Direction) | Clear_op (d : Direction).
Definition op_dir (o : op) : Direction := match o with Poll_op d => d | Clear_op d => d end.
Fixpoint run_ops (os : list op) : prg unit :=
  match os with
  | [] => Ret tt
  | Poll_op d :: os => let! _ := poll_dir d in run_ops os
  | Clear_op d :: os => let! _ := clear_dir d in run_ops os
  end.
Definition op_spec (o : op) (r : Res) : Res :=
  match o with Poll_op d => (poll_ready d k r).2 | Clear_op d => clear_ready d k r end.

Lemma op_wf o r : res_wf r -> res_wf (op_spec o r).
Proof. intros Hr. destruct o; [by apply res_wf_poll_ready | by apply res_wf_clear_ready]. Qed.

Lemma run_run_ops os r : registered w p e reg rid x m n s key cx k -> res_wf r ->
  run (run_ops os) (W r) = (Done tt, W (fold_left (flip op_spec) os r)) /\ res_wf (fold_left (flip op_spec) os r).
Proof.
  intros Hw. revert r. induction os as [| o os IH]; intros r Hr; [done |]. cbn [fold_left].
  unfold flip at 2 4. pose proof (op_wf o r Hr) as Hr1. destruct o as [d | d]; cbn [run_ops op_spec] in *.
  - erewrite run_bind_done by by apply run_poll_dir. by apply IH.
  - erewrite run_bind_done by by apply run_clear_dir. by apply IH.
Qed.

(** C24: HUP is final: once the slot has it, every poll in every direction returns at once,
    whatever is polled and cleared before. *)
Theorem hup_is_final os d r :
  registered w p e reg rid x m n s key cx k -> res_wf r -> has_hup r ->
  exists v r', run (let! _ := run_ops os in poll_dir d) (W r) = (Done (Ready (Ok v)), W r') /\ has_hup r'.
Proof.
  intros Hw Hr Hh. destruct (run_run_ops os r Hw Hr) as [E Hr1]. erewrite run_bind_done by exact E.
  assert (has_hup (fold_left (flip op_spec) os r)) as Hh1.
  { clear E Hr1. revert r Hr Hh. induction os as [| o os IH]; intros r Hr Hh; [done |]. cbn. apply IH.
    - by apply op_wf.
    - destruct o; [by apply hup_poll_ready | by apply hup_clear_ready]. }
  rewrite run_poll_dir by done. destruct (hup_poll_ready d k _ Hr1 Hh1) as [[v Ev] H2].
  rewrite Ev. by eexists _, _.
Qed.

(** What an operation in direction [d] leaves alone: all that the other direction sees. *)
Definition same_dir (d : Direction) (r r' : Res) : Prop :=
  cache d r = cache d r' /\ bits d (slot r) = bits d (slot r').

Lemma same_take d k' r : res_wf r -> same_dir (other_dir d) (take_events d k' r).2 r.
Proof.
  intros Hr. split; [by destruct d |]. cbn. unfold after_poll. rewrite <- (consume_other d (slot r)) by done.
  destruct k'; [case_match |]; try done. unfold bits. by rewrite with_aw_readiness.
Qed.

Lemma same_set_cache d c r r' : same_dir (other_dir d) r r' -> same_dir (other_dir d) (set_cache d c r) r'.
Proof. intros [E1 E2]. by destruct d. Qed.

Lemma same_trans d r1 r2 r3 : same_dir d r1 r2 -> same_dir d r2 r3 -> same_dir d r1 r3.
Proof. intros [E1 E2] [E3 E4]. split; congruence. Qed.

Lemma same_poll d r : res_wf r -> same_dir (other_dir d) (poll_ready d k r).2 r.
Proof.
  intros Hr. rewrite poll_ready_eq. cbv zeta. case_match; cbn [snd].
  - case_match; [by apply same_take |]. case_match; cbn [snd]; [| by apply same_set_cache, same_take].
    eapply same_trans; [apply same_take; apply res_wf_set_cache; by apply (res_wf_take d (Some k) r) |].
    by apply same_set_cache, same_take.
  - case_match; [by apply same_take |]. by apply same_set_cache, same_take.
Qed.

Lemma same_op o r : res_wf r -> same_dir (other_dir (op_dir o)) (op_spec o r) r.
Proof.
  intros Hr. destruct o as [d | d]; cbn [op_dir op_spec]; [by apply same_poll |].
  unfold clear_ready. set (r1 := set_cache d _ r).
  assert (same_dir (other_dir d) (poll_ready d k r1).2 r) as E.
  { eapply same_trans; [apply same_poll; by apply res_wf_set_cache |]. apply same_set_cache.
    by split. }
  by destruct (poll_ready d k r1) as [[v |] r2].
Qed.

Lemma same_poll_result d r r' : same_dir d r r' -> (poll_ready d k r).1 = (poll_ready d k r').1.
Proof.
  intros [E1 E2]. rewrite !poll_ready_eq, E1, E2. cbv zeta.
  destruct (Z.land (cache d r') (ready_bit d) =? 0), (bits d (slot r') =? 0); [done | | done | done].
  by destruct (Z.land (bits d (slot r')) (Z.lor (ready_bit d) platform.hup) =? 0).
Qed.

(** C25: The two readiness streams are independent: no sequence of operations in one
    direction changes what a poll in the other one returns. *)
Theorem directions_independent d os r :
  registered w p e reg rid x m n s key cx k -> res_wf r -> Forall (fun o => op_dir o = d) os ->
  (run (let! _ := run_ops os in poll_dir (other_dir d)) (W r)).1 = (run (poll_dir (other_dir d)) (W r)).1.
Proof.
  intros Hw Hr Hos. destruct (run_run_ops os r Hw Hr) as [E Hr1]. erewrite run_bind_done by exact E.
  rewrite !run_poll_dir by done. cbn [fst]. do 2 f_equal. apply same_poll_result.
  clear E Hr1. revert r Hr Hos. induction os as [| o os IH]; intros r Hr Hos; [done |]. cbn.
  apply Forall_cons in Hos as [<- Hos]. eapply same_trans; [by apply IH, Hos; apply op_wf |].
  by apply same_op.
Qed.

(** An event for the resource. *)
Definition event (ready : Z) (r : Res) : Res :=
  mkRes (Dispatch.after_event ready (slot r)) (cache_read r) (cache_write r) (res_os r)
    (res_woken r ++ Dispatch.woken_by ready (slot r)).

Lemma run_event ready r :
  registered w p e reg rid x m n s key cx k -> guard_wf (aba_guard (slot r)) -> 0 <= key < MAX_SOURCES ->
  run (Reactor.dispatch rid (Z.lor (aba_guard (slot r)) key) ready) (W r) = (Done tt, W (event ready r)).
Proof.
  intros Hw Hg Hk. assert (0 <= key < 2 ^ TOKEN_SHIFT) as Hk'.
  { change (2 ^ TOKEN_SHIFT) with (MAX_SOURCES + 1). lia. }
  rewrite (Dispatch.run_dispatch (W r) rid _ n _ _ ready (slot r) (lookup_insert_eq _ _ _) eq_refl);
    rewrite ?token_key, ?token_guard by done; [| by apply (slot_get w p e reg rid x m n s key cx k) | done].
  f_equal. unfold st, set_reactor, set_reactors, set_woken, cfg. cbn.
  by rewrite insert_insert_eq, slab_set_set.
Qed.

(** C12: A task that was told [Pending] is woken by the next event that makes the resource
    ready in its direction, HUP included, and its next poll finds the resource ready. *)
Theorem armed_then_event d ready r :
  registered w p e reg rid x m n s key cx k -> res_wf r -> armed d k r ->
  guard_wf (aba_guard (slot r)) -> 0 <= key < MAX_SOURCES -> is_usize ready ->
  Z.land ready (Z.lor (ready_bit d) platform.hup) <> 0 ->
  exists w1 v w2,
    run (Reactor.dispatch rid (Z.lor (aba_guard (slot r)) key) ready) (W r) = (Done tt, w1) /\
    k ∈ woken w1 /\
    run (poll_dir d) w1 = (Done (Ready (Ok v)), w2).
Proof.
  intros Hw Hr Ha Hg Hk Hu Hready. exists (W (event ready r)).
  destruct (event_ready d k ready r (event ready r) eq_refl Hready) as [v Ev].
  exists v, (W (poll_ready d k (event ready r)).2). split_and!.
  - by apply run_event.
  - cbn. apply elem_of_app. destruct Ha as [Ha | [Ha _]]; [by left | right].
    unfold Dispatch.woken_by. apply elem_of_app. pose proof (wants_event d ready Hu Hready) as Hwant.
    destruct d; cbn in Ha; rewrite Hwant, Ha; [left | right]; by apply list_elem_of_singleton.
  - rewrite run_poll_dir; [by rewrite Ev | done |]. by apply is_usize_lor.
Qed.
End props.

(** ** The hypotheses hold for a resource that the program itself registered *)
Section witnesses.
Import Toy Demo.

Definition xp : ReactorInner := reactor_of world_pe.
Definition sp : slab ScheduledIo := slab_at world_pe.

Lemma registered_pe : registered world_pe 0%nat 7 0%nat 0%nat xp 0 0 sp 0 500 51%nat.
Proof.
  constructor; try reflexivity; [by exists 0, 0 | done | by eexists].
Qed.

(** Nothing has happened yet; the resource is readable; it was hung up. *)
Definition res_with (b : Z) : Res := mkRes (mkScheduledIo 0 b None None) 0 0 toy_os_init [].
Definition res_idle : Res := res_with 0.
Definition res_readable : Res := res_with Ready_readable.
Definition res_hup : Res := res_with UnixReady_hup.

Lemma res_wf_with b : 0 <= b < 2 ^ 32 -> res_wf (res_with b).
Proof. apply is_usize_small. Qed.

#[local] Abbreviation C := (cfg world_pe 0%nat 7 0%nat 0%nat xp 0%nat sp 0).

(** A socket that has nothing to read, and whose buffer takes what is written. *)
Definition read7 (_ : Z) (buf : list Z) (o : toy_os) : (io_result Z * list Z) * toy_os :=
  ((Err (io_error WouldBlock "read"), buf), o).
Definition write7 (_ : Z) (o : toy_os) : io_result Z * toy_os := (Ok 3, o).
Definition flush7 (_ : Z) (o : toy_os) : io_result unit * toy_os := (Err (io_error WouldBlock "flush"), o).

Lemma poll_evented_refines_witness :
  (run (PollEvented.poll_read 2 0 read7 0%nat 500 [1]) (C res_readable)).1 = Done (Pending, [1]).
Proof.
  rewrite (proj1 (proj2 (poll_evented_refines world_pe 0%nat 7 0%nat 0%nat xp 0 0 sp 0 500 51%nat 0 0
    res_readable read7 write7 flush7 [1] registered_pe (res_wf_with 1 ltac:(done))))).
  vm_compute. reflexivity.
Defined.

Lemma pending_is_armed_witness :
  exists r', (run (PollEvented.poll_read 2 0 read7 0%nat 500 [1]) (C res_readable)).2 = C r' /\
    armed Read 51%nat r'.
Proof.
  exact (proj1 (pending_is_armed world_pe 0%nat 7 0%nat 0%nat xp 0 0 sp 0 500 51%nat 0 0
    res_readable read7 write7 flush7 registered_pe (res_wf_with 1 ltac:(done))) [1] [1] _
    ltac:(vm_compute; reflexivity)).
Defined.

Lemma ready_until_cleared_witness :
  (exists v' r', run (poll_dir 0%nat 500 0 0 Read) (run (poll_dir 0%nat 500 0 0 Read) (C res_readable)).2 =
    (Done (Ready (Ok v')), C r')) /\
  (exists r', run (let! _ := clear_dir 0%nat 500 0 0 Read in poll_dir 0%nat 500 0 0 Read) (C res_idle) =
    (Done Pending, C r') /\ armed Read 51%nat r').
Proof.
  split.
  - exact (proj1 (ready_until_cleared world_pe 0%nat 7 0%nat 0%nat xp 0 0 sp 0 500 51%nat 0 0 Read
      res_readable registered_pe (res_wf_with 1 ltac:(done))) 1 _ ltac:(vm_compute; reflexivity)).
  - exact (proj2 (ready_until_cleared world_pe 0%nat 7 0%nat 0%nat xp 0 0 sp 0 500 51%nat 0 0 Read
      res_idle registered_pe (res_wf_with 0 ltac:(done))) eq_refl).
Defined.

Lemma hup_is_final_witness :
  exists v r', run (let! _ := run_ops 0%nat 500 0 0 [Clear_op Write; Poll_op Read; Clear_op Read] in
      poll_dir 0%nat 500 0 0 Write) (C res_hup) = (Done (Ready (Ok v)), C r') /\ has_hup r'.
Proof.
  exact (hup_is_final world_pe 0%nat 7 0%nat 0%nat xp 0 0 sp 0 500 51%nat 0 0 _ Write
    res_hup registered_pe (res_wf_with 8 ltac:(done)) ltac:(by split)).
Defined.

Lemma directions_independent_witness :
  (run (let! _ := run_ops 0%nat 500 0 0 [Poll_op Read; Clear_op Read] in
      poll_dir 0%nat 500 0 0 Write) (C res_hup)).1 = (run (poll_dir 0%nat 500 0 0 Write) (C res_hup)).1.
Proof.
  exact (directions_independent world_pe 0%nat 7 0%nat 0%nat xp 0 0 sp 0 500 51%nat 0 0 Read
    [Poll_op Read; Clear_op Read] res_hup registered_pe (res_wf_with 8 ltac:(done))
    ltac:(by repeat constructor)).
Defined.

Definition res_waiting : Res := (poll_ready Read 51%nat res_idle).2.

Lemma armed_then_event_witness :
  exists w1 v w2,
    run (Reactor.dispatch 0%nat (Z.lor 0 0) Ready_readable) (C res_waiting) = (Done tt, w1) /\
    51%nat ∈ woken w1 /\ run (poll_dir 0%nat 500 0 0 Read) w1 = (Done (Ready (Ok v)), w2).
Proof.
  exact (armed_then_event world_pe 0%nat 7 0%nat 0%nat xp 0 0 sp 0 500 51%nat 0 0 Read Ready_readable
    res_waiting registered_pe (res_wf_with 0 ltac:(done)) (or_intror (conj eq_refl eq_refl))
    guard_wf_0 ltac:(done) (is_usize_small 1 ltac:(done)) ltac:(done)).
Defined.
End witnesses.
End ResourceSpec.
