(* ===== verification/SocketSpec.v ===== *)
(** * Properties of the sockets

    Every I/O operation of tcp/, udp.rs and uds/ is an instance of the one specification
    [io_op] of Resource.v, although the sources spell it in three ways; and the two
    connect futures, which differ after an error. *)
From S2P Require Import Prelude Conc Deps Toy World Reactor Background Registration PollEvented Tcp Udp Uds.
From S2P Require Import ReactorProof RegistrationProof Resource Demo ResourceSpec.

Module SocketSpec.
Import Resource ResourceProof ResourceSpec.

Section sockets.
Context `{DepsLaws} `{!NetOps}.
Context (w : World) (p : PeId) (e : Evented) (reg : RegId) (rid : ReactorId) (x : ReactorInner).
Context (m n : nat) (s : slab ScheduledIo) (key cx : Z) (k : waker).
Context (fuel t : nat).

#[local] Abbreviation W := (cfg w p e reg rid x n s key).
#[local] Abbreviation F := (S (S fuel)).

(** [accept_std] of a Unix listener reports an empty queue as [Ok(None)]. *)
Definition accept_or_block (o : Os) : io_result (StdUnixStream * UnixAddr) * Os :=
  let '(r, o) := uds_accept_std e o in
  (match r with
   | Ok (Some accepted) => Ok accepted
   | Ok None => Err (io_error WouldBlock "")
   | Err e => Err e
   end, o).

Lemma decide_wouldblock {A B} err (a b : B) :
  (if decide (kind err = WouldBlock) then a else b) =
  (if PollEvented.is_wouldblock (Err err : io_result A) then a else b).
Proof.
  cbn. destruct (decide (kind err = WouldBlock));
    [rewrite bool_decide_eq_true_2 | rewrite bool_decide_eq_false_2]; done.
Qed.

(** The match on [WouldBlock] that most operations write out. *)
Lemma run_match_wouldblock {A} d (call : Os -> io_result A * Os) clear r :
  run clear (W (set_res_os (call (res_os r)).2 r)) =
    (Done (Ok tt), W (clear_ready d k (set_res_os (call (res_os r)).2 r))) ->
  run (let! res := os_call call in
       match res with
       | Ok a => Ret (Ready (Ok a))
       | Err err => if decide (kind err = WouldBlock) then PollEvented.clear_and_wait clear else Ret (Ready (Err err))
       end) (W r) =
  (let '(res, o) := call (res_os r) in
   let r2 := set_res_os o r in
   if PollEvented.is_wouldblock res then (Done Pending, W (clear_ready d k r2)) else (Done (Ready res), W r2)).
Proof.
  intros Ec. rewrite run_io_call. destruct (call (res_os r)) as [[a | err] o]; cbn [fst snd] in *; [done |].
  rewrite (decide_wouldblock (A := A)). case_match; [| done]. by apply run_clear_and_wait.
Qed.

Lemma run_poll_send_to_udp buf target r :
  registered w p e reg rid x m n s key cx k -> res_wf r ->
  run (UdpSocket.poll_send_to F t p cx buf target) (W r) =
  (Done (io_op Write k (udp_send_to e buf target) r).1, W (io_op Write k (udp_send_to e buf target) r).2).
Proof.
  intros Hw Hr. apply run_when_ready; [done | by apply (run_poll_write_ready w p e reg rid x m) |]. intros r1 Hr1.
  rewrite run_get_ref. apply run_match_wouldblock. by apply (run_clear_write_ready w p e reg rid x m).
Qed.

Lemma run_poll_send_to_uds buf target r :
  registered w p e reg rid x m n s key cx k -> res_wf r ->
  run (UnixDatagram.poll_send_to F t p cx buf target) (W r) =
  (Done (io_op Write k (uds_send_to e buf target) r).1, W (io_op Write k (uds_send_to e buf target) r).2).
Proof.
  intros Hw Hr. apply run_when_ready; [done | by apply (run_poll_write_ready w p e reg rid x m) |]. intros r1 Hr1.
  rewrite run_get_ref. apply run_match_wouldblock. by apply (run_clear_write_ready w p e reg rid x m).
Qed.

Lemma run_accept_tcp r :
  registered w p e reg rid x m n s key cx k -> res_wf r ->
  run (TcpListener.poll_accept_std F t p cx) (W r) =
  (Done (io_op Read k (tcp_accept_std e) r).1, W (io_op Read k (tcp_accept_std e) r).2).
Proof.
  intros Hw Hr. apply run_when_ready; [done | by apply (run_poll_read_ready w p e reg rid x m) |]. intros r1 Hr1.
  rewrite run_get_ref. apply run_match_wouldblock. by apply (run_clear_read_ready w p e reg rid x m).
Qed.

Lemma run_accept_uds r :
  registered w p e reg rid x m n s key cx k -> res_wf r ->
  run (UnixListener.poll_accept_std F t p cx) (W r) =
  (Done (io_op Read k accept_or_block r).1, W (io_op Read k accept_or_block r).2).
Proof.
  intros Hw Hr. apply run_when_ready; [done | by apply (run_poll_read_ready w p e reg rid x m) |]. intros r1 Hr1.
  rewrite run_get_ref, run_io_call. unfold accept_or_block.
  destruct (uds_accept_std e (res_os r1)) as [[[a |] | err] o]; cbn [fst snd]; [done | |].
  - by apply run_clear_and_wait, (run_clear_read_ready w p e reg rid x m).
  - rewrite (decide_wouldblock (A := StdUnixStream * UnixAddr)). case_match; [| done].
    by apply run_clear_and_wait, (run_clear_read_ready w p e reg rid x m).
Qed.

Lemma run_recv_from_udp buf r :
  registered w p e reg rid x m n s key cx k -> res_wf r ->
  run (UdpSocket.poll_recv_from F t p cx buf) (W r) =
  (Done (io_op_buf Read k (udp_recv_from e) buf r).1, W (io_op_buf Read k (udp_recv_from e) buf r).2).
Proof.
  intros Hw Hr. pose proof (res_wf_poll_ready k Read r Hr) as Hr1. unfold UdpSocket.poll_recv_from, io_op_buf.
  erewrite run_bind_done by by apply (run_poll_read_ready w p e reg rid x m).
  destruct (poll_ready Read k r) as [[v |] r1]; cbn [fst snd poll_result]; [| done].
  rewrite run_get_ref, run_io_call. destruct (udp_recv_from e buf (res_os r1)) as [[[a | err] buf'] o]; cbn [fst snd]; [done |].
  rewrite (decide_wouldblock (A := Z * SocketAddr)). case_match; [| done].
  erewrite run_bind_done; [done |]. by apply run_clear_and_wait, (run_clear_read_ready w p e reg rid x m).
Qed.

Lemma run_recv_from_uds buf r :
  registered w p e reg rid x m n s key cx k -> res_wf r ->
  run (UnixDatagram.poll_recv_from F t p cx buf) (W r) =
  (Done (io_op_buf Read k (uds_recv_from e) buf r).1, W (io_op_buf Read k (uds_recv_from e) buf r).2).
Proof.
  intros Hw Hr. pose proof (res_wf_poll_ready k Read r Hr) as Hr1. unfold UnixDatagram.poll_recv_from, io_op_buf.
  erewrite run_bind_done by by apply (run_poll_read_ready w p e reg rid x m).
  destruct (poll_ready Read k r) as [[v |] r1]; cbn [fst snd poll_result]; [| done].
  rewrite run_get_ref, run_io_call. destruct (uds_recv_from e buf (res_os r1)) as [[res buf'] o]; cbn [fst snd].
  change (UnixDatagram.is_wouldblock res) with (PollEvented.is_wouldblock res).
  case_match; [| done]. erewrite run_bind_done; [done |]. by apply run_clear_and_wait, (run_clear_read_ready w p e reg rid x m).
Qed.

(** C27: The operations of the sockets are all the same operation: datagrams are sent and
    received, and connections accepted, by one I/O call when the resource is ready in
    the right direction; only a call that would block clears the readiness, and then
    the task waits. *)
Theorem sockets_refine r buf addr path :
  registered w p e reg rid x m n s key cx k -> res_wf r ->
  run (UdpSocket.poll_send_to F t p cx buf addr) (W r) =
    (Done (io_op Write k (udp_send_to e buf addr) r).1, W (io_op Write k (udp_send_to e buf addr) r).2) /\
  run (UdpSocket.poll_recv_from F t p cx buf) (W r) =
    (Done (io_op_buf Read k (udp_recv_from e) buf r).1, W (io_op_buf Read k (udp_recv_from e) buf r).2) /\
  run (UnixDatagram.poll_send_to F t p cx buf path) (W r) =
    (Done (io_op Write k (uds_send_to e buf path) r).1, W (io_op Write k (uds_send_to e buf path) r).2) /\
  run (UnixDatagram.poll_recv_from F t p cx buf) (W r) =
    (Done (io_op_buf Read k (uds_recv_from e) buf r).1, W (io_op_buf Read k (uds_recv_from e) buf r).2) /\
  run (TcpListener.poll_accept_std F t p cx) (W r) =
    (Done (io_op Read k (tcp_accept_std e) r).1, W (io_op Read k (tcp_accept_std e) r).2) /\
  run (UnixListener.poll_accept_std F t p cx) (W r) =
    (Done (io_op Read k accept_or_block r).1, W (io_op Read k accept_or_block r).2).
Proof.
  intros Hw Hr. split_and!; [by apply run_poll_send_to_udp | by apply run_recv_from_udp |
    by apply run_poll_send_to_uds | by apply run_recv_from_uds | by apply run_accept_tcp | by apply run_accept_uds].
Qed.

(** *** Connecting *)

(** The result of [take_error], as the error of the connection. *)
Definition connect_error (res : io_result (option Error)) : option Error :=
  match res with Ok None => None | Ok (Some err) => Some err | Err err => Some err end.

(** A poll of a connect future whose stream is [p]: the two implementations differ only
    in what they do after an error. *)
Definition connect_step {Fut} (waiting empty : Fut) (on_error : Error -> prg (Poll (io_result PeId) * Fut)) :
    prg (Poll (io_result PeId) * Fut) :=
  let! ready := PollEvented.poll_write_ready F t p cx in
  match ready with
  | Ready (Err err) => on_error err
  | Pending => Ret (Pending, waiting)
  | Ready (Ok _) =>
      let! io := PollEvented.get_ref p in
      let! err := os_call (io_take_error io) in
      match err with
      | Err err => on_error err
      | Ok (Some err) => on_error err
      | Ok None => Ret (Ready (Ok p), empty)
      end
  end.

Definition tcp_failed (err : Error) : prg (Poll (io_result PeId) * TcpStream.ConnectFutureState) :=
  let! _ := TcpStream.drop p in Ret (Ready (Err err), TcpStream.Empty).
Definition uds_failed (err : Error) : prg (Poll (io_result PeId) * UnixStream.State) :=
  Ret (Ready (Err err), UnixStream.Waiting p).

Lemma tcp_connect_step :
  TcpStream.connect_poll F t (TcpStream.Waiting p) cx =
  connect_step (TcpStream.Waiting p) TcpStream.Empty tcp_failed.
Proof. done. Qed.

Lemma uds_connect_step :
  UnixStream.connect_poll F t (UnixStream.Waiting p) cx =
  connect_step (UnixStream.Waiting p) UnixStream.Empty uds_failed.
Proof. done. Qed.

(** While the socket is not writable the future waits; when it is, the pending error
    decides. *)
Lemma run_connect_step {Fut} (waiting empty : Fut) on_error r :
  registered w p e reg rid x m n s key cx k -> res_wf r ->
  let r1 := (poll_ready Write k r).2 in
  let err := io_take_error e (res_os r1) in
  run (connect_step waiting empty on_error) (W r) =
  match (poll_ready Write k r).1, connect_error err.1 with
  | None, _ => (Done (Pending, waiting), W r1)
  | Some _, None => (Done (Ready (Ok p), empty), W (set_res_os err.2 r1))
  | Some _, Some error => run (on_error error) (W (set_res_os err.2 r1))
  end.
Proof.
  intros Hw Hr r1 err. unfold connect_step.
  rewrite (run_bind_done _ _ _ _ _ (run_poll_write_ready w p e reg rid x m n s key cx k Hw fuel t r Hr)). fold r1.
  destruct (poll_ready Write k r).1 as [v |]; cbn [poll_result]; [| done].
  rewrite run_get_ref, run_io_call by done. fold err. by destruct err.1 as [[error |] | error].
Qed.

(** After an error the TCP future drops its stream, which gives the slot back. *)
Lemma run_tcp_failed r err :
  registered w p e reg rid x m n s key cx k -> n = 0%nat ->
  exists s' : slab ScheduledIo,
    run (tcp_failed err) (W r) = (Done (Ready (Err err), TcpStream.Empty),
      dropped w p reg rid x (io_close e (Poll_deregister (io x) e (res_os r)).2) s' r) /\
    (forall k', slab_get k' s' = if decide (k' = key) then None else slab_get k' s).
Proof.
  intros Hw Hn. destruct (slab_remove_get (slab_set key (slot r) s) key) as (s' & Es & Hget & _).
  { by rewrite (slot_get w p e reg rid x m n s key cx k Hw). }
  exists s'. split.
  - unfold tcp_failed, TcpStream.drop.
    by erewrite run_bind_done by by apply (run_drop w p e reg rid x m n s key cx k Hw).
  - intros k'. rewrite Hget. case_decide; [done |]. rewrite slab_set_get by apply Hw. by rewrite decide_False.
Qed.
End sockets.

(** ** Witnesses: the network of Toy.v *)
Section witnesses.
Import Toy Demo.

#[local] Abbreviation C := (cfg world_pe 0%nat 7 0%nat 0%nat xp 0%nat sp 0).

(** A datagram arrives; a queue is empty; a socket becomes writable. *)
Lemma sockets_refine_witness :
  (run (UdpSocket.poll_recv_from 2 0 0%nat 500 [1; 2]) (C res_readable)).1 = Done (Ready (Ok (2, 4)), [7; 7]) /\
  (run (UnixListener.poll_accept_std 2 0 0%nat 500) (C res_readable)).1 = Done Pending.
Proof.
  destruct (@sockets_refine toy_deps toy_deps_laws toy_net world_pe 0%nat 7 0%nat 0%nat xp 0 0 sp 0 500 51%nat 0 0 res_readable [1; 2] 4 4
    registered_pe (res_wf_with 1 ltac:(done))) as (_ & E1 & _ & _ & _ & E2).
  rewrite E1, E2. split; vm_compute; reflexivity.
Defined.

Definition res_writable : Res := res_with Ready_writable.
End witnesses.
End SocketSpec.
