(* ===== verification/FuturesSpec.v ===== *)
(** * The futures of the sockets, driven by an executor

    An I/O operation is one poll; a future is polled again and again, each time its task
    was woken.  [drive] is an executor that does just that, while the world outside
    changes and the reactor dispatches events: a lost wake-up would leave it waiting.
    The futures of udp.rs and uds/datagram.rs give the result of their call as soon as
    it would not block, and the connect futures are decided by the first event. *)
From S2P Require Import Prelude Conc Deps Toy World Reactor Background Registration PollEvented Tcp Udp Uds.
From S2P Require Import ReactorProof RegistrationProof Resource Demo ResourceSpec SocketSpec.

Module FuturesSpec.
Import Resource ResourceProof ResourceSpec SocketSpec.

(** ** The executor *)
Section executor.
Context `{Deps} (rid : ReactorId) (token : Z) (k : waker).

(** What happens between two polls: the world outside changes, and the reactor
    dispatches an event for the resource. *)
Record Round := mkRound { ready : Z; change : Os -> Os }.

(** Whether the task was woken since it was asked last. *)
Definition take_woken : prg bool := atom (fun w => (bool_decide (k ∈ woken w), set_woken [] w)).

Definition round (x : Round) : prg bool :=
  let! _ := os_call (fun o => (tt, change x o)) in
  let! _ := Reactor.dispatch rid token (ready x) in
  take_woken.

Context {A F : Type} (poll : F -> prg (Poll A * F)).

(** A future that is pending is polled when its task is woken, and only then. *)
Fixpoint await (rounds : list Round) (fut : F) : prg (Poll A * F) :=
  match rounds with
  | [] => Ret (Pending, fut)
  | x :: rounds =>
      let! is_woken := round x in
      if is_woken : bool then
        let! res := poll fut in
        match res.1 with Ready _ => Ret res | Pending => await rounds res.2 end
      else Ret (Pending, fut)
  end.
Definition drive (rounds : list Round) (fut : F) : prg (Poll A * F) :=
  let! res := poll fut in
  match res.1 with Ready _ => Ret res | Pending => await rounds res.2 end.
End executor.
Arguments mkRound {_} _ _.

(** ** The specification: the first call that does not block *)
Section outcome.
Context `{Deps} {A B : Type} (call : B -> Os -> (io_result A * B) * Os).

Fixpoint outcome (changes : list (Os -> Os)) (buf : B) (o : Os) : (Poll (io_result A) * B) * Os :=
  match changes with
  | [] => ((Pending, buf), o)
  | f :: changes =>
      let '((res, buf), o) := call buf (f o) in
      if PollEvented.is_wouldblock res then outcome changes buf o else ((Ready res, buf), o)
  end.
End outcome.

(** A call that has no buffer to give back. *)
Definition buffered `{Deps} {A B} (call : Os -> io_result A * Os) (buf : B) (o : Os) : (io_result A * B) * Os :=
  let '(res, o) := call o in ((res, buf), o).

Lemma io_op_buffered `{Deps} {A B} d k (call : Os -> io_result A * Os) (buf : B) r :
  io_op_buf d k (buffered call) buf r = (((io_op d k call r).1, buf), (io_op d k call r).2).
Proof.
  unfold io_op_buf, io_op, buffered. destruct (poll_ready d k r) as [[v |] r1]; [| done].
  destruct (call (res_os r1)) as [res o]. by case_match.
Qed.

(** ** Nothing but a drop changes the guard of a slot *)
Section guards.
Context `{DepsLaws}.
#[local] Abbreviation guard r := (aba_guard (slot r)).

Lemma guard_take d k r : guard (take_events d k r).2 = guard r.
Proof. cbn. unfold after_poll. destruct k; [case_match |]; [by destruct d | done | done]. Qed.

Lemma guard_set_cache d c r : guard (set_cache d c r) = guard r.
Proof. by destruct d. Qed.

Lemma guard_poll_ready d k r : guard (poll_ready d k r).2 = guard r.
Proof.
  rewrite poll_ready_eq. cbv zeta.
  repeat case_match; cbn [snd]; by rewrite ?guard_take, ?guard_set_cache, ?guard_take.
Qed.

Lemma guard_clear_ready d k r : guard (clear_ready d k r) = guard r.
Proof.
  unfold clear_ready. set (r1 := set_cache d _ r). pose proof (guard_poll_ready d k r1) as E.
  unfold r1 in E at 2. rewrite guard_set_cache in E. by destruct (poll_ready d k r1) as [[v |] r2].
Qed.

Lemma guard_io_op_buf {A B} d k (call : B -> Os -> (io_result A * B) * Os) buf r :
  guard (io_op_buf d k call buf r).2 = guard r.
Proof.
  unfold io_op_buf. rewrite <- (guard_poll_ready d k r). destruct (poll_ready d k r) as [[v |] r1]; [| done].
  destruct (call buf (res_os r1)) as [[res b1] o].
  case_match; cbn [snd]; [by rewrite guard_clear_ready | done].
Qed.

Lemma os_poll_ready d k r : res_os (poll_ready d k r).2 = res_os r.
Proof. rewrite poll_ready_eq. cbv zeta. repeat case_match; by destruct d. Qed.

Lemma os_clear_ready d k r : res_os (clear_ready d k r) = res_os r.
Proof.
  unfold clear_ready. set (r1 := set_cache d _ r). pose proof (os_poll_ready d k r1) as E.
  destruct (poll_ready d k r1) as [[v |] r2]; cbn [snd add_woken res_os] in *; rewrite E; by destruct d.
Qed.

Lemma res_wf_io_op_buf {A B} d k (call : B -> Os -> (io_result A * B) * Os) buf r :
  res_wf r -> res_wf (io_op_buf d k call buf r).2.
Proof.
  intros Hr. pose proof (res_wf_poll_ready k d r Hr) as Hr1. unfold io_op_buf.
  destruct (poll_ready d k r) as [[v |] r1]; [| done].
  destruct (call buf (res_os r1)) as [[res b1] o]. case_match; [by apply res_wf_clear_ready | done].
Qed.
End guards.

(** ** One round *)
Section rounds.
Context `{DepsLaws}.
Context (w : World) (p : PeId) (e : Evented) (reg : RegId) (rid : ReactorId) (x : ReactorInner).
Context (m n : nat) (s : slab ScheduledIo) (key cx : Z) (k : waker) (guard : Z).

#[local] Abbreviation W := (cfg w p e reg rid x n s key).
#[local] Abbreviation token := (Z.lor guard key).

(** The event makes the resource ready in direction [d]. *)
Definition useful (d : Direction) (y : Round) : Prop :=
  is_usize (ready y) /\ Z.land (ready y) (Z.lor (ready_bit d) platform.hup) <> 0.

Definition after_round (y : Round) (r : Res) : Res :=
  mkRes (Dispatch.after_event (ready y) (slot r)) (cache_read r) (cache_write r) (change y (res_os r)) [].

(** The states of a resource whose task waits. *)
Record waiting (d : Direction) (r : Res) : Prop := {
  wt_wf : res_wf r;
  wt_guard : aba_guard (slot r) = guard;
  wt_armed : armed d k r;
}.

Lemma armed_woken d y r : armed d k r -> useful d y ->
  k ∈ res_woken r ++ Dispatch.woken_by (ready y) (slot r).
Proof.
  intros Ha [Hu Hy]. apply elem_of_app. destruct Ha as [Ha | [Ha _]]; [by left | right].
  unfold Dispatch.woken_by. apply elem_of_app. pose proof (wants_event d (ready y) Hu Hy) as Hwant.
  destruct d; cbn in Ha; rewrite Hwant, Ha; [left | right]; by apply list_elem_of_singleton.
Qed.

(** The event of a round wakes the task, and the next poll will find the resource ready. *)
Lemma run_round d y r :
  registered w p e reg rid x m n s key cx k -> guard_wf guard -> 0 <= key < MAX_SOURCES ->
  waiting d r -> useful d y ->
  run (round rid token k y) (W r) = (Done true, W (after_round y r)) /\
  res_wf (after_round y r) /\ is_Some (poll_ready d k (after_round y r)).1.
Proof.
  intros Hw Hg Hk [Hr <- Ha] Hy. split_and!.
  - unfold round. rewrite run_io_call. cbn [fst snd].
    erewrite run_bind_done by by apply (run_event w p e reg rid x m n s key cx k (ready y) (set_res_os (change y (res_os r)) r)).
    unfold take_woken. rewrite <- (run_ret_bind (atom _)), run_atom. cbn [fst snd run].
    rewrite bool_decide_eq_true_2; [done |]. by apply (armed_woken d).
  - by apply is_usize_lor; destruct Hy.
  - by eapply event_ready; [done | apply Hy].
Qed.

(** *** A future whose polls are one I/O operation *)
Context (Hw : registered w p e reg rid x m n s key cx k) (Hg : guard_wf guard) (Hk : 0 <= key < MAX_SOURCES).
Context {A B F : Type} (d : Direction) (call : B -> Os -> (io_result A * B) * Os).
Context (poll : F -> prg (Poll (io_result A) * F)) (mk : B -> F).
Context (Hpoll : forall buf r, res_wf r -> run (poll (mk buf)) (W r) =
  (Done ((io_op_buf d k call buf r).1.1, mk (io_op_buf d k call buf r).1.2), W (io_op_buf d k call buf r).2)).

(** The world after a driven future: it is the specified one, and a pending future waits. *)
Definition driven (spec : (Poll (io_result A) * B) * Os) (prog : prg (Poll (io_result A) * F)) (r : Res) : Prop :=
  exists r', run prog (W r) = (Done (spec.1.1, mk spec.1.2), W r') /\ res_os r' = spec.2 /\
    (spec.1.1 = Pending -> armed d k r').

(** A poll that finds the resource ready makes the call, and then either is done or waits. *)
Lemma run_then_await rounds f buf r :
  (forall buf r, waiting d r -> driven (outcome call (map change rounds) buf (res_os r))
     (await rid token k poll rounds (mk buf)) r) ->
  res_wf r -> aba_guard (slot r) = guard -> is_Some (poll_ready d k r).1 -> f (res_os r) = res_os r ->
  driven (outcome call (f :: map change rounds) buf (res_os r)) (drive rid token k poll rounds (mk buf)) r.
Proof.
  intros IH Hr Eg [v Ev] Ef. unfold driven, drive. cbn [outcome]. erewrite run_bind_done by by apply Hpoll.
  pose proof (guard_io_op_buf d k call buf r) as Hg1. pose proof (res_wf_io_op_buf d k call buf r Hr) as Hr1.
  pose proof (io_op_buf_armed d k call buf r) as Ha1. pose proof (os_poll_ready d k r) as Eo.
  unfold io_op_buf in *. destruct (poll_ready d k r) as [v' r1]. cbn in Ev, Eo. subst v'. rewrite Ef, <- Eo.
  destruct (call buf (res_os r1)) as [[res buf'] o]. destruct (PollEvented.is_wouldblock res); cbn [fst snd] in *.
  - destruct (IH buf' (clear_ready d k (set_res_os o r1))) as (r' & E); [| exists r'].
    { split; [done | congruence | by eapply Ha1]. }
    by rewrite os_clear_ready in E.
  - by eexists.
Qed.

Lemma run_await rounds : Forall (useful d) rounds -> forall buf r, waiting d r ->
  driven (outcome call (map change rounds) buf (res_os r)) (await rid token k poll rounds (mk buf)) r.
Proof.
  induction 1 as [| y rounds Hy _ IH]; intros buf r Hwt.
  { exists r. split_and!; [done | done |]. intros _. apply Hwt. }
  destruct (run_round d y r Hw Hg Hk Hwt Hy) as (E & Hr1 & Hs).
  destruct (run_then_await rounds id buf (after_round y r) IH Hr1 (wt_guard _ _ Hwt) Hs eq_refl) as (r' & E').
  exists r'. cbn [await]. erewrite run_bind_done by exact E. exact E'.
Qed.

(** The first poll makes a call only if the resource is ready by then. *)
Lemma run_drive rounds buf r :
  res_wf r -> aba_guard (slot r) = guard -> Forall (useful d) rounds ->
  driven (outcome call (match (poll_ready d k r).1 with Some _ => [id] | None => [] end ++ map change rounds)
    buf (res_os r)) (drive rid token k poll rounds (mk buf)) r.
Proof.
  intros Hr Eg Hrounds. destruct (poll_ready d k r).1 eqn:Ev.
  { apply run_then_await; [by apply run_await | done | done | by rewrite Ev | done]. }
  unfold driven, drive. erewrite run_bind_done by by apply Hpoll. unfold io_op_buf.
  pose proof (res_wf_poll_ready k d r Hr) as Hr1. pose proof (guard_poll_ready d k r) as Hg1.
  pose proof (poll_ready_armed d k r) as Ha. pose proof (os_poll_ready d k r) as Eo.
  destruct (poll_ready d k r) as [v r1]. cbn in Ev, Eo, Hg1. subst v. cbn [fst snd]. rewrite <- Eo.
  apply run_await; [done |]. split; [done | congruence | by apply Ha].
Qed.
End rounds.

(** ** The properties, of the code *)
Section props.
Context `{DepsLaws} `{!NetOps}.
Context (w : World) (p : PeId) (e : Evented) (reg : RegId) (rid : ReactorId) (x : ReactorInner).
Context (m n : nat) (s : slab ScheduledIo) (key cx : Z) (k : waker).
Context (fuel t : nat).

#[local] Abbreviation W := (cfg w p e reg rid x n s key).
#[local] Abbreviation F := (S (S fuel)).

(** A future that does not change, as one that is polled. *)
Definition polling {A Fut} (poll : Fut -> prg (Poll A)) (fut : Fut) : prg (Poll A * Fut) :=
  let! v := poll fut in Ret (v, fut).

(** The calls that a future makes: one at the first poll if the resource is ready, then
    one after each event. *)
Definition calls (d : Direction) (rounds : list Round) (r : Res) : list (Os -> Os) :=
  match (poll_ready d k r).1 with Some _ => [id] | None => [] end ++ map change rounds.

Lemma run_polling {A Fut} (poll : Fut -> prg (Poll A)) fut w0 v w1 :
  run (poll fut) w0 = (Done v, w1) -> run (polling poll fut) w0 = (Done (v, fut), w1).
Proof. intros E. unfold polling. by erewrite run_bind_done by exact E. Qed.

(** C17: The futures of the datagram sockets, driven by an executor that polls them only when
    their task was woken: each gives the result of the first call that would not block,
    and its buffer, after exactly the calls before it; as long as all of them would, it
    is pending and its task waits.  So no wake-up is lost, and a call is made after
    each event. *)
Theorem datagram_futures_complete guard r rounds rounds' buf addr path :
  registered w p e reg rid x m n s key cx k -> guard_wf guard -> 0 <= key < MAX_SOURCES ->
  res_wf r -> aba_guard (slot r) = guard ->
  Forall (useful Read) rounds -> Forall (useful Write) rounds' ->
  let drive_in {A Fut} rounds (poll : Fut -> prg (Poll A * Fut)) := drive rid (Z.lor guard key) k poll rounds in
  let sent {A} (call : Os -> io_result A * Os) := outcome (buffered call) (calls Write rounds' r) buf (res_os r) in
  driven w p e reg rid x n s key k Read (UdpSocket.mkRecvFrom p) (outcome (udp_recv_from e) (calls Read rounds r) buf (res_os r))
    (drive_in rounds (fun fut => UdpSocket.RecvFrom_poll F t fut cx) (UdpSocket.recv_from p buf)) r /\
  driven w p e reg rid x n s key k Read (UnixDatagram.mkRecvFrom p) (outcome (uds_recv_from e) (calls Read rounds r) buf (res_os r))
    (drive_in rounds (fun fut => UnixDatagram.RecvFrom_poll F t fut cx) (UnixDatagram.recv_from p buf)) r /\
  driven w p e reg rid x n s key k Write (fun _ => UdpSocket.send_to p buf addr) (sent (udp_send_to e buf addr))
    (drive_in rounds' (polling (fun fut => UdpSocket.SendTo_poll F t fut cx)) (UdpSocket.send_to p buf addr)) r /\
  driven w p e reg rid x n s key k Write (fun _ => UnixDatagram.send_to p buf path) (sent (uds_send_to e buf path))
    (drive_in rounds' (polling (fun fut => UnixDatagram.SendTo_poll F t fut cx)) (UnixDatagram.send_to p buf path)) r.
Proof.
  intros Hw Hg Hk Hr Eg Hrounds Hrounds' drive_in sent. unfold drive_in, sent, calls. split_and!.
  - apply (run_drive w p e reg rid x m n s key cx k guard Hw Hg Hk Read (udp_recv_from e)); try done.
    intros b r1 Hr1. unfold UdpSocket.RecvFrom_poll. erewrite run_bind_done; [done |].
    by apply (run_recv_from_udp w p e reg rid x m).
  - apply (run_drive w p e reg rid x m n s key cx k guard Hw Hg Hk Read (uds_recv_from e)); try done.
    intros b r1 Hr1. unfold UnixDatagram.RecvFrom_poll. erewrite run_bind_done; [done |].
    by apply (run_recv_from_uds w p e reg rid x m).
  - apply (run_drive w p e reg rid x m n s key cx k guard Hw Hg Hk Write
      (buffered (udp_send_to e buf addr)) _ (fun _ => UdpSocket.send_to p buf addr)); try done.
    intros b r1 Hr1. rewrite io_op_buffered. apply run_polling. by apply (run_poll_send_to_udp w p e reg rid x m).
  - apply (run_drive w p e reg rid x m n s key cx k guard Hw Hg Hk Write
      (buffered (uds_send_to e buf path)) _ (fun _ => UnixDatagram.send_to p buf path)); try done.
    intros b r1 Hr1. rewrite io_op_buffered. apply run_polling. by apply (run_poll_send_to_uds w p e reg rid x m).
Qed.

(** *** Incoming connections *)

(** The world with one more resource, which is not registered yet. *)
Definition with_new (io : Evented) (w : World) : World :=
  set_polled (<[fresh (dom (polled w)) := mkPollEvented (Some io) (fresh (dom (registrations w))) 0 0]> (polled w))
    (set_registrations (<[fresh (dom (registrations w)) := Registration.new]> (registrations w)) w).

Lemma lookup_ne_fresh `{Countable K, Infinite K} {V} (f : gmap K V) i v : f !! i = Some v -> fresh (dom f) <> i.
Proof. intros E <-. apply (is_fresh (dom f)). by apply elem_of_dom_2 in E. Qed.

(** Wrapping another I/O object leaves the listener as it is. *)
Lemma registered_new io : registered w p e reg rid x m n s key cx k ->
  registered (with_new io w) p e reg rid x m n s key cx k.
Proof.
  intros [(cr & cw & Ep) Er ? ? ? ? ? ?]. split; try done; cbn.
  - exists cr, cw. by rewrite lookup_insert_ne by by eapply lookup_ne_fresh.
  - by rewrite lookup_insert_ne by by eapply lookup_ne_fresh.
Qed.

Lemma run_new io r : registered w p e reg rid x m n s key cx k ->
  run (PollEvented.new io) (W r) = (Done (fresh (dom (polled w))), cfg (with_new io w) p e reg rid x n s key r).
Proof.
  intros [(cr & cw & Ep) _ _ _ _ _ _ _]. unfold PollEvented.new. rewrite run_atom.
  rewrite <- (run_ret_bind (atom _)), run_atom. cbn [run fst snd polled registrations cfg set_registrations].
  rewrite dom_insert_L, subseteq_union_1_L by (apply singleton_subseteq_l; by apply elem_of_dom_2 in Ep).
  f_equal. unfold cfg, with_new, set_polled, set_registrations. cbn. f_equal.
  by rewrite insert_insert_ne by by eapply lookup_ne_fresh.
Qed.

(** What a poll of a stream of connections yields, given what accepting gave: the task
    waits; or an error, of accepting or of the conversion, is an item; or the item is a
    new resource that wraps the converted connection and is not registered.  The stream
    goes on in any case, with the listener registered as before. *)
Definition yields {Std Addr} (from : Std -> Os -> io_result Evented * Os)
    (spec : Poll (io_result (Std * Addr)) * Res) (res : Conc.outcome (Poll (option (io_result PeId))) * World) : Prop :=
  let failed err r := res = (Done (Ready (Some (Err err))), W r) in
  match spec with
  | (Pending, r1) => res = (Done Pending, W r1) /\ armed Read k r1
  | (Ready (Err err), r1) => failed err r1
  | (Ready (Ok (io, _)), r1) =>
      let r2 := set_res_os (from io (res_os r1)).2 r1 in
      match (from io (res_os r1)).1 with
      | Err err => failed err r2
      | Ok io' => exists q reg' w2,
          res = (Done (Ready (Some (Ok q))), cfg w2 p e reg rid x n s key r2) /\
          registered w2 p e reg rid x m n s key cx k /\
          polled w !! q = None /\ polled w2 !! q = Some (mkPollEvented (Some io') reg' 0 0) /\
          registrations w !! reg' = None /\ registrations w2 !! reg' = Some Registration.new
      end
  end.

(** The two streams convert and wrap an accepted connection in the same way. *)
Lemma run_convert {Std Addr} (from : Std -> Os -> io_result Evented * Os) (call : Os -> io_result (Std * Addr) * Os)
    (accept : prg (Poll (io_result (Std * Addr)))) r :
  registered w p e reg rid x m n s key cx k -> res_wf r ->
  run accept (W r) = (Done (io_op Read k call r).1, W (io_op Read k call r).2) ->
  yields from (io_op Read k call r)
    (run (let! res := (let! res := accept in
          match res with
          | Pending => Ret Pending
          | Ready (Err err) => Ret (Ready (Err err))
          | Ready (Ok (io, addr)) =>
              let! io := os_call (from io) in
              match io with
              | Err err => Ret (Ready (Err err))
              | Ok io => let! q := PollEvented.new io in Ret (Ready (Ok (q, addr)))
              end
          end) in
          match res with
          | Pending => Ret Pending
          | Ready (Err err) => Ret (Ready (Some (Err err)))
          | Ready (Ok (socket, _)) => Ret (Ready (Some (Ok socket)))
          end) (W r)).
Proof.
  intros Hw Hr E. pose proof (io_op_armed Read k call r) as Ha. rewrite run_bind_assoc, (run_bind_done _ _ _ _ _ E).
  destruct (io_op Read k call r) as [[[[io addr] | err] |] r1]; cbn [fst snd yields bind run]; [| done | by auto].
  rewrite run_bind_assoc, run_io_call. destruct (from io (res_os r1)) as [[io' | err] o]; cbn [fst snd bind run]; [| done].
  rewrite run_bind_assoc, (run_bind_done _ _ _ _ _ (run_new io' (set_res_os o r1) Hw)). cbn [bind run].
  eexists _, _, _. split; [done |]. split; [by apply registered_new |].
  split_and!; [apply lookup_fresh | cbn; apply lookup_insert_eq | apply lookup_fresh | cbn; apply lookup_insert_eq].
Qed.

(** C28: The streams of incoming connections never end.  Each poll accepts at most one
    connection: if there is none the task waits for the next event; an error is handed
    on as an item; a connection becomes a fresh stream of its own, not yet registered,
    and the listener is ready to be polled again. *)
Theorem incoming_yields r :
  registered w p e reg rid x m n s key cx k -> res_wf r ->
  yields tcp_from_stream (io_op Read k (tcp_accept_std e) r)
    (run (TcpListener.poll_next F t (TcpListener.incoming p) cx) (W r)) /\
  yields uds_from_stream (io_op Read k (accept_or_block e) r)
    (run (UnixListener.poll_next F t (UnixListener.incoming p) cx) (W r)).
Proof.
  intros Hw Hr. split; (apply run_convert; [done | done |]).
  - by apply (run_accept_tcp w p e reg rid x m).
  - by apply (run_accept_uds w p e reg rid x m).
Qed.
End props.

(** ** Witnesses: the network of Toy.v *)
Section witnesses.
Import Toy Demo.

#[local] Abbreviation C := (cfg world_pe 0%nat 7 0%nat 0%nat xp 0%nat sp 0).

(** First an event without a datagram, then a datagram from 4 with the byte 9. *)
Definition no_datagram : Round := mkRound Ready_readable id.
Definition datagram : Round := mkRound Ready_readable
  (fun o => {| os_next := os_next o; os_tokens := os_tokens o; os_events := [(4, 9)]; os_fail := os_fail o |}).

Lemma useful_readable f : useful Read (mkRound Ready_readable f).
Proof. split; [by apply is_usize_small | done]. Qed.

Lemma datagram_futures_complete_witness :
  (exists r', run (drive 0%nat 0 51%nat (fun fut => UnixDatagram.RecvFrom_poll 2 0 fut 500) [no_datagram; datagram]
      (UnixDatagram.recv_from 0%nat [1; 2])) (C res_idle) =
    (Done (Ready (Ok (1, 4)), UnixDatagram.mkRecvFrom 0%nat [9]), C r')) /\
  (exists r', run (drive 0%nat 0 51%nat (fun fut => UnixDatagram.RecvFrom_poll 2 0 fut 500) [no_datagram]
      (UnixDatagram.recv_from 0%nat [1; 2])) (C res_idle) =
    (Done (Pending, UnixDatagram.mkRecvFrom 0%nat [1; 2]), C r') /\ armed Read 51%nat r').
Proof.
  split.
  - destruct (@datagram_futures_complete toy_deps toy_deps_laws toy_net world_pe 0%nat 7 0%nat 0%nat xp 0 0 sp 0 500 51%nat 0 0 0 res_idle
      [no_datagram; datagram] [] [1; 2] 4 4 registered_pe guard_wf_0 ltac:(done) (res_wf_with 0 ltac:(done)) eq_refl
      ltac:(repeat constructor; apply useful_readable) ltac:(constructor)) as (_ & (r' & E & _) & _).
    by exists r'.
  - destruct (@datagram_futures_complete toy_deps toy_deps_laws toy_net world_pe 0%nat 7 0%nat 0%nat xp 0 0 sp 0 500 51%nat 0 0 0 res_idle
      [no_datagram] [] [1; 2] 4 4 registered_pe guard_wf_0 ltac:(done) (res_wf_with 0 ltac:(done)) eq_refl
      ltac:(repeat constructor; apply useful_readable) ltac:(constructor)) as (_ & (r' & E & _ & Ha) & _).
    exists r'. split; [exact E | by apply Ha].
Defined.

(** A readable listener whose queue is empty: the task waits. *)
Lemma incoming_yields_witness :
  (run (TcpListener.poll_next 2 0 (TcpListener.incoming 0%nat) 500) (C res_readable)).1 = Done Pending.
Proof.
  destruct (proj1 (@incoming_yields toy_deps toy_deps_laws toy_net world_pe 0%nat 7 0%nat 0%nat xp 0 0 sp 0 500 51%nat 0 0 res_readable
    registered_pe (res_wf_with 1 ltac:(done)))) as [E _].
  by rewrite E.
Defined.
End witnesses.
End FuturesSpec.
