(* ===== verification/Lifecycle.v ===== *)
(** * The life of a connection

    [connect] and the future it returns, from the call to the result, on a reactor with
    any sources: the parts of the other files composed.  The socket is wrapped, its
    first poll registers it, its task waits, an event wakes it, and the pending error of
    the socket decides what becomes of the stream and of its slot. *)
From S2P Require Import Prelude Conc Deps Toy World Reactor Background Registration PollEvented Tcp Udp Uds.
From S2P Require Import ReactorProof RegistrationProof Resource Demo ReactorSpec RegistrationSpec.
From S2P Require Import ResourceSpec SocketSpec FuturesSpec.

Module Lifecycle.
Import Resource ResourceProof ReactorSpec RegistrationSpec ResourceSpec SocketSpec FuturesSpec.

(** ** Driving a connect future of a registered stream *)
Section driven.
Context `{DepsLaws} `{!NetOps}.
Context (w : World) (p : PeId) (e : Evented) (reg : RegId) (rid : ReactorId) (x : ReactorInner).
Context (m n : nat) (s : slab ScheduledIo) (key cx : Z) (k : waker) (fuel t : nat) (guard : Z).
Context {Fut : Type} (poll : Fut -> prg (Poll (io_result PeId) * Fut)) (waiting empty : Fut).
Context (on_error : Error -> prg (Poll (io_result PeId) * Fut)).
Hypothesis Hw : registered w p e reg rid x m n s key cx k.
Hypothesis Hstep : poll waiting = connect_step p cx fuel t waiting empty on_error.

#[local] Abbreviation W := (cfg w p e reg rid x n s key).
#[local] Abbreviation drive_in rounds := (drive rid (Z.lor guard key) k poll rounds waiting).

Lemma run_drive_pending r :
  res_wf r -> (poll_ready Write k r).1 = None ->
  exists r1, run (drive_in []) (W r) = (Done (Pending, waiting), W r1) /\ armed Write k r1 /\ res_os r1 = res_os r.
Proof.
  intros Hr E. exists (poll_ready Write k r).2. split_and!; [| | apply os_poll_ready].
  - unfold drive. rewrite run_bind, Hstep, (run_connect_step w p e reg rid x m n s key cx k) by done. by rewrite E.
  - eapply poll_ready_armed; [exact Hr |]. rewrite <- E. apply surjective_pairing.
Qed.

(** One event is enough for a result. *)
Lemma run_drive_event y rounds r :
  guard_wf guard -> 0 <= key < MAX_SOURCES -> res_wf r -> aba_guard (slot r) = guard ->
  (poll_ready Write k r).1 = None -> useful Write y ->
  let err := io_take_error e (change y (res_os r)) in
  exists r2, res_os r2 = err.2 /\
    match connect_error err.1 with
    | None => run (drive_in (y :: rounds)) (W r) = (Done (Ready (Ok p), empty), W r2)
    | Some error => forall fut w', run (on_error error) (W r2) = (Done (Ready (Err error), fut), w') ->
        run (drive_in (y :: rounds)) (W r) = (Done (Ready (Err error), fut), w')
    end.
Proof.
  intros Hg Hk Hr Eg E Hy err. set (r1 := (poll_ready Write k r).2).
  assert (FuturesSpec.waiting k guard Write r1) as Hwt.
  { split; [by apply res_wf_poll_ready | by rewrite <- Eg; apply guard_poll_ready |].
    eapply poll_ready_armed; [exact Hr |]. rewrite <- E. apply surjective_pairing. }
  destruct (run_round w p e reg rid x m n s key cx k guard Write y r1 Hw Hg Hk Hwt Hy) as (Eround & Hr1 & [v Ev]).
  set (ry := after_round y r1) in *. assert (res_os (poll_ready Write k ry).2 = change y (res_os r)) as Eo.
  { rewrite os_poll_ready. unfold ry, r1. cbn. by rewrite os_poll_ready. }
  exists (set_res_os err.2 (poll_ready Write k ry).2). split; [done |].
  assert (forall res w', run (poll waiting) (W ry) = (Done (Ready res.1, res.2), w') ->
    run (drive_in (y :: rounds)) (W r) = (Done (Ready res.1, res.2), w')) as Hdrive.
  { intros res w' Eres. unfold drive. rewrite run_bind, Hstep, (run_connect_step w p e reg rid x m n s key cx k) by done.
    rewrite E. cbn [fst await]. fold r1. rewrite (run_bind_done _ _ _ _ _ Eround).
    by rewrite (run_bind_done _ _ _ _ _ Eres). }
  rewrite Hstep, (run_connect_step w p e reg rid x m n s key cx k), Ev, Eo in Hdrive by done. fold err in Hdrive.
  destruct (connect_error err.1) as [error |]; [| by apply (Hdrive (Ok p, empty))].
  intros fut w'. apply (Hdrive (Err error, fut)).
Qed.
End driven.

(** ** From the call to the result *)
Section lifecycle.
Context `{DepsLaws} `{!NetOps}.
Context (w : World) (t : nat) (rid : ReactorId) (x : ReactorInner) (m : nat) (s : slab ScheduledIo).
Context (cx : Z) (k : waker) (e : Evented) (fuel : nat).

(** The thread finds a reactor (see [current]: the fallback, in this crate) that has room
    for another source and whose lock is free. *)
Record has_reactor : Prop := {
  hr_current : current w t = Some rid;
  hr_reactor : reactors w !! rid = Some x;
  hr_strong : strong x = S m;
  hr_dispatch : io_dispatch x = mkARwLock 0 false s;
  hr_wf : reactor_wf x;
  hr_room : slab_len s <> MAX_SOURCES;
  hr_waker : wakers w !! cx = Some k;
}.

(** The slot and the token that the next source gets, and its state there. *)
Definition next_slot : ScheduledIo := fresh_io (next_aba_guard x).
Definition next_key : Z := (slab_insert next_slot s).1.
Definition next_token : Z := Z.lor (next_aba_guard x) next_key.
Definition register_call (o : Os) : io_result unit * Os :=
  Poll_register (io x) e next_token Ready_all PollOpt_edge o.

(** The world when the socket is wrapped; [p] and [reg] are its new parts. *)
Definition wrapped (o : Os) : World := with_new e (set_os o w).
#[local] Abbreviation p := (fresh (dom (polled w))).
#[local] Abbreviation reg := (fresh (dom (registrations w))).

Lemma run_wrap {B} (c : PeId -> prg B) o :
  run (bind (PollEvented.new e) c) (set_os o w) = run (c p) (wrapped o).
Proof. unfold PollEvented.new. by rewrite run_bind_assoc, !run_atom. Qed.

(** The first poll registers the socket; it is as if it had been registered before. *)
Lemma run_first_poll o1 o2 :
  has_reactor -> register_call o1 = (Ok tt, o2) ->
  exists w' x',
    registered w' p e reg rid x' m 0 (slab_insert next_slot s).2 next_key cx k /\
    io x' = io x /\ 0 <= next_key < MAX_SOURCES /\
    polled w' = polled (wrapped o1) /\ delete reg (registrations w') = registrations w /\
    forall {B} (c : io_result unit -> prg B),
      run (bind (PollEvented.register (S (S fuel)) t p) c) (wrapped o1) =
      run (bind (PollEvented.register (S (S fuel)) t p) c)
        (cfg w' p e reg rid x' 0 (slab_insert next_slot s).2 next_key (mkRes next_slot 0 0 o2 (woken w))).
Proof.
  intros [] Eo. destruct (run_register_fresh (S fuel) t (wrapped o1) p e reg rid x m s cx k 0 0 o2)
    as (w' & x' & Hrun & _ & _ & Eio & Hk & Hreg & Ep & Er & Ew); try done; try apply lookup_insert_eq.
  exists w', x'. split_and!; try done; try apply Hk.
  - rewrite Er. cbn. apply delete_insert_id, lookup_fresh.
  - intros B c. rewrite (run_first_use (S fuel) t _ w' _ _ _ _ _ _ _ _ _ _ _ _ Hreg Ew Hrun). by rewrite Ew at 1.
Qed.

(** *** When the registration is refused *)
Lemma add_source_refused o1 err o2 :
  has_reactor -> register_call o1 = (Err err, o2) ->
  add_source_result x s e o1 =
  (Err err, with_dispatch (mkARwLock 0 false (slab_insert next_slot s).2) (bump x), o2).
Proof.
  intros Hw Eo. unfold add_source_result. rewrite (proj2 (Z.eqb_neq _ _) (hr_room Hw)). cbv zeta.
  change (Poll_register _ _ _ _ _ _) with (register_call o1). by rewrite Eo.
Qed.

(** The association of the socket is broken, and the slot stays taken. *)
Definition refused (o : Os) : World :=
  set_os o (set_reactor rid (with_dispatch (mkARwLock 0 false (slab_insert next_slot s).2) (bump x))
    (set_reg reg (mkRegistration (Some (mkRegInner rid ERROR)) READY) (wrapped o))).

Lemma run_poll_refused o1 err o2 :
  has_reactor -> register_call o1 = (Err err, o2) ->
  run (PollEvented.poll_write_ready (S (S fuel)) t p cx) (wrapped o1) = (Done (Ready (Err err)), refused o2).
Proof.
  intros Hw Eo. unfold PollEvented.poll_write_ready, PollEvented.register, PollEvented.get_ref, PollEvented.get_registration.
  assert (polled (wrapped o1) !! p = Some (mkPollEvented (Some e) reg 0 0)) as Ep by apply lookup_insert_eq.
  rewrite run_bind_assoc. erewrite run_on_pe_get; [| exact Ep | done].
  rewrite run_bind_assoc. erewrite run_on_pe_get; [| exact Ep | done].
  rewrite run_bind_assoc, run_bind.
  cbn [registration]. rewrite (run_registration_register (S fuel) t reg (wrapped o1) rid x m s e); try apply Hw; [| apply lookup_insert_eq].
  change (os (wrapped o1)) with o1. by rewrite (add_source_refused o1 err o2).
Qed.

(** Dropping a resource whose association is broken only closes it. *)
Lemma run_drop_refused close o :
  run (PollEvented.drop close p) (refused o) =
  (Done tt, set_reactor rid (with_dispatch (mkARwLock 0 false (slab_insert next_slot s).2) (bump x))
     (set_os (close e o) w)).
Proof.
  set (rg := mkRegistration (Some (mkRegInner rid ERROR)) READY).
  assert (registrations (refused o) !! reg = Some rg) as Er by apply lookup_insert_eq.
  assert (polled (refused o) !! p = Some (mkPollEvented (Some e) reg 0 0)) as Ep by apply lookup_insert_eq.
  unfold PollEvented.drop, PollEvented.get_registration. erewrite run_on_pe_get; [| exact Ep | done].
  unfold PollEvented.on_pe. erewrite run_action_next; [| by rewrite Ep]. cbn [pe_io registration]. cbv iota.
  set (w1 := set_polled _ (refused o)). assert (registrations w1 !! reg = Some rg) as Er1 by done.
  unfold Registration.deregister. rewrite run_bind_assoc, run_bind_assoc.
  erewrite (run_on_reg reg); [| exact Er1 | done]. rewrite (set_reg_id _ _ _ Er1).
  cbn [inner rg]. unfold RegInner.deregister. rewrite Z.eqb_refl. cbn [bind].
  erewrite run_os_call by done. set (w2 := set_os _ w1). assert (registrations w2 !! reg = Some rg) as Er2 by done.
  erewrite (run_on_reg reg); [| exact Er2 | done]. rewrite (set_reg_id _ _ _ Er2).
  cbn [inner rg]. unfold RegInner.drop. rewrite Z.eqb_refl. cbn [bind].
  rewrite <- (run_ret_bind (atom _)), run_atom. cbn [run fst snd]. f_equal.
  apply world_ext; try reflexivity.
  all: do 2 (etransitivity; [apply delete_insert_eq |]); apply delete_id, lookup_fresh.
Qed.

(** *** The result *)
Section result.
Context {Fut : Type}.

(** The program: connect, and drive the future that it gives. *)
Definition connecting (connect : prg Fut) (poll : Fut -> prg (Poll (io_result PeId) * Fut)) (rounds : list Round) :
    prg (Poll (io_result PeId) * Fut) :=
  let! fut := connect in drive rid next_token k poll rounds fut.

#[local] Abbreviation result := (Conc.outcome (Poll (io_result PeId) * Fut) * World)%type.

(** The stream is registered in the slot that was vacant, and the specification of
    Resource.v describes it from now on. *)
Definition in_service (out : result) (res : Poll (io_result PeId) * Fut) (P : Res -> Prop) : Prop :=
  exists w' x' r,
    out = (Done res, cfg w' p e reg rid x' 0 (slab_insert next_slot s).2 next_key r) /\
    registered w' p e reg rid x' m 0 (slab_insert next_slot s).2 next_key cx k /\ P r.

(** The stream is gone, and closed; what is left are the slots of the reactor. *)
Definition released (out : result) (res : Poll (io_result PeId) * Fut) (o : Os)
    (slots : Z -> option ScheduledIo) : Prop :=
  exists w' x',
    out = (Done res, w') /\ os w' = o /\ polled w' = polled w /\ registrations w' = registrations w /\
    reactors w' !! rid = Some x' /\ forall key', slab_get key' (slab_of x') = slots key'.

(** The future is poised on a stream of the world; [Hstep] says how it is polled. *)
Context (poll : Fut -> prg (Poll (io_result PeId) * Fut)) (waiting empty : Fut).
Context (on_error : Error -> prg (Poll (io_result PeId) * Fut)).
Hypothesis Hstep : poll waiting = connect_step p cx fuel t waiting empty on_error.
#[local] Abbreviation drive_in rounds := (drive rid next_token k poll rounds waiting).

Lemma run_drive_refused rounds o1 err o2 fut w' :
  has_reactor -> register_call o1 = (Err err, o2) ->
  run (on_error err) (refused o2) = (Done (Ready (Err err), fut), w') ->
  run (drive_in rounds) (wrapped o1) = (Done (Ready (Err err), fut), w').
Proof.
  intros Hw Eo Ee. unfold drive. rewrite Hstep. unfold connect_step. rewrite run_bind_assoc.
  rewrite (run_bind_done _ _ _ _ _ (run_poll_refused o1 err o2 Hw Eo)).
  by rewrite (run_bind_done _ _ _ _ _ Ee).
Qed.

(** The driven future, after the registration of its stream. *)
Lemma run_drive_registered rounds o1 o2 :
  has_reactor -> register_call o1 = (Ok tt, o2) -> Forall (useful Write) rounds ->
  match rounds with
  | [] => in_service (run (drive_in rounds) (wrapped o1)) (Pending, waiting)
            (fun r => armed Write k r /\ res_os r = o2)
  | y :: _ =>
      let err := io_take_error e (change y o2) in
      match connect_error err.1 with
      | None => in_service (run (drive_in rounds) (wrapped o1)) (Ready (Ok p), empty) (fun r => res_os r = err.2)
      | Some error => exists w' x' r,
          registered w' p e reg rid x' m 0 (slab_insert next_slot s).2 next_key cx k /\
          io x' = io x /\ polled w' = polled (wrapped o1) /\ delete reg (registrations w') = registrations w /\
          res_os r = err.2 /\
          forall fut w2, run (on_error error) (cfg w' p e reg rid x' 0 (slab_insert next_slot s).2 next_key r) =
              (Done (Ready (Err error), fut), w2) ->
            run (drive_in rounds) (wrapped o1) = (Done (Ready (Err error), fut), w2)
      end
  end.
Proof.
  intros Hw Eo Hrounds.
  destruct (run_first_poll o1 o2 Hw Eo) as (w' & x' & Hreg & Eio & Hk & Ep & Er & Hfirst).
  set (r := mkRes next_slot 0 0 o2 (woken w)) in *.
  assert (res_wf r) as Hr by by apply is_usize_small.
  assert ((poll_ready Write k r).1 = None) as Epoll.
  { rewrite poll_ready_eq. unfold bits. cbn [slot readiness r next_slot fresh_io]. by rewrite Z.land_0_r. }
  assert (run (drive_in rounds) (wrapped o1) =
    run (drive_in rounds) (cfg w' p e reg rid x' 0 (slab_insert next_slot s).2 next_key r)) as ->.
  { unfold drive. rewrite Hstep. unfold connect_step, PollEvented.poll_write_ready.
    rewrite !run_bind_assoc. apply Hfirst. }
  destruct Hrounds as [| y rounds Hy Hrounds].
  - destruct (run_drive_pending w' p e reg rid x' m 0 _ next_key cx k fuel t (next_aba_guard x) poll waiting empty
      on_error Hreg Hstep r Hr Epoll) as (r1 & Hrun & Ha & Eo1).
    by exists w', x', r1.
  - destruct (run_drive_event w' p e reg rid x' m 0 _ next_key cx k fuel t (next_aba_guard x) poll waiting empty
      on_error Hreg Hstep y rounds r (rw_guard _ (hr_wf Hw)) Hk Hr eq_refl Epoll Hy) as (r2 & Eo2 & Hrun).
    change (res_os r) with o2 in *. cbv zeta. destruct (connect_error _) as [error |]; by exists w', x', r2.
Qed.
End result.
End lifecycle.

(** ** The property *)
Section props.
Context `{DepsLaws} `{!NetOps}.
Context (w : World) (t : nat) (rid : ReactorId) (x : ReactorInner) (m : nat) (s : slab ScheduledIo).
Context (cx : Z) (k : waker) (fuel : nat).

#[local] Abbreviation F := (S (S fuel)).
#[local] Abbreviation p := (fresh (dom (polled w))).
#[local] Abbreviation serving e := (in_service w rid x m s cx k e).
#[local] Abbreviation released := (released w rid).

(** The slots after everything was given back, and after a refused registration. *)
Definition slots_before (key : Z) : option ScheduledIo := slab_get key s.
Definition slots_leaked (key : Z) : option ScheduledIo :=
  if decide (key = next_key x s) then Some (next_slot x) else slab_get key s.

Lemma leaked_get key : slab_get key (slab_insert (next_slot x) s).2 = slots_leaked key.
Proof. apply slab_insert_get. Qed.

Definition tcp_connecting (addr : SocketAddr) (rounds : list Round) :=
  run (connecting rid x s k (TcpStream.connect addr) (fun fut => TcpStream.connect_poll F t fut cx) rounds) w.
Definition uds_connecting (path : Path) (rounds : list Round) :=
  run (connecting rid x s k (UnixStream.connect path) (fun fut => UnixStream.connect_poll F t fut cx) rounds) w.

Lemma tcp_connecting_wrapped addr rounds e o1 :
  tcp_connect addr (os w) = (Ok e, o1) ->
  tcp_connecting addr rounds =
  run (drive rid (next_token x s) k (fun fut => TcpStream.connect_poll F t fut cx) rounds (TcpStream.Waiting p))
    (wrapped w e o1).
Proof.
  intros E. unfold tcp_connecting, connecting, TcpStream.connect. rewrite run_bind_assoc.
  erewrite run_os_call by exact E. unfold TcpStream.new. rewrite run_bind_assoc. by rewrite run_wrap.
Qed.

Lemma uds_connecting_wrapped path rounds e o1 :
  uds_connect path (os w) = (Ok e, o1) ->
  uds_connecting path rounds =
  run (drive rid (next_token x s) k (fun fut => UnixStream.connect_poll F t fut cx) rounds (UnixStream.Waiting p))
    (wrapped w e o1).
Proof.
  intros E. unfold uds_connecting, connecting, UnixStream.connect. rewrite run_bind_assoc.
  erewrite run_os_call by exact E. unfold UnixStream.new. rewrite run_bind_assoc. by rewrite run_wrap.
Qed.

(** The TCP future. *)
Lemma tcp_lifecycle addr rounds :
  has_reactor w t rid x m s cx k -> Forall (useful Write) rounds ->
  let tcp := tcp_connecting addr rounds in
  match tcp_connect addr (os w) with
  | (Err err, o1) => tcp = (Done (Ready (Err err), TcpStream.Empty), set_os o1 w)
  | (Ok e, o1) =>
    match register_call x s e o1, rounds with
    | (Err err, o2), _ => released tcp (Ready (Err err), TcpStream.Empty) (io_close e o2) slots_leaked
    | (Ok _, o2), [] =>
        serving e tcp (Pending, TcpStream.Waiting p) (fun r => armed Write k r /\ res_os r = o2)
    | (Ok _, o2), y :: _ =>
        let '(res, o3) := io_take_error e (change y o2) in
        match connect_error res with
        | None => serving e tcp (Ready (Ok p), TcpStream.Empty) (fun r => res_os r = o3)
        | Some err =>
            released tcp (Ready (Err err), TcpStream.Empty)
              (io_close e (Poll_deregister (io x) e o3).2) slots_before
        end
    end
  end.
Proof.
  intros Hw Hrounds tcp. destruct (tcp_connect addr (os w)) as [[e | err] o1] eqn:E.
  2: { unfold tcp, tcp_connecting, connecting, TcpStream.connect. rewrite run_bind_assoc.
    by erewrite run_os_call by exact E. }
  unfold tcp. rewrite (tcp_connecting_wrapped addr rounds e o1 E).
  set (poll := fun fut => TcpStream.connect_poll F t fut cx).
  assert (poll (TcpStream.Waiting p) = _) as Hstep by exact (tcp_connect_step p cx fuel t).
  destruct (register_call x s e o1) as [[[] | err] o2] eqn:Eo.
  - pose proof (run_drive_registered w t rid x m s cx k e fuel poll _ _ _ Hstep rounds o1 o2 Hw Eo Hrounds) as Hrun.
    destruct rounds as [| y rounds]; [exact Hrun |]. destruct (io_take_error _ _) as [res o3]. cbv zeta in Hrun. cbn in Hrun.
    destruct (connect_error res) as [err |]; [| exact Hrun].
    destruct Hrun as (w' & x' & r & Hreg & Eio & Ep & Er & Eor & Hrun).
    destruct (run_tcp_failed w' p e _ rid x' m 0 _ _ cx k r err Hreg eq_refl) as (s' & Efail & Hget).
    eexists _, _. split; [exact (Hrun _ _ Efail) |]. cbn. split_and!.
    + by rewrite Eio, Eor.
    + rewrite Ep. apply delete_insert_id, lookup_fresh.
    + exact Er.
    + apply lookup_insert_eq.
    + intros key'. cbn. rewrite Hget. case_decide as Ek; [subst key'; symmetry; apply slab_insert_fresh |].
      rewrite slab_insert_get. by rewrite decide_False.
  - eexists _, _. split.
    { apply (run_drive_refused w t rid x m s cx k e fuel poll _ _ _ Hstep rounds o1 err o2 _ _ Hw Eo).
      unfold tcp_failed, TcpStream.drop. by erewrite run_bind_done by apply run_drop_refused. }
    split_and!; [done | done | done | apply lookup_insert_eq |]. intros key'. apply leaked_get.
Qed.

(** The Unix future. *)
Lemma uds_lifecycle path rounds :
  has_reactor w t rid x m s cx k -> Forall (useful Write) rounds ->
  let uds := uds_connecting path rounds in
  match uds_connect path (os w) with
  | (Err err, o1) => uds = (Done (Ready (Err err), UnixStream.Empty), set_os o1 w)
  | (Ok e, o1) =>
    match register_call x s e o1, rounds with
    | (Err err, o2), _ => uds = (Done (Ready (Err err), UnixStream.Waiting p), refused w rid x s e o2)
    | (Ok _, o2), [] =>
        serving e uds (Pending, UnixStream.Waiting p) (fun r => armed Write k r /\ res_os r = o2)
    | (Ok _, o2), y :: _ =>
        let '(res, o3) := io_take_error e (change y o2) in
        match connect_error res with
        | None => serving e uds (Ready (Ok p), UnixStream.Empty) (fun r => res_os r = o3)
        | Some err => serving e uds (Ready (Err err), UnixStream.Waiting p) (fun r => res_os r = o3)
        end
    end
  end.
Proof.
  intros Hw Hrounds uds. destruct (uds_connect path (os w)) as [[e | err] o1] eqn:E.
  2: { unfold uds, uds_connecting, connecting, UnixStream.connect. rewrite run_bind_assoc.
    by erewrite run_os_call by exact E. }
  unfold uds. rewrite (uds_connecting_wrapped path rounds e o1 E).
  set (poll := fun fut => UnixStream.connect_poll F t fut cx).
  assert (poll (UnixStream.Waiting p) = _) as Hstep by exact (uds_connect_step p cx fuel t).
  destruct (register_call x s e o1) as [[[] | err] o2] eqn:Eo.
  - pose proof (run_drive_registered w t rid x m s cx k e fuel poll _ _ _ Hstep rounds o1 o2 Hw Eo Hrounds) as Hrun.
    destruct rounds as [| y rounds]; [exact Hrun |]. destruct (io_take_error _ _) as [res o3]. cbv zeta in Hrun. cbn in Hrun.
    destruct (connect_error res) as [err |]; [| exact Hrun].
    destruct Hrun as (w' & x' & r & Hreg & _ & _ & _ & Eor & Hrun).
    exists w', x', r. split; [by apply Hrun | done].
  - by apply (run_drive_refused w t rid x m s cx k e fuel poll _ _ _ Hstep rounds o1 err o2 _ _ Hw Eo).
Qed.

(** C15: Connecting, from [connect] to the result, when the future is polled only after its
    task was woken.  A refused call is reported by the first poll, and nothing is
    created.  Otherwise the first poll registers the stream in a vacant slot; if that is
    refused the error is the result.  The future waits, armed, as long as there is no
    event, and the first event decides: without a pending error the stream is the result
    and stays in service; with one, the TCP future closes its stream and gives the slot
    back, while the Unix future keeps its stream, in service, and can be polled again.
    The slot of a refused registration is not given back. *)
Theorem connect_lifecycle addr path rounds :
  has_reactor w t rid x m s cx k -> Forall (useful Write) rounds ->
  slab_get (next_key x s) s = None /\ polled w !! p = None /\
  let tcp := tcp_connecting addr rounds in
  match tcp_connect addr (os w) with
  | (Err err, o1) => tcp = (Done (Ready (Err err), TcpStream.Empty), set_os o1 w)
  | (Ok e, o1) =>
    match register_call x s e o1, rounds with
    | (Err err, o2), _ => released tcp (Ready (Err err), TcpStream.Empty) (io_close e o2) slots_leaked
    | (Ok _, o2), [] =>
        serving e tcp (Pending, TcpStream.Waiting p) (fun r => armed Write k r /\ res_os r = o2)
    | (Ok _, o2), y :: _ =>
        let '(res, o3) := io_take_error e (change y o2) in
        match connect_error res with
        | None => serving e tcp (Ready (Ok p), TcpStream.Empty) (fun r => res_os r = o3)
        | Some err =>
            released tcp (Ready (Err err), TcpStream.Empty)
              (io_close e (Poll_deregister (io x) e o3).2) slots_before
        end
    end
  end /\
  let uds := uds_connecting path rounds in
  match uds_connect path (os w) with
  | (Err err, o1) => uds = (Done (Ready (Err err), UnixStream.Empty), set_os o1 w)
  | (Ok e, o1) =>
    match register_call x s e o1, rounds with
    | (Err err, o2), _ => uds = (Done (Ready (Err err), UnixStream.Waiting p), refused w rid x s e o2)
    | (Ok _, o2), [] =>
        serving e uds (Pending, UnixStream.Waiting p) (fun r => armed Write k r /\ res_os r = o2)
    | (Ok _, o2), y :: _ =>
        let '(res, o3) := io_take_error e (change y o2) in
        match connect_error res with
        | None => serving e uds (Ready (Ok p), UnixStream.Empty) (fun r => res_os r = o3)
        | Some err => serving e uds (Ready (Err err), UnixStream.Waiting p) (fun r => res_os r = o3)
        end
    end
  end.
Proof.
  intros Hw Hrounds. split; [apply slab_insert_fresh |]. split; [apply lookup_fresh |].
  split; [by apply tcp_lifecycle | by apply uds_lifecycle].
Qed.
End props.

(** ** Witness: the network of Toy.v, in which 7 refuses connections *)
Section witnesses.
Import Toy Demo.

Definition writable : Round := mkRound Ready_writable id.

Lemma has_reactor_unregistered : has_reactor world_unregistered 0 0%nat x0 0 s0 500 51%nat.
Proof. constructor; try reflexivity; [apply reactor_wf_x0 | done]. Qed.

Lemma connect_lifecycle_witness :
  (exists w' x' r,
    @tcp_connecting toy_deps toy_net world_unregistered 0 0%nat x0 s0 500 51%nat 0 4 [writable] =
      (Done (Ready (Ok 1%nat), TcpStream.Empty), cfg w' 1%nat 4 1%nat 0%nat x' 0 [Some (fresh_io 0)] 0 r) /\
    registered w' 1%nat 4 1%nat 0%nat x' 0 0 [Some (fresh_io 0)] 0 500 51%nat) /\
  (exists w' x' r,
    @uds_connecting toy_deps toy_net world_unregistered 0 0%nat x0 s0 500 51%nat 0 7 [writable] =
      (Done (Ready (Err (io_error ConnectionRefused "connect")), UnixStream.Waiting 1%nat),
       cfg w' 1%nat 7 1%nat 0%nat x' 0 [Some (fresh_io 0)] 0 r) /\
    registered w' 1%nat 7 1%nat 0%nat x' 0 0 [Some (fresh_io 0)] 0 500 51%nat).
Proof.
  destruct (@connect_lifecycle toy_deps toy_deps_laws toy_net world_unregistered 0 0%nat x0 0 s0 500 51%nat 0 4 7 [writable]
    has_reactor_unregistered ltac:(repeat constructor; [by apply is_usize_small | done]))
    as (_ & _ & (w1 & x1 & r1 & E1 & Hr1 & _) & (w2 & x2 & r2 & E2 & Hr2 & _)).
  split; [exists w1, x1, r1 | exists w2, x2, r2]; by split.
Defined.
End witnesses.
End Lifecycle.
