(* ===== verification/OptionsSpec.v ===== *)
(** * The credentials of a peer

    The other functions of tcp/, udp.rs and uds/ that read or set something of the socket
    are definitions of Tcp.v, Udp.v and Uds.v that make one call each; [peer_cred] has
    outcomes of its own. *)
From S2P Require Import Prelude Conc Deps Toy World Reactor Background Registration PollEvented Tcp Udp Uds.
From S2P Require Import ReactorProof Demo.

Module OptionsSpec.

Section options.
Context `{DepsLaws} `{!NetOps} `{!SocketOptions}.

Lemma run_get_ref_any {A} w p x e (c : Evented -> prg A) :
  polled w !! p = Some x -> pe_io x = Some e -> run (bind (PollEvented.get_ref p) c) w = run (c e) w.
Proof.
  intros Hp He. unfold PollEvented.get_ref, PollEvented.on_pe. erewrite run_action_next; [done |].
  rewrite Hp, He. unfold set_polled. rewrite insert_id by done. by destruct w.
Qed.

Lemma run_os_call_tail {A} (call : Os -> A * Os) w : run (os_call call) w = (Done (call (os w)).1, set_os (call (os w)).2 w).
Proof. rewrite <- run_ret_bind. unfold os_call. rewrite run_atom. by destruct (call (os w)). Qed.

(** ** uds/ucred.rs *)

(** The credentials that [getsockopt] reports, if it reports all of them. *)
Definition linux_cred (r : Z * (Z * Z) * Z) : option UCred.UCred :=
  let '(ret, (uid, gid), size) := r in
  if (ret =? 0) && (size =? UCred.size_of_ucred) then Some (UCred.mkUCred uid gid) else None.

(** The outcome of a call whose error is in [errno]. *)
Definition or_os_error {A} (r : option A) (o : Os) : io_result A * Os :=
  match r with
  | Some a => (Ok a, o)
  | None => let '(e, o) := last_os_error o in (Err e, o)
  end.

(** C31: The credentials of the peer.  The assertions of the Linux version hold on every
    target; the credentials are returned when the call succeeds and fills the whole
    structure, and otherwise the error of the system is. *)
Theorem peer_cred_outcomes w p x e :
  polled w !! p = Some x -> pe_io x = Some e ->
  let linux := getsockopt_peercred (as_raw_fd e) UCred.size_of_ucred (os w) in
  let macos := getpeereid (as_raw_fd e) (os w) in
  run (UnixStream.peer_cred p) w =
    (let '(r, o) := or_os_error (linux_cred linux.1) linux.2 in (Done r, set_os o w)) /\
  run (UCred.get_peer_cred_macos p) w =
    (let '(r, o) := or_os_error (if macos.1.1 =? 0 then Some (UCred.mkUCred macos.1.2.1 macos.1.2.2) else None) macos.2
     in (Done r, set_os o w)).
Proof.
  intros Hp He linux macos. unfold UnixStream.peer_cred, UCred.get_peer_cred_linux, UCred.get_peer_cred_macos.
  rewrite !(run_get_ref_any w p x e) by done.
  assert (UCred.size_of_u32 <=? UCred.size_of_usize = true) as ->.
  { unfold UCred.size_of_u32, UCred.size_of_usize. by destruct usize_bits_cases as [-> | ->]. }
  cbn [negb]. change (UCred.size_of_ucred <=? 2 ^ 32 - 1) with true. cbn [negb].
  split; (erewrite run_bind_done by apply run_os_call_tail).
  - fold linux. unfold linux_cred. destruct linux as [[[ret [uid gid]] size] o]. cbn [fst snd].
    case_match; [done |]. erewrite run_bind_done by apply run_os_call_tail. cbn. by destruct (last_os_error o).
  - fold macos. destruct macos as [[ret [uid gid]] o]. cbn [fst snd].
    case_match; [done |]. erewrite run_bind_done by apply run_os_call_tail. cbn. by destruct (last_os_error o).
Qed.
End options.

(** ** Witnesses *)
Section witnesses.
Import Toy Demo.

Lemma peer_cred_outcomes_witness :
  run (UnixStream.peer_cred 0%nat) world_unregistered = (Done (Ok (UCred.mkUCred 1000 100)), world_unregistered).
Proof.
  rewrite (proj1 (peer_cred_outcomes world_unregistered 0%nat (@mkPollEvented toy_deps (Some 7) 0%nat 0 0) 7 eq_refl eq_refl)).
  reflexivity.
Defined.
End witnesses.
End OptionsSpec.
