(* ===== verification/RegistrationQueue.v ===== *)
(** * The queue of a registration

    The thread that registers a resource serves the tasks that queued up meanwhile.  The
    queue is a linked list whose head shares a word with the life cycle. *)
From S2P Require Import Prelude Conc RelyGuar Deps Toy World Reactor Background Registration.
From S2P Require Import ReactorProof RegistrationProof Local Resource Demo ReactorSpec RegistrationSpec RegistrationRace.

Module RegistrationQueue.
Import ReactorSpec RegistrationSpec RegistrationRace.

(** ** The queue *)
Section queue.
Context `{DepsLaws}.

(** Boxes [b] hold the list [l] at [ptr]; its boxes are different. *)
Fixpoint chain (b : gmap Z Node) (ptr : Z) (l : list Node) : Prop :=
  match l with
  | [] => ptr = 0
  | n :: l => ptr <> 0 /\ b !! ptr = Some n /\ chain (delete ptr b) (next n) l
  end.

(** The boxes without those of the list. *)
Fixpoint unchain (b : gmap Z Node) (ptr : Z) (l : list Node) : gmap Z Node :=
  match l with
  | [] => b
  | n :: l => unchain (delete ptr b) (next n) l
  end.

(** The first node of each direction that is not served yet. *)
Fixpoint firsts (read write : bool) (l : list Node) : list Node :=
  match l with
  | [] => []
  | n :: l =>
      match direction n with
      | Read => (if read then [] else [n]) ++ firsts true write l
      | Write => (if write then [] else [n]) ++ firsts read true l
      end
  end.

Fixpoint register_all (inner : RegInner) (l : list Node) : prg unit :=
  match l with
  | [] => Ret tt
  | n :: l => let! _ := RegInner.register inner (node_waker n) (direction n) in register_all inner l
  end.

Lemma local_register_all inner l : local (register_all inner l).
Proof. induction l as [| n l IH]; cbn; [constructor |]. apply local_bind; [apply local_register | by intros []]. Qed.

Lemma put_set_boxes v b w : put v (set_boxes b w) = set_boxes b (put v w).
Proof. done. Qed.

(** What only uses the reactors does not care about the boxes. *)
Lemma run_set_boxes {A} (p : prg A) b w :
  local p -> run p (set_boxes b w) = ((run p w).1, set_boxes b (run p w).2).
Proof.
  intros Hp. revert w. induction Hp as [a | e | f g Hf Hg IH]; intros w; cbn; [done | done |].
  rewrite !Hf. change (wakers (set_boxes b w)) with (wakers w). change (view (set_boxes b w)) with (view w).
  destruct (g (wakers w) (view w)) as [[v p] |] eqn:E; [| done]. rewrite put_set_boxes. by eapply IH.
Qed.

Lemma local_boxes {A} (p : prg A) w : local p -> boxes (run p w).2 = boxes w.
Proof.
  intros Hp. revert w. induction Hp as [a | e | f g Hf Hg IH]; intros w; cbn; [done | done |].
  rewrite Hf. destruct (g _ _) as [[v p] |] eqn:E; [| done]. by rewrite (IH _ _ _ _ E).
Qed.

Lemma set_boxes_twice b b' w : set_boxes b (set_boxes b' w) = set_boxes b w.
Proof. done. Qed.

(** [consume] takes every node out and registers the first of each direction. *)
Lemma run_consume inner l ptr read write w w' :
  chain (boxes w) ptr l -> run (register_all inner (firsts read write l)) w = (Done tt, w') ->
  run (Registration.consume (S (length l)) inner ptr read write) w =
  (Done tt, set_boxes (unchain (boxes w) ptr l) w').
Proof.
  revert ptr read write w w'. induction l as [| n l IH]; intros ptr read write w w' Hc Hr.
  { cbn in *. injection Hr as <-. subst. rewrite Z.eqb_refl. by destruct w. }
  destruct Hc as (Hp & Hb & Hc). cbn [length Registration.consume].
  rewrite (proj2 (Z.eqb_neq _ _) Hp). set (w1 := set_boxes (delete ptr (boxes w)) w).
  unfold box_take. rewrite (run_action_next _ _ _ n w1) by (by rewrite Hb).
  assert (forall (served : bool) read' write',
    run (register_all inner ((if served then [] else [n]) ++ firsts read' write' l)) w = (Done tt, w') ->
    run (let! _ := if served then Ret tt else RegInner.register inner (node_waker n) (direction n) in
         Registration.consume (S (length l)) inner (next n) read' write') w1 =
    (Done tt, set_boxes (unchain (boxes w) ptr (n :: l)) w')) as Hstep.
  { intros served read' write' Hr'.
    assert (forall v v', boxes v = delete ptr (boxes w) -> v' = w' -> run (register_all inner (firsts read' write' l)) v = (Done tt, set_boxes (boxes v) v') ->
      run (Registration.consume (S (length l)) inner (next n) read' write') v = (Done tt, set_boxes (unchain (boxes w) ptr (n :: l)) w')) as Hrest.
    { intros v v' Ev -> Hv. rewrite (IH (next n) read' write' v _ ltac:(by rewrite Ev) Hv), set_boxes_twice. by rewrite Ev. }
    destruct served; cbn [bind app register_all] in *.
    - apply (Hrest w1 w'); [done | done |]. unfold w1. rewrite run_set_boxes, Hr' by apply local_register_all. done.
    - pose proof (local_register inner (node_waker n) (direction n)) as Hloc.
      rewrite run_bind in Hr' |- *. unfold w1. rewrite (run_set_boxes _ _ w Hloc).
      pose proof (local_boxes _ w Hloc) as Hbox. destruct (run (RegInner.register _ _ _) w) as [[[] | e |] w2]; cbn [fst snd] in *; try done.
      apply (Hrest _ w'); [done | done |]. rewrite run_set_boxes, Hr' by apply local_register_all. done. }
  cbn [firsts] in Hr. destruct (direction n) eqn:Ed; [apply (Hstep read true write Hr) | apply (Hstep write read true Hr)].
Qed.

(** *** Which tasks are served *)
Lemma firsts_spec read write l :
  NoDup (direction <$> firsts read write l) /\
  (read = true -> Read ∉ direction <$> firsts read write l) /\
  (write = true -> Write ∉ direction <$> firsts read write l).
Proof.
  revert read write. induction l as [| n l IH]; intros read write; cbn [firsts]; [cbn; split_and!; [constructor | set_solver ..] |].
  destruct (direction n) eqn:Ed.
  - destruct (IH true write) as (H1 & H2 & H3). specialize (H2 eq_refl). destruct read; [done |]. cbn. rewrite Ed.
    split_and!; [by constructor | done | intros E; specialize (H3 E); set_solver].
  - destruct (IH read true) as (H1 & H2 & H3). specialize (H3 eq_refl). destruct write; [done |]. cbn. rewrite Ed.
    split_and!; [by constructor | intros E; specialize (H2 E); set_solver | done].
Qed.

Lemma firsts_head read write l d nd :
  head (filter (fun n => direction n = d) l) = Some nd ->
  (match d with Read => read | Write => write end) = false -> nd ∈ firsts read write l.
Proof.
  revert read write. induction l as [| n l IH]; intros read write Hh Hs; [done |].
  rewrite filter_cons in Hh. cbn [firsts]. case_decide as E.
  - injection Hh as <-. subst d. destruct (direction n); rewrite Hs; apply elem_of_app; left; by apply list_elem_of_singleton.
  - destruct (direction n), d; try done; apply elem_of_app; right; by apply IH.
Qed.

Lemma firsts_subset read write l n : n ∈ firsts read write l -> n ∈ l.
Proof.
  revert read write. induction l as [| n' l IH]; intros read write; cbn [firsts]; [done |].
  destruct (direction n'); intros [Hn | Hn]%elem_of_app;
    try (destruct read; [by apply elem_of_nil in Hn | apply list_elem_of_singleton in Hn; subst; by left]);
    try (destruct write; [by apply elem_of_nil in Hn | apply list_elem_of_singleton in Hn; subst; by left]);
    right; by eapply IH.
Qed.

(** The slot and the woken tasks after the registrations. *)
Record served (w w' : World) (h : HandlePriv) (token : Z) (x : ReactorInner) (n : nat) (s : slab ScheduledIo)
    (i i' : ScheduledIo) (ns : list Node) : Prop := {
  sv_reactor : reactors w' !! h = Some (with_dispatch (mkARwLock n false (slab_set token i' s)) x);
  sv_readiness : readiness i' = readiness i;
  sv_wakers : wakers w' = wakers w;
  sv_woken : woken w `prefix_of` woken w';
  sv_task nd k : nd ∈ ns -> wakers w !! node_waker nd = Some k ->
    k ∈ woken w' \/ aw_waker (aw_of (direction nd) i') = Some k;
  sv_other d : d ∉ direction <$> ns -> aw_of d i' = aw_of d i;
}.

Lemma after_register_other d d' k i : d' <> d -> aw_of d' (after_register d k i) = aw_of d' i.
Proof. intros Hd. unfold after_register. case_match; by destruct d, d'. Qed.

Lemma after_register_readiness d k i : readiness (after_register d k i) = readiness i.
Proof. unfold after_register. case_match; apply with_aw_readiness. Qed.

Lemma run_register_all h token m ns w x n s i :
  NoDup (direction <$> ns) -> token <> ERROR -> reactors w !! h = Some x -> strong x = S m ->
  io_dispatch x = mkARwLock n false s -> slab_get token s = Some i ->
  Forall (fun nd => is_Some (wakers w !! node_waker nd)) ns ->
  exists w' i', run (register_all (mkRegInner h token) ns) w = (Done tt, w') /\ served w w' h token x n s i i' ns.
Proof.
  intros Hnd Ht E Em El Es Hks. revert w x s i Hnd E Em El Es Hks.
  induction ns as [| nd ns IH]; intros w x s i Hnd E Em El Es Hks.
  { exists w, i. split; [done |]. constructor; try done; [| by intros nd k Hin; apply elem_of_nil in Hin].
    rewrite E. rewrite slab_set_id, <- El by done. by destruct x. }
  cbn in Hnd. apply NoDup_cons in Hnd as [Hd Hnd]. apply Forall_cons in Hks as [[k Hk] Hks].
  set (d := direction nd) in *. set (i1 := after_register d k i).
  set (new := if Z.land (readiness i) (register_bits d) =? 0 then [] else [k]).
  set (s1 := slab_set token i1 s). set (x1 := with_dispatch (mkARwLock n false s1) x).
  set (w1 := set_woken (woken w ++ new) (st w h x (mkARwLock n false s1))).
  assert (slab_get token s1 = Some i1) as Es1 by (unfold s1; rewrite slab_set_get by (by eexists); by rewrite decide_True).
  destruct (IH w1 x1 s1 i1 Hnd (lookup_insert_eq _ _ _) Em eq_refl Es1 Hks) as (w' & i' & Hr & [V1 V2 V3 V4 V5 V6]).
  exists w', i'. cbn [register_all]. erewrite run_bind_done by by eapply run_reginner_register. split; [exact Hr |].
  constructor.
  - rewrite V1. unfold x1, s1. cbn. by rewrite slab_set_set.
  - rewrite V2. apply after_register_readiness.
  - done.
  - etransitivity; [by eexists | exact V4].
  - intros nd' k' Hin Hk'. apply elem_of_cons in Hin as [-> | Hin]; [| by eapply V5]. simplify_eq. fold d.
    rewrite V6 by done. unfold new in V4. unfold i1.
    destruct (Z.land (readiness i) (register_bits d) =? 0) eqn:Eb.
    + right. unfold after_register. rewrite Eb, aw_of_with_aw. apply aw_register_waker.
    + left. destruct V4 as [l ->]. cbn. apply elem_of_app. left. apply elem_of_app. right. by apply list_elem_of_singleton.
  - intros d' Hd'. cbn in Hd'. fold d in Hd'. apply not_elem_of_cons in Hd' as [Hne Hd']. rewrite V6 by done.
    by apply after_register_other.
Qed.

(** C9: Serving the queue terminates.  [consume] takes every node of the list out of its box,
    once each, in as many rounds as there are nodes and one more, and registers the first
    node of each direction: its task is then woken or stored in the source. *)
Theorem queue_is_served h token ptr l w x m n s i :
  chain (boxes w) ptr l -> token <> ERROR -> reactors w !! h = Some x -> strong x = S m ->
  io_dispatch x = mkARwLock n false s -> slab_get token s = Some i ->
  Forall (fun nd => is_Some (wakers w !! node_waker nd)) l ->
  exists w' i',
    run (Registration.consume (S (length l)) (mkRegInner h token) ptr false false) w = (Done tt, w') /\
    boxes w' = unchain (boxes w) ptr l /\
    reactors w' !! h = Some (with_dispatch (mkARwLock n false (slab_set token i' s)) x) /\ readiness i' = readiness i /\
    forall d nd k, head (filter (fun n => direction n = d) l) = Some nd -> wakers w !! node_waker nd = Some k ->
      k ∈ woken w' \/ aw_waker (aw_of d i') = Some k.
Proof.
  intros Hc Ht E Em El Es Hks. destruct (firsts_spec false false l) as (Hnd & _ & _).
  destruct (run_register_all h token m (firsts false false l) w x n s i Hnd Ht E Em El Es) as (w' & i' & Hr & Hv).
  { apply Forall_forall. intros nd Hin. eapply (proj1 (Forall_forall _ _) Hks). by eapply firsts_subset. }
  exists (set_boxes (unchain (boxes w) ptr l) w'), i'. split; [by apply run_consume |].
  split_and!; [done | apply Hv | apply Hv |]. intros d nd k Hh Hk.
  assert (direction nd = d) as <-.
  { apply (list_elem_of_filter (fun n => direction n = d) l nd). destruct (filter _ l); [done |]. injection Hh as ->. by left. }
  eapply (sv_task _ _ _ _ _ _ _ _ _ _ Hv); [| exact Hk]. eapply firsts_head; [exact Hh |]. by destruct (direction nd).
Qed.

End queue.

(** ** From the poll to the registering thread *)
Section round_trip.
Context `{DepsLaws}.

(** What is local leaves everything alone that is not in the view. *)
Lemma local_put {A} (p : prg A) w : local p -> (run p w).2 = put (view (run p w).2) w.
Proof.
  intros Hp. revert w. induction Hp as [a | e | f g Hf Hg IH]; intros w; cbn; [by rewrite put_view.. |].
  rewrite Hf. destruct (g _ _) as [[v p] |] eqn:E; cbn [fst snd]; [| by rewrite put_view].
  by rewrite (IH _ _ _ _ E (put v w)) at 1.
Qed.

(** A node alone on the stack is taken off it, and its task registered. *)
Lemma run_consume_one fuel inner p d cx w w' :
  p <> 0 -> boxes w !! p = Some (mkNode d cx 0) ->
  run (RegInner.register inner cx d) (set_boxes (delete p (boxes w)) w) = (Done tt, w') ->
  run (Registration.consume (S (S fuel)) inner p false false) w = (Done tt, w').
Proof.
  intros Hp Hb Hr. cbn [Registration.consume]. rewrite (proj2 (Z.eqb_neq _ _) Hp).
  unfold box_take. erewrite run_action_next; [| by rewrite Hb]. cbn [direction node_waker next].
  destruct d; erewrite run_bind_done by exact Hr; done.
Qed.

(** The registering thread, after a poll has pushed its node. *)
Lemma run_register_pushed fuel r rg p cx d w h x m s source res x1 o w2 :
  addr p -> boxes w !! p = None ->
  reactors w !! h = Some x -> strong x = S m -> io_dispatch x = mkARwLock 0 false s ->
  add_source_result x s source (os w) = (res, x1, o) ->
  let w0 := set_reg r (mkRegistration (Some (mkRegInner h (token_of res))) READY)
              (set_allocations (S (allocations w)) w) in
  run (RegInner.register (mkRegInner h (token_of res)) cx d) (added w0 h x1 o) = (Done tt, w2) ->
  run (Registration.register_locked (S (S fuel)) r source h) (RegistrationSpec.pushed r rg p cx d w) =
    (Done (io_map (fun _ => true) res), w2).
Proof.
  intros Ha Hp E Em El Eadd w0 Hr. unfold Registration.register_locked.
  set (w1 := RegistrationSpec.pushed r rg p cx d w).
  rewrite run_bind, (run_reginner_new w1 h x m s source) by done. change (os w1) with (os w). rewrite Eadd.
  cbn [fst snd]. set (wa := set_os o _).
  assert (registrations wa !! r = Some (mkRegistration (inner rg) (Z.lor p LOCKED))) as Ea by apply lookup_insert_eq.
  unfold Registration.set_inner. erewrite (run_on_reg r _ _ wa _ tt); [| exact Ea | done].
  unfold Registration.state_swap. erewrite (run_on_reg r); [| apply lookup_insert_eq | done].
  cbn [inner state]. rewrite set_reg_twice. unfold Registration.get_inner.
  erewrite (run_on_reg r); [| apply lookup_insert_eq | done]. rewrite set_reg_twice, pushed_ptr by done.
  erewrite run_bind_done; [by destruct res |]. apply (run_consume_one _ _ _ d cx).
  { destruct Ha. lia. }
  { cbn. apply lookup_insert_eq. }
  rewrite <- Hr. f_equal. apply world_ext; try reflexivity; cbn.
  - exact (insert_insert_eq _ _ _ _).
  - by apply delete_insert_id.
Qed.

(** C29: A poll that comes while another thread registers hands its task over.  The poll
    pushes a node on the locked state, so that the address of the node's box and the life
    cycle share a word; the registering thread takes the node off that word, whatever the
    result of [add_source].  Afterwards the task is woken, or stored in the new source; the
    box is free again, the registration is [READY] with the new token, and nothing but the
    reactors, the operating system and the woken tasks has changed apart from that. *)
Theorem queued_poll_roundtrip fuel fuel' r rg p cx d k w h x m s source :
  registrations w !! r = Some rg -> state rg = LOCKED ->
  box_alloc (allocations w) (in_use w) = Some p -> wakers w !! cx = Some k ->
  reactors w !! h = Some x -> strong x = S m -> io_dispatch x = mkARwLock 0 false s -> reactor_wf x ->
  let '(res, _, o) := add_source_result x s source (os w) in
  exists w1 w2,
    run (Registration.poll_ready (S fuel) r (Some cx) d) w = (Done (Ok None), w1) /\
    boxes w1 = <[p := mkNode d cx 0]> (boxes w) /\
    run (Registration.register_locked (S (S fuel')) r source h) w1 = (Done (io_map (fun _ => true) res), w2) /\
    notified h res d k (woken w) w2 /\ os w2 = o /\
    w2 = put (view w2) (set_registrations
           (<[r := mkRegistration (Some (mkRegInner h (token_of res))) READY]> (registrations w))
           (set_allocations (S (allocations w)) w)).
Proof.
  intros Er Es Hbox Hk E Em El Hwf. destruct (add_source_result x s source (os w)) as [[res x1] o] eqn:Eadd.
  pose proof (box_alloc_addr _ _ _ Hbox) as Ha. pose proof (box_alloc_fresh _ _ Hbox) as Hp.
  set (w0 := set_reg r (mkRegistration (Some (mkRegInner h (token_of res))) READY) (set_allocations (S (allocations w)) w)).
  destruct (register_after w0 h x m s source res x1 o cx k d Hwf Em El Eadd Hk) as (w2 & Hr & Eo & Hn).
  exists (RegistrationSpec.pushed r rg p cx d w), w2. split_and!; [by apply run_poll_locked | done | | done | done |].
  - by eapply run_register_pushed.
  - pose proof (local_put _ (added w0 h x1 o) (local_register (mkRegInner h (token_of res)) cx d)) as Hl.
    unfold Conc.run in *. rewrite Hr in Hl. cbn [fst snd] in Hl. exact Hl.
Qed.
End round_trip.

(** ** Witnesses *)
Section witnesses.
Import Toy Demo.

(** Two readers and a writer in the queue. *)
Definition world_queue : World := Eval vm_compute in
  set_boxes {[8 := mkNode Read 500 16; 16 := mkNode Read 600 24; 24 := mkNode Write 600 0]} world1.

Lemma queue_is_served_witness :
  exists w' i',
    run (Registration.consume 4 (mkRegInner 0%nat 0) 8 false false) world_queue = (Done tt, w') /\
    boxes w' = ∅ /\
    (51%nat ∈ woken w' \/ aw_waker (aw_of Read i') = Some 51%nat) /\
    (61%nat ∈ woken w' \/ aw_waker (aw_of Write i') = Some 61%nat).
Proof.
  destruct (queue_is_served 0%nat 0 8 [mkNode Read 500 16; mkNode Read 600 24; mkNode Write 600 0] world_queue
    (reactor_of world_queue) 0 0 (slab_at world_queue) (io_at 0 world_queue)) as (w' & i' & Hr & Hb & _ & _ & Hs);
    [by split_and! | done | reflexivity .. | repeat constructor; by eexists |].
  - exists w', i'. split; [exact Hr |]. split; [rewrite Hb; reflexivity |].
    split; [apply (Hs Read (mkNode Read 500 16)) | apply (Hs Write (mkNode Write 600 0))]; reflexivity.
Defined.

(** A reader polls resource 0 of [world_locked], which a thread is registering. *)
Lemma queued_poll_roundtrip_witness :
  exists w1 w2,
    run (Registration.poll_ready 4 0%nat (Some 500) Read) world_locked = (Done (Ok None), w1) /\
    boxes w1 !! 8 = Some (mkNode Read 500 0) /\
    run (Registration.register_locked 4 0%nat 7 0%nat) w1 = (Done (Ok true), w2) /\
    boxes w2 = ∅ /\ registrations w2 !! 0%nat = Some (mkRegistration (Some (mkRegInner 0%nat 0)) READY) /\
    exists x i, reactors w2 !! 0%nat = Some x /\ slab_get 0 (slab_of x) = Some i /\ aw_waker (reader i) = Some 51%nat.
Proof.
  pose proof (queued_poll_roundtrip 3 2 0%nat (mkRegistration None LOCKED) 8 500 Read 51%nat world_locked 0%nat
    (reactor_of world_locked) 0 (slab_at world_locked) 7 eq_refl eq_refl eq_refl eq_refl eq_refl eq_refl eq_refl
    reactor_wf_x0) as Hq.
  destruct (add_source_result _ _ _ _) as [[res x1] o] eqn:E. assert (res = Ok 0) as -> by (vm_compute in E; congruence).
  destruct Hq as (w1 & w2 & Hp & Hb & Hr & (x & i & Hx & Hi & Hk & _) & _ & Hw). exists w1, w2.
  split; [exact Hp |]. split; [rewrite Hb; reflexivity |]. split; [exact Hr |].
  split; [exact (f_equal boxes Hw) |]. split; [rewrite Hw; reflexivity |].
  exists x, i. split; [exact Hx |]. split; [exact Hi | exact Hk].
Defined.
End witnesses.
End RegistrationQueue.
