(* ===== verification/RegistrationFlaws.v ===== *)
(** * Where registration falls short of what it promises

    A task that polls a resource while another thread registers it is queued, and served
    when the registration is done.  Two theorems say where this goes wrong: a queued writer
    does not learn of a hang-up, and a node can outlive the waker that it points to. *)
From S2P Require Import Prelude Conc Deps Toy World Reactor Background Registration.
From S2P Require Import ReactorProof RegistrationProof Resource Demo ReactorSpec ResourceSpec RegistrationSpec.

Module RegistrationFlaws.
Import ResourceSpec RegistrationSpec.

Section flaws.
Context `{DepsLaws}.

(** *** A hang-up that is already there *)

Lemma after_register_slot d k i :
  Z.land (readiness i) (register_bits d) = 0 ->
  aw_waker (aw_of d (after_register d k i)) = Some k /\ bits d (after_register d k i) = bits d i.
Proof.
  intros E. unfold after_register, bits. rewrite E, Z.eqb_refl, aw_of_with_aw, with_aw_readiness.
  split; [apply aw_register_waker | done].
Qed.

(** C36: A task that was queued while its resource was being registered, when the source has a
    hang-up and is not writable.  Both directions count a hang-up as an event.  A queued
    reader is woken at once; a queued writer is only stored, with the event there, and waits
    for another one. *)
Theorem queued_writer_misses_hup w h token x m n s cx k i :
  token <> ERROR -> reactors w !! h = Some x -> strong x = S m -> io_dispatch x = mkARwLock n false s ->
  slab_get token s = Some i -> wakers w !! cx = Some k -> is_usize (readiness i) ->
  platform.hup <> 0 -> Z.land (readiness i) platform.hup = platform.hup -> Z.land (readiness i) Ready_writable = 0 ->
  (forall d, bits d i <> 0) /\
  (exists w', run (RegInner.register (mkRegInner h token) cx Read) w = (Done tt, w') /\ woken w' = woken w ++ [k]) /\
  (exists w' x' i', run (RegInner.register (mkRegInner h token) cx Write) w = (Done tt, w') /\
     woken w' = woken w /\ reactors w' !! h = Some x' /\ slab_get token (slab_of x') = Some i' /\
     aw_waker (aw_of Write i') = Some k /\ bits Write i' <> 0).
Proof.
  intros Ht E Em El Es Hk Hu Hh Hhup Hwr.
  assert (forall d, bits d i <> 0) as Hbits.
  { intros d Eb. assert (Z.land (bits d i) platform.hup = platform.hup) as E'.
    { unfold bits. rewrite <- Z.land_assoc, Hhup, Z.land_comm. apply hup_mask. }
    rewrite Eb, Z.land_0_l in E'. by apply Hh. }
  split; [done |].
  assert (Z.land (readiness i) (register_bits Read) <> 0) as Hread.
  { cbn [register_bits]. rewrite land_unot by done. intros E0. apply Hh. rewrite <- Hhup.
    apply Z.bits_inj'. intros b Hb. apply (f_equal (fun z => Z.testbit z b)) in E0, Hwr.
    rewrite Z.bits_0 in *. rewrite ?Z.land_spec, ?Z.ldiff_spec in *.
    by destruct (Z.testbit (readiness i) b), (Z.testbit Ready_writable b). }
  split.
  - eexists. split; [by eapply run_reginner_register |].
    by rewrite (proj2 (Z.eqb_neq _ _) Hread).
  - destruct (after_register_slot Write k i Hwr) as [Ha Hb].
    eexists _, _, _. split; [by eapply run_reginner_register |]. cbn [register_bits]. rewrite Hwr, Z.eqb_refl, app_nil_r.
    split_and!; [done | cbn; apply lookup_insert_eq | | exact Ha | by rewrite Hb].
    unfold slab_of. cbn. rewrite slab_set_get by by eexists. by rewrite decide_True.
Qed.

(** *** A waker that is gone *)
Lemma run_register_dangling w h key cx d x m n s :
  key <> ERROR -> reactors w !! h = Some x -> strong x = S m -> io_dispatch x = mkARwLock n false s ->
  is_Some (slab_get key s) -> wakers w !! cx = None ->
  exists w', run (RegInner.register (mkRegInner h key) cx d) w = (Faulted UseAfterFree, w').
Proof.
  intros Hkey E Em El [i Hi] Hcx. unfold RegInner.register. cbn [World.token World.handle].
  rewrite (proj2 (Z.eqb_neq _ _) Hkey). unfold Inner.with_inner, upgrade. rewrite run_atom. cbv beta. rewrite E, Em.
  cbn [fst snd]. set (w1 := set_reactor h _ w).
  assert (reactors w1 !! h = Some (with_strong (S (S m)) x)) as E1 by apply set_reactor_lookup.
  eexists. apply run_bind_faulted. unfold Inner.register, Inner.with_read, io_dispatch_read.
  erewrite run_on_reactor; [| exact E1 | cbn; by rewrite El].
  apply run_bind_faulted. unfold Inner.io_dispatch_get. erewrite run_on_reactor_get; [| apply set_reactor_lookup | done].
  unfold slab_of. cbn [a_value io_dispatch with_dispatch]. rewrite Hi. cbn [fmap option_fmap option_map].
  apply run_bind_faulted. unfold deref_waker, action. cbn [run]. cbv beta.
  replace (wakers (set_reactor h _ w1)) with (wakers w) by done. by rewrite Hcx.
Qed.

(** C37: A poll that comes while another thread registers the resource leaves a pointer to the
    waker of its context on the stack and returns.  If that waker is dropped before the
    registration is done, as the task that polled may do at any time, the registering thread
    uses memory that is gone. *)
Theorem node_outlives_waker fuel fuel' r rg p h key cx d w x m n s :
  registrations w !! r = Some rg -> state rg = LOCKED ->
  box_alloc (allocations w) (in_use w) = Some p ->
  key <> ERROR -> reactors w !! h = Some x -> strong x = S m -> io_dispatch x = mkARwLock n false s ->
  is_Some (slab_get key s) ->
  exists w1 w2, run (Registration.poll_ready (S fuel) r (Some cx) d) w = (Done (Ok None), w1) /\
    run (Registration.consume (S fuel') (mkRegInner h key) p false false)
      (set_wakers (delete cx (wakers w1)) w1) = (Faulted UseAfterFree, w2).
Proof.
  intros Er Es Hbox Hkey E Em El Hi. pose proof (box_alloc_addr _ _ _ Hbox) as (Hpos & _).
  set (w1 := pushed r rg p cx d w). set (w2 := set_wakers (delete cx (wakers w1)) w1).
  assert (boxes w2 !! p = Some (mkNode d cx 0)) as Eb by apply lookup_insert_eq.
  set (w3 := set_boxes (delete p (boxes w2)) w2).
  destruct (run_register_dangling w3 h key cx d x m n s Hkey E Em El Hi (lookup_delete_eq _ _)) as [w4 Hw4].
  exists w1, w4. split; [by apply run_poll_locked |].
  cbn [Registration.consume]. rewrite (proj2 (Z.eqb_neq _ _)) by lia.
  fold w2. unfold box_take. rewrite (run_action_next _ _ _ (mkNode d cx 0) w3) by (by rewrite Eb).
  cbn [direction node_waker]. by destruct d; apply run_bind_faulted.
Qed.
End flaws.

(** ** Witnesses *)
Section witnesses.
Import Toy Demo.

(** World 1 with a source that was hung up. *)
Definition world_hup : World := Eval vm_compute in (run (Reactor.dispatch 0%nat 0 UnixReady_hup) world1).2.

Lemma queued_writer_misses_hup_witness :
  exists w' x' i', run (RegInner.register (mkRegInner 0%nat 0) 500 Write) world_hup = (Done tt, w') /\
    woken w' = woken world_hup /\ reactors w' !! 0%nat = Some x' /\ slab_get 0 (slab_of x') = Some i' /\
    aw_waker (aw_of Write i') = Some 51%nat /\ bits Write i' <> 0.
Proof.
  refine (proj2 (proj2 (queued_writer_misses_hup world_hup 0%nat 0 (reactor_of world_hup) 0 0 (slab_at world_hup) 500 51%nat
    (io_at 0 world_hup) _ eq_refl eq_refl eq_refl eq_refl eq_refl _ _ eq_refl eq_refl))); try (by vm_compute).
Defined.

(** A registration that another thread has locked. *)
Definition world_locked : World := set_registrations {[0%nat := mkRegistration None LOCKED]} world1.

Lemma node_outlives_waker_witness :
  exists w1 w2, run (Registration.poll_ready 1 0%nat (Some 500) Read) world_locked = (Done (Ok None), w1) /\
    run (Registration.consume 1 (mkRegInner 0%nat 0) 8 false false)
      (set_wakers (delete 500 (wakers w1)) w1) = (Faulted UseAfterFree, w2).
Proof.
  apply (node_outlives_waker 0 0 0%nat (mkRegistration None LOCKED) 8 0%nat 0 500 Read world_locked
    (reactor_of world1) 0 0 (slab_at world1)); try reflexivity; try (by vm_compute); by eexists.
Defined.
End witnesses.
End RegistrationFlaws.
