(* ===== verification/ReactorConc.v ===== *)
(** * The reactor among threads

    Any number of threads use one reactor at the same time: they add sources, poll and
    register them, deregister and drop them, and deliver events.  This file has the
    invariant of the reactor under all of these, and a rule for each of its operations in
    the logic of RelyGuar.v.  Wakeups.v draws the conclusions.

    The ghost state is a list with the part of each thread: which mode it holds the lock
    of [io_dispatch] in, whether it holds a reference to the reactor, which slot is its
    own, and what it owes to the poll that is watched: how far the poll is, if it is the
    polling thread, whether it has set readiness bits of the direction but not yet looked
    for a waker, and whether it has taken the waker but not yet woken it. *)
From S2P Require Import Prelude Conc RelyGuar Deps World Reactor Background Registration.
From S2P Require Import ReactorProof RegistrationProof Resource ResourceSpec.

Module ReactorConc.
Import ResourceSpec.

Inductive phase := PBefore | PArmed | PWaiting | PDone.
Inductive mode := Free | Reading | Writing.

(** What a thread owes to the watched poll, and what it holds of the reactor. *)
Record wpart := mkW { t_phase : phase; t_pend : bool; t_held : bool }.
Record part := mkPart { t_w : wpart; t_arc : bool; t_mode : mode; t_slot : option Z }.
Abbreviation ghost := (list part) (only parsing).

Definition is_reading (t : part) : bool := match t_mode t with Reading => true | _ => false end.
Definition is_writing (t : part) : bool := match t_mode t with Writing => true | _ => false end.
Definition is_pend (t : part) : bool := t_pend (t_w t).
Definition is_held (t : part) : bool := t_held (t_w t).

(** A thread that holds nothing and owes nothing. *)
Definition idle_w : wpart := mkW PBefore false false.
Definition idle : part := mkPart idle_w false Free None.

Section conc.
Context `{DepsLaws}.

Context (rid : ReactorId).
(** The poll that is watched: thread [me], task [k], source [key], direction [d]. *)
Context (me : nat) (k : waker) (key : Z) (d : Direction).
(** The sources at the start, which stay; the wakers, and the tasks woken before. *)
Context (s0 : slab ScheduledIo) (wakers0 : gmap Z waker) (woken0 : list waker) (m : nat).

(** ** The invariant *)

Definition phase_of (g : ghost) : phase :=
  match g !! me with Some t => t_phase (t_w t) | None => PBefore end.

(** The watched source, once the task is stored in it. *)
Definition signalled (new : list waker) (g : ghost) : Prop := (0 < count is_held g)%nat \/ k ∈ new.
Definition watch (i : ScheduledIo) (new : list waker) (g : ghost) : Prop :=
  (phase_of g = PWaiting -> bits d i = 0 \/ (0 < count is_pend g)%nat \/ signalled new g) /\
  (phase_of g = PArmed \/ phase_of g = PWaiting -> aw_waker (aw_of d i) = Some k \/ signalled new g).

Record lock_inv (l : ARwLock (slab ScheduledIo)) (g : ghost) : Prop := {
  li_readers : a_readers l = count is_reading g;
  li_writer : Nat.b2n (a_writer l) = count is_writing g;
  li_excl : a_writer l = true -> a_readers l = 0%nat;
}.

(** The first sources keep their slots; every other slot belongs to one thread. *)
Record slots_inv (s : slab ScheduledIo) (g : ghost) : Prop := {
  si_base key' : is_Some (slab_get key' s0) -> aba_guard <$> slab_get key' s = aba_guard <$> slab_get key' s0;
  si_own i t key' : g !! i = Some t -> t_slot t = Some key' -> is_Some (slab_get key' s) /\ slab_get key' s0 = None;
  si_inj i j t t' key' : g !! i = Some t -> g !! j = Some t' -> t_slot t = Some key' -> t_slot t' = Some key' -> i = j;
  si_all key' : is_Some (slab_get key' s) ->
    is_Some (slab_get key' s0) \/ exists i t, g !! i = Some t /\ t_slot t = Some key';
}.

Record slab_wf (s : slab ScheduledIo) : Prop := {
  sw_io key' i : slab_get key' s = Some i -> guard_wf (aba_guard i) /\ is_usize (readiness i);
  sw_high : slab_high s <= MAX_SOURCES;
}.

Record rinv (x : ReactorInner) (new : list waker) (g : ghost) : Prop := {
  ri_lock : lock_inv (io_dispatch x) g;
  ri_strong : strong x = (S m + count t_arc g)%nat;
  ri_guard : guard_wf (next_aba_guard x);
  ri_wf : slab_wf (slab_of x);
  ri_slots : slots_inv (slab_of x) g;
  ri_watch i : slab_get key (slab_of x) = Some i -> is_Some (slab_get key s0) -> watch i new g;
}.

Definition inv (s : World * ghost) : Prop :=
  exists x new, reactors s.1 !! rid = Some x /\ woken s.1 = woken0 ++ new /\ wakers s.1 = wakers0 /\ rinv x new s.2.

(** Only the holder of the write lock changes which slots are taken and with which guard. *)
Definition same_shape (s s' : slab ScheduledIo) : Prop :=
  (forall key', aba_guard <$> slab_get key' s' = aba_guard <$> slab_get key' s) /\
  slab_len s' = slab_len s /\ slab_high s' = slab_high s.

(** Thread [i] changes its own part of the ghost state. *)
Definition act (i : nat) (s s' : World * ghost) : Prop :=
  (forall j, j <> i -> s'.2 !! j = s.2 !! j) /\
  ((exists t, s'.2 !! i = Some t /\ t_mode t = Writing) \/
   (forall x x', reactors s.1 !! rid = Some x -> reactors s'.1 !! rid = Some x' -> same_shape (slab_of x) (slab_of x'))).

(** A thread that waits holds no lock, and another one does. *)
Definition blk (i : nat) (_ : bool) (s : World * ghost) : Prop :=
  (exists t, s.2 !! i = Some t /\ t_mode t = Free) /\ (0 < count is_reading s.2 + count is_writing s.2)%nat.

#[local] Abbreviation WP := (wp inv act blk).

(** ** What a thread knows: its own part, and in a critical section a fact on the slab *)
Definition knows (i : nat) (t : part) (F : slab ScheduledIo -> Prop) (s : World * ghost) : Prop :=
  s.2 !! i = Some t /\ exists x, reactors s.1 !! rid = Some x /\ F (slab_of x).
Definition own (i : nat) (t : part) : World * ghost -> Prop := knows i t (fun _ => True).

Record lasting (t : part) (F : slab ScheduledIo -> Prop) : Prop := {
  la_free : t_mode t = Free -> forall s, F s;
  la_shape s s' : same_shape s s' -> F s -> F s';
}.

Lemma lasting_true t : lasting t (fun _ => True).
Proof. done. Qed.

Lemma same_shape_eq s s' : s' = s -> same_shape s s'.
Proof. by intros ->. Qed.

Lemma rinv_exclusive x new g i j t t' :
  rinv x new g -> g !! i = Some t -> g !! j = Some t' -> i <> j -> t_mode t' = Writing -> t_mode t = Free.
Proof.
  intros Hr Hi Hj Hne Hm. destruct (ri_lock _ _ _ Hr) as [Lr Lw Le].
  assert (is_writing t' = true) as Ew' by (unfold is_writing; by rewrite Hm).
  pose proof (count_pos is_writing g j t' Hj Ew').
  destruct (a_writer (io_dispatch x)); [| cbn in Lw; lia]. specialize (Le eq_refl). cbn in Lw.
  destruct (t_mode t) eqn:E; [done | |].
  - pose proof (count_pos is_reading g i t Hi ltac:(unfold is_reading; by rewrite E)). lia.
  - pose proof (count_two is_writing g i j t t' Hi Hj Hne ltac:(unfold is_writing; by rewrite E) Ew'). lia.
Qed.

Lemma knows_stable i t F : lasting t F -> stable inv act i (knows i t F).
Proof.
  intros HF [w g] [w' g'] [Hi (x & Ex & Hx)] (x' & new & Ex' & _ & _ & Hr) (j & Hj & Hg & Ha).
  cbn in *. split; [rewrite Hg by done; done |]. exists x'. split; [done |].
  destruct Ha as [(t' & Hj' & Hm) | Hs].
  - apply (la_free _ _ HF). rewrite <- (Hg i) in Hi by done. by eapply (rinv_exclusive x' new g' i j t t').
  - eapply (la_shape _ _ HF); [by apply Hs | done].
Qed.

Lemma own_of i t F s : knows i t F s -> own i t s.
Proof. intros [Hi (x & Ex & _)]. split; [done | by exists x]. Qed.

(** ** A thread sets its part *)
Lemma length_of (g : ghost) i t : g !! i = Some t -> (i < length g)%nat.
Proof. apply lookup_lt_Some. Qed.

Lemma phase_upd g i t t' :
  g !! i = Some t -> phase_of (<[i := t']> g) = if decide (i = me) then t_phase (t_w t') else phase_of g.
Proof.
  intros Hi. unfold phase_of. case_decide as E.
  - subst i. by rewrite list_lookup_insert_eq by (by eapply length_of).
  - by rewrite list_lookup_insert_ne.
Qed.

Lemma phase_upd_same g i t t' :
  g !! i = Some t -> (i = me -> t_phase (t_w t') = t_phase (t_w t)) -> phase_of (<[i := t']> g) = phase_of g.
Proof.
  intros Hi Ht. rewrite (phase_upd g i t) by done. case_decide as E; [| done].
  rewrite Ht by done. subst i. unfold phase_of. by rewrite Hi.
Qed.

(** The watched source does not care about what the thread holds of the reactor. *)
Lemma watch_same i t t' io io' new g :
  g !! i = Some t -> is_pend t' = is_pend t -> is_held t' = is_held t ->
  (i = me -> t_phase (t_w t') = t_phase (t_w t)) ->
  bits d io' = bits d io -> aw_waker (aw_of d io') = aw_waker (aw_of d io) ->
  watch io new g -> watch io' new (<[i := t']> g).
Proof.
  intros Hi Hp Hh Hph Eb Ea. unfold watch, signalled. rewrite (phase_upd_same g i t), Eb, Ea by done.
  pose proof (count_insert is_pend g i t t' Hi) as C1. pose proof (count_insert is_held g i t t' Hi) as C2.
  rewrite Hp in C1. rewrite Hh in C2.
  assert (count is_pend (<[i := t']> g) = count is_pend g) as -> by lia.
  assert (count is_held (<[i := t']> g) = count is_held g) as -> by lia. done.
Qed.

Lemma watch_more i new new' g : watch i new g -> watch i (new ++ new') g.
Proof.
  unfold watch, signalled. intros [H1 H2]. rewrite !elem_of_app. split.
  - intros Hp. destruct (H1 Hp) as [|[|[|]]]; auto.
  - intros Hp. destruct (H2 Hp) as [|[|]]; auto.
Qed.

Lemma slots_upd s g i t t' : g !! i = Some t -> t_slot t' = t_slot t -> slots_inv s g -> slots_inv s (<[i := t']> g).
Proof.
  intros Hi Ht [Hb Ho Hj Ha].
  assert (forall j u, <[i := t']> g !! j = Some u -> exists u', g !! j = Some u' /\ t_slot u' = t_slot u) as Hg.
  { intros j u Hu. destruct (decide (i = j)) as [<- | Hne].
    - rewrite list_lookup_insert_eq in Hu by (by eapply length_of). simplify_eq. by exists t.
    - rewrite list_lookup_insert_ne in Hu by done. by exists u. }
  constructor; [done | | |].
  - intros j u key' (u' & Hu' & <-)%Hg. by eapply Ho.
  - intros j j' u v key' (u' & Hu' & <-)%Hg (v' & Hv' & <-)%Hg. by eapply Hj.
  - intros key' [? | (j & u & Hu & Eu)]%Ha; [by left | right]. destruct (decide (i = j)) as [<- | Hne].
    + simplify_eq. exists i, t'. rewrite list_lookup_insert_eq by (by eapply length_of). by rewrite Ht.
    + exists j, u. by rewrite list_lookup_insert_ne.
Qed.

Lemma slots_shape s s' g : same_shape s s' -> slots_inv s g -> slots_inv s' g.
Proof.
  intros (Hs & _ & _) [Hb Ho Hj Ha].
  assert (forall key', is_Some (slab_get key' s') <-> is_Some (slab_get key' s)) as E.
  { intros key'. rewrite <- !(fmap_is_Some aba_guard). by rewrite Hs. }
  constructor; [| | done |].
  - intros key' Hk. rewrite Hs. by apply Hb.
  - intros i t key' Hi Ht. rewrite E. by eapply Ho.
  - intros key'. rewrite E. apply Ha.
Qed.

(** *** The rule for an access to the reactor *)
Lemma wp_reactor {A B} i t F (f : ReactorInner -> step_res ReactorInner A) (c : A -> prg B) Q s :
  lasting t F -> knows i t F s ->
  (forall x new g, g !! i = Some t -> rinv x new g -> F (slab_of x) ->
     match f x with
     | Next v x' => exists t', rinv x' new (<[i := t']> g) /\
         (t_mode t' = Writing \/ same_shape (slab_of x) (slab_of x')) /\
         (forall w', reactors w' !! rid = Some x' -> WP i (c v) Q (w', <[i := t']> g))
     | Wait => t_mode t = Free /\ (0 < count is_reading g + count is_writing g)%nat
     | Crash _ => False
     end) ->
  WP i (bind (on_reactor rid f) c) Q s.
Proof.
  intros HF Hk Hf. unfold on_reactor. eapply wp_action; [by apply knows_stable | exact Hk |].
  intros w g [Hi (x & Ex & Hx)] (x1 & new & Ex1 & Ew & Ek & Hr). cbn in *. simplify_eq.
  rewrite Ex. specialize (Hf x new g Hi Hr Hx). destruct (f x) as [v x' | | e].
  - destruct Hf as (t' & Hr' & Hs & Hc). exists (<[i := t']> g).
    assert (reactors (set_reactor rid x' w) !! rid = Some x') as Ex' by apply lookup_insert_eq.
    split_and!; [| | by apply Hc].
    + by exists x', new.
    + split; [intros j Hj; cbn; by rewrite list_lookup_insert_ne |]. cbn [fst snd]. destruct Hs as [Hm | Hs].
      * left. exists t'. by rewrite list_lookup_insert_eq by (by eapply length_of).
      * right. intros y y' Hy Hy'. rewrite Ex' in Hy'. by simplify_eq.
  - destruct Hf as [Hm Hn]. split; [by exists t | done].
  - done.
Qed.

Lemma knows_upd i t t' (F : slab ScheduledIo -> Prop) (g : ghost) w x :
  g !! i = Some t -> reactors w !! rid = Some x -> F (slab_of x) -> knows i t' F (w, <[i := t']> g).
Proof.
  intros Hi Hw HF. split; [cbn; by rewrite list_lookup_insert_eq by (by eapply length_of) | by exists x].
Qed.

(** What the invariant needs when a thread changes what it holds of the reactor. *)
Lemma rinv_hold x x' new g i t t' :
  rinv x new g -> g !! i = Some t -> t_w t' = t_w t -> t_slot t' = t_slot t ->
  slab_of x' = slab_of x -> lock_inv (io_dispatch x') (<[i := t']> g) ->
  strong x' = (S m + count t_arc (<[i := t']> g))%nat -> guard_wf (next_aba_guard x') ->
  rinv x' new (<[i := t']> g).
Proof.
  intros Hr Hi Ew Es Ex Hl Hs Hg. constructor; [done | done | done | | |]; rewrite ?Ex.
  - apply Hr.
  - eapply slots_upd; [done | done | apply Hr].
  - intros io Hio Hb. eapply (watch_same i t); try done; unfold is_pend, is_held; try by rewrite Ew.
    by apply (ri_watch _ _ _ Hr).
Qed.

Lemma strong_upd x new g i t t' :
  rinv x new g -> g !! i = Some t -> t_arc t' = t_arc t -> strong x = (S m + count t_arc (<[i := t']> g))%nat.
Proof.
  intros Hr Hi E. rewrite (ri_strong _ _ _ Hr). pose proof (count_insert t_arc g i t t' Hi) as C. rewrite E in C. lia.
Qed.

Lemma lock_upd l g i t t' : lock_inv l g -> g !! i = Some t -> t_mode t' = t_mode t -> lock_inv l (<[i := t']> g).
Proof.
  intros [Lr Lw Le] Hi E.
  pose proof (count_insert is_reading g i t t' Hi) as C1. pose proof (count_insert is_writing g i t t' Hi) as C2.
  assert (is_reading t' = is_reading t) as E1 by (unfold is_reading; by rewrite E).
  assert (is_writing t' = is_writing t) as E2 by (unfold is_writing; by rewrite E).
  rewrite E1 in C1. rewrite E2 in C2. constructor; [lia | lia | done].
Qed.

(** ** The lock *)
Definition set_mode (l : mode) (t : part) : part := mkPart (t_w t) (t_arc t) l (t_slot t).

(** A thread that acquires or releases the lock. *)
Lemma rinv_mode x new g i t l l' :
  rinv x new g -> g !! i = Some t -> a_value l' = slab_of x -> lock_inv l' (<[i := set_mode l t]> g) ->
  rinv (with_dispatch l' x) new (<[i := set_mode l t]> g).
Proof.
  intros Hr Hi Ev Hl. eapply (rinv_hold x _ new g i t); try done.
  - by apply (strong_upd x new g i t).
  - apply Hr.
Qed.

Definition reads (l : mode) : nat := match l with Reading => 1 | _ => 0 end.
Definition writes (l : mode) : nat := match l with Writing => 1 | _ => 0 end.

Lemma lock_counts g i t l :
  g !! i = Some t ->
  (count is_reading (<[i := set_mode l t]> g) + reads (t_mode t) = count is_reading g + reads l)%nat /\
  (count is_writing (<[i := set_mode l t]> g) + writes (t_mode t) = count is_writing g + writes l)%nat.
Proof.
  intros Hi. pose proof (count_insert is_reading g i t (set_mode l t) Hi) as C1.
  pose proof (count_insert is_writing g i t (set_mode l t) Hi) as C2.
  unfold is_reading at 2 4 in C1. unfold is_writing at 2 4 in C2. cbn [t_mode set_mode] in C1, C2.
  split; destruct (t_mode t), l; cbn in *; lia.
Qed.

(** The lock and the counts before and after thread [i] goes from mode [l0] to [l]. *)
#[local] Ltac open_lock i t l :=
  eapply wp_reactor; [apply lasting_true | eassumption |]; intros x new g Hi Hr _;
  destruct (ri_lock _ _ _ Hr) as [Lr Lw Le]; destruct (lock_counts g i t l Hi) as [C1 C2];
  match goal with Hm : t_mode t = _ |- _ => rewrite Hm in C1, C2 end; cbn [reads writes] in C1, C2;
  destruct (io_dispatch x) as [n b v] eqn:E; cbn in Lr, Lw, Le.
#[local] Ltac close_lock t l :=
  exists (set_mode l t); split_and!;
  [apply rinv_mode; [done | done | unfold slab_of; by match goal with E : io_dispatch _ = _ |- _ => rewrite E end |];
   constructor; cbn; [lia | lia |]
  |right; apply same_shape_eq; unfold slab_of; by match goal with E : io_dispatch _ = _ |- _ => rewrite E end
  |intros w' Hw'; match goal with Hc : forall s', _ -> wp _ _ _ _ _ _ _ |- _ => apply Hc end; by eapply knows_upd].

Lemma wp_lock_read {B} i t (c : unit -> prg B) Q s :
  own i t s -> t_mode t = Free -> (forall s', own i (set_mode Reading t) s' -> WP i (c tt) Q s') ->
  WP i (bind (io_dispatch_read rid) c) Q s.
Proof.
  intros Ho Hm Hc. unfold io_dispatch_read. open_lock i t Reading. destruct b; cbn in Lw; [split; [done | lia] |].
  by close_lock t Reading.
Qed.

Lemma wp_unlock_read {B} i t (c : unit -> prg B) Q s :
  own i t s -> t_mode t = Reading -> (forall s', own i (set_mode Free t) s' -> WP i (c tt) Q s') ->
  WP i (bind (io_dispatch_drop_read rid) c) Q s.
Proof.
  intros Ho Hm Hc. unfold io_dispatch_drop_read. open_lock i t Free. close_lock t Free.
  intros Hb. specialize (Le Hb). lia.
Qed.

Lemma wp_lock_write {B} i t (c : unit -> prg B) Q s :
  own i t s -> t_mode t = Free -> (forall s', own i (set_mode Writing t) s' -> WP i (c tt) Q s') ->
  WP i (bind (io_dispatch_write rid) c) Q s.
Proof.
  intros Ho Hm Hc. unfold io_dispatch_write. open_lock i t Writing. destruct n, b; cbn in Lw; try (split; [done | lia]).
  by close_lock t Writing.
Qed.

Lemma wp_unlock_write {B} i t (c : unit -> prg B) Q s :
  own i t s -> t_mode t = Writing -> (forall s', own i (set_mode Free t) s' -> WP i (c tt) Q s') ->
  WP i (bind (io_dispatch_drop_write rid) c) Q s.
Proof.
  intros Ho Hm Hc. unfold io_dispatch_drop_write. open_lock i t Free.
  assert (b = true) as ->. { destruct b; [done |]. cbn in Lw. lia. }
  cbn in Lw. by close_lock t Free.
Qed.

(** ** Composition *)

(** The thread's part is a function of the result. *)
Definition post {A} (i : nat) (T : A -> part) (R : A -> Prop) (v : A) (s : World * ghost) : Prop :=
  own i (T v) s /\ R v.

Lemma wp_post_ret {A} i (v : A) T R s : own i (T v) s -> R v -> WP i (Ret v) (post i T R) s.
Proof.
  intros Ho HR. eapply wp_ret; [apply knows_stable, lasting_true | exact Ho |]. by intros s' Ho' _.
Qed.

Lemma wp_post_bind {A B} i (p : prg A) (c : A -> prg B) T R Q s :
  WP i p (post i T R) s ->
  (forall v s', own i (T v) s' -> R v -> WP i (c v) Q s') ->
  WP i (bind p c) Q s.
Proof.
  intros Hp Hc. apply wp_bind. eapply wp_conseq; [| exact Hp]. intros v s' _ [Ho HR]. by apply Hc.
Qed.

Lemma set_mode_back l t : t_mode t = l -> set_mode l t = t.
Proof. intros <-. by destruct t. Qed.

(** The critical sections. *)
Lemma wp_with_read {A} i t (body : prg A) T R s :
  own i t s -> t_mode t = Free -> (forall v, t_mode (T v) = Free) ->
  (forall s', own i (set_mode Reading t) s' -> WP i body (post i (fun v => set_mode Reading (T v)) R) s') ->
  WP i (Inner.with_read rid body) (post i T R) s.
Proof.
  intros Ho Hm HT Hb. unfold Inner.with_read. eapply wp_lock_read; [exact Ho | done |]. intros s1 Ho1.
  eapply wp_post_bind; [by apply Hb |]. intros v s2 Ho2 HR.
  eapply wp_unlock_read; [exact Ho2 | done |]. intros s3 Ho3.
  apply wp_post_ret; [| done]. by rewrite <- (set_mode_back Free (T v)).
Qed.

Lemma wp_with_write {A} i t (body : prg A) T R s :
  own i t s -> t_mode t = Free -> (forall v, t_mode (T v) = Free) ->
  (forall s', own i (set_mode Writing t) s' -> WP i body (post i (fun v => set_mode Writing (T v)) R) s') ->
  WP i (Inner.with_write rid body) (post i T R) s.
Proof.
  intros Ho Hm HT Hb. unfold Inner.with_write. eapply wp_lock_write; [exact Ho | done |]. intros s1 Ho1.
  eapply wp_post_bind; [by apply Hb |]. intros v s2 Ho2 HR.
  eapply wp_unlock_write; [exact Ho2 | done |]. intros s3 Ho3.
  apply wp_post_ret; [| done]. by rewrite <- (set_mode_back Free (T v)).
Qed.

(** ** Accesses that leave the reactor as it is *)
Lemma rinv_id x new g i t : rinv x new g -> g !! i = Some t -> rinv x new (<[i := t]> g).
Proof. intros Hr Hi. by rewrite list_insert_id. Qed.

Lemma wp_io_get {B} i t key' (c : option Z -> prg B) Q s :
  own i t s -> t_mode t <> Free ->
  (forall v s', knows i t (fun sl => aba_guard <$> slab_get key' sl = v) s' -> WP i (c v) Q s') ->
  WP i (bind (Inner.io_dispatch_get rid key') c) Q s.
Proof.
  intros Ho Hm Hc. unfold Inner.io_dispatch_get. eapply wp_reactor; [apply lasting_true | exact Ho |].
  intros x new g Hi Hr _. exists t. split_and!; [by apply rinv_id | by right; apply same_shape_eq |].
  intros w' Hw'. apply Hc. by eapply knows_upd.
Qed.

(** Slots that the thread can rely on. *)
Definition mine (t : part) (key' : Z) : Prop := is_Some (slab_get key' s0) \/ t_slot t = Some key'.

Lemma rinv_mine x new g i t key' : rinv x new g -> g !! i = Some t -> mine t key' -> is_Some (slab_get key' (slab_of x)).
Proof.
  intros Hr Hi [Hk | Hk].
  - rewrite <- (fmap_is_Some aba_guard). rewrite (si_base _ _ (ri_slots _ _ _ Hr)) by done. by apply fmap_is_Some.
  - by eapply (si_own _ _ (ri_slots _ _ _ Hr)).
Qed.

Lemma wp_io_get_mine {B} i t key' (c : option Z -> prg B) Q s :
  own i t s -> t_mode t <> Free -> mine t key' ->
  (forall v s', own i t s' -> WP i (c (Some v)) Q s') ->
  WP i (bind (Inner.io_dispatch_get rid key') c) Q s.
Proof.
  intros Ho Hm Hk Hc. unfold Inner.io_dispatch_get. eapply wp_reactor; [apply lasting_true | exact Ho |].
  intros x new g Hi Hr _. exists t. split_and!; [by apply rinv_id | by right; apply same_shape_eq |].
  destruct (rinv_mine x new g i t key' Hr Hi Hk) as [io ->]. intros w' Hw'. apply Hc. by eapply knows_upd.
Qed.

(** ** An access to a slot *)
Definition set_w (W : wpart) (t : part) : part := mkPart W (t_arc t) (t_mode t) (t_slot t).

Lemma slab_set_shape sl key' io io' :
  slab_get key' sl = Some io -> aba_guard io' = aba_guard io -> same_shape sl (slab_set key' io' sl).
Proof.
  intros Es Eg. split_and!; [| apply slab_set_len | apply slab_set_high].
  intros k'. rewrite slab_set_get by by eexists. case_decide; [subst; by rewrite Es; cbn; rewrite Eg | done].
Qed.

Lemma rinv_slot x new g i t W key' io io' :
  rinv x new g -> g !! i = Some t -> slab_get key' (slab_of x) = Some io ->
  aba_guard io' = aba_guard io -> is_usize (readiness io') ->
  (key' = key -> is_Some (slab_get key s0) -> watch io new g -> watch io' new (<[i := set_w W t]> g)) ->
  (key' <> key -> forall i0, watch i0 new g -> watch i0 new (<[i := set_w W t]> g)) ->
  rinv (with_slab (slab_set key' io' (slab_of x)) x) new (<[i := set_w W t]> g).
Proof.
  intros Hr Hi Es Eg Hu Hw Hw'. constructor; unfold slab_of; cbn.
  - change (lock_inv (mkARwLock (a_readers (io_dispatch x)) (a_writer (io_dispatch x)) (slab_set key' io' (slab_of x))) (<[i := set_w W t]> g)).
    destruct (lock_upd _ g i t (set_w W t) (ri_lock _ _ _ Hr) Hi eq_refl). by constructor.
  - by eapply (strong_upd x new g i t).
  - apply Hr.
  - destruct (ri_wf _ _ _ Hr) as [Wi Wh]. constructor; [| by rewrite slab_set_high]. intros k' j.
    rewrite slab_set_get by by eexists. case_decide; [intros [= <-]; subst | apply Wi].
    rewrite Eg. split; [by eapply Wi | done].
  - eapply slots_shape; [by eapply slab_set_shape |]. eapply slots_upd; [done | done | apply Hr].
  - intros j. rewrite slab_set_get by by eexists. case_decide as E.
    + intros [= <-] Hb. apply Hw; [done | done |]. apply (ri_watch _ _ _ Hr); [by rewrite E | done].
    + intros Hj Hb. apply Hw'; [done |]. by apply (ri_watch _ _ _ Hr).
Qed.

(** [F] makes sure that the slot is taken; the part of the thread may depend on the result. *)
Lemma wp_on_io {A B} i t F key' (f : ScheduledIo -> A * ScheduledIo) (c : A -> prg B) Q (W : A -> wpart) s :
  lasting t F -> knows i t F s -> mine t key' \/ (forall sl, F sl -> is_Some (slab_get key' sl)) ->
  (forall io, aba_guard (f io).2 = aba_guard io /\ (is_usize (readiness io) -> is_usize (readiness (f io).2))) ->
  (forall io new g, g !! i = Some t -> is_usize (readiness io) ->
     let g' := <[i := set_w (W (f io).1) t]> g in
     (key' = key -> is_Some (slab_get key s0) -> watch io new g -> watch (f io).2 new g') /\
     (key' <> key -> forall i0, watch i0 new g -> watch i0 new g')) ->
  (forall v s', knows i (set_w (W v) t) F s' -> WP i (c v) Q s') ->
  WP i (bind (on_io rid key' f) c) Q s.
Proof.
  intros HF Hk Hs Hf Hw Hc. unfold on_io. eapply wp_reactor; [exact HF | exact Hk |].
  intros x new g Hi Hr Hx.
  assert (is_Some (slab_get key' (slab_of x))) as [io Es].
  { destruct Hs as [Hm | Hs]; [by eapply rinv_mine | by apply Hs]. }
  rewrite Es. destruct (sw_io _ (ri_wf _ _ _ Hr) _ _ Es) as [_ Hu]. destruct (Hf io) as [Hg Hu'].
  destruct (Hw io new g Hi Hu) as [Hw1 Hw2]. destruct (f io) as [v io']. cbn [fst snd] in *.
  assert (same_shape (slab_of x) (slab_set key' io' (slab_of x))) as Hsh by by eapply slab_set_shape.
  exists (set_w (W v) t). split_and!; [| by right |].
  - eapply (rinv_slot x new g i t (W v) key' io); try done. by apply Hu'.
  - intros w' Hw'. apply Hc. eapply knows_upd; [done | exact Hw' |]. by eapply (la_shape _ _ HF).
Qed.

(** An access that the watched poll does not see. *)
Lemma wp_on_io_frame {A B} i t F key' (f : ScheduledIo -> A * ScheduledIo) (c : A -> prg B) Q s :
  lasting t F -> knows i t F s -> mine t key' \/ (forall sl, F sl -> is_Some (slab_get key' sl)) ->
  (forall io, aba_guard (f io).2 = aba_guard io /\ (is_usize (readiness io) -> is_usize (readiness (f io).2))) ->
  (key' = key -> is_Some (slab_get key s0) -> forall io, is_usize (readiness io) ->
     bits d (f io).2 = bits d io /\ aw_waker (aw_of d (f io).2) = aw_waker (aw_of d io)) ->
  (forall v s', knows i t F s' -> WP i (c v) Q s') ->
  WP i (bind (on_io rid key' f) c) Q s.
Proof.
  intros HF Hk Hs Hf Hw Hc.
  assert (set_w (t_w t) t = t) as Et by by destruct t.
  eapply (wp_on_io i t F key' f c Q (fun _ => t_w t)); try done; [| by rewrite Et].
  intros io new g Hi Hu. cbv zeta. rewrite Et. split.
  - intros Ek Hb. destruct (Hw Ek Hb io Hu). by eapply (watch_same i t).
  - intros _ i0. by eapply (watch_same i t).
Qed.

(** ** Waking *)
Lemma rinv_woken x new new' g i t W :
  rinv x new g -> g !! i = Some t ->
  (forall io, watch io new g -> watch io new' (<[i := set_w W t]> g)) ->
  rinv x new' (<[i := set_w W t]> g).
Proof.
  intros Hr Hi Hw. constructor; try apply Hr.
  - apply (lock_upd _ g i t); [apply Hr | done | done].
  - by apply (strong_upd x new g i t).
  - eapply slots_upd; [done | done | apply Hr].
  - intros io Hio Hb. by apply Hw, (ri_watch _ _ _ Hr).
Qed.

(** A thread that holds the waker of the watched task wakes it. *)
Lemma wp_wake_opt {B} i t W v (c : unit -> prg B) Q s :
  own i t s -> W = t_w t \/ (v = Some k /\ W = mkW (t_phase (t_w t)) (t_pend (t_w t)) false) ->
  (forall s', own i (set_w W t) s' -> WP i (c tt) Q s') ->
  WP i (bind (wake_opt v) c) Q s.
Proof.
  intros Ho Hv Hc. destruct v as [v |]; cbn [wake_opt bind].
  2: { destruct Hv as [-> | [? _]]; [| done]. apply Hc. by destruct t. }
  unfold wake. eapply wp_atom; [apply knows_stable, lasting_true | exact Ho |]. cbn [fst snd].
  intros w g [Hi _] (x & new & E & Ew & Ek & Hr). cbn in *. exists (<[i := set_w W t]> g).
  assert (reactors (set_woken (woken w ++ [v]) w) !! rid = Some x) as E' by done.
  split_and!; [| | apply Hc; by eapply knows_upd].
  - exists x, (new ++ [v]). cbn. rewrite Ew. split_and!; [done | by rewrite app_assoc | done |].
    eapply rinv_woken; [done | done |]. intros io Hio. destruct Hv as [-> | [[= ->] ->]].
    + apply watch_more. by eapply (watch_same i t).
    + assert (signalled (new ++ [k]) (<[i := set_w (mkW (t_phase (t_w t)) (t_pend (t_w t)) false) t]> g)) as Hsig.
      { right. apply elem_of_app. right. by apply list_elem_of_singleton. }
      split; intros _; [by right; right | by right].
  - split; [intros j Hj; cbn; by rewrite list_lookup_insert_ne |]. right. intros y y' Hy Hy'. cbn in *. simplify_eq.
    by apply same_shape_eq.
Qed.

Lemma wp_deref_waker {B} i t F cx k' (c : waker -> prg B) Q s :
  lasting t F -> knows i t F s -> wakers0 !! cx = Some k' ->
  (forall s', knows i t F s' -> WP i (c k') Q s') ->
  WP i (bind (deref_waker cx) c) Q s.
Proof.
  intros HF Ho Hk Hc. unfold deref_waker. eapply wp_action; [by apply knows_stable | exact Ho |].
  intros w g Ho1 (x & new & E & Ew & Ek & Hr). cbn in *. rewrite Ek, Hk. exists g.
  split_and!; [by exists x, new | | by apply Hc].
  split; [done |]. right. intros y y' Hy Hy'. cbn in *. simplify_eq. by apply same_shape_eq.
Qed.

(** ** References to the reactor *)
Definition set_arc (b : bool) (t : part) : part := mkPart (t_w t) b (t_mode t) (t_slot t).

Lemma rinv_arc x new g i t b n :
  rinv x new g -> g !! i = Some t -> n = (S m + count t_arc (<[i := set_arc b t]> g))%nat ->
  rinv (with_strong n x) new (<[i := set_arc b t]> g).
Proof.
  intros Hr Hi ->. eapply (rinv_hold x _ new g i t); try done.
  - apply (lock_upd _ g i t); [apply Hr | done | done].
  - apply Hr.
Qed.

Lemma wp_upgrade {B} i t (c : option ReactorId -> prg B) Q s :
  own i t s -> t_arc t = false -> (forall s', own i (set_arc true t) s' -> WP i (c (Some rid)) Q s') ->
  WP i (bind (upgrade rid) c) Q s.
Proof.
  intros Ho Ht Hc. unfold upgrade. eapply wp_atom; [apply knows_stable, lasting_true | exact Ho |].
  intros w g [Hi _] (x & new & E & Ew & Ek & Hr). cbn in *.
  assert (reactors w !! (rid : HandlePriv) = Some x) as E1 by exact E. rewrite E1.
  pose proof (ri_strong _ _ _ Hr) as Hs. rewrite Hs. cbn [Nat.add fst snd].
  pose proof (count_insert t_arc g i t (set_arc true t) Hi) as C. rewrite Ht in C. cbn in C.
  exists (<[i := set_arc true t]> g). set (n := S (S (m + count t_arc g))).
  assert (reactors (set_reactor rid (with_strong n x) w) !! rid = Some (with_strong n x)) as E2 by apply lookup_insert_eq.
  split_and!; [| | apply Hc; by eapply knows_upd].
  - exists (with_strong n x), new. split_and!; try done. apply (rinv_arc x new g i t); [done | done | unfold n; lia].
  - split; [intros j Hj; cbn; by rewrite list_lookup_insert_ne |]. right. intros y y' Hy Hy'. cbn in *.
    rewrite E2 in Hy'. simplify_eq. by apply same_shape_eq.
Qed.

Lemma wp_arc_drop {B} i t (c : unit -> prg B) Q s :
  own i t s -> t_arc t = true -> (forall s', own i (set_arc false t) s' -> WP i (c tt) Q s') ->
  WP i (bind (Inner.arc_drop rid) c) Q s.
Proof.
  intros Ho Ht Hc. unfold Inner.arc_drop. apply wp_bind_assoc.
  eapply wp_reactor; [apply lasting_true | exact Ho |]. intros x new g Hi Hr _.
  pose proof (ri_strong _ _ _ Hr) as Hs.
  pose proof (count_insert t_arc g i t (set_arc false t) Hi) as C. rewrite Ht in C. cbn in C.
  assert (pred (strong x) = S (m + count t_arc (<[i := set_arc false t]> g))) as En by lia. rewrite En.
  exists (set_arc false t). split_and!; [apply (rinv_arc x new g i t); [done | done | lia] | by right; apply same_shape_eq |].
  intros w' Hw'. cbn [bind]. apply Hc. by eapply knows_upd.
Qed.

(** [with_inner]: the reactor is there, because its owner has a reference. *)
Lemma wp_with_inner {A} i t (none : prg A) some T R s :
  own i t s -> t_arc t = false -> (forall v, t_arc (T v) = false) ->
  (forall s', own i (set_arc true t) s' -> WP i (some rid) (post i (fun v => set_arc true (T v)) R) s') ->
  WP i (Inner.with_inner rid none some) (post i T R) s.
Proof.
  intros Ho Ht HT Hb. unfold Inner.with_inner. eapply wp_upgrade; [exact Ho | done |]. intros s1 Ho1.
  eapply wp_post_bind; [by apply Hb |]. intros v s2 Ho2 HR.
  eapply wp_arc_drop; [exact Ho2 | done |]. intros s3 Ho3. apply wp_post_ret; [| done].
  specialize (HT v). destruct (T v). cbn in *. by subst.
Qed.

(** ** Dispatching events *)
Definition watched (key' : Z) (dir : Direction) : bool := bool_decide (key' = key /\ dir = d).
Definition wants (ready : Z) : bool :=
  match d with Read => Dispatch.wants_read ready | Write => Dispatch.wants_write ready end.
Definition concerns (ready : Z) : bool := negb (Z.land (mask d) ready =? 0).

(** [dispatch] looks for a waker whenever it set a bit that the direction polls. *)
Lemma concerns_wants ready : is_usize ready -> concerns ready = true -> wants ready = true.
Proof.
  unfold concerns, wants. intros Hu Hc%negb_true_iff%Z.eqb_neq. destruct d; cbn [mask] in Hc.
  - unfold Dispatch.wants_read, Ready_is_empty. rewrite land_unot by done. apply negb_true_iff, Z.eqb_neq.
    intros E. apply Hc. unfold Ready_sub. apply Z.bits_inj'. intros b Hb.
    apply (f_equal (fun z => Z.testbit z b)) in E.
    rewrite Z.bits_0 in *. rewrite ?Z.land_spec, ?Z.ldiff_spec in *. rewrite ?Z.ldiff_spec.
    by destruct (Z.testbit ready b), (Z.testbit Ready_all b), (Z.testbit Ready_writable b).
  - apply (wants_event Write); [done |]. by rewrite Z.land_comm.
Qed.

Lemma bits_fetch_or ready io :
  concerns ready = false -> Z.land (mask d) (Z.lor (readiness io) ready) = bits d io.
Proof.
  intros Hc%negb_false_iff%Z.eqb_eq. by rewrite Z.land_lor_distr_r, Hc, Z.lor_0_r.
Qed.

(** The thread sets readiness bits of the watched source: it owes a look for the waker. *)
Lemma watch_event i t ph ready io new g :
  g !! i = Some t -> t_w t = mkW ph false false -> watch io new g ->
  watch (mkScheduledIo (aba_guard io) (Z.lor (readiness io) ready) (reader io) (writer io)) new
    (<[i := set_w (mkW ph (concerns ready) false) t]> g).
Proof.
  intros Hi Et Hwa. destruct (concerns ready) eqn:Ec.
  - unfold watch, signalled in *. rewrite (phase_upd_same g i t) by (rewrite ?Et; done).
    assert (is_held t = false) as Eh by (unfold is_held; by rewrite Et).
    pose proof (count_insert is_held g i t (set_w (mkW ph true false) t) Hi) as C. rewrite Eh in C. cbn in C.
    assert (0 < count is_pend (<[i := set_w (mkW ph true false) t]> g))%nat as Hp.
    { eapply count_pos; [apply list_lookup_insert_eq; by eapply length_of | done]. }
    destruct Hwa as [_ W2]. split; [auto |]. intros Hph. destruct (W2 Hph) as [Ha | [Hh | Hin]]; [| right; left; lia | auto].
    left. by destruct d.
  - apply (watch_same i t _ io); try done; unfold is_pend, is_held; rewrite ?Et; try done.
    by apply bits_fetch_or.
Qed.

(** The take of a waker settles what the thread still owed. *)
Lemma watch_take i t ph p io new g :
  g !! i = Some t -> t_w t = mkW ph p false -> watch io new g ->
  watch (with_aw d (aw_take (aw_of d io)).2 io) new
    (<[i := set_w (mkW ph false (bool_decide (aw_waker (aw_of d io) = Some k))) t]> g).
Proof.
  intros Hi Et [_ W2]. set (h' := bool_decide _). set (g' := <[i := _]> g).
  assert (phase_of g' = phase_of g) as Eph by (apply (phase_upd_same g i t); rewrite ?Et; done).
  assert (is_held t = false) as Eh by (unfold is_held; by rewrite Et).
  pose proof (count_insert is_held g i t (set_w (mkW ph false h') t) Hi) as C. fold g' in C.
  rewrite Eh in C. cbn [is_held t_w t_held set_w Nat.b2n] in C.
  assert (phase_of g = PArmed \/ phase_of g = PWaiting -> signalled new g') as Hall.
  { intros Hp. unfold signalled. destruct (W2 Hp) as [Ha | [Hh |]]; [left | left; lia | by right].
    unfold h' in C. rewrite bool_decide_eq_true_2 in C by done. cbn in C. lia. }
  split; rewrite Eph; auto.
Qed.

Lemma set_w_twice W W' t : set_w W (set_w W' t) = set_w W t.
Proof. done. Qed.

Lemma wp_take {B} i t F key' dir ph p h (cond : bool) (c : option waker -> prg B) Q s :
  lasting t F -> knows i t F s -> (forall sl, F sl -> is_Some (slab_get key' sl)) -> t_w t = mkW ph p h ->
  (watched key' dir = true -> h = false /\ (cond = false -> p = false)) ->
  (forall v s', knows i (set_w (mkW ph (if watched key' dir then false else p)
     (if watched key' dir then bool_decide (v = Some k) else h)) t) F s' -> WP i (c v) Q s') ->
  WP i (bind (if cond then io_take rid key' dir else Ret None) c) Q s.
Proof.
  intros HF Ho Hs Et Hw Hc. assert (set_w (mkW ph p h) t = t) as Ett by (rewrite <- Et; by destruct t).
  destruct cond.
  2: { cbn [bind]. apply Hc. destruct (watched key' dir) eqn:E; [| by rewrite Ett].
       destruct (Hw eq_refl) as [-> Hp]. rewrite (Hp eq_refl) in Ett. rewrite bool_decide_eq_false_2 by done. by rewrite Ett. }
  unfold io_take.
  assert (forall io, aba_guard (let '(v, a) := aw_take (aw_of dir io) in (v, with_aw dir a io)).2 = aba_guard io /\
    (is_usize (readiness io) -> is_usize (readiness (let '(v, a) := aw_take (aw_of dir io) in (v, with_aw dir a io)).2)))
    as Hf by (intros io; destruct (aw_take (aw_of dir io)), dir; done).
  destruct (watched key' dir) eqn:E.
  - destruct (Hw eq_refl) as [-> _]. apply bool_decide_eq_true in E as [-> ->].
    eapply (wp_on_io i t F key _ c Q (fun v => mkW ph false (bool_decide (v = Some k)))); try done; [by right |].
    intros io new g Hi Hu. cbv zeta. split; [intros _ _ Hwa | done].
    rewrite (surjective_pairing (aw_take (aw_of d io))). cbn [fst snd]. by eapply watch_take.
  - rewrite Ett in Hc. eapply (wp_on_io_frame i t F key'); try done; [by right |]. intros -> _ io Hu.
    assert (dir <> d) as Hne. { intros ->. apply bool_decide_eq_false in E. by apply E. }
    destruct (aw_take (aw_of dir io)), dir, d; done.
Qed.

(** What the thread holds after the critical section of [dispatch]. *)
Definition took (key' : Z) (tasks : option (option waker * option waker)) : bool :=
  match tasks with
  | Some (rd, wr) => bool_decide (key' = key /\ (match d with Read => rd | Write => wr end) = Some k)
  | None => false
  end.

Lemma took_dir key' p rd wr :
  (if watched key' Read then bool_decide (rd = Some k)
   else if watched key' Write then bool_decide (wr = Some k) else false) = took key' (Some (rd, wr)) /\
  (if watched key' Read then false else if watched key' Write then false
   else if decide (key' = key) then p else false) = false.
Proof.
  unfold watched, took. destruct (decide (key' = key)) as [-> |].
  - destruct d; cbn.
    + rewrite (bool_decide_eq_true_2 (key = key /\ Read = Read)) by done.
      split; [apply bool_decide_ext; naive_solver | done].
    + rewrite (bool_decide_eq_false_2 (key = key /\ Read = Write)) by (by intros [_ ?]).
      rewrite (bool_decide_eq_true_2 (key = key /\ Write = Write)) by done.
      split; [apply bool_decide_ext; naive_solver | done].
  - rewrite !(bool_decide_eq_false_2 (key' = key /\ _)) by (by intros [? _]). done.
Qed.

Lemma wp_dispatch_section i t ph token ready s :
  own i (set_mode Reading t) s -> t_w t = mkW ph false false -> t_mode t = Free -> is_usize ready ->
  WP i (let! io := Inner.io_dispatch_get rid (Z.land token MAX_SOURCES) in
        match io with
        | None => Ret None
        | Some io_aba_guard =>
            if negb (Z.land token (unot MAX_SOURCES) =? io_aba_guard) then Ret None
            else
              let! _ := readiness_fetch_or rid (Z.land token MAX_SOURCES) ready in
              let! wr := if Ready_contains ready Ready_writable || platform.is_hup ready
                         then io_take rid (Z.land token MAX_SOURCES) Write else Ret None in
              let! rd := if negb (Ready_is_empty (Z.land ready (unot Ready_writable)))
                         then io_take rid (Z.land token MAX_SOURCES) Read else Ret None in
              Ret (Some (rd, wr))
        end)
    (post i (fun tasks => set_mode Reading (set_w (mkW ph false (took (Z.land token MAX_SOURCES) tasks)) t)) (fun _ => True)) s.
Proof.
  intros Ho Et Hm Hu. set (key' := Z.land token MAX_SOURCES). set (tr := set_mode Reading t) in *.
  assert (set_w (mkW ph false false) t = t) as Ett by (rewrite <- Et; by destruct t).
  eapply wp_io_get; [exact Ho | done |]. intros v s1 Hk1.
  destruct v as [gd |]; [| apply wp_post_ret; [cbn [took]; rewrite Ett; by eapply own_of | done]].
  destruct (negb _); [apply wp_post_ret; [cbn [took]; rewrite Ett; by eapply own_of | done] |].
  set (F := fun sl : slab ScheduledIo => aba_guard <$> slab_get key' sl = Some gd) in *.
  assert (forall u, t_mode u = Reading -> lasting u F) as HF.
  { intros u Eu. constructor; [by rewrite Eu |]. unfold F. intros a b [Hs _]. by rewrite Hs. }
  assert (forall sl, F sl -> is_Some (slab_get key' sl)) as Hs.
  { intros sl E. apply (fmap_is_Some aba_guard). by exists gd. }
  set (p0 := if decide (key' = key) then concerns ready else false).
  unfold readiness_fetch_or.
  eapply (wp_on_io i tr F key' _ _ _ (fun _ => mkW ph p0 false)); [by apply HF | exact Hk1 | by right | | |].
  { intros io. split; [done |]. intros Hr. by apply is_usize_lor. }
  { intros io new g Hi Hr. cbv zeta. split.
    - intros -> _. unfold p0. rewrite decide_True by done. by apply watch_event.
    - intros Hne i0. unfold p0. rewrite decide_False by done. apply (watch_same i tr); try done;
        unfold is_pend, is_held; cbn; by rewrite Et. }
  intros _ s2 Hk2.
  eapply (wp_take i (set_w (mkW ph p0 false) tr) F key' Write ph p0 false); [by apply HF | exact Hk2 | done | done | |].
  { intros [Ek Ed]%bool_decide_eq_true. split; [done |]. unfold p0. rewrite decide_True by done.
    intros Hcond. destruct (concerns ready) eqn:Ec; [| done].
    pose proof (concerns_wants ready Hu Ec) as Hw. unfold wants in Hw. rewrite <- Ed in Hw.
    unfold Dispatch.wants_write in Hw. by rewrite Hcond in Hw. }
  intros wr s3 Hk3. rewrite set_w_twice in Hk3.
  set (p1 := if watched key' Write then false else p0) in *.
  set (h1 := if watched key' Write then bool_decide (wr = Some k) else false) in *.
  eapply (wp_take i (set_w (mkW ph p1 h1) tr) F key' Read ph p1 h1); [by apply HF | exact Hk3 | done | done | |].
  { intros [Ek Ed]%bool_decide_eq_true.
    unfold h1, p1, watched. rewrite (bool_decide_eq_false_2 (key' = key /\ Write = d)) by (intros [_ E]; congruence).
    split; [done |]. unfold p0. rewrite decide_True by done.
    intros Hcond. destruct (concerns ready) eqn:Ec; [| done].
    pose proof (concerns_wants ready Hu Ec) as Hw. unfold wants in Hw. rewrite <- Ed in Hw.
    unfold Dispatch.wants_read in Hw. by rewrite Hcond in Hw. }
  intros rd s4 Hk4. rewrite set_w_twice in Hk4. destruct (took_dir key' (concerns ready) rd wr) as [T1 T2].
  unfold h1, p1, p0 in Hk4. rewrite T1, T2 in Hk4. apply wp_post_ret; [| done]. by eapply own_of.
Qed.

Lemma wp_dispatch {B} i t ph (c : unit -> prg B) Q token ready s :
  own i t s -> t_w t = mkW ph false false -> t_mode t = Free -> is_usize ready ->
  (forall s', own i t s' -> WP i (c tt) Q s') ->
  WP i (bind (Reactor.dispatch rid token ready) c) Q s.
Proof.
  intros Ho Et Hm Hu Hc. unfold Reactor.dispatch. apply wp_bind_assoc.
  set (key' := Z.land token MAX_SOURCES). set (T := fun tasks => set_w (mkW ph false (took key' tasks)) t).
  assert (set_w (mkW ph false false) t = t) as Ett by (rewrite <- Et; by destruct t).
  eapply (wp_post_bind _ _ _ T (fun _ => True)).
  { eapply (wp_with_read i t); [exact Ho | done | done |]. intros s' Ho'. by apply wp_dispatch_section. }
  intros tasks s1 Ho1 _. unfold T in Ho1. destruct tasks as [[rd wr] |]; [| apply Hc; cbn in Ho1; by rewrite Ett in Ho1].
  apply wp_bind_assoc. set (h := took key' (Some (rd, wr))) in *.
  assert (forall v, (match d with Read => rd | Write => wr end) = v -> h = true -> v = Some k) as Hh.
  { intros v <- Eh. by apply bool_decide_eq_true in Eh as [_ ?]. }
  clearbody h.
  set (hr := if decide (d = Read) then false else h).
  eapply (wp_wake_opt i _ (mkW ph false hr) rd); [exact Ho1 | |].
  { unfold hr. case_decide as Ed; [| by left]. destruct h; [right | by left]. split; [| done]. apply Hh; [by rewrite Ed | done]. }
  intros s2 Ho2. rewrite set_w_twice in Ho2.
  eapply (wp_wake_opt i _ (mkW ph false false) wr); [exact Ho2 | |].
  { unfold hr. cbn. case_decide as Ed; [by left |]. destruct h; [right | by left]. split; [| done].
    apply Hh; [by destruct d | done]. }
  intros s3 Ho3. apply Hc. rewrite set_w_twice in Ho3. by rewrite Ett in Ho3.
Qed.

Lemma wp_process i t ph events s :
  own i t s -> t_w t = mkW ph false false -> t_mode t = Free ->
  Forall (fun ev => ev.1 <> TOKEN_WAKEUP /\ is_usize ev.2) events ->
  WP i (Reactor.process rid events) (post i (fun _ => t) (fun _ => True)) s.
Proof.
  intros Ho Et Hm Hev. revert s Ho. induction Hev as [| [token ready] events [Ht Hu] _ IH]; intros s Ho.
  - by apply wp_post_ret.
  - cbn [Reactor.process]. cbn in Ht, Hu. rewrite (proj2 (Z.eqb_neq _ _) Ht).
    by eapply wp_dispatch; [done | done | done | done |].
Qed.

(** ** Polling *)

(** The watched poll, and any other. *)
Definition who (i : nat) (key' : Z) (dir : Direction) : Prop :=
  (i = me /\ key' = key /\ dir = d) \/ (i <> me /\ (is_Some (slab_get key s0) -> ~ (key' = key /\ dir = d))).

(** How far the poll of thread [i] is; of the others nothing is recorded. *)
Definition pw (i : nat) (ph : phase) : wpart := if decide (i = me) then mkW ph false false else idle_w.

Lemma pw_me ph : pw me ph = mkW ph false false.
Proof. unfold pw. by rewrite decide_True. Qed.
Lemma pw_other i ph : i <> me -> pw i ph = idle_w.
Proof. intros Hi. unfold pw. by rewrite decide_False. Qed.

Lemma other_dir_of dir : dir <> d -> d = other_dir dir.
Proof. by destruct dir, d. Qed.

(** What a poll does to the source that it polls for the watched direction. *)
Lemma watch_poll_upd t ph ph' io io' new g :
  g !! me = Some t -> t_w t = pw me ph ->
  (ph' = PWaiting -> bits d io' = 0) ->
  (ph' = PArmed \/ ph' = PWaiting ->
     aw_waker (aw_of d io') = Some k \/ (ph = PArmed /\ aw_waker (aw_of d io') = aw_waker (aw_of d io))) ->
  watch io new g -> watch io' new (<[me := set_w (pw me ph') t]> g).
Proof.
  intros Hi Et Hb Ha [_ W2]. rewrite pw_me in *.
  assert (phase_of g = ph) as Eph by (unfold phase_of; by rewrite Hi, Et).
  pose proof (count_insert is_held g me t (set_w (mkW ph' false false) t) Hi) as C.
  assert (is_held t = false) as Eh by (unfold is_held; by rewrite Et). rewrite Eh in C. cbn in C.
  unfold watch, signalled. rewrite (phase_upd g me t) by done. rewrite decide_True by done. cbn [t_phase t_w set_w].
  split; intros Hp; [left; by apply Hb |].
  destruct (Ha Hp) as [Hk | [Earm Ew]]; [by left |]. rewrite Ew.
  destruct (W2 ltac:(left; congruence)) as [? | [Hh | ?]]; [by left | right; left; lia | by right; right].
Qed.

Lemma wp_fetch_and {B} i t ph ph0 key' dir (c : Z -> prg B) Q s :
  own i t s -> t_w t = pw i ph -> t_mode t = Reading -> who i key' dir -> mine t key' ->
  (ph = PBefore /\ ph0 = PBefore) \/ (ph = PArmed /\ ph0 = PWaiting) ->
  (forall v s', own i (set_w (pw i (if Z.land (mask dir) v =? 0 then ph0 else PDone)) t) s' -> WP i (c v) Q s') ->
  WP i (bind (readiness_fetch_and rid key' (unot (mask_no_hup dir))) c) Q s.
Proof.
  intros Ho Et Hm Hwho Hs Hph Hc. unfold readiness_fetch_and.
  assert (forall io : ScheduledIo, aba_guard (consume_bits dir io) = aba_guard io /\
    (is_usize (readiness io) -> is_usize (readiness (consume_bits dir io)))) as Hf.
  { intros io. split; [done |]. intros Hr. by apply is_usize_land. }
  destruct Hwho as [(-> & -> & ->) | [Hne Hkd]].
  - eapply (wp_on_io me t _ key _ c Q (fun v => pw me (if Z.land (mask d) v =? 0 then ph0 else PDone)));
      [apply lasting_true | exact Ho | by left | exact Hf | | exact Hc].
    intros io new g Hi Hr. cbv zeta. split; [intros _ _ | done]. cbn [fst snd].
    change (Z.land (mask d) (readiness io)) with (bits d io). apply (watch_poll_upd t ph); [done | done | |].
    + destruct (bits d io =? 0) eqn:Eb; [| done]. intros _. apply Z.eqb_eq in Eb. by apply consume_bits_empty.
    + destruct (bits d io =? 0); [| by intros [|]]. destruct Hph as [[-> ->] | [-> ->]]; [by intros [|] |].
      intros _. right. split; [done |]. by destruct d.
  - assert (set_w idle_w t = t) as Ett. { rewrite pw_other in Et by done. rewrite <- Et. by destruct t. }
    eapply (wp_on_io_frame i t _ key'); [apply lasting_true | exact Ho | by left | exact Hf | |].
    + intros -> Hb io Hr. assert (dir <> d) as Hd by (intros ->; by apply Hkd).
      rewrite (other_dir_of dir Hd). split; [by apply consume_other |]. by destruct dir.
    + intros v s' Ho'. apply Hc. by rewrite pw_other, Ett.
Qed.

Lemma wp_register {B} i t key' dir k' (c : unit -> prg B) Q s :
  own i t s -> t_w t = pw i PBefore -> t_mode t = Reading -> who i key' dir -> mine t key' -> (i = me -> k' = k) ->
  (forall s', own i (set_w (pw i PArmed) t) s' -> WP i (c tt) Q s') ->
  WP i (bind (io_register rid key' dir k') c) Q s.
Proof.
  intros Ho Et Hm Hwho Hs Hk Hc. unfold io_register.
  assert (forall io : ScheduledIo, aba_guard (with_aw dir (aw_register k' (aw_of dir io)) io) = aba_guard io /\
    (is_usize (readiness io) -> is_usize (readiness (with_aw dir (aw_register k' (aw_of dir io)) io)))) as Hf.
  { intros io. by destruct dir. }
  destruct Hwho as [(-> & -> & ->) | [Hne Hkd]].
  - rewrite Hk in * by done. eapply (wp_on_io me t _ key _ c Q (fun _ => pw me PArmed));
      [apply lasting_true | exact Ho | by left | exact Hf | | by intros []].
    intros io new g Hi Hr. cbv zeta. split; [intros _ _ | done]. cbn [fst snd].
    apply (watch_poll_upd t PBefore); [done | done | done |]. intros _. left.
    rewrite aw_of_with_aw. apply aw_register_waker.
  - assert (set_w idle_w t = t) as Ett. { rewrite pw_other in Et by done. rewrite <- Et. by destruct t. }
    eapply (wp_on_io_frame i t _ key'); [apply lasting_true | exact Ho | by left | exact Hf | |].
    + intros -> Hb io Hr. assert (dir <> d) as Hd by (intros ->; by apply Hkd). cbn [fst snd].
      by destruct dir, d.
    + intros [] s' Ho'. apply Hc. by rewrite pw_other, Ett.
Qed.

Definition poll_phase (r : io_result (option Z)) : phase := match r with Ok None => PWaiting | _ => PDone end.
Definition poll_ok (r : io_result (option Z)) : Prop := exists v, r = Ok v.

(** A poll with a waker, or a take without one. *)
Definition cx_ok (i : nat) (cx : option Z) : Prop :=
  match cx with
  | Some cx => exists k', wakers0 !! cx = Some k' /\ (i = me -> k' = k)
  | None => i <> me
  end.

Lemma wp_poll_io i t key' dir cx s :
  own i (set_mode Reading t) s -> t_w t = pw i PBefore -> who i key' dir -> mine t key' -> cx_ok i cx ->
  WP i (RegInner.poll_io rid key' cx dir)
    (post i (fun r => set_mode Reading (set_w (pw i (poll_phase r)) t)) poll_ok) s.
Proof.
  intros Ho Et Hwho Hs Hcx. unfold RegInner.poll_io.
  eapply wp_io_get_mine; [exact Ho | done | done |]. intros v0 s1 Ho1.
  change (Ready_sub (mask dir) platform.hup) with (mask_no_hup dir).
  eapply (wp_fetch_and i _ PBefore PBefore); [exact Ho1 | done | done | done | done | by left |].
  intros v s2 Ho2. unfold Ready_is_empty.
  destruct cx as [cx |]; [destruct Hcx as (k' & Hcx & Hk) |].
  - destruct (Z.land (mask dir) v =? 0) eqn:Ev.
    + repeat apply wp_bind_assoc. eapply (wp_deref_waker i _ _ cx k'); [apply lasting_true | exact Ho2 | done |]. intros s3 Ho3.
      repeat apply wp_bind_assoc. eapply wp_register; [exact Ho3 | done | done | done | done | done |]. intros s4 Ho4.
      repeat apply wp_bind_assoc. eapply (wp_fetch_and i _ PArmed PWaiting);
        [exact Ho4 | done | done | done | done | by right |].
      intros v2 s5 Ho5. cbn [bind]. destruct (Z.land (mask dir) v2 =? 0) eqn:Ev2; apply wp_post_ret; try done;
        by eexists.
    + cbn [bind]. rewrite Ev. apply wp_post_ret; [done | by eexists].
  - cbn in Hcx. rewrite pw_other in Ho2 by done. cbn [bind].
    destruct (Z.land (mask dir) v =? 0); (apply wp_post_ret; [by rewrite pw_other | by eexists]).
Qed.

Lemma wp_poll_ready i t key' dir cx s :
  own i t s -> t_w t = pw i PBefore -> t_mode t = Free -> t_arc t = false -> who i key' dir -> mine t key' ->
  cx_ok i cx -> key' <> ERROR ->
  WP i (RegInner.poll_ready (mkRegInner rid key') cx dir)
    (post i (fun r => set_w (pw i (poll_phase r)) t) poll_ok) s.
Proof.
  intros Ho Et Hm Ha Hwho Hs Hcx Hkey. unfold RegInner.poll_ready. cbn [World.token World.handle].
  rewrite (proj2 (Z.eqb_neq _ _) Hkey). eapply (wp_with_inner i t); [exact Ho | done | done |]. intros s1 Ho1.
  eapply (wp_with_read i (set_arc true t)); [exact Ho1 | done | done |]. intros s2 Ho2.
  eapply (wp_poll_io i (set_arc true t)); [exact Ho2 | done | done | done | done].
Qed.

(** ** Registering a waker *)
Lemma wp_os_call {A B} i t F (f : Os -> A * Os) (c : A -> prg B) Q s :
  lasting t F -> knows i t F s -> (forall a s', knows i t F s' -> WP i (c a) Q s') ->
  WP i (bind (os_call f) c) Q s.
Proof.
  intros HF Ho Hc. unfold os_call. eapply wp_atom; [by apply knows_stable | exact Ho |].
  intros w g Hk (x & new & E & Ew & Ek & Hr). cbn in *. destruct (f (os w)) as [a o]. cbn [fst snd].
  exists g. split_and!; [by exists x, new | | by apply Hc].
  split; [done |]. right. intros y y' Hy Hy'. cbn in *. simplify_eq. by apply same_shape_eq.
Qed.

Lemma set_w_idle t : t_w t = idle_w -> set_w idle_w t = t.
Proof. intros <-. by destruct t. Qed.

Lemma wp_io_wake {B} i t key' dir (c : unit -> prg B) Q s :
  own i t s -> t_w t = idle_w -> mine t key' -> (is_Some (slab_get key s0) -> ~ (key' = key /\ dir = d)) ->
  (forall s', own i t s' -> WP i (c tt) Q s') ->
  WP i (bind (io_wake rid key' dir) c) Q s.
Proof.
  intros Ho Et Hs Hne Hc. unfold io_wake, io_take. apply wp_bind_assoc.
  eapply (wp_on_io_frame i t _ key'); [apply lasting_true | exact Ho | by left | | |].
  - intros io. by destruct (aw_take (aw_of dir io)), dir.
  - intros -> Hb io Hu. assert (dir <> d) as Hd by (intros ->; by apply Hne).
    destruct (aw_take (aw_of dir io)), dir, d; done.
  - intros v s1 Ho1. eapply (wp_wake_opt i t idle_w); [exact Ho1 | by left |]. rewrite set_w_idle by done. exact Hc.
Qed.

Lemma wp_inner_register i t key' dir cx k' s :
  own i t s -> t_w t = idle_w -> t_mode t = Free -> i <> me -> who i key' dir -> mine t key' ->
  wakers0 !! cx = Some k' ->
  WP i (Inner.register rid cx key' dir) (post i (fun _ => t) (fun _ => True)) s.
Proof.
  intros Ho Et Hm Hne Hwho Hs Hcx. unfold Inner.register.
  eapply (wp_with_read i t); [exact Ho | done | done |]. intros s1 Ho1.
  eapply wp_io_get_mine; [exact Ho1 | done | done |]. intros v s2 Ho2. cbv zeta.
  eapply (wp_deref_waker i _ _ cx k'); [apply lasting_true | exact Ho2 | done |]. intros s3 Ho3.
  eapply wp_register; [exact Ho3 | by rewrite pw_other | done | done | done | done |].
  intros s4 Ho4. rewrite pw_other, set_w_idle in Ho4 by done.
  assert (is_Some (slab_get key s0) -> ~ (key' = key /\ dir = d)) as Hkd by (by destruct Hwho as [(? & _) | [_ ?]]).
  unfold readiness_load. eapply (wp_on_io_frame i _ _ key'); [apply lasting_true | exact Ho4 | by left | done | done |].
  intros r s5 Ho5. destruct (negb _); [| by apply wp_post_ret].
  apply wp_tail. eapply wp_io_wake; [exact Ho5 | done | done | done |]. intros s6 Ho6. by apply wp_post_ret.
Qed.

(** ** Adding and dropping a source *)
Definition set_slot (o : option Z) (t : part) : part := mkPart (t_w t) (t_arc t) (t_mode t) o.

Lemma slots_insert sl g i t io :
  slots_inv sl g -> g !! i = Some t -> t_slot t = None ->
  slots_inv (slab_insert io sl).2 (<[i := set_slot (Some (slab_insert io sl).1) t]> g).
Proof.
  intros [Hb Ho Hj Ha] Hi Ht. set (key' := (slab_insert io sl).1).
  assert (slab_get key' sl = None) as Hfresh by apply slab_insert_fresh.
  assert (slab_get key' s0 = None) as Hf0.
  { destruct (slab_get key' s0) eqn:E; [| done]. specialize (Hb key' ltac:(by eexists)). by rewrite Hfresh, E in Hb. }
  assert (forall j u, <[i := set_slot (Some key') t]> g !! j = Some u ->
    (j = i /\ t_slot u = Some key') \/ (j <> i /\ g !! j = Some u)) as Hg.
  { intros j u Hu. destruct (decide (i = j)) as [<- | Hne].
    - rewrite list_lookup_insert_eq in Hu by (by eapply length_of). simplify_eq. by left.
    - rewrite list_lookup_insert_ne in Hu by done. by right. }
  assert (forall j u, g !! j = Some u -> t_slot u <> Some key') as Hnew.
  { intros j u Hu Eu. destruct (Ho j u key' Hu Eu) as [[y Hy] _]. by rewrite Hfresh in Hy. }
  constructor.
  - intros k' Hk. rewrite slab_insert_get. case_decide; [| by apply Hb]. subst k'.
    change (is_Some (slab_get key' s0)) in Hk. rewrite Hf0 in Hk. by destruct Hk.
  - intros j u k' Hu Eu. rewrite slab_insert_get. fold key'. destruct (Hg j u Hu) as [[-> Eu'] | [Hne Hu']].
    + rewrite Eu' in Eu. simplify_eq. rewrite decide_True by done. split; [by eexists | done].
    + destruct (Ho j u k' Hu' Eu) as [H1 H2]. split; [case_decide; [by eexists | done] | done].
  - intros j j' u u' k' Hu Hu' Eu Eu'. destruct (Hg j u Hu) as [[-> E1] | [Hne H1]], (Hg j' u' Hu') as [[-> E2] | [Hne' H2]].
    + done.
    + rewrite E1 in Eu. simplify_eq. by destruct (Hnew j' u' H2).
    + rewrite E2 in Eu'. simplify_eq. by destruct (Hnew j u H1).
    + by eapply Hj.
  - intros k'. rewrite slab_insert_get. fold key'. case_decide as E.
    + subst k'. intros _. right. exists i, (set_slot (Some key') t). by rewrite list_lookup_insert_eq by (by eapply length_of).
    + intros [? | (j & u & Hu & Eu)]%Ha; [by left | right]. exists j, u. split; [| done].
      rewrite list_lookup_insert_ne; [done | intros ->; by simplify_eq].
Qed.

Lemma slots_remove sl sl' g i t key' :
  slots_inv sl g -> g !! i = Some t -> t_slot t = Some key' ->
  (forall k', slab_get k' sl' = if decide (k' = key') then None else slab_get k' sl) ->
  slots_inv sl' (<[i := set_slot None t]> g).
Proof.
  intros [Hb Ho Hj Ha] Hi Ht Hget. destruct (Ho i t key' Hi Ht) as [_ Hf0].
  assert (forall j u k', <[i := set_slot None t]> g !! j = Some u -> t_slot u = Some k' ->
    j <> i /\ g !! j = Some u /\ k' <> key') as Hg.
  { intros j u k' Hu Eu. destruct (decide (i = j)) as [<- | Hne].
    - rewrite list_lookup_insert_eq in Hu by (by eapply length_of). by simplify_eq.
    - rewrite list_lookup_insert_ne in Hu by done. split_and!; [done | done |]. intros ->.
      by apply Hne, (Hj i j t u key'). }
  constructor.
  - intros k' Hk. rewrite Hget. case_decide; [subst; rewrite Hf0 in Hk; by destruct Hk | by apply Hb].
  - intros j u k' Hu Eu. destruct (Hg j u k' Hu Eu) as (_ & Hu' & Hne). rewrite Hget, decide_False by done. by eapply Ho.
  - intros j j' u u' k' Hu Hu' Eu Eu'. destruct (Hg j u k' Hu Eu) as (_ & H1 & _), (Hg j' u' k' Hu' Eu') as (_ & H2 & _).
    by eapply Hj.
  - intros k'. rewrite Hget. case_decide as E; [by intros [] |].
    intros [? | (j & u & Hu & Eu)]%Ha; [by left | right]. exists j, u. split; [| done].
    rewrite list_lookup_insert_ne; [done |]. intros ->. simplify_eq.
Qed.

(** A change of the slab by the holder of the write lock. *)
Lemma rinv_slab x new g i t o sl :
  rinv x new g -> g !! i = Some t -> slab_wf sl -> slots_inv sl (<[i := set_slot o t]> g) ->
  (is_Some (slab_get key s0) -> slab_get key sl = slab_get key (slab_of x)) ->
  rinv (with_slab sl x) new (<[i := set_slot o t]> g).
Proof.
  intros Hr Hi Hwf Hs Hk. constructor; unfold slab_of; cbn.
  - destruct (lock_upd _ g i t (set_slot o t) (ri_lock _ _ _ Hr) Hi eq_refl). by constructor.
  - by apply (strong_upd x new g i t).
  - apply Hr.
  - done.
  - done.
  - intros io Hio Hb. rewrite Hk in Hio by done. apply (watch_same i t _ io); try done. by apply (ri_watch _ _ _ Hr).
Qed.

Lemma wp_insert {B} i t n gd (c : Z -> prg B) Q s :
  knows i t (fun sl => slab_len sl = n) s -> t_mode t = Writing -> t_slot t = None ->
  n <> MAX_SOURCES -> guard_wf gd ->
  (forall key' s', own i (set_slot (Some key') t) s' -> 0 <= key' < MAX_SOURCES -> slab_get key' s0 = None ->
     WP i (c key') Q s') ->
  WP i (bind (Inner.io_dispatch_insert rid (mkScheduledIo gd 0 aw_new aw_new)) c) Q s.
Proof.
  intros Hk Hm Ht Hn Hg Hc. unfold Inner.io_dispatch_insert.
  eapply wp_reactor; [| exact Hk |].
  { constructor; [by rewrite Hm |]. intros a b (_ & El & _) <-. done. }
  intros x new g Hi Hr El. set (io := mkScheduledIo gd 0 aw_new aw_new).
  pose proof (slab_insert_fresh io (slab_of x)) as Hfresh. pose proof (slots_insert _ g i t io (ri_slots _ _ _ Hr) Hi Ht) as Hs.
  pose proof (slab_insert_get io (slab_of x)) as Hget. pose proof (slab_insert_high io (slab_of x)) as Hh.
  destruct (slab_insert io (slab_of x)) as [key' sl]. cbn [fst snd] in *.
  destruct (ri_wf _ _ _ Hr) as [Wi Wh]. pose proof (slab_len_high (slab_of x)).
  assert (slab_high sl <= MAX_SOURCES) as Hh' by lia.
  assert (slab_get key' sl = Some io) as Hk' by by rewrite Hget, decide_True.
  pose proof (slab_get_range _ _ _ Hk').
  exists (set_slot (Some key') t). split_and!; [| by left |].
  - apply rinv_slab; [done | done | | done |].
    + constructor; [| done]. intros k' j. rewrite Hget. case_decide; [intros [= <-] | apply Wi].
      split; [done | apply is_usize_0].
    + intros Hb. rewrite Hget. case_decide as E; [| done]. subst key'.
      pose proof (si_base _ _ (ri_slots _ _ _ Hr) key Hb) as E. rewrite Hfresh in E.
      destruct Hb as [y Hy]. by rewrite Hy in E.
  - intros w' Hw'. apply Hc; [by eapply knows_upd | lia |].
    by eapply (si_own _ _ Hs i (set_slot (Some key') t)); [apply list_lookup_insert_eq; eapply length_of |].
Qed.

Lemma wp_remove {B} i t key' (c : unit -> prg B) Q s :
  own i t s -> t_mode t = Writing -> t_slot t = Some key' ->
  (forall s', own i (set_slot None t) s' -> WP i (c tt) Q s') ->
  WP i (bind (Inner.io_dispatch_remove rid key') c) Q s.
Proof.
  intros Ho Hm Ht Hc. unfold Inner.io_dispatch_remove. eapply wp_reactor; [apply lasting_true | exact Ho |].
  intros x new g Hi Hr _. destruct (si_own _ _ (ri_slots _ _ _ Hr) i t key' Hi Ht) as [Hs Hf0].
  destruct (slab_remove_get _ _ Hs) as (sl & Er & Hget & El & Eh). rewrite Er.
  exists (set_slot None t). split_and!; [| by left |].
  - apply rinv_slab; [done | done | | by eapply slots_remove; [apply Hr | ..] |].
    + destruct (ri_wf _ _ _ Hr) as [Wi Wh]. constructor; [| by rewrite Eh]. intros k' j. rewrite Hget.
      case_decide; [done | apply Wi].
    + intros Hb. rewrite Hget. case_decide; [subst; rewrite Hf0 in Hb; by destruct Hb | done].
  - intros w' Hw'. apply Hc. by eapply knows_upd.
Qed.

(** A postcondition on the result and on the part of the thread. *)
Definition postx {A} (i : nat) (P : A -> part -> Prop) (v : A) (s : World * ghost) : Prop :=
  exists t, own i t s /\ P v t.

Lemma wp_postx_ret {A} i (v : A) t P s : own i t s -> P v t -> WP i (Ret v) (postx i P) s.
Proof.
  intros Ho HP. eapply wp_ret; [apply knows_stable, lasting_true | exact Ho |]. intros s' Ho' _. by exists t.
Qed.

Lemma wp_postx_bind {A B} i (p : prg A) (c : A -> prg B) P Q s :
  WP i p (postx i P) s ->
  (forall v t s', own i t s' -> P v t -> WP i (c v) Q s') ->
  WP i (bind p c) Q s.
Proof.
  intros Hp Hc. apply wp_bind. eapply wp_conseq; [| exact Hp]. intros v s' _ (t & Ho & HP). by eapply Hc.
Qed.

Lemma wp_write_x {A} i t (body : prg A) P s :
  own i t s -> t_mode t = Free ->
  (forall s', own i (set_mode Writing t) s' ->
     WP i body (postx i (fun v t' => t_mode t' = Writing /\ P v (set_mode Free t'))) s') ->
  WP i (Inner.with_write rid body) (postx i P) s.
Proof.
  intros Ho Hm Hb. unfold Inner.with_write. eapply wp_lock_write; [exact Ho | done |]. intros s1 Ho1.
  eapply wp_postx_bind; [by apply Hb |]. intros v t' s2 Ho2 [Hm' HP].
  eapply wp_unlock_write; [exact Ho2 | done |]. intros s3 Ho3. by eapply wp_postx_ret.
Qed.

Lemma wp_inner_x {A} i t (none : prg A) some P s :
  own i t s -> t_arc t = false ->
  (forall s', own i (set_arc true t) s' ->
     WP i (some rid) (postx i (fun v t' => t_arc t' = true /\ P v (set_arc false t'))) s') ->
  WP i (Inner.with_inner rid none some) (postx i P) s.
Proof.
  intros Ho Ht Hb. unfold Inner.with_inner. eapply wp_upgrade; [exact Ho | done |]. intros s1 Ho1.
  eapply wp_postx_bind; [by apply Hb |]. intros v t' s2 Ho2 [Ht' HP].
  eapply wp_arc_drop; [exact Ho2 | done |]. intros s3 Ho3. by eapply wp_postx_ret.
Qed.

(** A read of a field that never changes. *)
Lemma wp_field {A B} i t F (f : ReactorInner -> A) (c : A -> prg B) Q s :
  lasting t F -> knows i t F s -> (forall v s', knows i t F s' -> WP i (c v) Q s') ->
  WP i (bind (on_reactor rid (fun x => Next (f x) x)) c) Q s.
Proof.
  intros HF Ho Hc. eapply wp_reactor; [exact HF | exact Ho |]. intros x new g Hi Hr Hx. exists t.
  split_and!; [by apply rinv_id | by right; apply same_shape_eq |]. intros w' Hw'. apply Hc.
  by eapply knows_upd.
Qed.

Definition added (t : part) (r : io_result Z) (t' : part) : Prop :=
  match r with
  | Ok key' => t' = set_slot (Some key') t /\ 0 <= key' < MAX_SOURCES /\ slab_get key' s0 = None
  | Err _ => exists o, t' = set_slot o t
  end.

Lemma wp_add_source i t source s :
  own i t s -> t_mode t = Free -> t_slot t = None ->
  WP i (Inner.add_source rid source) (postx i (added t)) s.
Proof.
  intros Ho Hm Ht. unfold Inner.add_source, Inner.next_aba_guard_fetch_add.
  assert (set_slot None t = t) as Et by (rewrite <- Ht; by destruct t).
  eapply wp_reactor; [apply lasting_true | exact Ho |]. intros x new g Hi Hr _.
  pose proof (ri_guard _ _ _ Hr) as Hg. exists t. split_and!; [| by right; apply same_shape_eq |].
  { rewrite list_insert_id by done. destruct Hr as [R1 R2 R3 R4 R5 R6]. constructor; try done.
    cbn. pose proof (nth_guard_wf _ 1 Hg) as Hn. unfold nth_guard in Hn. by rewrite Z.mul_1_l in Hn. }
  intros w' Hw'. assert (own i t (w', <[i := t]> g)) as Ho1 by (by eapply knows_upd). generalize dependent (next_aba_guard x).
  intros gd Hg _. eapply wp_write_x; [exact Ho1 | done |]. intros s2 Ho2.
  unfold Inner.io_dispatch_len. eapply wp_reactor; [apply lasting_true | exact Ho2 |]. intros y new' g' Hi' Hr' _.
  exists (set_mode Writing t). split_and!; [by apply rinv_id | by left |]. intros w3 Hw3.
  destruct (Z.eqb_spec (slab_len (slab_of y)) MAX_SOURCES) as [| Hlen].
  { eapply (wp_postx_ret i _ (set_mode Writing t)); [by eapply knows_upd |]. split; [done |].
    exists None. by destruct t; cbn in *; subst. }
  eapply (wp_insert i (set_mode Writing t) (slab_len (slab_of y)) gd); [by eapply knows_upd | done | done | done | done |].
  intros key' s4 Ho4 Hkey Hk0. eapply wp_field; [apply lasting_true | exact Ho4 |]. intros io s5 Ho5.
  eapply wp_os_call; [apply lasting_true | exact Ho5 |]. intros r s6 Ho6.
  destruct r as [[] | e]; (eapply wp_postx_ret; [exact Ho6 |]; split; [done |]).
  - split; [by destruct t; cbn in *; subst | done].
  - exists (Some key'). by destruct t; cbn in *; subst.
Qed.

Definition created (t : part) (r : RegInner * io_result unit) (t' : part) : Prop :=
  handle r.1 = rid /\
  match r.2 with
  | Ok _ => t' = set_slot (Some (token r.1)) t /\ token r.1 <> ERROR /\ slab_get (token r.1) s0 = None
  | Err _ => token r.1 = ERROR /\ exists o, t' = set_slot o t
  end.

Lemma key_not_error key' : 0 <= key' < MAX_SOURCES -> key' <> ERROR.
Proof.
  unfold ERROR. rewrite usize_MAX_eq. pose proof usize_modulus_ge. change MAX_SOURCES with 4194303. lia.
Qed.

Lemma wp_new i t source s :
  own i t s -> t_mode t = Free -> t_arc t = false -> t_slot t = None ->
  WP i (RegInner.new source rid) (postx i (created t)) s.
Proof.
  intros Ho Hm Ha Ht. unfold RegInner.new.
  set (P := fun (v : Z * io_result unit) (t' : part) => created t (mkRegInner rid v.1, v.2) t').
  eapply (wp_postx_bind i _ _ P); [| intros v t' s' Ho' HP; by eapply wp_postx_ret].
  eapply (wp_inner_x i t); [exact Ho | done |]. intros s1 Ho1.
  eapply wp_postx_bind; [by apply (wp_add_source i (set_arc true t)) |]. intros r t' s2 Ho2 Hr.
  destruct r as [key' | e]; (eapply wp_postx_ret; [exact Ho2 |]).
  - destruct Hr as (-> & Hkey & Hk0). split; [done |]. split; [done |]. cbn.
    split; [by destruct t; cbn in *; subst |]. split; [by apply key_not_error | done].
  - destruct Hr as [o ->]. split; [done |]. split; [done |]. cbn. split; [done |]. exists o. by destruct t; cbn in *; subst.
Qed.

Lemma wp_deregister i t ri io s :
  own i t s -> t_arc t = false -> handle ri = rid -> token ri <> ERROR ->
  WP i (RegInner.deregister ri io) (post i (fun _ => t) (fun _ => True)) s.
Proof.
  intros Ho Ha Hh Hk. unfold RegInner.deregister. rewrite (proj2 (Z.eqb_neq _ _) Hk), Hh.
  eapply (wp_with_inner i t); [exact Ho | done | done |]. intros s1 Ho1.
  unfold Inner.deregister_source. eapply wp_field; [apply lasting_true | exact Ho1 |]. intros p s2 Ho2.
  apply wp_tail. eapply wp_os_call; [apply lasting_true | exact Ho2 |]. intros r s3 Ho3. by apply wp_post_ret.
Qed.

Lemma wp_drop i t ri s :
  own i t s -> t_mode t = Free -> t_arc t = false -> handle ri = rid ->
  (token ri <> ERROR -> t_slot t = Some (token ri)) ->
  WP i (RegInner.drop ri) (post i (fun _ => if token ri =? ERROR then t else set_slot None t) (fun _ => True)) s.
Proof.
  intros Ho Hm Ha Hh Hk. unfold RegInner.drop. rewrite Hh. destruct (Z.eqb_spec (token ri) ERROR) as [| Hne].
  { by apply wp_post_ret. }
  eapply (wp_with_inner i t); [exact Ho | done | done |]. intros s1 Ho1. unfold Inner.drop_source.
  eapply (wp_with_write i (set_arc true t)); [exact Ho1 | done | done |]. intros s2 Ho2. apply wp_tail.
  eapply wp_remove; [exact Ho2 | done | by apply Hk |]. intros s3 Ho3. by apply wp_post_ret.
Qed.

Lemma wp_is_idle i t s :
  own i t s -> t_mode t = Free -> WP i (Reactor.is_idle rid) (post i (fun _ => t) (fun _ => True)) s.
Proof.
  intros Ho Hm. unfold Reactor.is_idle. eapply (wp_with_read i t); [exact Ho | done | done |]. intros s1 Ho1.
  unfold Inner.io_dispatch_len. eapply wp_field; [apply lasting_true | exact Ho1 |]. intros n s2 Ho2. by apply wp_post_ret.
Qed.

(** ** The use of one source, from its registration to its drop *)
Inductive call :=
| CPoll (cx : option Z) (dir : Direction)
| CRegister (cx : Z) (dir : Direction).

Fixpoint run_calls (ri : RegInner) (calls : list call) : prg (list (io_result (option Z))) :=
  match calls with
  | [] => Ret []
  | CPoll cx dir :: calls =>
      let! r := RegInner.poll_ready ri cx dir in
      let! rs := run_calls ri calls in
      Ret (r :: rs)
  | CRegister cx dir :: calls =>
      let! _ := RegInner.register ri cx dir in
      run_calls ri calls
  end.

Definition life (source : Evented) (calls : list call) : prg (io_result unit * list (io_result (option Z))) :=
  let! r := RegInner.new source rid in
  let! rs := run_calls r.1 calls in
  let! _ := RegInner.deregister r.1 source in
  let! _ := RegInner.drop r.1 in
  Ret (r.2, rs).

Definition call_ok (c : call) : Prop :=
  match c with
  | CPoll (Some cx) _ => is_Some (wakers0 !! cx)
  | CPoll None _ => True
  | CRegister cx _ => is_Some (wakers0 !! cx)
  end.

(** The polls of a source that could not be registered fail, all others do not. *)
Definition polls_ok (registered : bool) (rs : list (io_result (option Z))) : Prop :=
  Forall (fun r => if registered then poll_ok r else r = Err (other "failed to associate with reactor")) rs.

Lemma wp_wake_by_ref i t cx s :
  own i t s -> t_w t = idle_w -> is_Some (wakers0 !! cx) ->
  WP i (RegInner.wake_by_ref cx) (post i (fun _ => t) (fun _ => True)) s.
Proof.
  intros Ho Et [k' Hk]. unfold RegInner.wake_by_ref.
  eapply (wp_deref_waker i t _ cx k'); [apply lasting_true | exact Ho | done |]. intros s1 Ho1. apply wp_tail.
  change (wake k') with (wake_opt (Some k')). eapply (wp_wake_opt i t idle_w); [exact Ho1 | by left |].
  rewrite set_w_idle by done. intros s2 Ho2. by apply wp_post_ret.
Qed.

Lemma wp_calls i t ri calls s :
  own i t s -> t_w t = idle_w -> t_mode t = Free -> t_arc t = false -> i <> me -> handle ri = rid ->
  (token ri <> ERROR -> t_slot t = Some (token ri) /\ slab_get (token ri) s0 = None) ->
  Forall call_ok calls ->
  WP i (run_calls ri calls) (post i (fun _ => t) (polls_ok (negb (token ri =? ERROR)))) s.
Proof.
  intros Ho Et Hm Ha Hne Hh Hk Hcs. revert s Ho. induction Hcs as [| c calls Hc _ IH]; intros s Ho; [by apply wp_post_ret; [| constructor] |].
  assert (forall dir, token ri <> ERROR -> who i (token ri) dir /\ mine t (token ri)) as Hkey.
  { intros dir Hr. destruct (Hk Hr) as [Hs H0']. split; [right; split; [done |] | by right].
    intros [y Hy] [E _]. by rewrite E, Hy in H0'. }
  destruct ri as [h key']. cbn in Hh. subst h. cbn [token] in *.
  destruct c as [cx dir | cx dir]; cbn [run_calls].
  - eapply (wp_post_bind i _ _ (fun _ => t) (fun r => if negb (key' =? ERROR) then poll_ok r else r = Err (other "failed to associate with reactor"))).
    + destruct (Z.eqb_spec key' ERROR) as [-> | Hr].
      * unfold RegInner.poll_ready. cbn [token]. rewrite Z.eqb_refl. by apply wp_post_ret.
      * destruct (Hkey dir Hr). eapply wp_conseq; [| eapply (wp_poll_ready i t)];
          [| exact Ho | by rewrite pw_other | done | done | done | done | | done].
        -- intros r s' _ [Ho' Hr']. rewrite pw_other, set_w_idle in Ho' by done. by split.
        -- destruct cx as [cx |]; [| done]. destruct Hc as [k' Hk']. by exists k'.
    + intros r s1 Ho1 Hr. eapply wp_post_bind; [by apply IH |]. intros rs s2 Ho2 Hrs. apply wp_post_ret; [done |].
      by constructor.
  - eapply (wp_post_bind i _ _ (fun _ => t) (fun _ => True)); [| intros _ s1 Ho1 _; by apply IH].
    unfold RegInner.register. cbn [token World.handle]. destruct (Z.eqb_spec key' ERROR) as [-> | Hr]; [by apply wp_wake_by_ref |].
    destruct (Hkey dir Hr), Hc as [k' Hk']. eapply (wp_with_inner i t); [exact Ho | done | done |]. intros s1 Ho1.
    by eapply (wp_inner_register i (set_arc true t)).
Qed.

(** A source whose registration the system refused may keep its slot. *)
Definition lived (t : part) (r : io_result unit * list (io_result (option Z))) (t' : part) : Prop :=
  polls_ok (is_ok r.1) r.2 /\ if is_ok r.1 then t' = t else exists o, t' = set_slot o t.

Lemma wp_life i t source calls s :
  own i t s -> t_w t = idle_w -> t_mode t = Free -> t_arc t = false -> t_slot t = None -> i <> me ->
  Forall call_ok calls -> WP i (life source calls) (postx i (lived t)) s.
Proof.
  intros Ho Et Hm Ha Ht Hne Hcs. unfold life. eapply wp_postx_bind; [by apply (wp_new i t) |].
  intros [ri res] t1 s1 Ho1 [Hh Hr]. cbn [fst snd] in *.
  assert (t_w t1 = t_w t /\ t_mode t1 = t_mode t /\ t_arc t1 = t_arc t) as (E1 & E2 & E3).
  { destruct res; [destruct Hr as [-> _] | destruct Hr as (_ & o & ->)]; done. }
  rewrite Et in E1. rewrite Hm in E2. rewrite Ha in E3.
  assert ((token ri =? ERROR) = negb (is_ok res)) as Etok.
  { destruct res; [destruct Hr as (_ & Hr & _); by apply Z.eqb_neq | destruct Hr as [-> _]; apply Z.eqb_refl]. }
  eapply (wp_post_bind i _ _ (fun _ => t1)); [eapply wp_calls; try done |].
  { intros Hk. destruct res; [by destruct Hr as (-> & _ & ?) | by destruct Hr as [? _]]. }
  intros rs s2 Ho2 Hrs. rewrite Etok, negb_involutive in Hrs.
  eapply (wp_post_bind i _ _ (fun _ => t1) (fun _ => True)).
  { destruct (Z.eqb_spec (token ri) ERROR) as [E | Hk]; [| by apply wp_deregister].
    unfold RegInner.deregister. rewrite E, Z.eqb_refl. by apply wp_post_ret. }
  intros _ s3 Ho3 _. eapply wp_post_bind.
  { eapply (wp_drop i t1 ri); [exact Ho3 | done | done | done |].
    intros Hk. destruct res; [by destruct Hr as [-> _] | by destruct Hr as [? _]]. }
  intros v4 s4 Ho4 _. rewrite Etok in Ho4. eapply wp_postx_ret; [exact Ho4 |]. split; [done |]. cbn [fst].
  clear - Hr Ht. destruct res; cbn [is_ok negb]; [| by destruct Hr as (_ & o & ->); exists o].
  destruct Hr as [-> _]. clear - Ht. by destruct t; cbn in *; subst.
Qed.

End conc.
End ReactorConc.
