(* ===== verification/Wakeups.v ===== *)
(** * No wakeup is lost, and the reactor stays sound

    The theorems about a reactor that any number of threads use at the same time, one
    atomic action at a time, in any order.  Each thread does one job: it polls a source
    that is there from the start, delivers events, asks whether the reactor is idle, or
    uses a source of its own from its registration to its drop. *)
From S2P Require Import Prelude Conc RelyGuar Deps Toy World Reactor Background Registration.
From S2P Require Import ReactorProof RegistrationProof Resource Demo ReactorSpec ResourceSpec ReactorConc.

Module Wakeups.
Import ReactorSpec ResourceSpec ReactorConc.

Section jobs.
Context `{DepsLaws}.

Inductive job :=
| JPoll (key : Z) (cx : Z) (d : Direction)
| JEvents (events : list (Z * Z))
| JIdle
| JLife (source : Evented) (calls : list call).

(** What a job returns. *)
Inductive result :=
| RPoll (r : io_result (option Z))
| RUnit
| RIdle (idle : bool)
| RLife (r : io_result unit) (polls : list (io_result (option Z))).

Definition job_prog (rid : ReactorId) (j : job) : prg result :=
  match j with
  | JPoll key cx d => let! r := RegInner.poll_ready (mkRegInner rid key) (Some cx) d in Ret (RPoll r)
  | JEvents events => let! _ := Reactor.process rid events in Ret RUnit
  | JIdle => let! b := Reactor.is_idle rid in Ret (RIdle b)
  | JLife source calls => let! r := life rid source calls in Ret (RLife r.1 r.2)
  end.

(** The jobs that make sense: polled sources are there, wakers exist, and nothing but the
    reactor itself handles the wakeup token. *)
Definition job_wf (s0 : slab ScheduledIo) (wakers0 : gmap Z waker) (j : job) : Prop :=
  match j with
  | JPoll key cx d => key <> ERROR /\ is_Some (slab_get key s0) /\ is_Some (wakers0 !! cx)
  | JEvents events => Forall (fun ev => ev.1 <> TOKEN_WAKEUP /\ is_usize ev.2) events
  | JIdle => True
  | JLife source calls => Forall (call_ok wakers0) calls
  end.
End jobs.

Section pool.
Context `{DepsLaws}.
Context (rid : ReactorId) (me : nat) (k : waker) (key : Z) (d : Direction).
Context (s0 : slab ScheduledIo) (wakers0 : gmap Z waker) (woken0 : list waker) (m : nat).

(** Only thread [me] polls the watched source for the watched direction, in task [k]. *)
Definition watch_ok (i : nat) (j : job) : Prop :=
  match j with
  | JPoll key' cx dir => who me key d s0 i key' dir /\ (i = me -> wakers0 !! cx = Some k)
  | _ => i <> me
  end.

(** A finished thread holds nothing, but for the slot of a source that was refused. *)
Definition job_post (i : nat) (j : job) (r : result) (t : part) : Prop :=
  match j, r with
  | JPoll _ _ _, RPoll r => poll_ok r /\ t = set_w (pw me i (poll_phase r)) idle
  | JEvents _, RUnit => t = idle
  | JIdle, RIdle _ => t = idle
  | JLife _ _, RLife r polls => lived idle (r, polls) t
  | _, _ => False
  end.

Lemma job_wp i j s :
  own rid i idle s -> job_wf s0 wakers0 j -> watch_ok i j ->
  wp (inv rid me k key d s0 wakers0 woken0 m) (act rid) blk i (job_prog rid j) (postx rid i (job_post i j)) s.
Proof.
  intros Ho Hj Hwho. destruct j as [key' cx dir | events | | source calls]; cbn [job_prog].
  - destruct Hj as (Hkey & Hs & k' & Hk), Hwho as [Hwho Hcx].
    eapply wp_post_bind; [eapply wp_poll_ready; [exact Ho | | done | done | exact Hwho | by left | | exact Hkey] |].
    + unfold pw, idle. by case_decide.
    + cbn. exists k'. split; [done |]. intros E. specialize (Hcx E). congruence.
    + intros r s1 Ho1 Hr. by eapply wp_postx_ret.
  - eapply wp_post_bind; [by eapply wp_process |]. intros [] s1 Ho1 _. by eapply wp_postx_ret.
  - eapply wp_post_bind; [by eapply wp_is_idle |]. intros b s1 Ho1 _. by eapply wp_postx_ret.
  - eapply wp_postx_bind; [by eapply wp_life |]. intros [r rs] t s1 Ho1 Hl. by eapply wp_postx_ret.
Qed.

Lemma pool_jobs w x js :
  reactors w !! rid = Some x -> strong x = S m -> io_dispatch x = mkARwLock 0 false s0 -> reactor_wf x ->
  wakers w = wakers0 -> woken w = woken0 ->
  (forall i j, js !! i = Some j -> job_wf s0 wakers0 j /\ watch_ok i j) ->
  pool_ok (inv rid me k key d s0 wakers0 woken0 m) (act rid) blk
    (fun i r st => forall j, js !! i = Some j -> postx rid i (job_post i j) r st)
    (job_prog rid <$> js) (w, replicate (length js) idle).
Proof.
  intros E Em El [Hh Hg Hio] Ek Ew Hjs.
  assert (slab_of x = s0) as Es by (unfold slab_of; by rewrite El). rewrite Es in *.
  assert (forall i t, replicate (length js) idle !! i = Some t -> t = idle) as Hidle.
  { intros i t [-> _]%lookup_replicate. done. }
  split.
  - exists x, []. cbn. rewrite app_nil_r. split_and!; try done. constructor; rewrite ?Es.
    + rewrite El. by constructor; cbn; rewrite ?count_replicate.
    + rewrite count_replicate by done. lia.
    + done.
    + by constructor.
    + constructor; [done | | | by left]; intros i t; [intros key' -> %Hidle | intros t' t2 key' ->%Hidle]; done.
    + intros i _ _. assert (phase_of me (replicate (length js) idle) = PBefore) as Ep.
      { unfold phase_of. case_match eqn:Et; [by rewrite (Hidle _ _ Et) | done]. }
      split; rewrite Ep; [done | by intros [|]].
  - intros i p (j & -> & Hj)%list_lookup_fmap_Some. destruct (Hjs i j Hj) as [H1 H2].
    eapply wp_conseq; [| apply job_wp; [| exact H1 | exact H2]].
    + intros r st _ Hr j' Hj'. by simplify_eq.
    + split; [| by exists x]. apply lookup_replicate_2. by eapply lookup_lt_Some.
Qed.

(** When no thread can move, all have finished, and nobody holds the lock. *)
Lemma pool_end w x js w' ts :
  reactors w !! rid = Some x -> strong x = S m -> io_dispatch x = mkARwLock 0 false s0 -> reactor_wf x ->
  wakers w = wakers0 -> woken w = woken0 ->
  (forall i j, js !! i = Some j -> job_wf s0 wakers0 j /\ watch_ok i j) ->
  rtc cstep (w, job_prog rid <$> js) (w', ts) -> (forall c, ~ cstep (w', ts) c) ->
  exists g', inv rid me k key d s0 wakers0 woken0 m (w', g') /\ length g' = length js /\
    forall i j, js !! i = Some j -> exists r t, ts !! i = Some (Ret r) /\ g' !! i = Some t /\ job_post i j r t.
Proof.
  intros E Em El Hwf Ek Ew Hjs Hr Hst.
  destruct (pool_ok_trace _ _ _ _ _ _ _ Hr (pool_jobs w x js E Em El Hwf Ek Ew Hjs)) as (g' & Hok & Htr).
  cbn [fst snd] in *.
  assert (length ts = length js) as Hlen.
  { apply rtc_cstep_length in Hr. cbn in Hr. by rewrite length_fmap in Hr. }
  assert (forall j, (length js <= j)%nat -> g' !! j = None) as Hout.
  { intros j Hj. rewrite length_fmap in Htr.
    change g' with (w', g').2. remember (w', g') as c' eqn:Ec'. clear Ec' Hok.
    assert ((w, replicate (length js) idle).2 !! j = None) as Hstart.
    { cbn. apply lookup_ge_None. by rewrite length_replicate. }
    induction Htr as [| c c1 c2 (i & Hi & Ha & _) _ IH]; [done |]. apply IH. rewrite Ha; [done | lia]. }
  assert (forall i p, ts !! i = Some p -> (exists a, p = Ret a /\ forall j, js !! i = Some j -> postx rid i (job_post i j) a (w', g'))
    \/ blk i false (w', g')) as Hcases.
  { intros i p Hp. by destruct (pool_ok_stuck _ _ _ _ _ _ _ Hok Hst i p Hp) as [(a & -> & Ha) | (? & _ & Hb)]; [left; exists a | right]. }
  assert (forall i t, g' !! i = Some t -> t_mode t = Free) as Hfree.
  { intros i t Ht. assert (i < length js)%nat as Hi.
    { destruct (decide (i < length js)%nat); [done |]. rewrite Hout in Ht by lia. done. }
    destruct (lookup_lt_is_Some_2 ts i ltac:(lia)) as [p Hp]. destruct (lookup_lt_is_Some_2 js i Hi) as [j Hj].
    destruct (Hcases i p Hp) as [(a & -> & Ha) | [(t' & Ht' & Hm) _]]; [| cbn in Ht'; by simplify_eq].
    destruct (Ha j Hj) as (t' & [Ht' _] & Hpost). cbn in Ht'. simplify_eq.
    destruct j, a; cbn in Hpost; try done; try (by subst); try (by destruct Hpost as [_ ->]).
    destruct Hpost as [_ Hpost]. cbn in Hpost. case_match; [by subst | by destruct Hpost as [o ->]]. }
  assert (count is_reading g' + count is_writing g' = 0)%nat as Hzero.
  { destruct (decide (0 < count is_reading g')%nat) as [(i & t & Hi & Ht)%count_pos_inv |].
    { unfold is_reading in Ht. by rewrite (Hfree i t Hi) in Ht. }
    destruct (decide (0 < count is_writing g')%nat) as [(i & t & Hi & Ht)%count_pos_inv |]; [| lia].
    unfold is_writing in Ht. by rewrite (Hfree i t Hi) in Ht. }
  assert (forall i j, js !! i = Some j -> exists r t, ts !! i = Some (Ret r) /\ g' !! i = Some t /\ job_post i j r t) as Hdone.
  { intros i j Hj. destruct (lookup_lt_is_Some_2 ts i) as [p Hp]; [rewrite Hlen; by eapply lookup_lt_Some |].
    destruct (Hcases i p Hp) as [(a & -> & Ha) | [_ Hb]]; [| cbn in Hb; lia].
    destruct (Ha j Hj) as (t & [Ht _] & Hpost). by exists a, t. }
  exists g'. split_and!; [apply Hok | | exact Hdone].
  apply Nat.le_antisymm.
  - destruct (decide (length g' <= length js)%nat); [done |].
    destruct (lookup_lt_is_Some_2 g' (length js) ltac:(lia)) as [t Ht]. by rewrite Hout in Ht.
  - destruct (decide (length js = 0)%nat) as [-> | Hne]; [lia |].
    destruct (lookup_lt_is_Some_2 js (pred (length js)) ltac:(lia)) as [j Hj].
    destruct (Hdone _ _ Hj) as (_ & t & _ & Ht & _). apply lookup_lt_Some in Ht. lia.
Qed.
End pool.

Section theorems.
Context `{DepsLaws}.

Definition finished (ts : list (prg result)) : Prop := Forall (fun p => exists r, p = Ret r) ts.

Lemma jobs_finished (js : list job) (ts : list (prg result)) (P : nat -> job -> result -> Prop) :
  length ts = length js -> (forall i j, js !! i = Some j -> exists r, ts !! i = Some (Ret r) /\ P i j r) -> finished ts.
Proof.
  intros Hlen Hd. apply Forall_lookup. intros i p Hp.
  destruct (lookup_lt_is_Some_2 js i) as [j Hj]; [rewrite <- Hlen; by eapply lookup_lt_Some |].
  destruct (Hd i j Hj) as (r & Hr & _). exists r. congruence.
Qed.

Lemma rtc_jobs_length (rid : ReactorId) (w : World) (js : list job) w' ts :
  rtc cstep (w, job_prog rid <$> js) (w', ts) -> length ts = length js.
Proof. intros Hr. apply rtc_cstep_length in Hr. cbn in Hr. by rewrite length_fmap in Hr. Qed.

(** C1: No wakeup is lost.  Thread [me] polls source [key] for direction [d] in task [k],
    while any number of other threads deliver events, to this and to other sources, poll
    other sources or the other direction, and register, use and drop sources of their own;
    one action at a time, in any order.  Then nobody panics or waits for ever, and if the
    poll found nothing, task [k] has been woken since, or it is stored in the source and
    no event of the direction is there: the next one wakes it. *)
Theorem no_lost_wakeup rid me k key cx d w x m s js w' ts :
  reactors w !! rid = Some x -> strong x = S m -> io_dispatch x = mkARwLock 0 false s -> reactor_wf x ->
  js !! me = Some (JPoll key cx d) -> wakers w !! cx = Some k ->
  (forall i j, js !! i = Some j -> job_wf s (wakers w) j /\ watch_ok me k key d s (wakers w) i j) ->
  rtc cstep (w, job_prog rid <$> js) (w', ts) -> (forall c, ~ cstep (w', ts) c) ->
  length ts = length js /\ finished ts /\
  exists v, ts !! me = Some (Ret (RPoll (Ok v))) /\
    (v = None ->
       (exists new, woken w' = woken w ++ new /\ k ∈ new) \/
       (exists x' i, reactors w' !! rid = Some x' /\ slab_get key (slab_of x') = Some i /\
          aw_waker (aw_of d i) = Some k /\ bits d i = 0)).
Proof.
  intros E Em El Hwf Hme Hcx Hjs Hr Hst. pose proof (rtc_jobs_length _ _ _ _ _ Hr) as Hlen.
  destruct (pool_end rid me k key d s (wakers w) (woken w) m w x js w' ts E Em El Hwf eq_refl eq_refl Hjs Hr Hst)
    as (g' & (x' & new & E' & Ew & Ek & Hi) & Hg & Hdone). cbn [fst snd] in *.
  split_and!; [done | |].
  { apply (jobs_finished js ts (fun _ _ _ => True)); [done |]. intros i j Hj. destruct (Hdone i j Hj) as (r & t & Hr' & _). by exists r. }
  destruct (Hdone me _ Hme) as (r & t & Hts & Ht & Hpost). destruct r as [r | | |]; try done.
  destruct Hpost as [[v ->] ->]. exists v. split; [done |]. intros ->.
  assert (phase_of me g' = PWaiting) as Hph by (unfold phase_of; rewrite Ht; cbn; by rewrite pw_me).
  destruct (proj1 (Hjs me _ Hme)) as (_ & Hbase & _).
  pose proof (si_base _ _ _ (ri_slots _ _ _ _ _ _ _ _ _ Hi) key Hbase) as Hgd.
  destruct (slab_get key (slab_of x')) as [i |] eqn:Eslot; [| destruct Hbase as [y Hy]; by rewrite Hy in Hgd].
  destruct (ri_watch _ _ _ _ _ _ _ _ _ Hi i Eslot Hbase) as [W1 W2].
  assert (forall f : part -> bool, (forall i j r t, job_post me i j r t -> f t = false) -> count f g' = 0%nat) as Hnone.
  { intros f Hf. destruct (decide (0 < count f g')%nat) as [(i0 & t & Hi0 & Hft)%count_pos_inv |]; [| lia].
    destruct (lookup_lt_is_Some_2 js i0) as [j Hj]; [rewrite <- Hg; by eapply lookup_lt_Some |].
    destruct (Hdone i0 j Hj) as (r & t' & _ & Ht' & Hp). simplify_eq. by rewrite (Hf _ _ _ _ Hp) in Hft. }
  assert (forall i j r t, job_post me i j r t -> is_pend t = false /\ is_held t = false) as Hquiet.
  { intros i0 j r t Hp. destruct j, r; cbn in Hp; try done; try (by subst).
    - destruct Hp as [_ ->]. unfold is_pend, is_held. cbn. unfold pw. by case_decide.
    - destruct Hp as [_ Hp]. cbn in Hp. case_match; [by subst | by destruct Hp as [o ->]]. }
  unfold signalled in *. rewrite !Hnone in * by (intros; by eapply Hquiet).
  destruct (W2 (or_intror Hph)) as [Ha | [? | Hk]]; [| lia | left; by exists new].
  destruct (W1 Hph) as [Hb | [? | [? | Hk]]]; [| lia | lia | left; by exists new].
  right. by exists x', i.
Qed.

(** *** Without a watched poll *)
Lemma nothing_watched (s : slab ScheduledIo) (wks : gmap Z waker) (js : list job) :
  (forall i j, js !! i = Some j -> job_wf s wks j) ->
  forall i j, js !! i = Some j -> job_wf s wks j /\ watch_ok (length js) 0%nat (-1) Read s wks i j.
Proof.
  intros Hjs i j Hj. split; [by eapply Hjs |]. assert (i <> length js) as Hne by (apply lookup_lt_Some in Hj; lia).
  destruct j; try done. split; [| done]. right. split; [done |]. intros [y Hy].
  pose proof (slab_get_range _ _ _ Hy). lia.
Qed.

(** The slots that threads have kept. *)
Definition kept (g : list part) : list Z := omap t_slot g.

Lemma length_kept (g : list part) (ts : list (prg result)) (f : prg result -> bool) :
  (forall i t, g !! i = Some t -> t_slot t <> None -> exists p, ts !! i = Some p /\ f p = true) ->
  (length (kept g) <= count f ts)%nat.
Proof.
  revert ts. induction g as [| t g IH]; intros ts Hf; cbn; [lia |].
  assert (forall ts', ts' = tail ts -> length (kept g) <= count f ts')%nat as IH'.
  { intros ts' ->. apply IH. intros i u Hi Hu. destruct (Hf (S i) u Hi Hu) as (p & Hp & Hfp).
    exists p. split; [| done]. by destruct ts. }
  destruct (t_slot t) eqn:Et; cbn.
  - destruct (Hf 0%nat t eq_refl ltac:(by rewrite Et)) as (p & Hp & Hfp). destruct ts as [| q ts]; [done |].
    cbn in Hp. simplify_eq. cbn. rewrite Hfp. specialize (IH' ts eq_refl). cbn. unfold kept in IH'. lia.
  - destruct ts as [| q ts]; cbn; [by apply (IH' []) |]. specialize (IH' ts eq_refl). unfold kept in IH'. lia.
Qed.

(** A source that the operating system or a full reactor refused. *)
Definition refused (p : prg result) : bool :=
  match p with Ret (RLife (Err _) _) => true | _ => false end.

(** C3: The reactor stays well-formed under any concurrent use: at every moment no thread has
    panicked or used memory that is gone, at most one thread writes and none reads
    then, the number of slots is bounded, guards and readinesses are well-formed words, and
    the sources that were there keep their slots. *)
Theorem reactor_stays_wf rid w x m s js w' ts :
  reactors w !! rid = Some x -> strong x = S m -> io_dispatch x = mkARwLock 0 false s -> reactor_wf x ->
  (forall i j, js !! i = Some j -> job_wf s (wakers w) j) ->
  rtc cstep (w, job_prog rid <$> js) (w', ts) ->
  (forall i e, ts !! i <> Some (Fault e)) /\
  exists x', reactors w' !! rid = Some x' /\ reactor_wf x' /\ (0 < strong x')%nat /\
    (a_writer (io_dispatch x') = true -> a_readers (io_dispatch x') = 0%nat) /\
    forall key, is_Some (slab_get key s) -> aba_guard <$> slab_get key (slab_of x') = aba_guard <$> slab_get key s.
Proof.
  intros E Em El Hwf Hjs Hr.
  pose proof (pool_jobs rid (length js) 0%nat (-1) Read s (wakers w) (woken w) m w x js E Em El Hwf eq_refl eq_refl
    (nothing_watched s (wakers w) js Hjs)) as Hok.
  destruct (pool_ok_steps _ _ _ _ _ _ _ Hr Hok) as [g' Hok']. cbn [fst snd] in Hok'.
  destruct (pool_ok_adequate _ _ _ _ _ _ Hok') as ((x' & new & E' & _ & _ & Hi) & Hnf & _). cbn in E'.
  split; [done |]. exists x'. destruct Hi as [[_ _ Hx] Hs Hg [Hio Hh] [Hb _ _ _] _].
  split_and!; [done | by constructor | lia | done | done].
Qed.

(** C2: Sources have slots of their own and give them back.  When all threads are done, every
    job has been carried out: the polls of each registered source succeeded, those of a
    refused one failed.  The lock is free, the only reference is the owner's, and besides the
    sources that were there only slots of refused registrations are taken, at most one
    each. *)
Theorem slots_given_back rid w x m s js w' ts :
  reactors w !! rid = Some x -> strong x = S m -> io_dispatch x = mkARwLock 0 false s -> reactor_wf x ->
  (forall i j, js !! i = Some j -> job_wf s (wakers w) j) ->
  rtc cstep (w, job_prog rid <$> js) (w', ts) -> (forall c, ~ cstep (w', ts) c) ->
  finished ts /\
  (forall i source calls, js !! i = Some (JLife source calls) ->
     exists r polls, ts !! i = Some (Ret (RLife r polls)) /\ polls_ok (is_ok r) polls) /\
  exists x' s' leaked, reactors w' !! rid = Some x' /\ strong x' = S m /\ io_dispatch x' = mkARwLock 0 false s' /\
    (forall key, is_Some (slab_get key s') <-> is_Some (slab_get key s) \/ key ∈ leaked) /\
    (length leaked <= count refused ts)%nat.
Proof.
  intros E Em El Hwf Hjs Hr Hst. pose proof (rtc_jobs_length _ _ _ _ _ Hr) as Hlen.
  destruct (pool_end rid (length js) 0%nat (-1) Read s (wakers w) (woken w) m w x js w' ts E Em El Hwf eq_refl eq_refl
    (nothing_watched s (wakers w) js Hjs) Hr Hst) as (g' & (x' & new & E' & _ & _ & Hi) & Hg & Hdone). cbn [fst snd] in *.
  split_and!.
  { apply (jobs_finished js ts (fun _ _ _ => True)); [done |]. intros i j Hj. destruct (Hdone i j Hj) as (r & t & Hr' & _). by exists r. }
  { intros i source calls Hj. destruct (Hdone i _ Hj) as (r & t & Hts & _ & Hp). destruct r as [| | | r rs]; try done.
    exists r, rs. by destruct Hp. }
  assert (forall i j r t, i <> length js -> job_post (length js) i j r t -> is_reading t = false /\ is_writing t = false /\ t_arc t = false /\
    (t_slot t <> None -> refused (Ret r) = true)) as Hpost.
  { intros i j r t Hne Hp. destruct j, r; cbn in Hp; try done; try (by subst).
    - destruct Hp as [_ ->]. by rewrite pw_other.
    - destruct Hp as [_ Hp]. cbn in Hp. destruct r; cbn in Hp; [by subst | by destruct Hp as [o ->]]. }
  assert (forall f : part -> bool, (forall i j r t, i <> length js -> job_post (length js) i j r t -> f t = false) -> count f g' = 0%nat) as Hnone.
  { intros f Hf. destruct (decide (0 < count f g')%nat) as [(i0 & t & Hi0 & Hft)%count_pos_inv |]; [| lia].
    apply lookup_lt_Some in Hi0 as Hlt. destruct (lookup_lt_is_Some_2 js i0 ltac:(lia)) as [j Hj].
    destruct (Hdone i0 j Hj) as (r & t' & _ & Ht' & Hp). simplify_eq. rewrite (Hf i0 j r t ltac:(lia) Hp) in Hft. done. }
  exists x', (slab_of x'), (kept g'). destruct Hi as [[Lr Lw _] Hs _ _ [Hb Hown _ Hall] _].
  rewrite Hnone in Hs, Lr, Lw by (intros; by eapply Hpost). split_and!.
  - done.
  - lia.
  - unfold slab_of in *. destruct (io_dispatch x') as [n b sl]. cbn in *. by destruct b; subst.
  - intros key. split.
    + intros [? | (i & t & Ht & Es)]%Hall; [by left | right]. apply list_elem_of_omap. exists t. split; [| done].
      by eapply list_elem_of_lookup_2.
    + intros [Hk | (t & (i & Ht)%list_elem_of_lookup_1 & Es)%list_elem_of_omap]; [| by eapply Hown].
      apply (fmap_is_Some aba_guard). rewrite Hb by done. by apply fmap_is_Some.
  - apply length_kept. intros i t Ht Hs'. apply lookup_lt_Some in Ht as Hlt.
    destruct (lookup_lt_is_Some_2 js i ltac:(lia)) as [j Hj]. destruct (Hdone i j Hj) as (r & t' & Hts & Ht' & Hp).
    simplify_eq. exists (Ret r). split; [done |]. apply (Hpost i j r t ltac:(lia) Hp). done.
Qed.
End theorems.

(** ** A run: while another source is in use, an event arrives when the poll has looked twice
    and found nothing *)
Section witness.
Import Toy Demo.

Definition demo_jobs : list job :=
  [JPoll 0 500 Read; JEvents [(0, Ready_readable)]; JLife 9 [CPoll (Some 600) Read]].
Definition demo_schedule : list nat :=
  replicate 12 2%nat ++ replicate 7 0%nat ++ replicate 6 1%nat ++ [0; 0]%nat ++ replicate 15 2%nat.

Lemma demo_wf : reactor_wf (reactor_of world1).
Proof.
  constructor.
  - by vm_compute.
  - assert (next_aba_guard (reactor_of world1) = nth_guard 0 1) as -> by reflexivity. apply nth_guard_wf, guard_wf_0.
  - intros key i Hi. pose proof (slab_get_range _ _ _ Hi) as Hr. change (slab_high (slab_of (reactor_of world1))) with 1 in Hr.
    assert (key = 0) as -> by lia. change (Some (io_at 0 world1) = Some i) in Hi. injection Hi as <-.
    split; [apply guard_wf_0 | apply is_usize_0].
Qed.

Lemma demo_jobs_wf i j : demo_jobs !! i = Some j -> job_wf (slab_at world1) (wakers world1) j.
Proof.
  intros Hj. destruct i as [| [| [| i]]]; cbn in Hj; simplify_eq.
  - split_and!; [done | by eexists | by eexists].
  - constructor; [split; [done | by apply is_usize_small] | constructor].
  - constructor; [by eexists | constructor].
Qed.

Lemma demo_watch_ok i j :
  demo_jobs !! i = Some j -> watch_ok 0 51%nat 0 Read (slab_at world1) (wakers world1) i j.
Proof. intros Hj. destruct i as [| [| [| i]]]; cbn in Hj; simplify_eq; [split; [by left | done] | done | done]. Qed.

(** What the threads return, and the store, at the end of the schedule. *)
Definition demo_results : list (prg result) := [Ret (RPoll (Ok None)); Ret RUnit; Ret (RLife (Ok tt) [Ok None])].

Lemma demo_finished w' c : ~ cstep (w', demo_results) c.
Proof. apply finished_stuck. repeat constructor; by eexists. Qed.

Lemma no_lost_wakeup_witness :
  exists w', exec demo_schedule (world1, job_prog 0%nat <$> demo_jobs) = Some (w', demo_results) /\
    woken w' = [51%nat] /\
    exists v, demo_results !! 0%nat = Some (Ret (RPoll (Ok v))) /\
    (v = None ->
       (exists new, woken w' = woken world1 ++ new /\ 51%nat ∈ new) \/
       (exists x' i, reactors w' !! 0%nat = Some x' /\ slab_get 0 (slab_of x') = Some i /\
          aw_waker (aw_of Read i) = Some 51%nat /\ bits Read i = 0)).
Proof.
  destruct (exec demo_schedule (world1, job_prog 0%nat <$> demo_jobs)) as [[w' ts] |] eqn:E;
    [| vm_compute in E; discriminate].
  assert (ts = demo_results /\ woken w' = [51%nat]) as [-> Ew].
  { vm_compute in E. injection E as <- <-. done. }
  exists w'. split; [reflexivity |]. split; [exact Ew |].
  exact (proj2 (proj2 (no_lost_wakeup 0%nat 0 51%nat 0 500 Read world1 (reactor_of world1) 0 (slab_at world1)
    demo_jobs w' demo_results eq_refl eq_refl eq_refl demo_wf eq_refl eq_refl
    (fun i j Hj => conj (demo_jobs_wf i j Hj) (demo_watch_ok i j Hj)) (exec_sound _ _ _ E) (demo_finished w')))).
Defined.

(** In the middle of the run. *)
Lemma reactor_stays_wf_witness :
  exists w' ts x', exec (firstn 20 demo_schedule) (world1, job_prog 0%nat <$> demo_jobs) = Some (w', ts) /\
    reactors w' !! 0%nat = Some x' /\ reactor_wf x'.
Proof.
  assert (match exec (firstn 20 demo_schedule) (world1, job_prog 0%nat <$> demo_jobs) with
          | Some _ => true | None => false end = true) as Hex by (vm_compute; reflexivity).
  destruct (exec (firstn 20 demo_schedule) (world1, job_prog 0%nat <$> demo_jobs)) as [[w' ts] |] eqn:E; [| discriminate Hex].
  destruct (reactor_stays_wf 0%nat world1 (reactor_of world1) 0 (slab_at world1) demo_jobs w' ts
    eq_refl eq_refl eq_refl demo_wf demo_jobs_wf (exec_sound _ _ _ E)) as (_ & x' & Hx & Hwf & _).
  exists w', ts, x'. split; [reflexivity |]. split; [exact Hx | exact Hwf].
Defined.

(** At its end the slot of the third thread is free again. *)
Lemma slots_given_back_witness :
  exists w' x', exec demo_schedule (world1, job_prog 0%nat <$> demo_jobs) = Some (w', demo_results) /\
    reactors w' !! 0%nat = Some x' /\ strong x' = 1%nat /\ slab_get 1 (slab_of x') = None.
Proof.
  destruct (exec demo_schedule (world1, job_prog 0%nat <$> demo_jobs)) as [[w' ts] |] eqn:E;
    [| vm_compute in E; discriminate].
  assert (ts = demo_results) as -> by (vm_compute in E; injection E as <- <-; done).
  destruct (slots_given_back 0%nat world1 (reactor_of world1) 0 (slab_at world1) demo_jobs w' demo_results
    eq_refl eq_refl eq_refl demo_wf demo_jobs_wf (exec_sound _ _ _ E) (demo_finished w'))
    as (_ & _ & x' & s' & leaked & Hx & Hs & Hl & Hk & Hn).
  exists w', x'. split; [reflexivity |]. split; [exact Hx |]. split; [exact Hs |].
  destruct leaked as [| a l]; [| exfalso; clear -Hn; cbn in Hn; lia].
  unfold slab_of. rewrite Hl. cbn [a_value]. destruct (slab_get 1 s') as [i |] eqn:Ei; [| reflexivity].
  clear - Hk Ei. destruct (proj1 (Hk 1) (ex_intro _ i Ei)) as [[y Hy] | Hin];
    [vm_compute in Hy; discriminate | by apply elem_of_nil in Hin].
Defined.
End witness.
End Wakeups.
